(* ===== verification/_CoqProject ===== *)
-Q . S2P
Prelude.v
Sql.v
GoStd.v
Crypto.v
Regexp.v
Float64.v
Domain.v
World.v
RedisStore.v
PgStore.v
ClaimFacts.v
Brownie.v
Scheduler.v
SchedulerFacts.v
Security.v
Http.v
Middleware.v
MiddlewareFacts.v
TaskHandler.v
WorkerHandler.v
KeyHandler.v
OutputHandler.v
AdminHandlers.v
Fork.v
Snapshots.v
Router.v
System.v
WorkerLife.v
Hub.v
Fixtures.v
Witnesses.v
GoPath.v
RegexpSyntax.v
CpConfig.v
ServerMain.v
ServerLife.v
Migrate.v
WConfig.v
Policy.v
Daemon.v
DaemonFacts.v
WScanner.v
WScannerFacts.v
Logs.v
Patterns.v
GoJson.v
JsonParse.v
JsonDecode.v
GoTab.v
Projector.v
WProg.v
WClient.v
WClientFacts.v
Sse.v
Ruleset.v
Reporter.v
Workspace.v
Monitor.v
Adapters.v
Platform.v
Service.v
Preflight.v
Executor.v
ExecutorFacts.v
Control.v
ControlServer.v
Messages.v
Jsonb.v
Rows.v
Wire.v
DaemonControl.v
Cli.v
Commands.v
Grid.v
WWitnesses.v
WireWitnesses.v
LifeWitnesses.v
