(* ===== verification/Prelude.v ===== *)
(** * Grid token utilisation: verification development (root file)

    The program has two parts.  The control plane (src/control-plane, package main in
    cmd/server) keeps org units, workers, tasks, API keys, outputs, an audit log and a point
    ledger in PostgreSQL, heartbeats, rate counters and a task queue in Redis, serves an HTTP
    API, and runs a scheduler and a reaper.  A worker (src/grid-worker) polls it with
    heartbeats, and executes an assigned task with an AI agent in a workspace of its own:
    clone, scan for secrets, run the agent, scan its output, pack, sign and submit.

    ** Foundations

    - Prelude.v: results with Go's error kinds, state passing, wrapped 64-bit integers,
      list lemmas.  GoStd.v: package strings, strconv, encoding/hex and base64.
      Crypto.v: SHA-256 and HMAC, computed.  Regexp.v: package regexp on decoded runes, with
      a declarative semantics and a soundness and completeness proof.  Float64.v: float64
      arithmetic on integers.  GoPath.v: path/filepath (Clean, Join, Base, Abs, Match).
      RegexpSyntax.v: the text of a pattern parsed to the regular expression it denotes.
      GoJson.v, JsonParse.v, JsonDecode.v: encoding/json, its encoder, its scanner and
      parser, and the rules by which it decodes into structs.  Sql.v: WHERE, ORDER BY, LIMIT.

    ** Control plane (src/control-plane/internal)

    - Domain.v: domain/types.go.  World.v: the state of the control plane: the tables, Redis
      behind a class with laws, the clock, the supply of random ids, the jobs of detached
      goroutines, and the fault schedule: each I/O operation takes one entry of it, which
      says whether the operation is delivered, is refused, or takes effect and its reply is
      lost (a COMMIT or an UPDATE that the caller sees as an error), so a theorem for all
      worlds is one for all combinations of failures.
    - RedisStore.v: store/redis and queue/redis_queue.go.  PgStore.v: every statement of
      store/postgres, with the constraints of the migrations, on tables of records.  Jsonb.v
      and Rows.v: the columns that its INSERT statements send and its scan functions read,
      over a driver with laws (documents may return with their members in another order).
      ClaimFacts.v: what ClaimNextTask claims.  Brownie.v: brownie/engine.go.
    - Scheduler.v and SchedulerFacts.v: scheduler/ (a pass of the scheduler and of the
      reaper; matcher and window).  Security.v: security/ (API keys, HMAC, secret scan).
    - Http.v, Middleware.v, MiddlewareFacts.v: api/middleware.  TaskHandler.v,
      WorkerHandler.v, KeyHandler.v, OutputHandler.v, AdminHandlers.v: api/handlers, each
      handler whole.  Router.v: api/router.go, the routes with their scopes.
    - Fork.v: goroutines that fill the fields of one value, under every schedule, with
      queries that may hang until their context is over.  Snapshots.v: the two dashboard
      snapshots built that way (handlers/dashboard.go and dashboard/snapshot.go, which has a
      deadline).  Projector.v: dashboard/projector.go over Redis Streams.
      Sse.v: the event stream that ServeSSE writes, with a reference reader.
    - System.v: the control plane as a transition system: a step is an HTTP request from
      anyone, a pass of the scheduler or the reaper, a background job, a tick of the clock,
      or a loss in Redis.  WorkerLife.v: what those steps do to the rows of the workers.  Hub.v: dashboard/hub.go, with its goroutines interleaved.
      CpConfig.v: config/config.go.  ServerMain.v and ServerLife.v: cmd/server/main.go, the
      life of the process with its deferred calls, loops, requests and the connections of
      the pool that are out, for which pg.Close waits.  Migrate.v:
      cmd/migrate/main.go.

    ** Worker (src/grid-worker/internal)

    - WConfig.v: config/.  Policy.v: policy/ (engine and approval store).  Daemon.v and
      DaemonFacts.v: daemon/, a step relation over the state that the main loop, the task
      goroutine, the control commands, the heartbeat callback and the signals share.
    - WScanner.v and WScannerFacts.v: scanner/.  WProg.v: programs over calls to the outside
      world (HTTP, files, processes, waits) answered by an oracle that sees the history.
      WClient.v and WClientFacts.v: controlplane/ (client, heartbeat loop).  Reporter.v:
      reporter/.  Workspace.v: workspace/.  Monitor.v: executor/monitor.go.  Adapters.v:
      adapters/.  Executor.v and ExecutorFacts.v: executor/executor.go.  Control.v and
      ControlServer.v: control/server.go and socket_unix.go.  DaemonControl.v: the handlers of
      daemon/handlers.go and the commands of cli/ that call them over the socket.  Patterns.v: the
      pattern texts of both scanners.  Ruleset.v: scanner/ruleset.go.  Preflight.v:
      preflight/checks.go.  Logs.v: cli/logs.go.  Platform.v: pkg/platform (Unix) and the loading of the configuration.
      Service.v: service/install.go.  GoTab.v: text/tabwriter.  Cli.v: the other commands of
      cli/, how one starts, daemon.New and daemon/signals.go.
      Commands.v: the tree of commands that root.go builds, and config.Watch.

    ** Both

    - Messages.v: the decoders of every JSON message of the two programs.  Wire.v: what one
      program prints, the other decodes.  Grid.v: the worker's programs run against the
      scheduler and the router of the control plane.
    - Fixtures.v, Witnesses.v, WWitnesses.v, WireWitnesses.v, LifeWitnesses.v: concrete inputs
      at which the theorems apply.

    ** What the theorems show

    - Whole control plane (System.v): no request changes another org unit's tasks, workers or keys;
      every change of a task's state is one that the code intends, made by its assigned
      worker, the scheduler or the reaper; scopes gate the routes; keys and references stay
      consistent; audit log and ledger only grow.
    - The life of a worker (WorkerLife.v): a row of the worker table moves by dispatches,
      reports, registrations and abandonments only; and a worker that is not idle gets no
      task before its host registers again.
    - Storage (Rows.v): the rows that are written are read back as the records they were,
      with times cut to microseconds; one NULL in a column scanned as text fails a query.
    - Scheduling (ClaimFacts.v, SchedulerFacts.v): what one pass assigns or requeues, which
      task is claimed, that passes do not stop early, how the queue orders; and that what a
      pass logs falls short of what it did by exactly the commits whose replies were lost.
    - Security (Security.v, MiddlewareFacts.v): the scanner's findings are exactly the
      matches of a scan from left to right, each the redaction of a substring of the text; what authentication accepts; generated keys verify; what the rate
      limiter counts.
    - Concurrency (Hub.v, Snapshots.v, Projector.v, DaemonFacts.v): the invariant of the hub
      and the run that panics it; a snapshot is the same under every schedule, and the one
      of dashboard/snapshot.go is finished 2.5 seconds after the call at the latest; the projector hands each message on at most once, in order; one task at a
      time in the daemon, manual mode, the shutdown race.
    - The server process (ServerLife.v): loops and requests find their stores open, every exit
      closes what was opened, and from every state the process can go on to its select or its end
      without help from outside, but for the wait of pg.Close for connections that requests
      or their goroutines still hold.
    - A task on the worker (ExecutorFacts.v and the files it uses): the reports it makes and
      in which order, what stops it, what it reads and writes, what the agent is given, how
      heartbeats back off, the framing of the control socket; which calls an adapter makes,
      to the path of the program it executes (Adapters.v); what each of the checks before it
      has seen (Preflight.v), what the commands of the user do to the daemon (DaemonControl.v)
      and show (Cli.v, Logs.v).
    - Both together (Grid.v): a queued task on its way through the scheduler, a heartbeat and
      the worker: when its execution succeeds the control plane has the task completed and one
      output of it, otherwise the task is failed and there is none.  The theorem has the
      conditions of such a round as hypotheses, and its comment lists them.  Whether a text is
      a URL that net/url accepts is nowhere assumed of all texts: a request to one that is
      refused is not sent, which the theorems of ExecutorFacts.v include.
    - Texts (Wire.v, Sse.v, Patterns.v, Ruleset.v, Logs.v, Migrate.v): messages mean the same
      to both programs; a dashboard client reads the events that were sent; the scanners'
      expressions are those of the pattern texts; which ruleset is in force; which lines of a
      log are shown; that interrupted migrations resume.
    - Some theorems state a defect as it is: a scanned diff with the marker of a missing last
      line feed gets its later line numbers wrong (WScannerFacts.v), a worker gets one task and then stays busy for
      ever, the rate limiter's window never ends under load,
      an agent's failure is reported completed, a submission is never retried, revoking a task
      does nothing, a task may be dispatched to a worker of another org unit.

    ** Conventions

    Time is in nanoseconds since 1970 and constant within a control-plane operation.  A
    request is atomic in System.v; the goroutines it starts are later steps.  A Go int is a Z
    wrapped by [i64] where the code can overflow.  Recursion that is not structural has fuel:
    the queue length for the scheduler's loop (each turn takes one task), the length of the
    input for the path matcher, the regular expressions and the control connection (each
    turn consumes input: [handleConn_terminates] in Control.v).  Log entries are left out, except fatal ones, which end the process.

    ** Parameters

    Code outside the repository is a parameter with laws, and has a concrete instance in the
    witnesses: go-chi's path matching, argon2, the text of UUIDs, Redis, the time-zone
    database, time.Parse, viper, YAML, regexp.Compile beyond the syntax of RegexpSyntax.v, %q,
    url.Parse, text/template, the printing and parsing of floats, the texts of the errors of
    encoding/json, %v of a float, zerolog's levels, pgx (columns and scans), cobra, Redis Streams, and the five store methods
    that dashboard/snapshot.go calls and package postgres does not have.  The handlers take
    their JSON decoders as parameters; Messages.v defines them.  go-git, net/http, gopsutil,
    os/exec, kardianos/service and the system calls are calls of WProg.v.

    ** Not modelled

    The bytes of TLS; the dashboard's user interface; the middleware of go-chi (request ids,
    RealIP, recovery, timeouts) and request logging, which are third-party code or only log;
    the Windows builds.  PgStore.v keeps times in nanoseconds: what the columns cut off is in
    Rows.v.  That PostgreSQL refuses texts with a zero byte or invalid UTF-8 is a failure of
    the statement, which the fault schedule allows at any time. *)
From stdpp Require Export base tactics option list strings gmap sorting.
From Stdlib Require Export ZArith Lia.

#[global] Open Scope Z_scope.

(** ** Notations of the development *)

Declare Scope grid_scope.
Delimit Scope grid_scope with grid.

(** ** Go results

    A Go function that returns [(T, error)] is a function into [result T].  The
    program only ever tests an error against [nil], against [pgx.ErrNoRows] and
    against its own error types, so an error value keeps its kind. *)

Inductive error :=
  | ErrNoRows                      (* pgx.ErrNoRows *)
  | ErrNotFound                    (* the store's "not found" errors *)
  | ErrConstraint (name : string)  (* a constraint of the schema refused the statement *)
  | ErrUnavailable                 (* the service or the network failed *)
  | ErrMsg (msg : string).         (* any other error, with its message *)

#[export] Instance error_eq_dec : EqDecision error.
Proof. solve_decision. Defined.

Inductive result (A : Type) :=
  | Ok (a : A)
  | Err (e : error).
Arguments Ok {_} _.
Arguments Err {_} _.

Definition is_ok {A} (r : result A) : bool :=
  match r with Ok _ => true | Err _ => false end.

#[export] Instance result_ret : MRet result := λ _ a, Ok a.
#[export] Instance result_bind : MBind result := λ _ _ f r,
  match r with Ok a => f a | Err e => Err e end.
#[export] Instance result_fmap : FMap result := λ _ _ f r,
  match r with Ok a => Ok (f a) | Err e => Err e end.

(** ** State passing

    [M W A] is a computation that reads and writes the state [W]. *)

Definition M (W A : Type) : Type := W → A * W.

#[export] Instance M_ret W : MRet (M W) := λ _ a w, (a, w).
#[export] Instance M_bind W : MBind (M W) := λ _ _ f m w,
  let '(a, w') := m w in f a w'.

Definition get {W} : M W W := λ w, (w, w).
Definition put {W} (w : W) : M W unit := λ _, (tt, w).

(** ** Machine integers *)

(** Go's [int] and [int64] on the supported 64-bit platforms: the two's
    complement value of [z] on 64 bits. *)
Definition i64 (z : Z) : Z := (z + 2 ^ 63) mod 2 ^ 64 - 2 ^ 63.

Definition in_i64 (z : Z) : Prop := - 2 ^ 63 ≤ z < 2 ^ 63.

(** PostgreSQL's INT (int4). *)
Definition int4_ok (z : Z) : bool := (- 2 ^ 31 <=? z) && (z <? 2 ^ 31).

(** ** Tactics *)

(** Split every conjunction and disjunctive boolean hypothesis, then close with
    linear arithmetic. *)
Ltac boolify :=
  repeat match goal with
  | H : _ && _ = true |- _ => apply andb_true_iff in H; destruct H
  | H : _ || _ = false |- _ => apply orb_false_iff in H; destruct H
  | H : negb _ = true |- _ => apply negb_true_iff in H
  | H : negb _ = false |- _ => apply negb_false_iff in H
  | H : bool_decide _ = true |- _ => apply bool_decide_eq_true in H
  | H : bool_decide _ = false |- _ => apply bool_decide_eq_false in H
  | H : (_ <? _) = true |- _ => apply Z.ltb_lt in H
  | H : (_ <? _) = false |- _ => apply Z.ltb_ge in H
  | H : (_ <=? _) = true |- _ => apply Z.leb_le in H
  | H : (_ <=? _) = false |- _ => apply Z.leb_gt in H
  | H : (_ =? _) = true |- _ => apply Z.eqb_eq in H
  | H : (_ =? _) = false |- _ => apply Z.eqb_neq in H
  end.

(** Destruct the scrutinees of the goal's matches one after the other. *)
Ltac step_match :=
  match goal with
  | |- context [match ?x with _ => _ end] =>
      lazymatch x with context [match _ with _ => _ end] => fail | _ => destruct x eqn:? end
  end.

Ltac step_match_in H :=
  match type of H with
  | context [match ?x with _ => _ end] =>
      lazymatch x with context [match _ with _ => _ end] => fail | _ => destruct x eqn:? end
  end.

Create HintDb grid discriminated.

(** ** Generic lemmas *)

Lemma i64_id z : in_i64 z → i64 z = z.
Proof. unfold in_i64, i64. intros H. rewrite Z.mod_small; lia. Qed.

Lemma i64_range z : in_i64 (i64 z).
Proof. unfold in_i64, i64. pose proof (Z.mod_pos_bound (z + 2 ^ 63) (2 ^ 64)). lia. Qed.

Lemma int4_ok_spec z : int4_ok z = true ↔ - 2 ^ 31 ≤ z < 2 ^ 31.
Proof. unfold int4_ok. rewrite andb_true_iff, Z.leb_le, Z.ltb_lt. lia. Qed.

Section lists.
Context {A : Type}.
Implicit Types (l : list A) (p q : A → bool).

(** The boolean filter of the Standard Library, which the SQL layer uses. *)
Lemma filter_map_comm p (f : A → A) l :
  (∀ x, p (f x) = p x) → List.filter p (List.map f l) = List.map f (List.filter p l).
Proof.
  intros Hp. induction l as [|x l IH]; simpl; [done|].
  rewrite Hp, IH. by destruct (p x).
Qed.

Lemma filter_ext_in p q l :
  (∀ x, x ∈ l → p x = q x) → List.filter p l = List.filter q l.
Proof.
  intros H. apply List.filter_ext_in. intros a Ha. apply H. by apply list_elem_of_In.
Qed.

Lemma filter_none p l : (∀ x, x ∈ l → p x = false) → List.filter p l = [].
Proof.
  induction l as [|x l IH]; intros H; simpl; [done|].
  rewrite (H x) by (left); apply IH. intros; apply H; by right.
Qed.

Lemma elem_of_bfilter p l x : x ∈ List.filter p l ↔ x ∈ l ∧ p x = true.
Proof. rewrite !list_elem_of_In. apply filter_In. Qed.

Lemma elem_of_bmap {B} (f : A → B) l y : y ∈ List.map f l ↔ ∃ x, y = f x ∧ x ∈ l.
Proof.
  rewrite list_elem_of_In, in_map_iff. split; intros (x & ? & ?); exists x;
    rewrite list_elem_of_In in *; done || (split; done).
Qed.

Lemma map_if_column {B} (g : A → B) p (f : A → A) l :
  (∀ x, g (f x) = g x) → List.map g (List.map (λ x, if p x then f x else x) l) = List.map g l.
Proof. intros H. rewrite map_map. apply map_ext. intros x. destruct (p x); auto. Qed.

Lemma NoDup_map_inj {B} (f : A → B) l x y :
  NoDup (List.map f l) → x ∈ l → y ∈ l → f x = f y → x = y.
Proof.
  induction l as [|z l IH]; simpl; [by intros _ ?%elem_of_nil|].
  intros [Hz Hl]%NoDup_cons [->|Hx]%elem_of_cons [->|Hy]%elem_of_cons E; [done| | |auto].
  - destruct Hz. rewrite E. apply elem_of_bmap. eauto.
  - destruct Hz. rewrite <-E. apply elem_of_bmap. eauto.
Qed.

Lemma bfilter_app p l1 l2 : List.filter p (l1 ++ l2) = List.filter p l1 ++ List.filter p l2.
Proof. apply List.filter_app. Qed.

End lists.
