(* ===== verification/Sql.v ===== *)
(** * The SQL statements of the stores

    The persistence layer is written as SQL text inside the Go sources; this file
    gives the meaning of the statement shapes it uses.  A table is the list of
    its rows in storage order.  [SELECT] keeps the rows of a predicate, orders
    them by a comparison and cuts them by LIMIT and OFFSET; rows that the ORDER BY
    leaves tied come in storage order, a choice the SQL standard leaves open and
    on which no theorem of the development depends.  [UPDATE] rewrites the rows of
    a predicate in place and returns how many there were. *)
From S2P Require Import Prelude.

Section sql.
Context {Row : Type}.
Implicit Types (p q : Row → bool) (f : Row → Row) (le : Row → Row → bool) (t : list Row).

Definition sql_where p t : list Row := List.filter p t.

Definition sql_update p f t : list Row * Z :=
  (List.map (λ r, if p r then f r else r) t, Z.of_nat (length (List.filter p t))).

Fixpoint sql_insert_ordered le (r : Row) t : list Row :=
  match t with
  | [] => [r]
  | r' :: t' => if le r r' then r :: t else r' :: sql_insert_ordered le r t'
  end.

(** ORDER BY: a stable insertion sort. *)
Definition sql_order_by le t : list Row := foldr (sql_insert_ordered le) [] t.

(** LIMIT and OFFSET; PostgreSQL refuses negative values. *)
Definition sql_page (limit offset : Z) t : result (list Row) :=
  if (limit <? 0) || (offset <? 0) then Err (ErrConstraint "LIMIT")
  else Ok (take (Z.to_nat limit) (drop (Z.to_nat offset) t)).

(** [SELECT ... WHERE p ORDER BY le LIMIT 1] *)
Definition sql_first le p t : option Row := head (sql_order_by le (sql_where p t)).

(** [SELECT ... WHERE p LIMIT 1] without ORDER BY *)
Definition sql_any p t : option Row := head (sql_where p t).

(** ** Facts *)

Lemma sql_insert_permutation le r t : sql_insert_ordered le r t ≡ₚ r :: t.
Proof.
  induction t as [|r' t IH]; simpl; [done|].
  destruct (le r r'); [done|]. rewrite IH. apply Permutation_swap.
Qed.

Lemma sql_order_by_permutation le t : sql_order_by le t ≡ₚ t.
Proof.
  induction t as [|r t IH]; simpl; [done|]. rewrite sql_insert_permutation. by rewrite IH.
Qed.

Lemma elem_of_sql_order_by le t r : r ∈ sql_order_by le t ↔ r ∈ t.
Proof. by rewrite sql_order_by_permutation. Qed.

Lemma elem_of_sql_where p t r : r ∈ sql_where p t ↔ r ∈ t ∧ p r = true.
Proof. apply elem_of_bfilter. Qed.

Section order.
Context (le : Row → Row → bool).
Hypothesis le_total : ∀ x y, le x y = true ∨ le y x = true.
Hypothesis le_trans : ∀ x y z, le x y = true → le y z = true → le x z = true.

Lemma sql_insert_sorted r t :
  StronglySorted (λ x y, le x y = true) t →
  StronglySorted (λ x y, le x y = true) (sql_insert_ordered le r t).
Proof.
  induction 1 as [|r' t Ht IH Hall]; simpl.
  { repeat constructor. }
  destruct (le r r') eqn:Hle.
  - constructor; [by constructor|]. constructor; [done|].
    eapply Forall_impl; [exact Hall|]. intros y. by apply le_trans.
  - constructor; [done|]. rewrite sql_insert_permutation. constructor; [|done].
    destruct (le_total r r'); congruence.
Qed.

Lemma sql_order_by_sorted t : StronglySorted (λ x y, le x y = true) (sql_order_by le t).
Proof. induction t; simpl; [constructor|]. by apply sql_insert_sorted. Qed.

(** The first row of an ordered selection is a row of the table that satisfies the
    predicate and precedes every other such row. *)
Lemma sql_first_Some p t r :
  sql_first le p t = Some r →
  r ∈ t ∧ p r = true ∧ ∀ r', r' ∈ t → p r' = true → le r r' = true.
Proof.
  unfold sql_first. intros H.
  pose proof (sql_order_by_sorted (sql_where p t)) as Hs.
  destruct (sql_order_by le (sql_where p t)) as [|r0 l] eqn:E; simplify_eq/=.
  assert (r ∈ sql_where p t) as Hr.
  { rewrite <-(elem_of_sql_order_by le), E. by left. }
  apply elem_of_sql_where in Hr as [Hin Hp]. split_and!; [done..|].
  intros r' Hin' Hp'.
  assert (r' ∈ r :: l) as Hr'.
  { rewrite <-E. apply elem_of_sql_order_by, elem_of_sql_where. done. }
  inversion Hs as [|?? _ Hall]; subst.
  apply elem_of_cons in Hr' as [->|Hr'].
  - by destruct (le_total r r).
  - by eapply (proj1 (Forall_forall _ _) Hall).
Qed.
End order.

Lemma sql_first_None le p t :
  sql_first le p t = None ↔ ∀ r, r ∈ t → p r = false.
Proof.
  unfold sql_first. split.
  - intros H r Hin. apply not_true_iff_false. intros Hp.
    assert (r ∈ sql_order_by le (sql_where p t)) as Hr
      by by apply elem_of_sql_order_by, elem_of_sql_where.
    destruct (sql_order_by le (sql_where p t)); [by apply elem_of_nil in Hr | done].
  - intros H. unfold sql_where. rewrite filter_none by done. done.
Qed.

Lemma sql_any_Some p t r : sql_any p t = Some r → r ∈ t ∧ p r = true.
Proof.
  unfold sql_any. intros H. apply elem_of_sql_where.
  destruct (sql_where p t); simplify_eq/=. by left.
Qed.

Lemma sql_any_None p t : sql_any p t = None ↔ ∀ r, r ∈ t → p r = false.
Proof.
  unfold sql_any. split.
  - intros H r Hin. apply not_true_iff_false. intros Hp.
    assert (r ∈ sql_where p t) as Hr by by apply elem_of_sql_where.
    destruct (sql_where p t); [by apply elem_of_nil in Hr | done].
  - intros H. unfold sql_where. by rewrite filter_none.
Qed.

Lemma sql_any_is_Some p t : is_Some (sql_any p t) ↔ ∃ r, r ∈ t ∧ p r = true.
Proof.
  split.
  - intros [r H]. exists r. by apply sql_any_Some.
  - intros (r & Hin & Hp). destruct (sql_any p t) eqn:E; [done|].
    by rewrite (proj1 (sql_any_None p t) E r Hin) in Hp.
Qed.

Lemma elem_of_sql_update p f t r :
  r ∈ (sql_update p f t).1 ↔ ∃ r0, r0 ∈ t ∧ r = if p r0 then f r0 else r0.
Proof. simpl. rewrite elem_of_bmap. split; intros (x & ? & ?); eauto. Qed.

Lemma sql_update_length p f t : length (sql_update p f t).1 = length t.
Proof. simpl. apply length_map. Qed.

Lemma sql_update_none p f t : (sql_update p f t).2 = 0 → (sql_update p f t).1 = t.
Proof.
  simpl. induction t as [|r t IH]; simpl; [done|].
  destruct (p r) eqn:E; simpl; intros H; [lia|]. f_equal. apply IH. lia.
Qed.

Lemma sql_update_count p f t : 0 ≤ (sql_update p f t).2.
Proof. simpl. lia. Qed.

Lemma sql_update_count_pos p f t :
  (sql_update p f t).2 ≠ 0 ↔ ∃ r, r ∈ t ∧ p r = true.
Proof.
  simpl. split.
  - intros H. destruct (List.filter p t) as [|r l] eqn:E; simpl in H; [lia|].
    exists r. apply elem_of_bfilter. rewrite E. by left.
  - intros (r & Hr). apply elem_of_bfilter in Hr.
    destruct (List.filter p t); [by apply elem_of_nil in Hr|]. simpl. lia.
Qed.

(** A column that the assignment does not touch keeps its values row by row. *)
Lemma sql_update_column {C} (g : Row → C) p f t :
  (∀ r, g (f r) = g r) → List.map g (sql_update p f t).1 = List.map g t.
Proof.
  intros Hg. simpl. rewrite map_map. apply map_ext. intros r. destruct (p r); auto.
Qed.

(** The rows of a predicate that the statement neither selects nor changes. *)
Lemma sql_update_other p q f t :
  (∀ r, p r = true → q r = false) → (∀ r, p r = true → q (f r) = false) →
  sql_where q (sql_update p f t).1 = sql_where q t.
Proof.
  intros H1 H2. unfold sql_where; simpl. induction t as [|r t IH]; simpl; [done|].
  rewrite IH. destruct (p r) eqn:E; [|done]. by rewrite (H1 r E), (H2 r E).
Qed.

(** An update whose predicate and column are stable under the assignment keeps the
    selection of rows that a predicate over untouched columns makes. *)
Lemma sql_update_where_comm p q f t :
  (∀ r, q (f r) = q r) →
  sql_where q (sql_update p f t).1 = (sql_update p f (sql_where q t)).1.
Proof.
  intros Hq. unfold sql_where; simpl. apply filter_map_comm.
  intros r. destruct (p r); auto.
Qed.

Lemma sql_update_ext p f g t :
  (∀ r, r ∈ t → p r = true → f r = g r) → (sql_update p f t).1 = (sql_update p g t).1.
Proof.
  intros H. simpl. apply map_ext_in. intros r Hin. apply list_elem_of_In in Hin.
  destruct (p r) eqn:E; auto.
Qed.

Lemma sql_page_ok limit offset t :
  0 ≤ limit → 0 ≤ offset →
  sql_page limit offset t = Ok (take (Z.to_nat limit) (drop (Z.to_nat offset) t)).
Proof.
  intros. unfold sql_page. by rewrite (proj2 (Z.ltb_ge _ _)), (proj2 (Z.ltb_ge _ _)) by lia.
Qed.

Lemma sql_page_elem limit offset t l :
  sql_page limit offset t = Ok l →
  Z.of_nat (length l) ≤ limit ∧ ∀ r, r ∈ l → r ∈ t.
Proof.
  unfold sql_page. intros H. destruct (_ || _) eqn:E; simplify_eq. boolify. split.
  - rewrite length_take. lia.
  - intros r Hr. eapply subseteq_drop, subseteq_take, Hr.
Qed.

Lemma StronglySorted_page (P : Row → Row → Prop) n m t :
  StronglySorted P t → StronglySorted P (take n (drop m t)).
Proof.
  intros H. rewrite <-(take_drop m t) in H. apply StronglySorted_app_1_r in H.
  rewrite <-(take_drop n (drop m t)) in H. by apply StronglySorted_app_1_l in H.
Qed.

Lemma StronglySorted_weaken (P Q : Row → Row → Prop) t :
  (∀ a b, P a b → Q a b) → StronglySorted P t → StronglySorted Q t.
Proof.
  intros HPQ. induction 1 as [|a t Ht IH Hall]; constructor; [done|].
  eapply Forall_impl; [exact Hall|auto].
Qed.

End sql.
