(* ===== verification/GoStd.v ===== *)
(** * Go standard library: the routines the program calls

    A Go [string] and a Go [[]byte] are both byte sequences; both are [string]
    here, so a byte is an [ascii].  The routines of packages strings, strconv,
    encoding/hex and encoding/base64 are executable. *)
From S2P Require Import Prelude.
From Stdlib Require Import Ascii.

#[local] Open Scope string_scope.
#[local] Open Scope Z_scope.

#[global] Arguments String.append !_ _ / : simpl nomatch.

(** ** Bytes *)

Definition byte_val (c : ascii) : Z := Z.of_N (N_of_ascii c).
Definition byte_of (z : Z) : ascii := ascii_of_N (Z.to_N (z mod 256)).

Definition chr_quote : ascii := "034".
Definition chr_backslash : ascii := "092".
Definition chr_lf : ascii := "010".
Definition chr_cr : ascii := "013".
Definition chr_tab : ascii := "009".

Definition str1 (c : ascii) : string := String c EmptyString.

Fixpoint str_take (n : nat) (s : string) : string :=
  match n, s with
  | S n, String c s => String c (str_take n s)
  | _, _ => EmptyString
  end.

Fixpoint str_drop (n : nat) (s : string) : string :=
  match n, s with
  | S n, String _ s => str_drop n s
  | _, _ => s
  end.

Definition str_len (s : string) : Z := Z.of_nat (String.length s).

(** ** package strings *)

(** [strings.Split(s, sep)] for a separator of one byte: never empty. *)
Fixpoint Split (s : string) (sep : ascii) : list string :=
  match s with
  | EmptyString => [EmptyString]
  | String c s' =>
      if Ascii.eqb c sep then EmptyString :: Split s' sep
      else match Split s' sep with
           | [] => [str1 c]
           | x :: xs => String c x :: xs
           end
  end.

(** The two parts of [strings.SplitN(s, sep, 2)] when the separator occurs. *)
Fixpoint Cut (s : string) (sep : ascii) : option (string * string) :=
  match s with
  | EmptyString => None
  | String c s' =>
      if Ascii.eqb c sep then Some (EmptyString, s')
      else match Cut s' sep with
           | Some (a, b) => Some (String c a, b)
           | None => None
           end
  end.

Definition SplitN2 (s : string) (sep : ascii) : list string :=
  match Cut s sep with
  | Some (a, b) => [a; b]
  | None => [s]
  end.

Definition lower_byte (c : ascii) : ascii :=
  if (65 <=? byte_val c) && (byte_val c <=? 90) then byte_of (byte_val c + 32) else c.

Fixpoint ToLower (s : string) : string :=
  match s with
  | EmptyString => EmptyString
  | String c s' => String (lower_byte c) (ToLower s')
  end.

(** [strings.EqualFold] against an ASCII word.  The two words the program folds
    against, Bearer and id, contain neither k nor s, the only ASCII letters with a
    non-ASCII case variant, so byte folding is Go's answer. *)
Definition EqualFold (s t : string) : bool := String.eqb (ToLower s) (ToLower t).

Fixpoint HasPrefix (s p : string) {struct p} : bool :=
  match p, s with
  | EmptyString, _ => true
  | String a p', String b s' => Ascii.eqb a b && HasPrefix s' p'
  | _, _ => false
  end.

Fixpoint Contains (s sub : string) : bool :=
  HasPrefix s sub ||
  match s with
  | EmptyString => false
  | String _ s' => Contains s' sub
  end.

Definition TrimPrefix (s p : string) : string :=
  if HasPrefix s p then str_drop (String.length p) s else s.

Fixpoint str_rev_app (s acc : string) : string :=
  match s with
  | EmptyString => acc
  | String c s' => str_rev_app s' (String c acc)
  end.
Definition str_rev (s : string) : string := str_rev_app s EmptyString.

Definition HasSuffix (s p : string) : bool := HasPrefix (str_rev s) (str_rev p).

Fixpoint trim_left (cut : ascii → bool) (s : string) : string :=
  match s with
  | EmptyString => EmptyString
  | String c s' => if cut c then trim_left cut s' else s
  end.

(** [strings.Trim] with a predicate for the cut set. *)
Definition Trim (cut : ascii → bool) (s : string) : string :=
  str_rev (trim_left cut (str_rev (trim_left cut s))).

(** The ASCII white space of [strings.TrimSpace]. *)
Definition is_space (c : ascii) : bool :=
  let b := byte_val c in
  (b =? 32) || ((9 <=? b) && (b <=? 13)).

Definition TrimSpace (s : string) : string := Trim is_space s.

(** [strings.ReplaceAll(s, old, new)] for an [old] of one byte. *)
Fixpoint ReplaceAll (s : string) (old : ascii) (new : string) : string :=
  match s with
  | EmptyString => EmptyString
  | String c s' =>
      if Ascii.eqb c old then new ++ ReplaceAll s' old new
      else String c (ReplaceAll s' old new)
  end.

(** [strings.LastIndex(s, sep)] for one byte, as the prefix before it. *)
Definition CutLast (s : string) (sep : ascii) : option string :=
  match Cut (str_rev s) sep with
  | Some (_, before) => Some (str_rev before)
  | None => None
  end.

Fixpoint Join (l : list string) (sep : string) : string :=
  match l with
  | [] => EmptyString
  | [x] => x
  | x :: l' => x ++ sep ++ Join l' sep
  end.

(** The order of strings, bytewise; package sort uses it. *)
Definition str_le (a b : string) : Prop := String.leb a b = true.
#[export] Instance str_le_dec : RelDecision str_le := λ a b, decide (String.leb a b = true).

(** ** package strconv *)

Definition digit_val (c : ascii) : option Z :=
  let b := byte_val c in
  if (48 <=? b) && (b <=? 57) then Some (b - 48) else None.

Fixpoint parse_digits (acc : Z) (s : string) : option Z :=
  match s with
  | EmptyString => Some acc
  | String c s' =>
      match digit_val c with
      | Some d => parse_digits (acc * 10 + d) s'
      | None => None
      end
  end.

(** [strconv.Atoi]: an optional sign, at least one digit, and a value in range. *)
Definition Atoi (s : string) : option Z :=
  let body neg s :=
    match s with
    | EmptyString => None
    | _ => match parse_digits 0 s with
           | Some n =>
               let z : Z := if neg : bool then (- n)%Z else n in
               if (- 2 ^ 63 <=? z) && (z <? 2 ^ 63) then Some z else None
           | None => None
           end
    end in
  match s with
  | String c s' =>
      if Ascii.eqb c "-" then body true s'
      else if Ascii.eqb c "+" then body false s'
      else body false s
  | EmptyString => None
  end.

(** [strconv.Itoa]: the digits of a 64-bit value. *)
Fixpoint itoa_digits (fuel : nat) (n : Z) (acc : string) : string :=
  match fuel with
  | O => acc
  | S fuel =>
      let acc := String (byte_of (48 + n mod 10)) acc in
      if n / 10 =? 0 then acc else itoa_digits fuel (n / 10) acc
  end.

Definition Itoa (z : Z) : string :=
  if z <? 0 then String "-" (itoa_digits 20 (- z) EmptyString) else itoa_digits 20 z EmptyString.

(** ** package encoding/hex *)

Definition hex_char (n : Z) : ascii :=
  if n <? 10 then byte_of (48 + n) else byte_of (87 + n).

Fixpoint hex_EncodeToString (s : string) : string :=
  match s with
  | EmptyString => EmptyString
  | String c s' =>
      String (hex_char (byte_val c / 16))
        (String (hex_char (byte_val c mod 16)) (hex_EncodeToString s'))
  end.

Definition hex_val (c : ascii) : option Z :=
  let b := byte_val c in
  if (48 <=? b) && (b <=? 57) then Some (b - 48)
  else if (97 <=? b) && (b <=? 102) then Some (b - 87)
  else if (65 <=? b) && (b <=? 70) then Some (b - 55)
  else None.

(** [hex.DecodeString]: both letter cases, and an error on an odd length or any
    other byte. *)
Fixpoint hex_DecodeString (s : string) : option string :=
  match s with
  | EmptyString => Some EmptyString
  | String a (String b s') =>
      match hex_val a, hex_val b, hex_DecodeString s' with
      | Some x, Some y, Some r => Some (String (byte_of (16 * x + y)) r)
      | _, _, _ => None
      end
  | String _ EmptyString => None
  end.

(** ** package encoding/base64, RawURLEncoding *)

Definition b64url_char (n : Z) : ascii :=
  if n <? 26 then byte_of (65 + n)
  else if n <? 52 then byte_of (71 + n)
  else if n <? 62 then byte_of (n - 4)
  else if n =? 62 then "-" else "_".

Fixpoint RawURLEncode (s : string) : string :=
  match s with
  | String a (String b (String c s')) =>
      let n := 65536 * byte_val a + 256 * byte_val b + byte_val c in
      String (b64url_char (n / 262144)) (String (b64url_char (n / 4096 mod 64))
        (String (b64url_char (n / 64 mod 64)) (String (b64url_char (n mod 64))
          (RawURLEncode s'))))
  | String a (String b EmptyString) =>
      let n := 65536 * byte_val a + 256 * byte_val b in
      String (b64url_char (n / 262144)) (String (b64url_char (n / 4096 mod 64))
        (str1 (b64url_char (n / 64 mod 64))))
  | String a EmptyString =>
      let n := 65536 * byte_val a in
      String (b64url_char (n / 262144)) (str1 (b64url_char (n / 4096 mod 64)))
  | EmptyString => EmptyString
  end.

(** ** Facts *)

Lemma hex_round_byte (c : ascii) :
  hex_val (hex_char (byte_val c / 16)) = Some (byte_val c / 16) ∧
  hex_val (hex_char (byte_val c mod 16)) = Some (byte_val c mod 16) ∧
  byte_of (16 * (byte_val c / 16) + byte_val c mod 16) = c.
Proof. destruct c as [[] [] [] [] [] [] [] []]; vm_compute; auto. Qed.

Lemma hex_decode_encode s : hex_DecodeString (hex_EncodeToString s) = Some s.
Proof.
  induction s as [|c s IH]; [done|]. cbn [hex_EncodeToString hex_DecodeString].
  destruct (hex_round_byte c) as (-> & -> & Hc). by rewrite IH, Hc.
Qed.

Lemma hex_EncodeToString_inj s t : hex_EncodeToString s = hex_EncodeToString t → s = t.
Proof.
  intros H. apply (f_equal hex_DecodeString) in H. rewrite !hex_decode_encode in H. congruence.
Qed.

Lemma hex_char_not_dollar (c : ascii) :
  Ascii.eqb (hex_char (byte_val c / 16)) "$" = false ∧
  Ascii.eqb (hex_char (byte_val c mod 16)) "$" = false.
Proof. destruct c as [[] [] [] [] [] [] [] []]; vm_compute; auto. Qed.

Lemma length_hex s : String.length (hex_EncodeToString s) = (2 * String.length s)%nat.
Proof. induction s; simpl; [done|]. rewrite IHs. lia. Qed.

Lemma str_app_assoc (a b c : string) : (a ++ b) ++ c = a ++ b ++ c.
Proof. induction a; simpl; [done|]. by rewrite IHa. Qed.

Lemma str_app_nil_r (a : string) : a ++ "" = a.
Proof. induction a; simpl; [done|]. by rewrite IHa. Qed.

Lemma length_str_app (a b : string) :
  String.length (a ++ b) = (String.length a + String.length b)%nat.
Proof. induction a; simpl; [done|]. by rewrite IHa. Qed.

Lemma str_take_app_le n a b : (n ≤ String.length a)%nat → str_take n (a ++ b) = str_take n a.
Proof.
  revert n; induction a; intros [|n] H; simpl in *; try (done || lia).
  f_equal. apply IHa. lia.
Qed.

Lemma str_take_length n s : (n ≤ String.length s)%nat → String.length (str_take n s) = n.
Proof.
  revert n; induction s; intros [|n] H; simpl in *; try (done || lia).
  f_equal. apply IHs. lia.
Qed.

Lemma str_take_drop n s : str_take n s ++ str_drop n s = s.
Proof. revert n; induction s; intros [|n]; simpl; [done..|]. by rewrite IHs. Qed.

Lemma Cut_app a b sep :
  (∀ x y, a ≠ x ++ String sep y) → Cut (a ++ String sep b) sep = Some (a, b).
Proof.
  induction a as [|c a IH]; intros H; simpl.
  - by rewrite Ascii.eqb_refl.
  - destruct (Ascii.eqb_spec c sep) as [->|Hne].
    + by destruct (H EmptyString a).
    + rewrite IH; [done|]. intros x y ->. by apply (H (String c x) y).
Qed.

Lemma Cut_spec s sep a b : Cut s sep = Some (a, b) → s = a ++ String sep b.
Proof.
  revert a b; induction s as [|c s IH]; simpl; intros a b H; [done|].
  destruct (Ascii.eqb_spec c sep) as [->|Hne]; [by simplify_eq|].
  destruct (Cut s sep) as [[a' b']|]; simplify_eq. simpl. by rewrite (IH a' b eq_refl).
Qed.

Lemma HasPrefix_app p s : HasPrefix (p ++ s) p = true.
Proof. induction p; simpl; [done|]. by rewrite Ascii.eqb_refl. Qed.

Lemma HasPrefix_spec s p : HasPrefix s p = true ↔ ∃ r, s = p ++ r.
Proof.
  split; [|intros [r ->]; apply HasPrefix_app].
  revert s; induction p as [|a p IH]; intros s H; simpl in *; [by exists s|].
  destruct s as [|b s]; [done|]. boolify.
  apply Ascii.eqb_eq in H as <-. destruct (IH s) as [r ->]; [done|]. by exists r.
Qed.

Lemma Split_ne s sep : Split s sep ≠ [].
Proof.
  induction s as [|c s IH]; simpl; [done|].
  destruct (Ascii.eqb c sep); [done|]. by destruct (Split s sep).
Qed.

(** The base64 text of n bytes has ceil(8n/6) characters. *)
Lemma length_RawURLEncode_ind n s :
  (String.length s ≤ n)%nat →
  String.length (RawURLEncode s) = ((4 * String.length s + 2) / 3)%nat.
Proof.
  revert s; induction n as [|n IH]; intros s H.
  { destruct s; simpl in H; [vm_compute; reflexivity | exfalso; lia]. }
  destruct s as [|a [|b [|c s]]]; try reflexivity.
  cbn [RawURLEncode String.length] in *. rewrite IH by lia.
  replace (4 * S (S (S (String.length s))) + 2)%nat
    with (4 * String.length s + 2 + 4 * 3)%nat by lia.
  rewrite Nat.div_add by lia. lia.
Qed.

Lemma length_RawURLEncode s :
  String.length (RawURLEncode s) = ((4 * String.length s + 2) / 3)%nat.
Proof. by apply (length_RawURLEncode_ind (String.length s)). Qed.

Example Atoi_ok : Atoi "-42" = Some (-42) ∧ Atoi "+7" = Some 7 ∧ Atoi "" = None ∧
  Atoi "12a" = None ∧ Atoi "9223372036854775808" = None.
Proof. vm_compute. auto. Qed.

Example Itoa_ok : Itoa 0 = "0" ∧ Itoa (-120) = "-120" ∧ Itoa (2 ^ 63 - 1) = "9223372036854775807".
Proof. vm_compute. auto. Qed.

Example Split_ok : Split "/api/v1/" "/" = [""; "api"; "v1"; ""].
Proof. reflexivity. Qed.

Example RawURLEncode_ok : RawURLEncode "hello?>" = "aGVsbG8_Pg".
Proof. reflexivity. Qed.

(** ** Decimal numerals *)

Definition is_digit_byte (c : ascii) : bool := (48 <=? byte_val c) && (byte_val c <=? 57).

Fixpoint str_all (p : ascii → bool) (s : string) : bool :=
  match s with EmptyString => true | String c s => p c && str_all p s end.

(** The value of the digits that follow [n]. *)
Fixpoint dec_value (n : Z) (s : string) : Z :=
  match s with EmptyString => n | String c s => dec_value (n * 10 + (byte_val c - 48)) s end.

Lemma str_all_app p s t : str_all p (s ++ t) = str_all p s && str_all p t.
Proof. induction s as [|c s IH]; simpl; [done|]. by rewrite IH, andb_assoc. Qed.

Lemma dec_value_app n s t : dec_value n (s ++ t) = dec_value (dec_value n s) t.
Proof. revert n. induction s as [|c s IH]; intros n; simpl; [done|]. apply IH. Qed.

Lemma dec_value_ge n s : str_all is_digit_byte s = true → 0 ≤ n → n ≤ dec_value n s.
Proof.
  revert n. induction s as [|c s IH]; intros n; simpl; [lia|]. unfold is_digit_byte at 1. intros [Hc Hs]%andb_prop Hn.
  etrans; [|apply IH; [done|lia]]. lia.
Qed.

Lemma byte_val_of z : 0 ≤ z < 256 → byte_val (byte_of z) = z.
Proof.
  intros H. unfold byte_val, byte_of. rewrite Z.mod_small by lia. rewrite N_ascii_embedding by lia. lia.
Qed.

Lemma itoa_digits_spec fuel n acc :
  0 ≤ n < 10 ^ Z.of_nat fuel → (0 < fuel)%nat →
  ∃ ds, itoa_digits fuel n acc = ds ++ acc ∧ str_all is_digit_byte ds = true ∧
    ∀ m, dec_value m ds = m * 10 ^ Z.of_nat (String.length ds) + n.
Proof.
  revert n acc. induction fuel as [|fuel IH]; intros n acc Hn Hf; [lia|]. simpl.
  assert (byte_val (byte_of (48 + n mod 10)) = 48 + n mod 10) as Hb.
  { apply byte_val_of. pose proof (Z.mod_pos_bound n 10). lia. }
  assert (is_digit_byte (byte_of (48 + n mod 10)) = true) as Hd.
  { unfold is_digit_byte. rewrite Hb. pose proof (Z.mod_pos_bound n 10). lia. }
  pose proof (Z.div_mod n 10).
  destruct (Z.eqb_spec (n / 10) 0) as [E|E].
  - exists (str1 (byte_of (48 + n mod 10))). split_and!; [done| |].
    + unfold str1. cbn [str_all]. by rewrite Hd.
    + intros m. unfold str1. cbn [dec_value String.length]. rewrite Hb. change (10 ^ Z.of_nat 1) with 10. lia.
  - rewrite Nat2Z.inj_succ, Z.pow_succ_r in Hn by lia.
    assert (0 < n / 10) by (pose proof (Z.div_pos n 10); lia).
    destruct (IH (n / 10) (String (byte_of (48 + n mod 10)) acc)) as (ds & -> & Hds & Hv).
    { split; [lia|]. apply Z.div_lt_upper_bound; lia. }
    { destruct fuel; [|lia]. simpl in Hn. assert (n / 10 < 1) by (apply Z.div_lt_upper_bound; lia). lia. }
    exists (ds ++ str1 (byte_of (48 + n mod 10))). split_and!.
    + by rewrite str_app_assoc.
    + rewrite str_all_app, Hds. unfold str1. cbn [str_all]. by rewrite Hd.
    + intros m. rewrite dec_value_app, Hv. unfold str1. cbn [dec_value]. rewrite Hb, length_str_app. cbn [String.length].
      rewrite Nat2Z.inj_add, Z.pow_add_r by lia. change (10 ^ Z.of_nat 1) with 10. lia.
Qed.

(** The digits of a number that is not negative. *)
Lemma Itoa_digits z :
  0 ≤ z < 2 ^ 63 → str_all is_digit_byte (Itoa z) = true ∧ dec_value 0 (Itoa z) = z.
Proof.
  intros H. unfold Itoa. destruct (Z.ltb_spec z 0); [lia|].
  destruct (itoa_digits_spec 20 z "") as (ds & -> & Hd & Hv); [|lia|].
  { split; [lia|]. etrans; [apply H|]. reflexivity. }
  rewrite str_app_nil_r, Hv. split; [done|lia].
Qed.

Lemma parse_digits_all s acc : str_all is_digit_byte s = true → parse_digits acc s = Some (dec_value acc s).
Proof.
  revert acc. induction s as [|c s IH]; intros acc; [done|]. cbn [str_all]. unfold is_digit_byte at 1.
  intros [Hc Hs]%andb_prop. cbn [parse_digits dec_value]. unfold digit_val. rewrite Hc. rewrite IH by done. f_equal; f_equal; lia.
Qed.

Lemma itoa_digits_nonempty fuel n acc : (0 < fuel)%nat ∨ acc ≠ "" → itoa_digits fuel n acc ≠ "".
Proof.
  revert n acc. induction fuel as [|fuel IH]; intros n acc [H|H]; simpl; [lia|done|..];
    (case_match; [done|by apply IH; right]).
Qed.

Lemma Atoi_Itoa z : in_i64 z → Atoi (Itoa z) = Some z.
Proof.
  unfold in_i64. intros Hz.
  assert (∀ n, 0 ≤ n < 10 ^ 20 → ∃ c ds, itoa_digits 20 n "" = String c ds ∧ 48 ≤ byte_val c ≤ 57 ∧
    parse_digits 0 (String c ds) = Some n) as Hn.
  { intros n Hn. destruct (itoa_digits_spec 20 n "") as (ds & E & Hd & Hv); [lia|lia|]. rewrite str_app_nil_r in E.
    specialize (Hv 0). pose proof (parse_digits_all ds 0 Hd) as Hp. rewrite Hv in Hp. destruct ds as [|c ds].
    { by destruct (itoa_digits_nonempty 20 n "" (or_introl (Nat.lt_0_succ 19))). }
    exists c, ds. split; [done|]. split; [|rewrite Hp; f_equal; lia]. cbn [str_all] in Hd. unfold is_digit_byte in Hd. lia. }
  unfold Itoa. destruct (Z.ltb_spec z 0).
  - destruct (Hn (- z)) as (c & ds & -> & Hc & Hp); [lia|]. unfold Atoi. change (Ascii.eqb "-" "-") with true. cbn iota beta zeta.
    rewrite Hp. rewrite Z.opp_involutive. destruct (_ && _) eqn:E; [done|lia].
  - destruct (Hn z) as (c & ds & -> & Hc & Hp); [lia|]. unfold Atoi.
    assert (∀ a, byte_val a < 48 → Ascii.eqb c a = false) as Ha.
    { intros a Ha. destruct (Ascii.eqb_spec c a) as [->|_]; [lia|done]. }
    rewrite !Ha by done. cbn iota beta zeta. rewrite Hp. destruct (_ && _) eqn:E; [done|lia].
Qed.
