(* ===== verification/Crypto.v ===== *)
(** * crypto/sha256, crypto/hmac and crypto/subtle of the Go standard library

    SHA-256 (FIPS 180-4) and HMAC (RFC 2104), executable on byte strings, with the
    published test vectors as examples. *)
From S2P Require Import Prelude GoStd.
From Stdlib Require Import Ascii.

#[local] Open Scope string_scope.
#[local] Open Scope Z_scope.

(** ** Bytes and 32-bit words *)

Fixpoint bytes_of (s : string) : list Z :=
  match s with EmptyString => [] | String c s => byte_val c :: bytes_of s end.
Fixpoint of_bytes (l : list Z) : string :=
  match l with [] => EmptyString | b :: l => String (byte_of b) (of_bytes l) end.

Definition w32 (z : Z) : Z := Z.land z 4294967295.
Definition rotr (x n : Z) : Z := Z.lor (Z.shiftr x n) (w32 (Z.shiftl x (32 - n))).

(** The big-endian 4 bytes of a word. *)
Definition be32 (x : Z) : list Z :=
  [Z.land (Z.shiftr x 24) 255; Z.land (Z.shiftr x 16) 255; Z.land (Z.shiftr x 8) 255; Z.land x 255].

Fixpoint be_words (l : list Z) : list Z :=
  match l with
  | a :: b :: c :: d :: l => (a * 16777216 + b * 65536 + c * 256 + d) :: be_words l
  | _ => []
  end.

(** ** SHA-256 *)

Definition sha_k : list Z :=
  [1116352408; 1899447441; 3049323471; 3921009573; 961987163; 1508970993; 2453635748; 2870763221;
   3624381080; 310598401; 607225278; 1426881987; 1925078388; 2162078206; 2614888103; 3248222580;
   3835390401; 4022224774; 264347078; 604807628; 770255983; 1249150122; 1555081692; 1996064986;
   2554220882; 2821834349; 2952996808; 3210313671; 3336571891; 3584528711; 113926993; 338241895;
   666307205; 773529912; 1294757372; 1396182291; 1695183700; 1986661051; 2177026350; 2456956037;
   2730485921; 2820302411; 3259730800; 3345764771; 3516065817; 3600352804; 4094571909; 275423344;
   430227734; 506948616; 659060556; 883997877; 958139571; 1322822218; 1537002063; 1747873779;
   1955562222; 2024104815; 2227730452; 2361852424; 2428436474; 2756734187; 3204031479; 3329325298].

Record sha_state := MkSha { sa : Z; sb : Z; sc : Z; sd : Z; se : Z; sf : Z; sg : Z; sh : Z }.

Definition sha_init : sha_state :=
  MkSha 1779033703 3144134277 1013904242 2773480762 1359893119 2600822924 528734635 1541459225.

(** The message schedule: the next word from the 16 before it, kept most recent first. *)
Definition sha_next (ws : list Z) : Z :=
  let w2 := nth 1 ws 0 in let w7 := nth 6 ws 0 in
  let w15 := nth 14 ws 0 in let w16 := nth 15 ws 0 in
  let s0 := Z.lxor (Z.lxor (rotr w15 7) (rotr w15 18)) (Z.shiftr w15 3) in
  let s1 := Z.lxor (Z.lxor (rotr w2 17) (rotr w2 19)) (Z.shiftr w2 10) in
  w32 (w16 + s0 + w7 + s1).

Fixpoint sha_schedule (n : nat) (ws : list Z) : list Z :=
  match n with
  | O => rev ws
  | S n => sha_schedule n (sha_next ws :: ws)
  end.

Definition sha_round (st : sha_state) (kw : Z * Z) : sha_state :=
  let '(MkSha a b c d e f g h) := st in
  let '(k, w) := kw in
  let S1 := Z.lxor (Z.lxor (rotr e 6) (rotr e 11)) (rotr e 25) in
  let ch := Z.lxor (Z.land e f) (Z.land (Z.lxor e 4294967295) g) in
  let temp1 := h + S1 + ch + k + w in
  let S0 := Z.lxor (Z.lxor (rotr a 2) (rotr a 13)) (rotr a 22) in
  let maj := Z.lxor (Z.lxor (Z.land a b) (Z.land a c)) (Z.land b c) in
  MkSha (w32 (temp1 + S0 + maj)) a b c (w32 (d + temp1)) e f g.

Definition sha_block (st : sha_state) (words : list Z) : sha_state :=
  let ws := sha_schedule 48 (rev words) in
  let '(MkSha a b c d e f g h) := foldl sha_round st (zip sha_k ws) in
  MkSha (w32 (sa st + a)) (w32 (sb st + b)) (w32 (sc st + c)) (w32 (sd st + d))
    (w32 (se st + e)) (w32 (sf st + f)) (w32 (sg st + g)) (w32 (sh st + h)).

(** One 1 bit, zeros up to 56 modulo 64 bytes, and the bit length on 8 bytes. *)
Definition sha_pad (m : list Z) : list Z :=
  let n := Z.of_nat (length m) in
  m ++ [128] ++ replicate (Z.to_nat ((55 - n) mod 64)) 0 ++ be32 (Z.shiftr (8 * n) 32) ++ be32 (w32 (8 * n)).

Fixpoint sha_blocks (n : nat) (st : sha_state) (words : list Z) : sha_state :=
  match n with
  | O => st
  | S n => sha_blocks n (sha_block st (take 16 words)) (drop 16 words)
  end.

Definition sha_digest (st : sha_state) : list Z :=
  let '(MkSha a b c d e f g h) := st in
  be32 a ++ be32 b ++ be32 c ++ be32 d ++ be32 e ++ be32 f ++ be32 g ++ be32 h.

(** [sha256.Sum256] *)
Definition Sum256 (m : string) : string :=
  let words := be_words (sha_pad (bytes_of m)) in
  of_bytes (sha_digest (sha_blocks (length words / 16) sha_init words)).

(** ** HMAC *)

Fixpoint str_xor (c : Z) (s : string) : string :=
  match s with
  | EmptyString => EmptyString
  | String a s => String (byte_of (Z.lxor (byte_val a) c)) (str_xor c s)
  end.

Fixpoint str_repeat (n : nat) (c : ascii) : string :=
  match n with O => EmptyString | S n => String c (str_repeat n c) end.

Definition hmac_block_key (key : string) : string :=
  let key := if (64 <? String.length key)%nat then Sum256 key else key in
  key ++ str_repeat (64 - String.length key) "000".

Definition hmac_sha256 (key m : string) : string :=
  let k := hmac_block_key key in
  Sum256 (str_xor 92 k ++ Sum256 (str_xor 54 k ++ m)).

(** [hmac.Equal], that is [subtle.ConstantTimeCompare]: the differences of all bytes are
    accumulated. *)
Fixpoint xor_bytes (v : Z) (x y : string) : Z :=
  match x, y with
  | String a x, String b y => xor_bytes (Z.lor v (Z.lxor (byte_val a) (byte_val b))) x y
  | _, _ => v
  end.

Definition hmac_Equal (x y : string) : bool :=
  if (String.length x =? String.length y)%nat then xor_bytes 0 x y =? 0 else false.

(** ** Test vectors *)

Example sha256_empty : hex_EncodeToString (Sum256 "") =
  "e3b0c44298fc1c149afbf4c8996fb92427ae41e4649b934ca495991b7852b855".
Proof. vm_compute. reflexivity. Qed.

Example sha256_abc : hex_EncodeToString (Sum256 "abc") =
  "ba7816bf8f01cfea414140de5dae2223b00361a396177a9cb410ff61f20015ad".
Proof. vm_compute. reflexivity. Qed.

Example sha256_two_blocks :
  hex_EncodeToString (Sum256 "abcdbcdecdefdefgefghfghighijhijkijkljklmklmnlmnomnopnopq") =
  "248d6a61d20638b8e5c026930c3e6039a33ce45964ff2167f6ecedd419db06c1".
Proof. vm_compute. reflexivity. Qed.

(** RFC 4231, test case 2. *)
Example hmac_rfc4231 :
  hex_EncodeToString (hmac_sha256 "Jefe" "what do ya want for nothing?") =
  "5bdcc146bf60754e6a042426089575c75a003f089d2739839dec58b964ec3843".
Proof. vm_compute. reflexivity. Qed.

(** ** Facts *)

Lemma length_of_bytes l : String.length (of_bytes l) = length l.
Proof. induction l; simpl; [done|]. by rewrite IHl. Qed.

Lemma length_Sum256 m : String.length (Sum256 m) = 32%nat.
Proof. unfold Sum256. rewrite length_of_bytes. by destruct (sha_blocks _ _ _). Qed.

Lemma length_hmac_sha256 k m : String.length (hmac_sha256 k m) = 32%nat.
Proof. apply length_Sum256. Qed.

Lemma byte_val_inj a b : byte_val a = byte_val b → a = b.
Proof.
  unfold byte_val. intros H. apply N2Z.inj in H.
  rewrite <-(ascii_N_embedding a), <-(ascii_N_embedding b). by rewrite H.
Qed.

Lemma byte_val_nonneg a : 0 ≤ byte_val a.
Proof. unfold byte_val. lia. Qed.

Lemma xor_bytes_zero v x y :
  String.length x = String.length y → (xor_bytes v x y = 0 ↔ v = 0 ∧ x = y).
Proof.
  revert v y; induction x as [|a x IH]; intros v [|b y] H; simpl in *; try done.
  { split; [done | by intros [? _]]. }
  rewrite IH by lia. rewrite Z.lor_eq_0_iff, Z.lxor_eq_0_iff. split.
  - intros [[? ?%byte_val_inj] ->]. by subst.
  - intros [? [= -> ->]]. done.
Qed.

(** The constant-time comparison is equality. *)
Lemma hmac_Equal_spec x y : hmac_Equal x y = true ↔ x = y.
Proof.
  unfold hmac_Equal. destruct (Nat.eqb_spec (String.length x) (String.length y)) as [E|E].
  - rewrite Z.eqb_eq, xor_bytes_zero by done. split; [by intros [_ ?] | done].
  - split; [done | intros ->; done].
Qed.
