(* ===== verification/Regexp.v ===== *)
(** * Regular expressions of Go's package regexp

    The matcher works on runes: [decode_runes] is Go's UTF-8 decoding, in which a byte
    that starts no valid encoding is a rune error of one byte.  The syntax has the
    constructs that the secret patterns of the program use: every repetition in them is
    of a character class.  [re_match] is leftmost-first (Perl) matching, as Go specifies
    it: alternatives in order, repetitions greedy, with backtracking. *)
From S2P Require Import Prelude GoStd.
From Stdlib Require Import Ascii.

#[local] Open Scope string_scope.
#[local] Open Scope Z_scope.

(** ** Runes *)

(** A code point with the bytes that encode it. *)
Definition rune : Type := Z * string.

Definition RuneError : Z := 65533.

Definition is_cont (lo hi : Z) (c : ascii) : bool := (lo <=? byte_val c) && (byte_val c <=? hi).

(** The accepted range of the second byte after a lead byte of 3 or 4 bytes. *)
Definition second_range (b : Z) : Z * Z :=
  if b =? 224 then (160, 191) else if b =? 237 then (128, 159)
  else if b =? 240 then (144, 191) else if b =? 244 then (128, 143) else (128, 191).

(** [utf8.DecodeRuneInString] of a non-empty string: the code point and its width. *)
Definition decode_rune (a : ascii) (s : string) : Z * nat :=
  let b := byte_val a in
  let '(lo, hi) := second_range b in
  if b <? 128 then (b, 1%nat)
  else if (194 <=? b) && (b <=? 223) then
    match s with
    | String c1 _ =>
        if is_cont 128 191 c1 then (64 * (b - 192) + (byte_val c1 - 128), 2%nat) else (RuneError, 1%nat)
    | _ => (RuneError, 1%nat)
    end
  else if (224 <=? b) && (b <=? 239) then
    match s with
    | String c1 (String c2 _) =>
        if is_cont lo hi c1 && is_cont 128 191 c2
        then (4096 * (b - 224) + 64 * (byte_val c1 - 128) + (byte_val c2 - 128), 3%nat)
        else (RuneError, 1%nat)
    | _ => (RuneError, 1%nat)
    end
  else if (240 <=? b) && (b <=? 244) then
    match s with
    | String c1 (String c2 (String c3 _)) =>
        if is_cont lo hi c1 && is_cont 128 191 c2 && is_cont 128 191 c3
        then (262144 * (b - 240) + 4096 * (byte_val c1 - 128) + 64 * (byte_val c2 - 128) +
              (byte_val c3 - 128), 4%nat)
        else (RuneError, 1%nat)
    | _ => (RuneError, 1%nat)
    end
  else (RuneError, 1%nat).

(** The runes of a string, [skip] bytes of which belong to the rune before it. *)
Fixpoint decode_from (skip : nat) (s : string) : list rune :=
  match s with
  | EmptyString => []
  | String a s' =>
      match skip with
      | S n => decode_from n s'
      | O =>
          let '(cp, width) := decode_rune a s' in
          (cp, str_take width s) :: decode_from (width - 1) s'
      end
  end.

Definition decode_runes (s : string) : list rune := decode_from 0 s.

Fixpoint rune_bytes (l : list rune) : string :=
  match l with [] => EmptyString | (_, b) :: l => b ++ rune_bytes l end.

(** ** Syntax *)

Inductive re :=
  | Eps
  | Chr (p : Z → bool)          (* one rune of a class *)
  | Many (p : Z → bool)         (* [class]*, greedy *)
  | Cat (a b : re)
  | Alt (a b : re).

Definition Opt (r : re) : re := Alt r Eps.
Fixpoint Rep (n : nat) (p : Z → bool) : re :=
  match n with O => Eps | S n => Cat (Chr p) (Rep n p) end.
Definition AtLeast (n : nat) (p : Z → bool) : re := Cat (Rep n p) (Many p).

Fixpoint Lit (s : string) : re :=
  match s with
  | EmptyString => Eps
  | String c s => Cat (Chr (Z.eqb (byte_val c))) (Lit s)
  end.

(** ** Classes *)

Definition range (lo hi c : Z) : bool := (lo <=? c) && (c <=? hi).
Definition is_upper : Z → bool := range 65 90.
Definition is_lower : Z → bool := range 97 122.
Definition is_digit : Z → bool := range 48 57.
Fixpoint one_of (s : string) (c : Z) : bool :=
  match s with EmptyString => false | String a s => (byte_val a =? c) || one_of s c end.
Definition or_class (p q : Z → bool) (c : Z) : bool := p c || q c.
Definition not_class (p : Z → bool) (c : Z) : bool := negb (p c).

(** [\s] is [[\t\n\f\r ]] *)
Definition re_space (c : Z) : bool := (c =? 9) || (c =? 10) || (c =? 12) || (c =? 13) || (c =? 32).

(** The other runes of a simple case-folding orbit that reaches ASCII: the Kelvin sign
    folds to k and the long s to s. *)
Definition orbit (c : Z) : list Z :=
  if (c =? 107) || (c =? 75) || (c =? 8490) then [107; 75; 8490]
  else if (c =? 115) || (c =? 83) || (c =? 383) then [115; 83; 383]
  else if is_upper c then [c; c + 32]
  else if is_lower c then [c; c - 32]
  else [c].

(** [(?i)] on a class of ASCII runes *)
Definition fold_case (p : Z → bool) (c : Z) : bool := existsb p (orbit c).

Fixpoint LitFold (s : string) : re :=
  match s with
  | EmptyString => Eps
  | String c s => Cat (Chr (fold_case (Z.eqb (byte_val c)))) (LitFold s)
  end.

(** ** Matching *)

Fixpoint match_many (p : Z → bool) (s : list rune) (k : list rune → option (list rune)) :
    option (list rune) :=
  match s with
  | [] => k s
  | c :: s' =>
      if p c.1 then match match_many p s' k with Some x => Some x | None => k s end
      else k s
  end.

(** The rest of the input after the preferred match of a prefix that [k] accepts. *)
Fixpoint re_match (r : re) (s : list rune) (k : list rune → option (list rune)) : option (list rune) :=
  match r with
  | Eps => k s
  | Chr p => match s with c :: s' => if p c.1 then k s' else None | [] => None end
  | Many p => match_many p s k
  | Cat a b => re_match a s (λ s', re_match b s' k)
  | Alt a b => match re_match a s k with Some x => Some x | None => re_match b s k end
  end.

(** The leftmost match: its runes and the rest of the input. *)
Fixpoint re_find (r : re) (s : list rune) : option (list rune * list rune) :=
  match re_match r s Some with
  | Some rest => Some (take (length s - length rest) s, rest)
  | None => match s with [] => None | _ :: s' => re_find r s' end
  end.

(** [regexp.FindString] *)
Definition FindString (r : re) (text : string) : string :=
  match re_find r (decode_runes text) with
  | Some (m, _) => rune_bytes m
  | None => EmptyString
  end.

(** Successive matches; an empty match right after another match is dropped, and the
    search goes on one rune later. *)
Fixpoint find_all (fuel : nat) (r : re) (s : list rune) (after : bool) : list (list rune) :=
  match fuel with
  | O => []
  | S fuel =>
      match re_find r s with
      | None => []
      | Some ([], rest) =>
          let dropped := after && (length s =? length rest)%nat in
          let found := match rest with [] => [] | _ :: rest => find_all fuel r rest false end in
          if dropped then found else [] :: found
      | Some (m, rest) => m :: find_all fuel r rest true
      end
  end.

(** [regexp.FindAllString(text, -1)] *)
Definition FindAllString (r : re) (text : string) : list string :=
  let s := decode_runes text in
  List.map rune_bytes (find_all (S (length s)) r s false).

(** ** Languages *)

Inductive re_lang : re → list rune → Prop :=
  | lang_eps : re_lang Eps []
  | lang_chr p c : p c.1 = true → re_lang (Chr p) [c]
  | lang_many p l : Forall (λ c : rune, p c.1 = true) l → re_lang (Many p) l
  | lang_cat a b l1 l2 : re_lang a l1 → re_lang b l2 → re_lang (Cat a b) (l1 ++ l2)
  | lang_alt_l a b l : re_lang a l → re_lang (Alt a b) l
  | lang_alt_r a b l : re_lang b l → re_lang (Alt a b) l.

Lemma match_many_sound p s k x :
  match_many p s k = Some x →
  ∃ s1 s2, s = (s1 ++ s2)%list ∧ Forall (λ c : rune, p c.1 = true) s1 ∧ k s2 = Some x.
Proof.
  induction s as [|c s IH]; simpl; intros H.
  { exists [], []. done. }
  destruct (p c.1) eqn:Hp.
  - destruct (match_many p s k) as [y|] eqn:E.
    + injection H as <-. destruct (IH eq_refl) as (s1 & s2 & -> & ? & ?).
      exists (c :: s1), s2. auto.
    + exists [], (c :: s). done.
  - exists [], (c :: s). done.
Qed.

Lemma match_many_complete p s1 s2 k :
  Forall (λ c : rune, p c.1 = true) s1 → is_Some (k s2) → is_Some (match_many p (s1 ++ s2)%list k).
Proof.
  induction 1 as [|c s1 Hc _ IH]; intros Hk; simpl.
  - destruct s2 as [|c s2]; [done|]. simpl. destruct (p c.1); [|done].
    by destruct (match_many p s2 k).
  - rewrite Hc. by destruct (IH Hk) as [? ->].
Qed.

Lemma re_match_sound r s k x :
  re_match r s k = Some x → ∃ s1 s2, s = (s1 ++ s2)%list ∧ re_lang r s1 ∧ k s2 = Some x.
Proof.
  revert s k; induction r as [|p|p|a IHa b IHb|a IHa b IHb]; intros s k; simpl.
  - intros H. exists [], s. split_and!; [done|constructor|done].
  - destruct s as [|c s]; [done|]. destruct (p c.1) eqn:Hp; [|done].
    intros H. exists [c], s. split_and!; [done|by constructor|done].
  - intros (s1 & s2 & -> & ? & ?)%match_many_sound. exists s1, s2. split_and!; [done|by constructor|done].
  - intros (s1 & s' & -> & ? & (s2 & s3 & -> & ? & ?)%IHb)%IHa.
    exists (s1 ++ s2)%list, s3. rewrite app_assoc. split_and!; [done|by constructor|done].
  - destruct (re_match a s k) eqn:E.
    + intros [= <-]. apply IHa in E as (s1 & s2 & ? & ? & ?). exists s1, s2. eauto using re_lang.
    + intros (s1 & s2 & ? & ? & ?)%IHb. exists s1, s2. eauto using re_lang.
Qed.

Lemma re_match_complete r s1 : re_lang r s1 → ∀ s2 k,
  is_Some (k s2) → is_Some (re_match r (s1 ++ s2)%list k).
Proof.
  induction 1; intros s2 k Hk; simpl.
  - done.
  - by rewrite H.
  - by apply match_many_complete.
  - rewrite <-app_assoc. auto.
  - by destruct (IHre_lang s2 k Hk) as [? ->].
  - destruct (re_match a _ k); [done|auto].
Qed.

(** The text has a substring in the language. *)
Definition occurs (r : re) (s : list rune) : Prop :=
  ∃ pre mid post, s = (pre ++ mid ++ post)%list ∧ re_lang r mid.

Lemma re_find_sound r s m rest :
  re_find r s = Some (m, rest) → re_lang r m ∧ ∃ pre, s = (pre ++ m ++ rest)%list.
Proof.
  induction s as [|c s IH]; cbn [re_find]; destruct (re_match r _ Some) as [x|] eqn:E.
  2: done. 3:{ intros H. destruct (IH H) as (? & pre & ->). split; [done|]. by exists (c :: pre). }
  all: apply re_match_sound in E as (s1 & s2 & -> & Hl & [= <-]); intros [= <- <-];
    rewrite length_app, Nat.add_sub, take_app_length; split; [done|by exists []].
Qed.

Lemma re_find_complete r s : occurs r s → is_Some (re_find r s).
Proof.
  intros (pre & mid & post & -> & Hl). induction pre as [|c pre IH]; simpl app.
  - destruct (re_match_complete r mid Hl post Some) as [x Hx]; [done|].
    destruct (mid ++ post)%list; simpl in *; by rewrite Hx.
  - cbn [re_find]. by destruct (re_match r (c :: _) Some).
Qed.

(** [m] is a piece of the text [s] that is in the language. *)
Definition occurrence (r : re) (s m : list rune) : Prop :=
  re_lang r m ∧ ∃ pre post, s = (pre ++ m ++ post)%list.

Lemma occurrence_occurs r s m : occurrence r s m → occurs r s.
Proof. intros [Hl (pre & post & ->)]. by exists pre, m, post. Qed.

Lemma occurrence_app r pre s m : occurrence r s m → occurrence r (pre ++ s)%list m.
Proof. intros [Hl (a & b & ->)]. split; [done|]. exists (pre ++ a)%list, b. by rewrite <-app_assoc. Qed.

Lemma find_all_sound fuel r s after m : m ∈ find_all fuel r s after → occurrence r s m.
Proof.
  revert s after; induction fuel as [|fuel IH]; intros s after; simpl; [by intros ?%elem_of_nil|].
  destruct (re_find r s) as [[m0 rest]|] eqn:E; [|by intros ?%elem_of_nil].
  apply re_find_sound in E as (Hl & pre & ->).
  assert (occurrence r (pre ++ m0 ++ rest)%list m0) as Hocc by (split; [done|by eexists _, _]).
  destruct m0 as [|c m0].
  - assert (m ∈ match rest with [] => [] | _ :: rest => find_all fuel r rest false end →
      occurrence r (pre ++ [] ++ rest)%list m) as Hr.
    { destruct rest as [|c rest]; [by intros ?%elem_of_nil|]. intros Hm%IH.
      by apply (occurrence_app r pre), (occurrence_app r [c]). }
    destruct (_ && _); [by auto|]. intros [->|?]%elem_of_cons; auto.
  - intros [->|Hm%IH]%elem_of_cons; [done|]. by do 2 apply occurrence_app.
Qed.

(** FindAllString finds something exactly when a substring is in the language, and all it
    finds is such a substring. *)
Lemma FindAllString_spec r text :
  (FindAllString r text ≠ [] ↔ occurs r (decode_runes text)) ∧
  ∀ m, m ∈ FindAllString r text → ∃ l, m = rune_bytes l ∧ occurrence r (decode_runes text) l.
Proof.
  unfold FindAllString. cbv zeta. split; [split|].
  - destruct (find_all _ _ _ _) as [|m l] eqn:E; [done|]. intros _.
    apply (occurrence_occurs r _ m), (find_all_sound (S (length (decode_runes text))) r _ false m).
    rewrite E. by left.
  - intros Hocc. simpl. destruct (re_find_complete _ _ Hocc) as [[m rest] ->].
    by destruct m.
  - intros m (l & -> & Hl)%elem_of_bmap. exists l. split; [done|]. by eapply find_all_sound.
Qed.

(** *** The scan

    An expression that does not match the empty text is found from left to right: no match
    starts in the gap before a reported one, the reported ones do not overlap, and none is
    left after the last. *)

Fixpoint nullable (r : re) : bool :=
  match r with
  | Eps | Many _ => true
  | Chr _ => false
  | Cat a b => nullable a && nullable b
  | Alt a b => nullable a || nullable b
  end.

Lemma nullable_spec r l : re_lang r l → nullable r = false → l ≠ [].
Proof.
  induction 1; simpl; try done.
  - intros [Ha|Hb]%andb_false_iff [-> ->]%app_nil; [by apply IHre_lang1|by apply IHre_lang2].
  - intros [? _]%orb_false_iff. auto.
  - intros [_ ?]%orb_false_iff. auto.
Qed.

(** A match starts at the first rune of [s]. *)
Definition starts (r : re) (s : list rune) : Prop := ∃ m rest, s = (m ++ rest)%list ∧ re_lang r m.

Inductive scan_of (r : re) : list rune → list (list rune) → Prop :=
  | scan_done s : ¬ occurs r s → scan_of r s []
  | scan_next pre m rest ms :
      (∀ p1 p2, pre = (p1 ++ p2)%list → p2 ≠ [] → ¬ starts r (p2 ++ m ++ rest)%list) →
      re_lang r m → scan_of r rest ms → scan_of r (pre ++ m ++ rest)%list (m :: ms).

Lemma re_match_None r s : re_match r s Some = None → ¬ starts r s.
Proof.
  intros H (m & rest & -> & Hl). destruct (re_match_complete r m Hl rest Some) as [x Hx]; [done|].
  congruence.
Qed.

Lemma re_match_take r s x : re_match r s Some = Some x →
  re_lang r (take (length s - length x) s) ∧ s = (take (length s - length x) s ++ x)%list.
Proof.
  intros (s1 & s2 & -> & Hl & [= <-])%re_match_sound.
  by rewrite length_app, Nat.add_sub, take_app_length.
Qed.

Lemma re_find_leftmost r s m rest : re_find r s = Some (m, rest) →
  re_lang r m ∧ ∃ pre, s = (pre ++ m ++ rest)%list ∧
    ∀ p1 p2, pre = (p1 ++ p2)%list → p2 ≠ [] → ¬ starts r (p2 ++ m ++ rest)%list.
Proof.
  induction s as [|c s IH]; cbn [re_find]; destruct (re_match r _ Some) as [x|] eqn:E.
  2: done.
  3:{ intros H. destruct (IH H) as (? & pre & -> & Hpre). split; [done|]. exists (c :: pre).
      split; [done|]. intros [|c' p1] p2 Hp Hne; simplify_list_eq; [by apply re_match_None|eauto]. }
  all: apply re_match_take in E as [Hl Hs]; intros [= <- <-]; split; [done|]; exists [];
    split; [done|]; intros p1 p2 Hp Hne; by destruct p1, p2.
Qed.

Lemma find_all_scan fuel r s after : nullable r = false → (length s < fuel)%nat →
  scan_of r s (find_all fuel r s after).
Proof.
  intros Hr. revert s after; induction fuel as [|fuel IH]; intros s after Hs; [lia|]. simpl.
  destruct (re_find r s) as [[m rest]|] eqn:E.
  - apply re_find_leftmost in E as (Hl & pre & -> & Hpre).
    pose proof (nullable_spec _ _ Hl Hr) as Hm. destruct m as [|c m]; [done|].
    constructor; [done..|]. apply IH. rewrite !length_app in Hs. simpl in Hs. lia.
  - constructor. intros Hocc. destruct (re_find_complete _ _ Hocc) as [? ?]. congruence.
Qed.

Lemma FindAllString_scan r text : nullable r = false →
  ∃ ms, FindAllString r text = List.map rune_bytes ms ∧ scan_of r (decode_runes text) ms.
Proof. intros Hr. eexists. split; [reflexivity|]. apply find_all_scan; [done|lia]. Qed.

Lemma re_find_None r s : re_find r s = None ↔ ¬ occurs r s.
Proof.
  split.
  - intros H Hocc. destruct (re_find_complete _ _ Hocc) as [? E]. congruence.
  - intros H. destruct (re_find r s) as [[m rest]|] eqn:E; [|done].
    apply re_find_sound in E as (? & pre & ->). destruct H. by exists pre, m, rest.
Qed.

(** ** Decoding loses nothing *)

Lemma decode_rune_width a s : (1 ≤ (decode_rune a s).2 ≤ S (String.length s))%nat.
Proof.
  unfold decode_rune. destruct (second_range _). repeat case_match; simpl; lia.
Qed.

Lemma decode_from_bytes skip s : rune_bytes (decode_from skip s) = str_drop skip s.
Proof.
  revert skip; induction s as [|a s IH]; intros skip; [by destruct skip|].
  destruct skip as [|n]; cbn [decode_from]; [|apply IH].
  pose proof (decode_rune_width a s) as Hw. destruct (decode_rune a s) as [cp w]. simpl in Hw.
  cbn [rune_bytes]. rewrite IH. destruct w as [|w]; [lia|]. simpl. rewrite Nat.sub_0_r.
  f_equal. apply str_take_drop.
Qed.

Lemma decode_runes_bytes s : rune_bytes (decode_runes s) = s.
Proof. apply decode_from_bytes. Qed.

Lemma rune_bytes_app a b : rune_bytes (a ++ b)%list = rune_bytes a ++ rune_bytes b.
Proof. induction a as [|[c s] a IH]; simpl; [done|]. by rewrite IH, str_app_assoc. Qed.

(** The bytes of a piece of the decoded text are a substring of the text. *)
Lemma occurrence_bytes r text l : occurrence r (decode_runes text) l →
  ∃ a b, text = a ++ rune_bytes l ++ b.
Proof.
  intros [_ (pre & post & H)]. apply (f_equal rune_bytes) in H.
  rewrite decode_runes_bytes, !rune_bytes_app in H. eauto.
Qed.

Example FindString_leftmost_first :
  FindString (Alt (Lit "a") (Lit "ab")) "xabab" = "a" ∧
  FindAllString (Alt (Lit "ab") (Lit "a")) "xabab" = ["ab"; "ab"].
Proof. vm_compute. auto. Qed.
