(* ===== verification/Float64.v ===== *)
(** * float64 arithmetic on integers

    The program computes queue scores in float64.  Every operand and result there
    is an integer of absolute value below 2^1024, so a float64 is the integer it
    denotes and an operation is the exact one followed by IEEE-754 rounding to a
    53-bit significand, ties to even.  [f64_round_SpecFloat] compares the rounding
    with the Standard Library's IEEE specification on sample values. *)
From S2P Require Import Prelude.
From Stdlib Require Import SpecFloat.

(** Round [z] to the nearest integer with a 53-bit significand, ties to even. *)
Definition f64_round (z : Z) : Z :=
  let a := Z.abs z in
  let e := Z.max 0 (Z.log2 a - 52) in
  let u := 2 ^ e in
  let q := a / u in
  let r := a mod u in
  let q' := if (u <? 2 * r) || ((2 * r =? u) && Z.odd q) then q + 1 else q in
  Z.sgn z * (q' * u).

(** float64(i) for an integer i, and the operators on float64. *)
Definition f64_of_int (z : Z) : Z := f64_round z.
Definition f64_mul (x y : Z) : Z := f64_round (x * y).
Definition f64_sub (x y : Z) : Z := f64_round (x - y).

(** The integer a binary64 of the IEEE specification denotes, truncated toward
    zero: Go's conversion int(f).  Out-of-range values and NaN give the minimum
    int64, as on the amd64 platform. *)
Definition f64_to_int (f : spec_float) : Z :=
  match f with
  | S754_zero _ => 0
  | S754_finite s m e =>
      let a := if 0 <=? e then Z.pos m * 2 ^ e else Z.pos m / 2 ^ (- e) in
      let z := if s then - a else a in
      if (- 2 ^ 63 <=? z) && (z <? 2 ^ 63) then z else - 2 ^ 63
  | S754_infinity _ | S754_nan => - 2 ^ 63
  end.

(** The binary64 value of an integer, and its sign as [float64] comparisons see it. *)
Definition spec_of_int (z : Z) : spec_float := binary_normalize 53 1024 z 0 false.

(** ** Facts *)

Lemma f64_round_exact z : Z.abs z ≤ 2 ^ 53 → f64_round z = z.
Proof.
  intros H. unfold f64_round.
  destruct (decide (Z.abs z = 2 ^ 53)) as [E|E].
  { rewrite E. destruct (Z.abs_spec z) as [[? Hz]|[? Hz]]; rewrite Hz in E; [subst z|
      replace z with (- 2 ^ 53) by lia]; reflexivity. }
  assert (Z.max 0 (Z.log2 (Z.abs z) - 52) = 0) as ->.
  { destruct (decide (z = 0)) as [->|]; [done|].
    assert (Z.log2 (Z.abs z) < 53) by (apply Z.log2_lt_pow2; lia). lia. }
  change (2 ^ 0) with 1. rewrite Z.mod_1_r, Z.div_1_r. simpl.
  rewrite Z.mul_1_r. pose proof (Z.sgn_abs z). lia.
Qed.

Example f64_round_SpecFloat :
  forallb (λ z, match spec_of_int z with
                | S754_zero _ => f64_round z =? 0
                | S754_finite s m e =>
                    (0 <=? e) && (f64_round z =? (if s then -1 else 1) * Z.pos m * 2 ^ e) ||
                    (e <? 0) && (f64_round z * 2 ^ (- e) =? (if s then -1 else 1) * Z.pos m)
                | _ => false
                end)
    [0; 1; -7; 2 ^ 53 - 1; 2 ^ 53; 2 ^ 53 + 1; 2 ^ 53 + 3; - (2 ^ 54 + 2); 2 ^ 54 + 6;
     9223372036854775807; -9223372036854775808; 9223372036854775295; 10 ^ 25 + 12345;
     1700000000000000 * 9999999967] = true.
Proof. vm_compute. reflexivity. Qed.
