(* ===== verification/Domain.v ===== *)
(** * internal/domain: the data model of the control plane

    Instants and durations are integers in nanoseconds, as Go's [time.Time]
    ([None] is a nil [*time.Time]).  A [uuid] is the 16 bytes of a UUID read
    big-endian.  The string-valued enumerations of the source stay strings: any
    text can be stored in the column or arrive in a request. *)
From S2P Require Import Prelude GoStd.
From Stdlib Require Import SpecFloat.

#[local] Set Warnings "-register-all".

Abbreviation uuid := Z (only parsing).

(** [uuid.Nil] and the byte [id[i]]. *)
Definition uuid_Nil : uuid := 0.
Definition uuid_byte (id : uuid) (i : Z) : Z := Z.land (Z.shiftr id (8 * (15 - i))) 255.

Definition Second : Z := 1000000000.
Definition Minute : Z := 60 * Second.
Definition Hour : Z := 60 * Minute.

(** [time.Time.UnixMicro] *)
Definition UnixMicro (t : Z) : Z := t / 1000.

(** A decoded JSON value: Go's [any] after json.Unmarshal. *)
Inductive json :=
  | JNull
  | JBool (b : bool)
  | JNum (f : spec_float)      (* float64 *)
  | JStr (s : string)
  | JArr (l : list json)
  | JObj (l : list (string * json)).

(** A Go slice: [None] is the nil slice, which a nullable array column and
    encoding/json tell apart from an empty one. *)
Definition slice (A : Type) : Type := option (list A).
Definition elems {A} (s : slice A) : list A := default [] s.

(** ** Enumerations *)

Definition WorkerStateIdle : string := "idle".
Definition WorkerStateBusy : string := "busy".
Definition WorkerStatePaused : string := "paused".
Definition WorkerStateOffline : string := "offline".

Definition TaskStateQueued : string := "queued".
Definition TaskStateAssigned : string := "assigned".
Definition TaskStateRunning : string := "running".
Definition TaskStateCompleted : string := "completed".
Definition TaskStateFailed : string := "failed".
Definition TaskStateCancelled : string := "cancelled".

Definition ReviewStatusPending : string := "pending".
Definition ReviewStatusApproved : string := "approved".
Definition ReviewStatusRejected : string := "rejected".
Definition ReviewStatusChangesRequested : string := "changes_requested".

Definition ActorTypeAPIKey : string := "api_key".
Definition ActorTypeSystem : string := "system".

(** ** Records *)

Record OrgUnit := MkOrgUnit {
  Org_ID : uuid;
  Org_Name : string;
  Org_PlanTier : string;
  Org_Policy : gmap string json;
  Org_CreatedAt : Z;
  Org_UpdatedAt : Z;
}.

Record Worker := MkWorker {
  Worker_ID : uuid;
  Worker_OrgUnitID : uuid;
  Worker_HostnameHash : string;
  Worker_Agents : slice string;
  Worker_State : string;
  Worker_LastHeartbeatAt : option Z;
  Worker_CapacityScore : Z;
  Worker_CreatedAt : Z;
}.

Record Task := MkTask {
  Task_ID : uuid;
  Task_OrgUnitID : uuid;
  Task_SubmitterID : option uuid;
  Task_Title : string;
  Task_Description : string;
  Task_TaskType : string;
  Task_Priority : Z;
  Task_AIAgent : string;
  Task_State : string;
  Task_AssignedWorkerID : option uuid;
  Task_QueuedAt : Z;
  Task_AssignedAt : option Z;
  Task_StartedAt : option Z;
  Task_CompletedAt : option Z;
  Task_FailedAt : option Z;
  Task_ErrorMessage : string;
  Task_RetryCount : Z;
  Task_MaxRetries : Z;
  Task_Options : gmap string json;
}.

Record APIKey := MkAPIKey {
  Key_ID : uuid;
  Key_OrgUnitID : uuid;
  Key_WorkerID : option uuid;
  Key_KeyHash : string;
  Key_KeyPrefix : string;
  Key_Name : string;
  Key_Scopes : slice string;
  Key_CreatedAt : Z;
  Key_ExpiresAt : option Z;
  Key_RevokedAt : option Z;
  Key_LastUsedAt : option Z;
}.

Record AuditEvent := MkAuditEvent {
  Audit_ID : uuid;
  Audit_OrgUnitID : uuid;
  Audit_ActorType : string;
  Audit_ActorID : string;
  Audit_Action : string;
  Audit_ResourceType : string;
  Audit_ResourceID : option string;
  Audit_Details : gmap string json;
  Audit_IPAddress : string;
  Audit_OccurredAt : Z;
}.

Record ArtifactMeta := MkArtifactMeta {
  Art_RelPath : string;
  Art_SHA256 : string;
  Art_Size : Z;
}.

Record OutputPackage := MkOutputPackage {
  Out_ID : uuid;
  Out_TaskID : uuid;
  Out_WorkerID : uuid;
  Out_HMACSha256 : string;
  Out_Artifacts : list ArtifactMeta;
  Out_Metadata : gmap string json;
  Out_ReviewStatus : string;
  Out_ReviewerID : option uuid;
  Out_SubmittedAt : Z;
  Out_ReviewedAt : option Z;
}.

Record BrownieEvent := MkBrownieEvent {
  Brownie_ID : uuid;
  Brownie_WorkerID : uuid;
  Brownie_OrgUnitID : uuid;
  Brownie_Points : Z;
  Brownie_Reason : string;
  Brownie_ReferenceID : option uuid;
  Brownie_CreatedAt : Z;
}.

Record TimeWindow := MkTimeWindow {
  TW_DayOfWeek : slice Z;      (* 0 = Sunday .. 6 = Saturday *)
  TW_StartHour : Z;
  TW_EndHour : Z;
  TW_Timezone : string;
}.

Record OrgPolicy := MkOrgPolicy {
  OP_ExecutionWindows : slice TimeWindow;
  OP_MaxConcurrentJobs : Z;
  OP_AllowedAgents : slice string;
  OP_AutoMerge : bool;
  OP_RequireReview : bool;
  OP_MaxRetries : Z;
}.

Record LeaderboardEntry := MkLeaderboardEntry {
  LB_WorkerID : uuid;
  LB_OrgUnitID : uuid;
  LB_TotalPoints : Z;
  LB_EventCount : Z;
}.
