(* ===== verification/World.v ===== *)
(** * The state of the control plane and its external services

    [pgdb] is the PostgreSQL database, one list of rows per table of migrations/.
    Redis is used through the commands of go-redis: [Redis] is their signature and
    [RedisLaws] the documented behaviour the code relies on, so everything built on
    it holds for any implementation; [toy_redis] is one.

    A statement can fail because the service is unreachable: it is refused and nothing
    happens, or it takes effect and its reply is lost, so that the caller sees an error
    although the data changed.  [w_faults] is the schedule of such failures: each statement
    consumes one entry, and every theorem quantifies over the schedule.  The clock does not move during one operation; the
    passage of time is a step of its own in the systems built on this state.  [w_row_locks] and [w_adv_locks] are the row and
    advisory locks that other open transactions hold. *)
From S2P Require Import Prelude Sql GoStd Domain.

(** ** Redis *)

Class Redis (R : Type) := {
  redis_Set : string → string → Z → R → R;      (* SET key value, expiring at an instant *)
  redis_Exists : Z → string → R → bool;         (* EXISTS key, at an instant *)
  redis_Del : string → R → R;
  redis_Incr : Z → string → R → Z * R;
  redis_Expire : Z → string → Z → R → R;        (* EXPIRE key, to expire at an instant *)
  redis_ZAdd : string → Z → string → R → R;     (* ZADD key score member *)
  redis_ZPopMax : string → R → option (string * Z) * R;
  redis_ZCard : string → R → Z;
  redis_ZRem : string → string → R → R;
  redis_counter : Z → string → R → Z;           (* the integer GET reads, 0 when absent *)
  redis_zset : string → R → gmap string Z;      (* the members and scores of a sorted set *)
}.

Class RedisLaws (R : Type) `{Redis R} := {
  redis_exists_set now k v e r : redis_Exists now k (redis_Set k v e r) = (now <? e);
  redis_exists_set_ne now k k' v e r :
    k ≠ k' → redis_Exists now k' (redis_Set k v e r) = redis_Exists now k' r;
  redis_exists_del now k r : redis_Exists now k (redis_Del k r) = false;
  redis_exists_del_ne now k k' r :
    k ≠ k' → redis_Exists now k' (redis_Del k r) = redis_Exists now k' r;
  redis_incr_value now k r : (redis_Incr now k r).1 = redis_counter now k r + 1;
  redis_incr_expire now now' k e r :
    now < e → now ≤ now' →
    redis_counter now' k (redis_Expire now k e (redis_Incr now k r).2) =
      if now' <? e then redis_counter now k r + 1 else 0;
  redis_incr_expire_ne now now' k k' e r :
    k ≠ k' →
    redis_counter now' k' (redis_Expire now k e (redis_Incr now k r).2) =
      redis_counter now' k' r;
  redis_zadd k s m r : redis_zset k (redis_ZAdd k s m r) = <[m := s]> (redis_zset k r);
  redis_zcard k r : redis_ZCard k r = Z.of_nat (size (redis_zset k r));
  redis_zrem k m r : redis_zset k (redis_ZRem k m r) = delete m (redis_zset k r);
  redis_zpopmax_None k r :
    (redis_ZPopMax k r).1 = None → redis_zset k r = ∅ ∧ redis_zset k (redis_ZPopMax k r).2 = ∅;
  redis_zpopmax_Some k r m s :
    (redis_ZPopMax k r).1 = Some (m, s) →
    redis_zset k r !! m = Some s ∧
    (∀ m' s', redis_zset k r !! m' = Some s' → s' ≤ s) ∧
    redis_zset k (redis_ZPopMax k r).2 = delete m (redis_zset k r);
  redis_zset_set k k' v e r : k ≠ k' → redis_zset k (redis_Set k' v e r) = redis_zset k r;
  redis_zset_incr_expire now k k' e r :
    k ≠ k' → redis_zset k (redis_Expire now k' e (redis_Incr now k' r).2) = redis_zset k r;
  redis_exists_zadd now k k' s m r :
    k ≠ k' → redis_Exists now k (redis_ZAdd k' s m r) = redis_Exists now k r;
  redis_counter_set_ne now k k' v e r :
    k ≠ k' → redis_counter now k' (redis_Set k v e r) = redis_counter now k' r;
}.

(** ** The database *)

Record pgdb := MkDB {
  db_orgs : list OrgUnit;
  db_workers : list Worker;
  db_tasks : list Task;
  db_apikeys : list APIKey;
  db_audit : list AuditEvent;
  db_outputs : list OutputPackage;
  db_ledger : list BrownieEvent;
  db_leaderboard : list LeaderboardEntry;   (* the materialised view *)
}.

Definition empty_db : pgdb := MkDB [] [] [] [] [] [] [] [].

Definition set_orgs (l : list OrgUnit) (d : pgdb) : pgdb :=
  MkDB l (db_workers d) (db_tasks d) (db_apikeys d) (db_audit d) (db_outputs d) (db_ledger d) (db_leaderboard d).
Definition set_workers (l : list Worker) (d : pgdb) : pgdb :=
  MkDB (db_orgs d) l (db_tasks d) (db_apikeys d) (db_audit d) (db_outputs d) (db_ledger d) (db_leaderboard d).
Definition set_tasks (l : list Task) (d : pgdb) : pgdb :=
  MkDB (db_orgs d) (db_workers d) l (db_apikeys d) (db_audit d) (db_outputs d) (db_ledger d) (db_leaderboard d).
Definition set_apikeys (l : list APIKey) (d : pgdb) : pgdb :=
  MkDB (db_orgs d) (db_workers d) (db_tasks d) l (db_audit d) (db_outputs d) (db_ledger d) (db_leaderboard d).
Definition set_audit (l : list AuditEvent) (d : pgdb) : pgdb :=
  MkDB (db_orgs d) (db_workers d) (db_tasks d) (db_apikeys d) l (db_outputs d) (db_ledger d) (db_leaderboard d).
Definition set_outputs (l : list OutputPackage) (d : pgdb) : pgdb :=
  MkDB (db_orgs d) (db_workers d) (db_tasks d) (db_apikeys d) (db_audit d) l (db_ledger d) (db_leaderboard d).
Definition set_ledger (l : list BrownieEvent) (d : pgdb) : pgdb :=
  MkDB (db_orgs d) (db_workers d) (db_tasks d) (db_apikeys d) (db_audit d) (db_outputs d) l (db_leaderboard d).

Definition org_exists (d : pgdb) (id : uuid) : bool :=
  existsb (λ o, Org_ID o =? id) (db_orgs d).
Definition worker_exists (d : pgdb) (id : uuid) : bool :=
  existsb (λ w, Worker_ID w =? id) (db_workers d).

(** REFERENCES workers(id) on a nullable column. *)
Definition worker_ref_ok (d : pgdb) (id : option uuid) : bool :=
  match id with Some id => worker_exists d id | None => true end.

(** ** Background jobs

    Goroutines that a request starts and does not wait for: each runs one statement later,
    as a step of its own. *)
Inductive background :=
  | BgLastUsed (id : uuid)            (* auth: UpdateAPIKeyLastUsed *)
  | BgAudit (ev : AuditEvent).        (* audit: WriteAuditEvent *)

(** ** Failures of a connection *)

Inductive fault :=
  | Delivered        (* the statement runs and its reply arrives *)
  | Refused          (* the statement does not run *)
  | ReplyLost.       (* the statement runs; the connection is lost before its reply *)

(** ** The world *)

Record world {R : Type} := MkWorld {
  w_now : Z;
  w_faults : list fault;
  w_uuids : list uuid;
  w_rand : string;
  w_bg : list background;
  w_row_locks : list uuid;
  w_adv_locks : list Z;
  w_db : pgdb;
  w_redis : R;
}.
Arguments world : clear implicits.
Arguments MkWorld {_} _ _ _ _ _ _ _ _ _.

Section world.
Context {R : Type}.
Implicit Types (w : world R).

Definition set_faults (l : list fault) w : world R :=
  MkWorld (w_now w) l (w_uuids w) (w_rand w) (w_bg w) (w_row_locks w) (w_adv_locks w) (w_db w) (w_redis w).
Definition set_db (d : pgdb) w : world R :=
  MkWorld (w_now w) (w_faults w) (w_uuids w) (w_rand w) (w_bg w) (w_row_locks w) (w_adv_locks w) d (w_redis w).
Definition set_redis (r : R) w : world R :=
  MkWorld (w_now w) (w_faults w) (w_uuids w) (w_rand w) (w_bg w) (w_row_locks w) (w_adv_locks w) (w_db w) r.
Definition set_now (t : Z) w : world R :=
  MkWorld t (w_faults w) (w_uuids w) (w_rand w) (w_bg w) (w_row_locks w) (w_adv_locks w) (w_db w) (w_redis w).

(** [uuid.New()]: the identifiers the random source will produce are a supply that
    every theorem quantifies over. *)
Definition set_uuids (l : list uuid) w : world R :=
  MkWorld (w_now w) (w_faults w) l (w_rand w) (w_bg w) (w_row_locks w) (w_adv_locks w) (w_db w) (w_redis w).

Definition new_uuid : M (world R) uuid := λ w,
  match w_uuids w with
  | [] => (uuid_Nil, w)
  | u :: l => (u, set_uuids l w)
  end.

(** The identifier that the next [uuid.New()] returns. *)
Definition uuid_head w : uuid := default uuid_Nil (head (w_uuids w)).

(** [rand.Read] of crypto/rand: it fills the buffer from the system's random source, a
    supply of bytes, and fails when the source does. *)
Definition set_rand (s : string) w : world R :=
  MkWorld (w_now w) (w_faults w) (w_uuids w) s (w_bg w) (w_row_locks w) (w_adv_locks w) (w_db w) (w_redis w).

Definition rand_Read (n : nat) : M (world R) (result string) := λ w,
  if (String.length (w_rand w) <? n)%nat then (Err (ErrMsg "crypto/rand"), w)
  else (Ok (str_take n (w_rand w)), set_rand (str_drop n (w_rand w)) w).

(** A [go] statement. *)
Definition set_bg (l : list background) w : world R :=
  MkWorld (w_now w) (w_faults w) (w_uuids w) (w_rand w) l (w_row_locks w) (w_adv_locks w) (w_db w) (w_redis w).

Definition go_stmt (job : background) : M (world R) unit := λ w, (tt, set_bg (w_bg w ++ [job]) w).

(** [time.Now().UTC()] *)
Definition time_Now : M (world R) Z := λ w, (w_now w, w).

(** What becomes of the next statement. *)
Definition next_fault : M (world R) fault := λ w,
  match w_faults w with
  | [] => (Delivered, w)
  | b :: l => (b, set_faults l w)
  end.

(** A statement sent to PostgreSQL, a transaction of its own: it reads NOW() and the
    database and either fails, leaving the database as it is, or commits its changes.
    When its reply is lost the caller has an error for a statement that was committed. *)
Definition pg_exec {A} (f : Z → pgdb → result (A * pgdb)) : M (world R) (result A) := λ w,
  let '(fault, w) := next_fault w in
  match fault, f (w_now w) (w_db w) with
  | Refused, _ => (Err ErrUnavailable, w)
  | Delivered, Ok (a, d) => (Ok a, set_db d w)
  | Delivered, Err e => (Err e, w)
  | ReplyLost, Ok (_, d) => (Err ErrUnavailable, set_db d w)
  | ReplyLost, Err _ => (Err ErrUnavailable, w)
  end.

Definition pg_query {A} (f : Z → pgdb → result A) : M (world R) (result A) := λ w,
  let '(fault, w) := next_fault w in
  match fault with
  | Delivered => (f (w_now w) (w_db w), w)
  | _ => (Err ErrUnavailable, w)
  end.

(** A command sent to Redis. *)
Definition redis_do {A} (f : Z → R → A * R) : M (world R) (result A) := λ w,
  let '(fault, w) := next_fault w in
  let '(a, r) := f (w_now w) (w_redis w) in
  match fault with
  | Delivered => (Ok a, set_redis r w)
  | Refused => (Err ErrUnavailable, w)
  | ReplyLost => (Err ErrUnavailable, set_redis r w)
  end.

(** ** Frame facts *)

Lemma next_fault_frame w b w' :
  next_fault w = (b, w') →
  w_db w' = w_db w ∧ w_redis w' = w_redis w ∧ w_now w' = w_now w ∧
  w_row_locks w' = w_row_locks w ∧ w_adv_locks w' = w_adv_locks w.
Proof. unfold next_fault. destruct (w_faults w); intros; simplify_eq; done. Qed.

(** The replies that the schedule loses. *)
Definition lost_replies w : nat :=
  length (List.filter (λ b, match b with ReplyLost => true | _ => false end) (w_faults w)).

Lemma next_fault_lost w b w' :
  next_fault w = (b, w') →
  lost_replies w = (match b with ReplyLost => 1 | _ => 0 end + lost_replies w')%nat.
Proof. unfold next_fault, lost_replies. destruct (w_faults w) as [|[] l] eqn:E; intros [= <- <-]; simpl; by rewrite ?E. Qed.

(** An operation takes its failures from the schedule. *)
Definition consumes {A} (m : M (world R) A) : Prop := ∀ w, (lost_replies (m w).2 ≤ lost_replies w)%nat.

Lemma consumes_run {A} (m : M (world R) A) w a w' :
  consumes m → m w = (a, w') → (lost_replies w' ≤ lost_replies w)%nat.
Proof. intros Hm E. specialize (Hm w). by rewrite E in Hm. Qed.

Lemma consumes_ret {A} (a : A) : consumes (mret a).
Proof. intros w. simpl. lia. Qed.

Lemma consumes_bind {A B} (m : M (world R) A) (f : A → M (world R) B) :
  consumes m → (∀ a, consumes (f a)) → consumes (m ≫= f).
Proof.
  intros Hm Hf w. unfold mbind, M_bind. specialize (Hm w). destruct (m w) as [a w1]; simpl in *.
  specialize (Hf a w1). lia.
Qed.

Lemma consumes_exec {A} (f : Z → pgdb → result (A * pgdb)) : consumes (pg_exec f).
Proof.
  intros w. unfold pg_exec. destruct (next_fault w) as [b w1] eqn:E. apply next_fault_lost in E.
  destruct (f _ _) as [[]|], b; simpl; rewrite E; apply Nat.le_add_l.
Qed.

Lemma consumes_query {A} (f : Z → pgdb → result A) : consumes (pg_query f).
Proof.
  intros w. unfold pg_query. destruct (next_fault w) as [b w1] eqn:E. apply next_fault_lost in E.
  destruct b; simpl; lia.
Qed.

Lemma consumes_redis {A} (f : Z → R → A * R) : consumes (redis_do f).
Proof.
  intros w. unfold redis_do. destruct (next_fault w) as [b w1] eqn:E. apply next_fault_lost in E.
  destruct (f _ _), b; simpl; rewrite E; apply Nat.le_add_l.
Qed.

(** A statement that failed left the database as it is, or took effect without a reply. *)
Lemma pg_exec_inv {A} (f : Z → pgdb → result (A * pgdb)) w r w' :
  pg_exec f w = (r, w') →
  w_redis w' = w_redis w ∧ w_now w' = w_now w ∧
  ((∃ a d, r = Ok a ∧ f (w_now w) (w_db w) = Ok (a, d) ∧ w_db w' = d) ∨
   (∃ e, r = Err e ∧ w_db w' = w_db w) ∨
   (∃ a d, r = Err ErrUnavailable ∧ f (w_now w) (w_db w) = Ok (a, d) ∧ w_db w' = d ∧
      (lost_replies w' < lost_replies w)%nat)).
Proof.
  unfold pg_exec. destruct (next_fault w) as [b w1] eqn:E. pose proof (next_fault_lost _ _ _ E) as Hl.
  apply next_fault_frame in E as (Hdb & Hr & Hn & _). rewrite Hdb, Hn.
  destruct (f _ _) as [[a d]|e] eqn:Ef, b; intros; simplify_eq/=; split_and!; eauto 10.
  right; right. exists a, d. split_and!; try done. rewrite Hl. apply Nat.lt_succ_diag_r.
Qed.

(** The same, by what becomes of the database. *)
Lemma pg_exec_effect {A} (f : Z → pgdb → result (A * pgdb)) w r w' :
  pg_exec f w = (r, w') →
  w_redis w' = w_redis w ∧ w_now w' = w_now w ∧
  ((∃ e, r = Err e ∧ w_db w' = w_db w) ∨
   (∃ a d, f (w_now w) (w_db w) = Ok (a, d) ∧ w_db w' = d ∧ (r = Ok a ∨ r = Err ErrUnavailable))).
Proof.
  intros (? & ? & [(a & d & -> & Hf & Hd)|[?|(a & d & -> & Hf & Hd & _)]])%pg_exec_inv;
    split_and!; auto; right; eauto 10.
Qed.

Lemma pg_query_inv {A} (f : Z → pgdb → result A) w r w' :
  pg_query f w = (r, w') →
  w_db w' = w_db w ∧ w_redis w' = w_redis w ∧ w_now w' = w_now w ∧
  (r = f (w_now w) (w_db w) ∨ r = Err ErrUnavailable).
Proof.
  unfold pg_query. destruct (next_fault w) as [b w1] eqn:E.
  apply next_fault_frame in E as (Hdb & Hr & Hn & _). rewrite Hdb, Hn.
  destruct b; intros; simplify_eq; auto.
Qed.

Lemma redis_do_inv {A} (f : Z → R → A * R) w r w' :
  redis_do f w = (r, w') →
  w_db w' = w_db w ∧ w_now w' = w_now w ∧
  ((∃ a rd, r = Ok a ∧ f (w_now w) (w_redis w) = (a, rd) ∧ w_redis w' = rd) ∨
   (r = Err ErrUnavailable ∧
    (w_redis w' = w_redis w ∨ w_redis w' = (f (w_now w) (w_redis w)).2))).
Proof.
  unfold redis_do. destruct (next_fault w) as [b w1] eqn:E.
  apply next_fault_frame in E as (Hdb & Hr & Hn & _). rewrite Hr, Hn.
  destruct (f _ _) as [a rd] eqn:Ef; destruct b; intros; simplify_eq/=; split_and!; eauto 10.
Qed.

Lemma redis_do_uuids {A} (f : Z → R → A * R) w : w_uuids (redis_do f w).2 = w_uuids w.
Proof.
  unfold redis_do, next_fault. destruct (w_faults w) as [|[] l]; simpl; by destruct (f _ _).
Qed.

Lemma new_uuid_head w : (new_uuid w).1 = uuid_head w.
Proof. unfold new_uuid, uuid_head. by destruct (w_uuids w). Qed.

Lemma new_uuid_frame w u w' :
  new_uuid w = (u, w') →
  w_db w' = w_db w ∧ w_redis w' = w_redis w ∧ w_now w' = w_now w ∧ w_faults w' = w_faults w.
Proof. unfold new_uuid. destruct (w_uuids w); intros; simplify_eq; done. Qed.

(** Without failures scheduled, a statement is exactly its effect. *)
Lemma pg_exec_nofault {A} (f : Z → pgdb → result (A * pgdb)) w :
  w_faults w = [] →
  pg_exec f w = match f (w_now w) (w_db w) with
                | Ok (a, d) => (Ok a, set_db d w)
                | Err e => (Err e, w)
                end.
Proof. intros H. unfold pg_exec, next_fault. rewrite H. by destruct (f _ _) as [[]|]. Qed.

Lemma pg_query_nofault {A} (f : Z → pgdb → result A) w :
  w_faults w = [] → pg_query f w = (f (w_now w) (w_db w), w).
Proof. intros H. unfold pg_query, next_fault. by rewrite H. Qed.

Lemma redis_do_nofault {A} (f : Z → R → A * R) w :
  w_faults w = [] →
  redis_do f w = let '(a, r) := f (w_now w) (w_redis w) in (Ok a, set_redis r w).
Proof. intros H. unfold redis_do, next_fault. by rewrite H. Qed.

End world.

(** ** An implementation of the Redis commands *)

Record toy_redis := MkToy {
  toy_kv : gmap string (Z * option Z);          (* value and expiry *)
  toy_z : gmap string (gmap string Z);
}.

Definition toy_live (now : Z) (e : option Z) : bool :=
  match e with Some e => now <? e | None => true end.

Definition toy_get (now : Z) (k : string) (r : toy_redis) : option (Z * option Z) :=
  match toy_kv r !! k with
  | Some (v, e) => if toy_live now e then Some (v, e) else None
  | None => None
  end.

Definition toy_zset (k : string) (r : toy_redis) : gmap string Z := default ∅ (toy_z r !! k).

(** The member of highest score in a list of members. *)
Definition toy_better (x y : string * Z) : string * Z := if x.2 <? y.2 then y else x.
Definition toy_max (l : list (string * Z)) : option (string * Z) :=
  match l with [] => None | x :: l => Some (foldl toy_better x l) end.

#[export] Instance toy_Redis : Redis toy_redis := {|
  redis_Set k v e r := MkToy (<[k := (default 0 (Atoi v), Some e)]> (toy_kv r)) (toy_z r);
  redis_Exists now k r := bool_decide (is_Some (toy_get now k r));
  redis_Del k r := MkToy (delete k (toy_kv r)) (toy_z r);
  redis_Incr now k r :=
    match toy_get now k r with
    | Some (v, e) => (v + 1, MkToy (<[k := (v + 1, e)]> (toy_kv r)) (toy_z r))
    | None => (1, MkToy (<[k := (1, None)]> (toy_kv r)) (toy_z r))
    end;
  redis_Expire now k e r :=
    match toy_get now k r with
    | Some (v, _) => MkToy (<[k := (v, Some e)]> (toy_kv r)) (toy_z r)
    | None => r
    end;
  redis_ZAdd k s m r := MkToy (toy_kv r) (<[k := <[m := s]> (toy_zset k r)]> (toy_z r));
  redis_ZPopMax k r :=
    match toy_max (map_to_list (toy_zset k r)) with
    | Some (m, s) => (Some (m, s), MkToy (toy_kv r) (<[k := delete m (toy_zset k r)]> (toy_z r)))
    | None => (None, r)
    end;
  redis_ZCard k r := Z.of_nat (size (toy_zset k r));
  redis_ZRem k m r := MkToy (toy_kv r) (<[k := delete m (toy_zset k r)]> (toy_z r));
  redis_counter now k r := match toy_get now k r with Some (v, _) => v | None => 0 end;
  redis_zset := toy_zset;
|}.

Definition toy_empty : toy_redis := MkToy ∅ ∅.

Lemma toy_better_fold l x :
  let b := foldl toy_better x l in
  (b = x ∨ b ∈ l) ∧ x.2 ≤ b.2 ∧ ∀ y, y ∈ l → y.2 ≤ b.2.
Proof.
  revert x; induction l as [|y l IH]; intros x; simpl.
  { split_and!; [by left | lia | intros y Hy; by apply elem_of_nil in Hy]. }
  destruct (IH (toy_better x y)) as (Hin & Hle & Hall).
  assert ((toy_better x y = y ∧ x.2 < y.2) ∨ (toy_better x y = x ∧ y.2 ≤ x.2)) as [[E ?]|[E ?]].
  { unfold toy_better. destruct (x.2 <? y.2) eqn:E; boolify; auto. }
  all: rewrite E in *; split_and!; [| lia | intros z [->|?]%elem_of_cons; [lia | by apply Hall]].
  - destruct Hin as [->|?]; right; [by left | by right].
  - destruct Hin as [->|?]; [by left | right; by right].
Qed.

Lemma toy_max_Some l m s :
  toy_max l = Some (m, s) → (m, s) ∈ l ∧ ∀ m' s', (m', s') ∈ l → s' ≤ s.
Proof.
  destruct l as [|x l]; [done|]. intros H. simpl in H. simplify_eq.
  destruct (toy_better_fold l x) as (Hin & Hle & Hall). rewrite H in *. split.
  - destruct Hin as [<-|?]; [by left | by right].
  - intros m' s' [<-|Hy]%elem_of_cons; [done | by apply (Hall (m', s'))].
Qed.

#[export] Instance toy_RedisLaws : RedisLaws toy_redis.
Proof.
  constructor; simpl; unfold toy_get, toy_zset; simpl.
  - intros. rewrite lookup_insert_eq. simpl. destruct (now <? e); by apply bool_decide_eq_true + done.
  - intros. by rewrite lookup_insert_ne.
  - intros. by rewrite lookup_delete_eq.
  - intros. by rewrite lookup_delete_ne.
  - intros. destruct (toy_kv r !! k) as [[v e]|]; [|done]. by destruct (toy_live now e).
  - intros now now' k e r He Hn. destruct (toy_kv r !! k) as [[v e0]|] eqn:E; simpl;
      [destruct (toy_live now e0) eqn:El; simpl|];
      rewrite ?lookup_insert_eq; simpl; rewrite ?El; simpl; rewrite ?lookup_insert_eq; simpl;
      by destruct (now' <? e).
  - intros now now' k k' e r Hne. destruct (toy_kv r !! k) as [[v e0]|] eqn:E; simpl;
      [destruct (toy_live now e0) eqn:El; simpl|];
      rewrite ?lookup_insert_eq; simpl; rewrite ?El; simpl; by rewrite ?lookup_insert_ne.
  - intros. by rewrite lookup_insert_eq.
  - done.
  - intros. by rewrite lookup_insert_eq.
  - intros k r. destruct (map_to_list _) as [|x l] eqn:E; simpl.
    + apply map_to_list_empty_iff in E. by rewrite E.
    + by destruct (foldl _ _ _).
  - intros k r m s. destruct (toy_max _) as [[m' s']|] eqn:E; intros; simplify_eq/=.
    apply toy_max_Some in E as [Hin Hmax]. apply elem_of_map_to_list in Hin.
    split_and!; [done| |by rewrite lookup_insert_eq].
    intros m' s' Hs. eapply Hmax, elem_of_map_to_list, Hs.
  - done.
  - intros. destruct (toy_kv r !! k') as [[v e0]|] eqn:E; simpl;
      [destruct (toy_live now e0) eqn:El; simpl|];
      rewrite ?lookup_insert_eq; simpl; by rewrite ?El.
  - done.  - intros. by rewrite lookup_insert_ne.
Qed.

Definition toy_world (now : Z) (d : pgdb) : world toy_redis := MkWorld now [] [] "" [] [] [] d toy_empty.
