(* ===== verification/RedisStore.v ===== *)
(** * internal/store/redis and internal/queue: the users of Redis

    Heartbeat keys with a TTL, the rate-limit counter, and the task queue, a sorted
    set whose score mixes priority and submission time.  [UUIDText] is the text form
    of identifiers that package google/uuid provides. *)
From S2P Require Import Prelude Sql GoStd Float64 Domain World.
From Stdlib Require Import Ascii.

#[local] Open Scope string_scope.
#[local] Open Scope Z_scope.

(** ** github.com/google/uuid *)

Class UUIDText := {
  uuid_String : uuid → string;
  uuid_Parse : string → option uuid;
}.

Class UUIDLaws `{UUIDText} := {
  uuid_parse_string id : uuid_Parse (uuid_String id) = Some id;
}.

(** An implementation: the binary digits of the identifier. *)
Fixpoint toy_bits (p : positive) : string :=
  match p with xH => "" | xO p => String "0"%char (toy_bits p) | xI p => String "1"%char (toy_bits p) end.
Fixpoint toy_unbits (s : string) : option positive :=
  match s with
  | EmptyString => Some xH
  | String c s =>
      match toy_unbits s with
      | Some p => if Ascii.eqb c "0"%char then Some (xO p) else if Ascii.eqb c "1"%char then Some (xI p) else None
      | None => None
      end
  end.

#[export] Instance toy_UUID : UUIDText := {|
  uuid_String id := match id with Z0 => "0" | Zpos p => String "+"%char (toy_bits p) | Zneg p => String "-"%char (toy_bits p) end;
  uuid_Parse s :=
    if String.eqb s "0" then Some 0
    else match s with
         | String c s =>
             if Ascii.eqb c "+"%char then Zpos <$> toy_unbits s
             else if Ascii.eqb c "-"%char then Zneg <$> toy_unbits s else None
         | EmptyString => None
         end;
|}.

Lemma toy_unbits_bits p : toy_unbits (toy_bits p) = Some p.
Proof. induction p as [p IH|p IH|]; simpl; [by rewrite IH..|done]. Qed.

#[export] Instance toy_UUIDLaws : UUIDLaws.
Proof. constructor. intros [|p|p]; simpl; [done|by rewrite toy_unbits_bits..]. Qed.

Section RedisStore.
Context {R : Type} `{RD : Redis R} `{UT : UUIDText}.
Implicit Types (w : world R).
#[local] Abbreviation RDS := (M (world R)).

(** ** heartbeat.go *)

Definition heartbeatKeyPrefix : string := "worker:heartbeat:".
Definition heartbeatKey (workerID : uuid) : string := heartbeatKeyPrefix ++ uuid_String workerID.

Definition SetWorkerHeartbeat (workerID : uuid) (ttlSec : Z) : RDS (result unit) :=
  redis_do (λ now r, (tt, redis_Set (heartbeatKey workerID) "1" (now + i64 (ttlSec * Second)) r)).

Definition GetWorkerHeartbeat (workerID : uuid) : RDS (result bool) :=
  redis_do (λ now r, (redis_Exists now (heartbeatKey workerID) r, r)).

Definition DeleteWorkerHeartbeat (workerID : uuid) : RDS (result unit) :=
  redis_do (λ _ r, (tt, redis_Del (heartbeatKey workerID) r)).

(** ** ratelimit.go: INCR and EXPIRE in one pipeline *)

Definition RateLimitIncr (key : string) (window : Z) : RDS (result Z) :=
  redis_do (λ now r,
    let '(n, r) := redis_Incr now key r in
    (n, redis_Expire now key (now + window) r)).

(** ** redis_queue.go *)

Definition taskQueueKey : string := "grid:task_queue".

(** float64(priority)*1e10 - float64(queuedAt.UnixMicro()) *)
Definition queue_score (priority queuedAt : Z) : Z :=
  f64_sub (f64_mul (f64_of_int priority) (10 ^ 10)) (f64_of_int (UnixMicro queuedAt)).

Definition Enqueue (taskID : uuid) (priority queuedAt : Z) : RDS (result unit) :=
  redis_do (λ _ r,
    (tt, redis_ZAdd taskQueueKey (queue_score priority queuedAt) (uuid_String taskID) r)).

Definition Dequeue : RDS (result (option uuid)) :=
  r ← redis_do (λ _ r, redis_ZPopMax taskQueueKey r);
  match r with
  | Err e => mret (Err e)
  | Ok None => mret (Ok None)
  | Ok (Some (idStr, _)) =>
      match uuid_Parse idStr with
      | Some id => mret (Ok (Some id))
      | None => mret (Err (ErrMsg "queue: parse task id"))
      end
  end.

Definition QueueLength : RDS (result Z) := redis_do (λ _ r, (redis_ZCard taskQueueKey r, r)).

Definition RemoveFromQueue (taskID : uuid) : RDS (result unit) :=
  redis_do (λ _ r, (tt, redis_ZRem taskQueueKey (uuid_String taskID) r)).

(** ** The queue order *)

(** The priorities and times for which every score computation is exact. *)
Definition score_exact (p t : Z) : Prop :=
  Z.abs p * 10 ^ 10 ≤ 2 ^ 53 ∧ 0 ≤ UnixMicro t ≤ 2 ^ 53 ∧ Z.abs (p * 10 ^ 10 - UnixMicro t) ≤ 2 ^ 53.

Lemma queue_score_exact p t :
  score_exact p t → queue_score p t = p * 10 ^ 10 - UnixMicro t.
Proof.
  unfold score_exact, queue_score, f64_sub, f64_mul, f64_of_int. intros (Hp & Ht & Hd).
  rewrite (f64_round_exact p) by lia. rewrite (f64_round_exact (UnixMicro t)) by lia.
  rewrite (f64_round_exact (p * 10 ^ 10)) by lia. by apply f64_round_exact.
Qed.

Lemma Dequeue_ok `{!RedisLaws R} w :
  w_faults w = [] →
  (redis_zset taskQueueKey (w_redis w) = ∅ → (Dequeue w).1 = Ok None) ∧
  ∀ m s, redis_zset taskQueueKey (w_redis w) !! m = Some s →
    (∀ m' s', redis_zset taskQueueKey (w_redis w) !! m' = Some s' → m' ≠ m → s' < s) →
    (Dequeue w).1 = match uuid_Parse m with
                    | Some id => Ok (Some id)
                    | None => Err (ErrMsg "queue: parse task id")
                    end ∧
    redis_zset taskQueueKey (w_redis (Dequeue w).2) = delete m (redis_zset taskQueueKey (w_redis w)).
Proof.
  intros Hf. unfold Dequeue, mbind, M_bind, mret, M_ret. rewrite redis_do_nofault by done.
  destruct (redis_ZPopMax taskQueueKey (w_redis w)) as [[[m0 s0]|] r'] eqn:E.
  - destruct (redis_zpopmax_Some taskQueueKey (w_redis w) m0 s0) as (Hin & Hmax & Hdel);
      [by rewrite E|]. rewrite E in Hdel. simpl in Hdel. split.
    { intros He. rewrite He, lookup_empty in Hin. done. }
    intros m s Hm Huniq.
    assert (m0 = m) as ->.
    { destruct (decide (m0 = m)) as [|Hne]; [done|].
      pose proof (Huniq m0 s0 Hin Hne). pose proof (Hmax m s Hm). lia. }
    destruct (uuid_Parse m); simpl; done.
  - destruct (redis_zpopmax_None taskQueueKey (w_redis w)) as [He _]; [by rewrite E|].
    split; [done|]. intros m s Hm. by rewrite He, lookup_empty in Hm.
Qed.

Lemma Dequeue_faults w : w_faults w = [] → w_faults (Dequeue w).2 = [].
Proof.
  intros Hf. unfold Dequeue, mbind, M_bind, mret, M_ret. rewrite redis_do_nofault by done.
  destruct (redis_ZPopMax _ _) as [[[??]|]?]; simpl; [|done]. by destruct (uuid_Parse _).
Qed.

(** The next two dequeues return [a], then [b]. *)
Definition drains (w : world R) (a b : uuid) : Prop :=
  (Dequeue w).1 = Ok (Some a) ∧ (Dequeue (Dequeue w).2).1 = Ok (Some b).

Lemma drains_two `{!RedisLaws R} `{!UUIDLaws} w a sa b sb :
  w_faults w = [] → a ≠ b → sb < sa →
  redis_zset taskQueueKey (w_redis w) = <[uuid_String a := sa]> {[uuid_String b := sb]} →
  drains w a b.
Proof.
  intros Hf Hab Hlt Hz.
  assert (uuid_String a ≠ uuid_String b) as Hs.
  { intros Hs. apply (f_equal uuid_Parse) in Hs. rewrite !uuid_parse_string in Hs. congruence. }
  destruct (Dequeue_ok w Hf) as [_ H1].
  destruct (H1 (uuid_String a) sa) as [Hd1 Hz2].
  { rewrite Hz. apply lookup_insert_eq. }
  { intros m' s'. rewrite Hz. intros Hm' Hne. rewrite lookup_insert_ne in Hm' by done.
    by apply lookup_singleton_Some in Hm' as [_ <-]. }
  destruct (Dequeue_ok _ (Dequeue_faults w Hf)) as [_ H2].
  rewrite Hz2, Hz, delete_insert_id in H2 by by rewrite lookup_singleton_ne.
  destruct (H2 (uuid_String b) sb) as [Hd2 _].
  { apply lookup_singleton_eq. }
  { intros m' s' Hm'. by apply lookup_singleton_Some in Hm' as [<- _]. }
  unfold drains. by rewrite Hd1, Hd2, !uuid_parse_string.
Qed.

Lemma Enqueue_zset `{!RedisLaws R} w id p t :
  w_faults w = [] →
  w_faults (Enqueue id p t w).2 = [] ∧
  redis_zset taskQueueKey (w_redis (Enqueue id p t w).2) =
    <[uuid_String id := queue_score p t]> (redis_zset taskQueueKey (w_redis w)).
Proof.
  intros Hf. unfold Enqueue. rewrite redis_do_nofault by done. split; [done|].
  apply redis_zadd.
Qed.

(** Two tasks enqueued into an empty queue, in either order, leave it in the order
    of priority * 10^10 - submission time in microseconds.  So equal priorities leave in
    submission order, and one level of priority outweighs 10^10 microseconds (about 2.8
    hours) of submission time and no more. *)
Lemma Dequeue_two_order `{!RedisLaws R} `{!UUIDLaws} w a pa ta b pb tb :
  w_faults w = [] → redis_zset taskQueueKey (w_redis w) = ∅ → a ≠ b →
  score_exact pa ta → score_exact pb tb →
  UnixMicro ta - UnixMicro tb < (pa - pb) * 10 ^ 10 →
  drains (Enqueue b pb tb (Enqueue a pa ta w).2).2 a b ∧
  drains (Enqueue a pa ta (Enqueue b pb tb w).2).2 a b.
Proof.
  intros Hf He Hab Ha Hb Hlt.
  assert (queue_score pb tb < queue_score pa ta) as Hlt'
    by (rewrite !queue_score_exact by done; lia).
  assert (uuid_String a ≠ uuid_String b) as Hs.
  { intros Hs. apply (f_equal uuid_Parse) in Hs. rewrite !uuid_parse_string in Hs. congruence. }
  destruct (Enqueue_zset w a pa ta Hf) as [Hfa Hza], (Enqueue_zset w b pb tb Hf) as [Hfb Hzb].
  destruct (Enqueue_zset _ b pb tb Hfa) as [Hfab Hzab], (Enqueue_zset _ a pa ta Hfb) as [Hfba Hzba].
  split; eapply drains_two; try done.
  - rewrite Hzab, Hza, He, insert_insert_ne by done. done.
  - rewrite Hzba, Hzb, He. done.
Qed.

End RedisStore.
