(* ===== verification/PgStore.v ===== *)
(** * internal/store/postgres: the persistence layer

    One definition per method of [Store].  The methods run in the state monad of
    World.v: each statement may fail, and the constraints of migrations/ (primary
    and foreign keys, UNIQUE, NOT NULL, the INT columns, the CHECK of outputs) refuse
    the statements they refuse in the database. *)
From S2P Require Import Prelude Sql GoStd Domain World.

Section PgStore.
Context {R : Type}.
Implicit Types (w : world R) (d : pgdb).
#[local] Abbreviation DB := (M (world R)).

(** ** db.go *)

(** A transaction at the SERIALIZABLE level: its statements take effect together
    or, when [fn] or the commit fails, not at all.  A COMMIT whose reply is lost is an
    error to the caller although the statements took effect. *)
Definition WithTx {A} (fn : DB (result A)) : DB (result A) := λ w,
  let '(fault, w1) := next_fault w in
  match fault with
  | Delivered =>
      let '(r, w2) := fn w1 in
      match r with
      | Err e => (Err e, set_db (w_db w1) w2)
      | Ok a =>
          let '(fault, w3) := next_fault w2 in
          match fault with
          | Delivered => (Ok a, w3)
          | Refused => (Err ErrUnavailable, set_db (w_db w1) w3)
          | ReplyLost => (Err ErrUnavailable, w3)
          end
      end
  | _ => (Err ErrUnavailable, w1)
  end.

Definition Ping : DB (result unit) := pg_query (λ _ _, Ok tt).

(** ** tasks.go *)

Definition CreateTask (t : Task) : DB (result unit) :=
  pg_exec (λ _ d,
    if negb (int4_ok (Task_Priority t) && int4_ok (Task_RetryCount t) && int4_ok (Task_MaxRetries t))
    then Err (ErrConstraint "int4")
    else if negb (org_exists d (Task_OrgUnitID t)) then Err (ErrConstraint "tasks_org_unit_id_fkey")
    else if negb (worker_ref_ok d (Task_AssignedWorkerID t))
    then Err (ErrConstraint "tasks_assigned_worker_id_fkey")
    else if existsb (λ t', (Task_ID t' =? Task_ID t) && (Task_QueuedAt t' =? Task_QueuedAt t)) (db_tasks d)
    then Err (ErrConstraint "tasks_pkey")
    else Ok (tt, set_tasks (db_tasks d ++ [t]) d)).

Definition task_by_id (id : uuid) (t : Task) : bool := Task_ID t =? id.

Definition GetTask (id : uuid) : DB (result Task) :=
  pg_query (λ _ d,
    match sql_any (task_by_id id) (db_tasks d) with
    | Some t => Ok t
    | None => Err ErrNotFound
    end).

(** The SET clause of UpdateTaskState. *)
Definition task_set_state (now : Z) (state : string) (workerID : option uuid) (t : Task) : Task :=
  MkTask (Task_ID t) (Task_OrgUnitID t) (Task_SubmitterID t) (Task_Title t) (Task_Description t)
    (Task_TaskType t) (Task_Priority t) (Task_AIAgent t)
    state
    (match workerID with Some _ => workerID | None => Task_AssignedWorkerID t end)
    (Task_QueuedAt t)
    (if String.eqb state "assigned" then Some now else Task_AssignedAt t)
    (if String.eqb state "running" then Some now else Task_StartedAt t)
    (if String.eqb state "completed" then Some now else Task_CompletedAt t)
    (if String.eqb state "failed" then Some now else Task_FailedAt t)
    (Task_ErrorMessage t) (Task_RetryCount t) (Task_MaxRetries t) (Task_Options t).

Definition UpdateTaskState (id : uuid) (state : string) (workerID : option uuid) : DB (result unit) :=
  pg_exec (λ now d,
    let '(tasks, n) := sql_update (task_by_id id) (task_set_state now state workerID) (db_tasks d) in
    if n =? 0 then Err ErrNotFound
    else if negb (worker_ref_ok d workerID) then Err (ErrConstraint "tasks_assigned_worker_id_fkey")
    else Ok (tt, set_tasks tasks d)).

(** ORDER BY queued_at DESC *)
Definition queued_desc (a b : Task) : bool := Task_QueuedAt b <=? Task_QueuedAt a.

Definition ListTasksByOrg (orgUnitID : uuid) (limit offset : Z) : DB (result (list Task)) :=
  pg_query (λ _ d,
    sql_page limit offset
      (sql_order_by queued_desc (sql_where (λ t, Task_OrgUnitID t =? orgUnitID) (db_tasks d)))).

(** ORDER BY priority DESC, queued_at ASC *)
Definition claim_order (a b : Task) : bool :=
  (Task_Priority b <? Task_Priority a) ||
  ((Task_Priority a =? Task_Priority b) && (Task_QueuedAt a <=? Task_QueuedAt b)).

(** WHERE state = 'queued' AND ai_agent = ANY(agents), without the rows that SKIP
    LOCKED passes over. *)
Definition claimable (locked : list uuid) (agents : list string) (t : Task) : bool :=
  String.eqb (Task_State t) "queued" &&
  existsb (String.eqb (Task_AIAgent t)) agents &&
  negb (existsb (Z.eqb (Task_ID t)) locked).

(** The key of the advisory lock: the first 8 bytes of the UUID as an int64. *)
Definition lockKey (id : uuid) : Z :=
  i64 (Z.lor (Z.shiftl (uuid_byte id 0) 56) (Z.lor (Z.shiftl (uuid_byte id 1) 48)
      (Z.lor (Z.shiftl (uuid_byte id 2) 40) (Z.lor (Z.shiftl (uuid_byte id 3) 32)
      (Z.lor (Z.shiftl (uuid_byte id 4) 24) (Z.lor (Z.shiftl (uuid_byte id 5) 16)
      (Z.lor (Z.shiftl (uuid_byte id 6) 8) (uuid_byte id 7)))))))).

(** The SET clause of the claim. *)
Definition task_set_assigned (now : Z) (workerID : uuid) (t : Task) : Task :=
  MkTask (Task_ID t) (Task_OrgUnitID t) (Task_SubmitterID t) (Task_Title t) (Task_Description t)
    (Task_TaskType t) (Task_Priority t) (Task_AIAgent t)
    "assigned" (Some workerID) (Task_QueuedAt t) (Some now)
    (Task_StartedAt t) (Task_CompletedAt t) (Task_FailedAt t)
    (Task_ErrorMessage t) (Task_RetryCount t) (Task_MaxRetries t) (Task_Options t).

(** [pg_try_advisory_xact_lock]: another session's lock is the only thing that can
    refuse it. *)
Definition try_advisory_lock (key : Z) : DB (result bool) := λ w,
  let '(fault, w') := next_fault w in
  match fault with
  | Delivered => (Ok (negb (existsb (Z.eqb key) (w_adv_locks w))), w')
  | _ => (Err ErrUnavailable, w')
  end.

Definition select_claimable (agents : slice string) : DB (result (option Task)) := λ w,
  pg_query (λ _ d, Ok (sql_first claim_order (claimable (w_row_locks w) (elems agents)) (db_tasks d))) w.

Definition ClaimNextTask (workerID : uuid) (agents : slice string) : DB (result (option Task)) :=
  r ← select_claimable agents;
  match r with
  | Err e => mret (Err e)
  | Ok None => mret (Ok None)           (* no work available *)
  | Ok (Some task) =>
      r ← try_advisory_lock (lockKey (Task_ID task));
      match r with
      | Err e => mret (Err e)
      | Ok false => mret (Ok None)      (* another scheduler was first *)
      | Ok true =>
          r ← pg_exec (λ now d,
                let '(tasks, n) :=
                  sql_update (task_by_id (Task_ID task)) (task_set_assigned now workerID) (db_tasks d) in
                if negb (n =? 0) && negb (worker_exists d workerID)
                then Err (ErrConstraint "tasks_assigned_worker_id_fkey")
                else Ok (now, set_tasks tasks d));
          match r with
          | Err e => mret (Err e)
          | Ok now => mret (Ok (Some (task_set_assigned now workerID task)))
          end
      end
  end.

(** ORDER BY assigned_at ASC; NULLs last. *)
Definition assigned_asc (a b : Task) : bool :=
  match Task_AssignedAt a, Task_AssignedAt b with
  | Some x, Some y => x <=? y
  | Some _, None => true
  | None, Some _ => false
  | None, None => true
  end.

Definition assigned_to (workerID : uuid) (t : Task) : bool :=
  bool_decide (Task_AssignedWorkerID t = Some workerID) && String.eqb (Task_State t) "assigned".

Definition GetAssignedTaskForWorker (workerID : uuid) : DB (result (option Task)) :=
  pg_query (λ _ d, Ok (sql_first assigned_asc (assigned_to workerID) (db_tasks d))).

(** ON w.id = t.assigned_worker_id AND (last_heartbeat_at IS NULL OR < deadline) *)
Definition stale_worker (deadline : Z) (t : Task) (wk : Worker) : bool :=
  bool_decide (Task_AssignedWorkerID t = Some (Worker_ID wk)) &&
  match Worker_LastHeartbeatAt wk with None => true | Some h => h <? deadline end.

Definition stale_state (t : Task) : bool :=
  String.eqb (Task_State t) "assigned" || String.eqb (Task_State t) "running".

Definition GetStaleTasks (heartbeatDeadline : Z) : DB (result (list Task)) :=
  pg_query (λ _ d,
    Ok (List.flat_map
          (λ t, List.map (λ _, t) (sql_where (stale_worker heartbeatDeadline t) (db_workers d)))
          (sql_where stale_state (db_tasks d)))).

(** ** workers.go *)

Definition worker_conflict (wk wk' : Worker) : bool :=
  (Worker_OrgUnitID wk' =? Worker_OrgUnitID wk) &&
  String.eqb (Worker_HostnameHash wk') (Worker_HostnameHash wk).

(** The key of the UNIQUE constraint: one row per org unit and host. *)
Definition host_key (wk : Worker) : uuid * string := (Worker_OrgUnitID wk, Worker_HostnameHash wk).

(** The DO UPDATE clause: EXCLUDED is the row proposed for insertion. *)
Definition worker_refresh (excluded wk : Worker) : Worker :=
  MkWorker (Worker_ID wk) (Worker_OrgUnitID wk) (Worker_HostnameHash wk)
    (Worker_Agents excluded) (Worker_State excluded) (Worker_LastHeartbeatAt excluded)
    (Worker_CapacityScore excluded) (Worker_CreatedAt wk).

(** Returns the id of the row that now holds the worker. *)
Definition RegisterWorker (wk : Worker) : DB (result uuid) :=
  pg_exec (λ _ d,
    if negb (int4_ok (Worker_CapacityScore wk)) then Err (ErrConstraint "int4")
    else match Worker_Agents wk with
         | None => Err (ErrConstraint "workers_agents_not_null")
         | Some _ =>
             match sql_any (worker_conflict wk) (db_workers d) with
             | Some old =>
                 Ok (Worker_ID old,
                     set_workers (sql_update (worker_conflict wk) (worker_refresh wk) (db_workers d)).1 d)
             | None =>
                 if negb (org_exists d (Worker_OrgUnitID wk)) then Err (ErrConstraint "workers_org_unit_id_fkey")
                 else if worker_exists d (Worker_ID wk) then Err (ErrConstraint "workers_pkey")
                 else Ok (Worker_ID wk, set_workers (db_workers d ++ [wk]) d)
             end
         end).

Definition worker_by_id (id : uuid) (wk : Worker) : bool := Worker_ID wk =? id.

Definition worker_set_state (state : string) (wk : Worker) : Worker :=
  MkWorker (Worker_ID wk) (Worker_OrgUnitID wk) (Worker_HostnameHash wk) (Worker_Agents wk)
    state (Worker_LastHeartbeatAt wk) (Worker_CapacityScore wk) (Worker_CreatedAt wk).

Definition UpdateWorkerState (workerID : uuid) (state : string) : DB (result unit) :=
  pg_exec (λ _ d,
    let '(ws, n) := sql_update (worker_by_id workerID) (worker_set_state state) (db_workers d) in
    if n =? 0 then Err ErrNotFound else Ok (tt, set_workers ws d)).

Definition worker_set_heartbeat (now : Z) (agents : slice string) (wk : Worker) : Worker :=
  MkWorker (Worker_ID wk) (Worker_OrgUnitID wk) (Worker_HostnameHash wk) agents
    (Worker_State wk) (Some now) (Worker_CapacityScore wk) (Worker_CreatedAt wk).

Definition UpdateWorkerHeartbeat (workerID : uuid) (agents : slice string) : DB (result unit) :=
  pg_exec (λ now d,
    let '(ws, n) := sql_update (worker_by_id workerID) (worker_set_heartbeat now agents) (db_workers d) in
    if n =? 0 then Err ErrNotFound
    else match agents with
         | None => Err (ErrConstraint "workers_agents_not_null")
         | Some _ => Ok (tt, set_workers ws d)
         end).

Definition GetWorker (id : uuid) : DB (result Worker) :=
  pg_query (λ _ d,
    match sql_any (worker_by_id id) (db_workers d) with
    | Some wk => Ok wk
    | None => Err ErrNotFound
    end).

(** ORDER BY created_at ASC *)
Definition worker_created_asc (a b : Worker) : bool := Worker_CreatedAt a <=? Worker_CreatedAt b.

Definition ListWorkers (orgUnitID : uuid) : DB (result (list Worker)) :=
  pg_query (λ _ d,
    Ok (sql_order_by worker_created_asc
          (sql_where (λ wk, Worker_OrgUnitID wk =? orgUnitID) (db_workers d)))).

Definition idle_recent (now : Z) (wk : Worker) : bool :=
  String.eqb (Worker_State wk) "idle" &&
  match Worker_LastHeartbeatAt wk with Some h => now - 90 * Second <? h | None => false end.

(** ORDER BY capacity_score DESC *)
Definition capacity_desc (a b : Worker) : bool := Worker_CapacityScore b <=? Worker_CapacityScore a.

Definition ListIdleWorkers : DB (result (list Worker)) :=
  pg_query (λ now d, Ok (sql_order_by capacity_desc (sql_where (idle_recent now) (db_workers d)))).

(** ** apikeys.go *)

Definition CreateAPIKey (k : APIKey) : DB (result unit) :=
  pg_exec (λ _ d,
    match Key_Scopes k with
    | None => Err (ErrConstraint "api_keys_scopes_not_null")
    | Some _ =>
        if negb (org_exists d (Key_OrgUnitID k)) then Err (ErrConstraint "api_keys_org_unit_id_fkey")
        else if negb (worker_ref_ok d (Key_WorkerID k)) then Err (ErrConstraint "api_keys_worker_id_fkey")
        else if existsb (λ k', Key_ID k' =? Key_ID k) (db_apikeys d) then Err (ErrConstraint "api_keys_pkey")
        else Ok (tt, set_apikeys (db_apikeys d ++
          [MkAPIKey (Key_ID k) (Key_OrgUnitID k) (Key_WorkerID k) (Key_KeyHash k) (Key_KeyPrefix k)
             (Key_Name k) (Key_Scopes k) (Key_CreatedAt k) (Key_ExpiresAt k) None None]) d)
    end).

Definition key_usable (now : Z) (prefix : string) (k : APIKey) : bool :=
  String.eqb (Key_KeyPrefix k) prefix &&
  match Key_RevokedAt k with None => true | Some _ => false end &&
  match Key_ExpiresAt k with None => true | Some e => now <? e end.

Definition GetAPIKeyByPrefix (prefix : string) : DB (result APIKey) :=
  pg_query (λ now d,
    match sql_any (key_usable now prefix) (db_apikeys d) with
    | Some k => Ok k
    | None => Err ErrNotFound
    end).

Definition key_set_revoked (now : Z) (k : APIKey) : APIKey :=
  MkAPIKey (Key_ID k) (Key_OrgUnitID k) (Key_WorkerID k) (Key_KeyHash k) (Key_KeyPrefix k)
    (Key_Name k) (Key_Scopes k) (Key_CreatedAt k) (Key_ExpiresAt k) (Some now) (Key_LastUsedAt k).

Definition revocable (id orgUnitID : uuid) (k : APIKey) : bool :=
  (Key_ID k =? id) && (Key_OrgUnitID k =? orgUnitID) &&
  match Key_RevokedAt k with None => true | Some _ => false end.

Definition RevokeAPIKey (id orgUnitID : uuid) : DB (result unit) :=
  pg_exec (λ now d,
    let '(ks, n) := sql_update (revocable id orgUnitID) (key_set_revoked now) (db_apikeys d) in
    if n =? 0 then Err ErrNotFound else Ok (tt, set_apikeys ks d)).

Definition key_set_used (now : Z) (k : APIKey) : APIKey :=
  MkAPIKey (Key_ID k) (Key_OrgUnitID k) (Key_WorkerID k) (Key_KeyHash k) (Key_KeyPrefix k)
    (Key_Name k) (Key_Scopes k) (Key_CreatedAt k) (Key_ExpiresAt k) (Key_RevokedAt k) (Some now).

Definition UpdateAPIKeyLastUsed (id : uuid) : DB (result unit) :=
  pg_exec (λ now d,
    Ok (tt, set_apikeys (sql_update (λ k, Key_ID k =? id) (key_set_used now) (db_apikeys d)).1 d)).

Definition key_set_rotated (now : Z) (newHash newPrefix : string) (k : APIKey) : APIKey :=
  MkAPIKey (Key_ID k) (Key_OrgUnitID k) (Key_WorkerID k) newHash newPrefix
    (Key_Name k) (Key_Scopes k) now (Key_ExpiresAt k) None (Key_LastUsedAt k).

Definition key_of_org (id orgUnitID : uuid) (k : APIKey) : bool :=
  (Key_ID k =? id) && (Key_OrgUnitID k =? orgUnitID).

(** UPDATE ... RETURNING inside a transaction: the rotated row. *)
Definition RotateAPIKey (id orgUnitID : uuid) (newHash newPrefix : string) : DB (result APIKey) :=
  WithTx (pg_exec (λ now d,
    let ks := (sql_update (key_of_org id orgUnitID) (key_set_rotated now newHash newPrefix) (db_apikeys d)).1 in
    match sql_any (key_of_org id orgUnitID) ks with
    | None => Err ErrNotFound
    | Some k => Ok (k, set_apikeys ks d)
    end)).

(** ** audit.go *)

Definition WriteAuditEvent (ev : AuditEvent) : DB (result unit) :=
  pg_exec (λ _ d,
    if existsb (λ e, (Audit_ID e =? Audit_ID ev) && (Audit_OccurredAt e =? Audit_OccurredAt ev)) (db_audit d)
    then Err (ErrConstraint "audit_log_pkey")
    else Ok (tt, set_audit (db_audit d ++ [ev]) d)).

(** ORDER BY occurred_at DESC *)
Definition occurred_desc (a b : AuditEvent) : bool := Audit_OccurredAt b <=? Audit_OccurredAt a.

Definition QueryAuditLog (orgUnitID : uuid) (from to : Z) (limit offset : Z) : DB (result (list AuditEvent)) :=
  pg_query (λ _ d,
    sql_page limit offset (sql_order_by occurred_desc
      (sql_where (λ e, (Audit_OrgUnitID e =? orgUnitID) && (from <=? Audit_OccurredAt e) &&
                       (Audit_OccurredAt e <=? to)) (db_audit d)))).

(** ** orgs.go *)

Definition CreateOrg (org : OrgUnit) : DB (result unit) :=
  pg_exec (λ _ d,
    if org_exists d (Org_ID org) then Err (ErrConstraint "orgs_pkey")
    else if existsb (λ o, String.eqb (Org_Name o) (Org_Name org)) (db_orgs d)
    then Err (ErrConstraint "orgs_name_key")
    else Ok (tt, set_orgs (db_orgs d ++ [org]) d)).

Definition GetOrg (id : uuid) : DB (result OrgUnit) :=
  pg_query (λ _ d,
    match sql_any (λ o, Org_ID o =? id) (db_orgs d) with
    | Some o => Ok o
    | None => Err ErrNotFound
    end).

Definition org_created_asc (a b : OrgUnit) : bool := Org_CreatedAt a <=? Org_CreatedAt b.

Definition ListOrgs : DB (result (list OrgUnit)) :=
  pg_query (λ _ d, Ok (sql_order_by org_created_asc (db_orgs d))).

(** [policy] is the JSON document the struct marshals to. *)
Definition UpdateOrgPolicy (id : uuid) (policy : gmap string json) : DB (result unit) :=
  pg_exec (λ now d,
    let '(os, n) := sql_update (λ o, Org_ID o =? id)
      (λ o, MkOrgUnit (Org_ID o) (Org_Name o) (Org_PlanTier o) policy (Org_CreatedAt o) now) (db_orgs d) in
    if n =? 0 then Err ErrNotFound else Ok (tt, set_orgs os d)).

(** ** outputs.go *)

Definition CreateOutput (o : OutputPackage) : DB (result unit) :=
  pg_exec (λ _ d,
    if negb (worker_exists d (Out_WorkerID o)) then Err (ErrConstraint "outputs_worker_id_fkey")
    else if String.eqb (Out_ReviewStatus o) "approved" &&
            match Out_ReviewerID o with None => true | Some _ => false end
    then Err (ErrConstraint "reviewer_required_when_approved")
    else if existsb (λ o', Out_ID o' =? Out_ID o) (db_outputs d) then Err (ErrConstraint "outputs_pkey")
    else Ok (tt, set_outputs (db_outputs d ++ [o]) d)).

Definition GetOutput (id : uuid) : DB (result OutputPackage) :=
  pg_query (λ _ d,
    match sql_any (λ o, Out_ID o =? id) (db_outputs d) with
    | Some o => Ok o
    | None => Err ErrNotFound
    end).

Definition output_set_review (now : Z) (status : string) (reviewerID : uuid) (o : OutputPackage) : OutputPackage :=
  MkOutputPackage (Out_ID o) (Out_TaskID o) (Out_WorkerID o) (Out_HMACSha256 o) (Out_Artifacts o)
    (Out_Metadata o) status (Some reviewerID) (Out_SubmittedAt o) (Some now).

Definition UpdateOutputReview (id : uuid) (status : string) (reviewerID : uuid) : DB (result unit) :=
  pg_exec (λ now d,
    let '(os, n) := sql_update (λ o, Out_ID o =? id) (output_set_review now status reviewerID) (db_outputs d) in
    if n =? 0 then Err ErrNotFound else Ok (tt, set_outputs os d)).

(** ** brownie.go *)

Definition WriteLedgerEntry (ev : BrownieEvent) : DB (result unit) :=
  pg_exec (λ now d,
    if negb (int4_ok (Brownie_Points ev)) then Err (ErrConstraint "int4")
    else if negb (worker_exists d (Brownie_WorkerID ev)) then Err (ErrConstraint "brownie_worker_id_fkey")
    else if negb (org_exists d (Brownie_OrgUnitID ev)) then Err (ErrConstraint "brownie_org_unit_id_fkey")
    else if existsb (λ e, Brownie_ID e =? Brownie_ID ev) (db_ledger d) then Err (ErrConstraint "brownie_pkey")
    else Ok (tt, set_ledger (db_ledger d ++
      [MkBrownieEvent (Brownie_ID ev) (Brownie_WorkerID ev) (Brownie_OrgUnitID ev) (Brownie_Points ev)
         (Brownie_Reason ev) (Brownie_ReferenceID ev) now]) d)).

Definition sum_points (l : list BrownieEvent) : Z := foldr (λ e acc, Brownie_Points e + acc) 0 l.

Definition balance_of (workerID : uuid) (l : list BrownieEvent) : Z :=
  sum_points (sql_where (λ e, Brownie_WorkerID e =? workerID) l).

Definition GetBalance (workerID : uuid) : DB (result Z) :=
  pg_query (λ _ d, Ok (balance_of workerID (db_ledger d))).

Definition points_desc (a b : LeaderboardEntry) : bool := LB_TotalPoints b <=? LB_TotalPoints a.

Definition GetLeaderboard (orgUnitID : uuid) (limit : Z) : DB (result (list LeaderboardEntry)) :=
  pg_query (λ _ d,
    sql_page limit 0 (sql_order_by points_desc
      (sql_where (λ e, LB_OrgUnitID e =? orgUnitID) (db_leaderboard d)))).

End PgStore.
