(* ===== verification/ClaimFacts.v ===== *)
(** * Claiming a task: what ClaimNextTask guarantees

    The claim is the scheduler's critical section: it must hand out the queued task
    of highest priority (oldest first) that the worker's agents can run, mark exactly
    that row, and hand out nothing that another transaction is holding. *)
From S2P Require Import Prelude Sql GoStd Domain World PgStore.

Section ClaimFacts.
Context {R : Type}.
Implicit Types (w : world R).

(** ** The claim order is total and transitive *)

Lemma claim_order_spec a b :
  claim_order a b = true ↔
  Task_Priority b < Task_Priority a ∨
  Task_Priority a = Task_Priority b ∧ Task_QueuedAt a ≤ Task_QueuedAt b.
Proof.
  unfold claim_order.
  rewrite orb_true_iff, andb_true_iff, Z.ltb_lt, Z.eqb_eq, Z.leb_le. done.
Qed.

Lemma claim_order_total a b : claim_order a b = true ∨ claim_order b a = true.
Proof. rewrite !claim_order_spec. lia. Qed.

Lemma claim_order_trans a b c :
  claim_order a b = true → claim_order b c = true → claim_order a c = true.
Proof. rewrite !claim_order_spec. lia. Qed.

Lemma existsb_eqb_Z (x : Z) l : existsb (Z.eqb x) l = true ↔ x ∈ l.
Proof.
  rewrite existsb_exists, list_elem_of_In. split.
  - intros (y & Hin & ->%Z.eqb_eq). done.
  - intros H. exists x. by rewrite Z.eqb_refl.
Qed.

Lemma existsb_eqb_str (x : string) l : existsb (String.eqb x) l = true ↔ x ∈ l.
Proof.
  rewrite existsb_exists, list_elem_of_In. split.
  - intros (y & Hin & ->%String.eqb_eq). done.
  - intros H. exists x. by rewrite String.eqb_refl.
Qed.

Lemma claimable_spec locked agents t :
  claimable locked agents t = true ↔
  Task_State t = TaskStateQueued ∧ Task_AIAgent t ∈ agents ∧ Task_ID t ∉ locked.
Proof.
  unfold claimable. rewrite !andb_true_iff, String.eqb_eq, existsb_eqb_str, negb_true_iff.
  rewrite <-not_true_iff_false, existsb_eqb_Z. unfold TaskStateQueued. tauto.
Qed.

Lemma select_claimable_inv agents w r w' :
  select_claimable agents w = (r, w') →
  w_db w' = w_db w ∧ w_redis w' = w_redis w ∧ w_now w' = w_now w ∧
  w_adv_locks w' = w_adv_locks w ∧
  (r = Ok (sql_first claim_order (claimable (w_row_locks w) (elems agents)) (db_tasks (w_db w))) ∨
   r = Err ErrUnavailable).
Proof.
  unfold select_claimable, pg_query. destruct (next_fault w) as [b w1] eqn:E.
  apply next_fault_frame in E as (Hd & Hr & Hn & Hl & Ha).
  destruct b; intros; simplify_eq; rewrite ?Hd; auto 10.
Qed.

Lemma try_advisory_lock_inv key w r w' :
  try_advisory_lock key w = (r, w') →
  w_db w' = w_db w ∧ w_redis w' = w_redis w ∧ w_now w' = w_now w ∧
  (r = Ok (negb (existsb (Z.eqb key) (w_adv_locks w))) ∨ r = Err ErrUnavailable).
Proof.
  unfold try_advisory_lock. destruct (next_fault w) as [b w1] eqn:E.
  apply next_fault_frame in E as (Hd & Hr & Hn & Hl & Ha).
  destruct b; intros; simplify_eq; auto 10.
Qed.

(** The task a claim should pick: no other claimable task precedes it. *)
Definition best_claimable (locked : list uuid) (agents : list string) (ts : list Task) (t : Task) : Prop :=
  t ∈ ts ∧ Task_State t = TaskStateQueued ∧ Task_AIAgent t ∈ agents ∧ (Task_ID t ∉ locked) ∧
  ∀ t', t' ∈ ts → Task_State t' = TaskStateQueued → Task_AIAgent t' ∈ agents → Task_ID t' ∉ locked →
    Task_Priority t' < Task_Priority t ∨
    Task_Priority t' = Task_Priority t ∧ Task_QueuedAt t ≤ Task_QueuedAt t'.

Lemma best_claimable_first locked agents ts t :
  sql_first claim_order (claimable locked agents) ts = Some t → best_claimable locked agents ts t.
Proof.
  intros H. apply sql_first_Some in H as (Hin & Hp & Hbest);
    [|apply claim_order_total | apply claim_order_trans].
  apply claimable_spec in Hp as (Hq & Ha & Hl). split_and!; try done.
  intros t' Hin' Hq' Ha' Hl'.
  assert (claim_order t t' = true) as Hc by (apply Hbest; [done | by apply claimable_spec]).
  apply claim_order_spec in Hc. lia.
Qed.

Ltac claim_none :=
  intros; simplify_eq/=; split; [congruence|split; [congruence|left; split; [congruence|done]]].

(** ** Outcomes of a claim, whatever fails on the way *)

(** The rows after task [t0] was given to worker [wid]. *)
Definition claim_update (now : Z) (wid : uuid) (t0 : Task) (d : pgdb) : pgdb :=
  set_tasks (sql_update (task_by_id (Task_ID t0)) (task_set_assigned now wid) (db_tasks d)).1 d.

Lemma claim_update_Ok now wid t0 d x d' :
  t0 ∈ db_tasks d →
  (let '(tasks, n) := sql_update (task_by_id (Task_ID t0)) (task_set_assigned now wid) (db_tasks d) in
   if negb (n =? 0) && negb (worker_exists d wid)
   then Err (ErrConstraint "tasks_assigned_worker_id_fkey") else Ok (now, set_tasks tasks d)) = Ok (x, d') →
  x = now ∧ worker_exists d wid = true ∧ d' = claim_update now wid t0 d.
Proof.
  intros Hin. assert (((sql_update (task_by_id (Task_ID t0)) (task_set_assigned now wid)
    (db_tasks d)).2 =? 0) = false) as Hc.
  { apply Z.eqb_neq, sql_update_count_pos. exists t0. split; [done|apply Z.eqb_refl]. }
  unfold claim_update. destruct (sql_update _ _ _) as [ts n]. cbn [snd] in Hc. rewrite Hc.
  by destruct (worker_exists d wid); intros; simplify_eq/=.
Qed.

(** The claim before its transaction commits. *)
Lemma ClaimNextTask_cases wid agents w r w' :
  ClaimNextTask wid agents w = (r, w') →
  w_redis w' = w_redis w ∧ w_now w' = w_now w ∧
  ((w_db w' = w_db w ∧ (∀ t, r ≠ Ok (Some t))) ∨
   ∃ t0, best_claimable (w_row_locks w) (elems agents) (db_tasks (w_db w)) t0 ∧
     (lockKey (Task_ID t0) ∉ w_adv_locks w) ∧ worker_exists (w_db w) wid = true ∧
     (r = Ok (Some (task_set_assigned (w_now w) wid t0)) ∨ r = Err ErrUnavailable) ∧
     w_db w' = claim_update (w_now w) wid t0 (w_db w)).
Proof.
  unfold ClaimNextTask, mbind, mret, M_bind, M_ret.
  destruct (select_claimable agents w) as [r1 w1] eqn:E1.
  apply select_claimable_inv in E1 as (Hd1 & Hr1 & Hn1 & Ha1 & [->| ->]); [|claim_none].
  destruct (sql_first _ _ _) as [t0|] eqn:Ef; [|claim_none].
  apply best_claimable_first in Ef as Hb.
  destruct (try_advisory_lock _ w1) as [r2 w2] eqn:E2.
  apply try_advisory_lock_inv in E2 as (Hd2 & Hr2 & Hn2 & [->| ->]); [|claim_none].
  rewrite Ha1. destruct (existsb _ (w_adv_locks w)) eqn:El; simpl; [claim_none|].
  match goal with |- context [pg_exec ?f w2] => destruct (pg_exec f w2) as [r3 w3] eqn:E3 end.
  apply pg_exec_inv in E3 as (Hr3 & Hn3 & E3). rewrite Hd2, Hd1, Hn2, Hn1 in *.
  assert (lockKey (Task_ID t0) ∉ w_adv_locks w) by (rewrite <-existsb_eqb_Z; congruence).
  destruct E3 as [(now & d & -> & Hf & Hd)|[(e & -> & Hd)|(now & d & -> & Hf & Hd & _)]]; [|claim_none|];
    apply claim_update_Ok in Hf as (-> & Hex & ->); try apply Hb; intros [= <- <-];
    split_and!; try congruence; right; exists t0; auto 10.
Qed.

Lemma consumes_lock key : consumes (try_advisory_lock (R:=R) key).
Proof.
  intros w. unfold try_advisory_lock. destruct (next_fault w) as [b w1] eqn:E.
  apply next_fault_lost in E. destruct b; simpl; lia.
Qed.

Lemma consumes_claim wid agents : consumes (ClaimNextTask (R:=R) wid agents).
Proof.
  apply consumes_bind; [intros w; apply consumes_query|]. intros [[t|]|e]; try apply consumes_ret.
  apply consumes_bind; [apply consumes_lock|]. intros [[]|e]; try apply consumes_ret.
  apply consumes_bind; [apply consumes_exec|]. intros [now|e]; apply consumes_ret.
Qed.

(** ** Transactions *)

(** A transaction ran its body from a state that differs only in the failures left and
    committed, with or without the reply, or left the database as it was. *)
Lemma WithTx_inv {A} (fn : M (world R) (result A)) w r w' :
  WithTx fn w = (r, w') →
  (∃ w1 w2 a b, next_fault w = (Delivered, w1) ∧ fn w1 = (Ok a, w2) ∧ next_fault w2 = (b, w') ∧
     (b = Delivered ∧ r = Ok a ∨ b = ReplyLost ∧ r = Err ErrUnavailable)) ∨
  (is_ok r = false ∧ w_db w' = w_db w).
Proof.
  unfold WithTx. destruct (next_fault w) as [[] w1] eqn:E1;
    pose proof (next_fault_frame _ _ _ E1) as (Hd & _);
    [|intros; simplify_eq; by right..].
  destruct (fn w1) as [[a|e] w2] eqn:Ef; [|intros; simplify_eq; by right].
  destruct (next_fault w2) as [[] w3] eqn:E3; intros; simplify_eq; [left|by right|left];
    eexists w1, w2, a, _; eauto 10.
Qed.

Lemma WithTx_frame {A} (fn : M (world R) (result A)) w r w' :
  (∀ w r w', fn w = (r, w') → w_redis w' = w_redis w ∧ w_now w' = w_now w) →
  WithTx fn w = (r, w') → w_redis w' = w_redis w ∧ w_now w' = w_now w.
Proof.
  intros Hfn. unfold WithTx. destruct (next_fault w) as [[] w1] eqn:E1;
    apply next_fault_frame in E1 as (_ & Hr1 & Hn1 & _); [|by intros; simplify_eq..].
  destruct (fn w1) as [[a|e] w2] eqn:Ef; apply Hfn in Ef as [Hr2 Hn2];
    [|by intros; simplify_eq/=; split; congruence].
  destruct (next_fault w2) as [b w3] eqn:E3; apply next_fault_frame in E3 as (_ & Hr3 & Hn3 & _).
  destruct b; intros; simplify_eq/=; split; congruence.
Qed.

Lemma consumes_tx {A} (fn : M (world R) (result A)) : consumes fn → consumes (WithTx fn).
Proof.
  intros Hfn w. unfold WithTx. destruct (next_fault w) as [b w1] eqn:E1. apply next_fault_lost in E1.
  destruct b; simpl; [|lia..]. specialize (Hfn w1). destruct (fn w1) as [[a|e] w2]; simpl in *.
  - destruct (next_fault w2) as [b w3] eqn:E3. apply next_fault_lost in E3.
    destruct b; unfold lost_replies in *; simpl in *; lia.
  - unfold lost_replies in *; simpl in *; lia.
Qed.

(** A claim inside its transaction. *)
Lemma claim_tx_cases wid agents w r w' :
  WithTx (ClaimNextTask wid agents) w = (r, w') →
  w_redis w' = w_redis w ∧ w_now w' = w_now w ∧ (lost_replies w' ≤ lost_replies w)%nat ∧
  (w_db w' = w_db w ∧ (∀ t, r ≠ Ok (Some t)) ∨
  ∃ t0, best_claimable (w_row_locks w) (elems agents) (db_tasks (w_db w)) t0 ∧
    (lockKey (Task_ID t0) ∉ w_adv_locks w) ∧ worker_exists (w_db w) wid = true ∧
    (r = Ok (Some (task_set_assigned (w_now w) wid t0)) ∨
     r = Err ErrUnavailable ∧ (lost_replies w' < lost_replies w)%nat) ∧
    w_db w' = claim_update (w_now w) wid t0 (w_db w)).
Proof.
  intros H. assert (w_redis w' = w_redis w ∧ w_now w' = w_now w) as [Hr0 Hn0].
  { eapply WithTx_frame, H. intros. edestruct @ClaimNextTask_cases as (? & ? & _); eauto. }
  split_and!; [done..| |].
  { eapply consumes_run, H. apply consumes_tx, consumes_claim. }
  apply WithTx_inv in H as [(w1 & w2 & a & b & E1 & Ef & E3 & Hb)|[Hr Hd]].
  2:{ left. split; [done|]. intros t ->. done. }
  pose proof (consumes_run _ _ _ _ (consumes_claim wid agents) Ef) as Hl.
  apply next_fault_lost in E1 as Hl1. apply next_fault_lost in E3 as Hl3.
  apply next_fault_frame in E1 as (Hd1 & _ & Hn1 & Hk1 & Ha1).
  apply next_fault_frame in E3 as (Hd3 & _). rewrite Hd3.
  apply ClaimNextTask_cases in Ef as (_ & _ & Ef). rewrite Hd1, Hn1, Hk1, Ha1 in Ef.
  destruct Ef as [[Hd Hr]|(t0 & ? & ? & ? & Hr & Hd)].
  - left. split; [done|]. by destruct Hb as [[_ ->]|[_ ->]].
  - right. exists t0. destruct Hr as [[= ->]|?]; [|done]. split_and!; try done.
    destruct Hb as [[_ ->]|[-> ->]]; [by left|right]. split; [done|lia].
Qed.

(** C14: Whatever fails on the way, the claim of a task in its transaction has one of three
    outcomes: it changes nothing in the database and returns no task; or it picks the
    queued task of highest priority (oldest among equals) whose agent the worker
    supports, skipping rows and advisory locks held by other transactions, and rewrites
    exactly the rows with that task's id to be assigned to the worker, every other table
    untouched, and returns this task; or it does the same but the reply to its COMMIT is
    lost, so that the caller gets an error for a task that is assigned. *)
Theorem ClaimNextTask_picks_best wid agents w r w' :
  WithTx (ClaimNextTask wid agents) w = (r, w') →
  (w_db w' = w_db w ∧ (∀ t, r ≠ Ok (Some t))) ∨
  ∃ t0, best_claimable (w_row_locks w) (elems agents) (db_tasks (w_db w)) t0 ∧
    (lockKey (Task_ID t0) ∉ w_adv_locks w) ∧
    (r = Ok (Some (task_set_assigned (w_now w) wid t0)) ∨
     r = Err ErrUnavailable ∧ (lost_replies w' < lost_replies w)%nat) ∧
    db_tasks (w_db w') = List.map
      (λ t, if Task_ID t =? Task_ID t0 then task_set_assigned (w_now w) wid t else t)
      (db_tasks (w_db w)) ∧
    set_tasks [] (w_db w') = set_tasks [] (w_db w).
Proof.
  intros H. apply claim_tx_cases in H as (_ & _ & _ & [?|(t0 & Hb & Hl & _ & Hr & ->)]);
    [by left|]. right. by exists t0.
Qed.

(** Without failures and without other transactions a claim is a function of the table. *)
Definition quiet w : Prop := w_faults w = [] ∧ w_row_locks w = [] ∧ w_adv_locks w = [].

Lemma quiet_set_db d w : quiet w → quiet (set_db d w).
Proof. done. Qed.

Lemma ClaimNextTask_quiet wid agents w :
  quiet w → worker_exists (w_db w) wid = true →
  ClaimNextTask wid agents w =
  match sql_first claim_order (claimable [] (elems agents)) (db_tasks (w_db w)) with
  | None => (Ok None, w)
  | Some t0 =>
      (Ok (Some (task_set_assigned (w_now w) wid t0)),
       set_db (set_tasks (sql_update (task_by_id (Task_ID t0)) (task_set_assigned (w_now w) wid)
                            (db_tasks (w_db w))).1 (w_db w)) w)
  end.
Proof.
  intros (Hf & Hl & Ha) Hw.
  unfold ClaimNextTask, mbind, mret, M_bind, M_ret, select_claimable.
  rewrite pg_query_nofault, Hl by done. destruct (sql_first _ _ _) as [t0|]; [|done]. simpl.
  unfold try_advisory_lock, next_fault. rewrite Hf, Ha. simpl.
  rewrite pg_exec_nofault by done. simpl. by rewrite Hw, andb_false_r.
Qed.

(** When no statement fails and no other transaction holds a lock, a claim for a
    registered worker returns a task exactly when some queued task needs one of the
    worker's agents. *)
Lemma ClaimNextTask_complete wid agents w :
  w_faults w = [] → w_row_locks w = [] → w_adv_locks w = [] → worker_exists (w_db w) wid = true →
  (∃ t, t ∈ db_tasks (w_db w) ∧ Task_State t = TaskStateQueued ∧ Task_AIAgent t ∈ elems agents) ↔
  ∃ t w', ClaimNextTask wid agents w = (Ok (Some t), w').
Proof.
  intros Hf Hl Ha Hw. rewrite ClaimNextTask_quiet by done. split.
  - intros (t & Hin & Hq & Hag). destruct (sql_first _ _ _) as [t0|] eqn:E; [eauto|]. exfalso.
    pose proof (proj1 (sql_first_None _ _ _) E t Hin) as Hc.
    apply not_true_iff_false in Hc. apply Hc, claimable_spec.
    split_and!; [done..|]. apply not_elem_of_nil.
  - intros (t & w' & H). destruct (sql_first _ _ _) as [t0|] eqn:E; [|done].
    apply best_claimable_first in E as (? & ? & ? & _). eauto.
Qed.

End ClaimFacts.
