(* ===== verification/Brownie.v ===== *)
(** * internal/brownie: the incentive ledger

    The engine turns awards and deductions into signed ledger entries.  It is
    written against the [LedgerWriter] interface; the PostgreSQL store implements it. *)
From S2P Require Import Prelude Sql GoStd Domain World PgStore.

#[local] Open Scope string_scope.
#[local] Open Scope Z_scope.

Definition PointsTaskCompleted : Z := 10.
Definition PointsTaskAbandoned : Z := -5.
Definition PointsOutputApproved : Z := 20.
Definition PointsOutputRejected : Z := -10.
Definition PointsSecretFound : Z := -50.

(** The LedgerWriter interface, and the identifier source of the state. *)
Class LedgerWriter (W : Type) := {
  lw_WriteLedgerEntry : BrownieEvent → M W (result unit);
  lw_new_uuid : M W uuid;
}.

Section Engine.
Context {W : Type} `{LedgerWriter W}.

Definition brownie_write (workerID orgUnitID : uuid) (points : Z) (reason : string)
    (refID : option uuid) : M W (result unit) :=
  id ← lw_new_uuid;
  r ← lw_WriteLedgerEntry (MkBrownieEvent id workerID orgUnitID points reason refID 0);
  match r with
  | Err e => mret (Err e)
  | Ok _ => mret (Ok tt)
  end.

Definition Award (workerID orgUnitID : uuid) (points : Z) (reason : string)
    (refID : option uuid) : M W (result unit) :=
  if points <=? 0 then mret (Err (ErrMsg "brownie: Award called with non-positive points"))
  else brownie_write workerID orgUnitID points reason refID.

Definition Deduct (workerID orgUnitID : uuid) (points : Z) (reason : string)
    (refID : option uuid) : M W (result unit) :=
  if points <=? 0 then mret (Err (ErrMsg "brownie: Deduct called with non-positive points"))
  else brownie_write workerID orgUnitID (i64 (- points)) reason refID.

End Engine.

#[export] Instance pg_LedgerWriter {R} : LedgerWriter (world R) := {|
  lw_WriteLedgerEntry := WriteLedgerEntry;
  lw_new_uuid := new_uuid;
|}.

Section EngineFacts.
Context {R : Type}.
Implicit Types (w : world R).

(** The ledger is append-only: an entry with the given worker and points is added at
    the end, or nothing changes. *)
Definition ledger_append (w w' : world R) (workerID orgUnitID : uuid) (points : Z) : Prop :=
  ∃ e, Brownie_WorkerID e = workerID ∧ Brownie_OrgUnitID e = orgUnitID ∧ Brownie_Points e = points ∧
    w_db w' = set_ledger (db_ledger (w_db w) ++ [e]) (w_db w).

Lemma brownie_write_cases wid org p reason ref w r w' :
  brownie_write wid org p reason ref w = (r, w') →
  w_redis w' = w_redis w ∧ w_now w' = w_now w ∧
  (((r = Ok tt ∨ is_ok r = false ∧ (lost_replies w' < lost_replies w)%nat) ∧
    ledger_append w w' wid org p ∧ worker_exists (w_db w) wid = true) ∨
   (is_ok r = false ∧ w_db w' = w_db w)).
Proof.
  unfold brownie_write, mbind, M_bind, mret, M_ret. simpl.
  destruct (new_uuid w) as [u w1] eqn:E1. apply new_uuid_frame in E1 as (Hd1 & Hr1 & Hn1 & Hf1).
  destruct (WriteLedgerEntry _ w1) as [r2 w2] eqn:E2. unfold WriteLedgerEntry in E2.
  assert (lost_replies w1 = lost_replies w) as Hl by (unfold lost_replies; by rewrite Hf1).
  apply pg_exec_inv in E2 as (Hr2 & Hn2 &
    [(a & d & -> & Hf & Hd)|[(e & -> & Hd)|(a & d & -> & Hf & Hd & Hl2)]]); simpl in *.
  2:{ intros; simplify_eq/=. split; [congruence|split; [congruence|right]]. split; [done|congruence]. }
  all: repeat case_match; simplify_eq/=; intros; simplify_eq/=; boolify;
    (split; [congruence|split; [congruence|left]]).
  all: split; [first [by left | right; split; [done|lia]]|split; [|congruence]];
    unfold ledger_append; rewrite <-Hd1; by eexists (MkBrownieEvent _ _ _ _ _ _ _).
Qed.

Lemma sum_points_app l1 l2 : sum_points (l1 ++ l2) = sum_points l1 + sum_points l2.
Proof. induction l1; simpl; lia. Qed.

Lemma ledger_append_balance w w' wid org p :
  ledger_append w w' wid org p → ∀ wid',
  balance_of wid' (db_ledger (w_db w')) =
    balance_of wid' (db_ledger (w_db w)) + (if wid =? wid' then p else 0).
Proof.
  intros (e & <- & <- & <- & ->) wid'. unfold balance_of, sql_where. simpl.
  rewrite List.filter_app, sum_points_app. simpl. destruct (_ =? _); simpl; lia.
Qed.

(** Award and Deduct write exactly one signed entry or none: on success the worker's
    balance moves by exactly the given points (up for Award, down for Deduct) and every
    other balance stays; on failure the whole database stays, unless the reply of the
    INSERT was lost; and a non-positive amount is refused before anything is written. *)
Lemma award_deduct_balance (award : bool) wid org p reason ref w r w' :
  in_i64 p →
  (if award then Award wid org p reason ref w else Deduct wid org p reason ref w) = (r, w') →
  (p ≤ 0 → is_ok r = false) ∧
  (p ≤ 0 ∨ is_ok r = false ∧ lost_replies w' = lost_replies w → w_db w' = w_db w) ∧
  (is_ok r = true → ∀ wid',
     balance_of wid' (db_ledger (w_db w')) =
       balance_of wid' (db_ledger (w_db w)) +
       (if wid =? wid' then (if award then p else - p) else 0)).
Proof.
  intros Hp H.
  assert (p ≤ 0 ∧ w' = w ∧ is_ok r = false ∨
          0 < p ∧ brownie_write wid org (if award then p else - p) reason ref w = (r, w'))
    as [(? & -> & ->)|[Hpos Hw]].
  { unfold Award, Deduct, in_i64 in *.
    destruct award; destruct (p <=? 0) eqn:E; boolify; unfold mret, M_ret in H; simplify_eq; auto.
    rewrite i64_id in H by (unfold in_i64; lia). auto. }
  - split_and!; done.
  - apply brownie_write_cases in Hw as (_ & _ & [([->|[Hr Hl]] & Ha & _)|[Hr Hd]]).
    + split_and!; [lia|by intros [?|[? _]]; [lia|]|]. intros _ wid'. by erewrite ledger_append_balance.
    + rewrite Hr. split_and!; [done|intros [?|[_ ?]]; lia|done].
    + rewrite Hr, Hd. split_and!; done.
Qed.

End EngineFacts.
