(* ===== verification/Scheduler.v ===== *)
(** * internal/scheduler: matching, execution windows, dispatch and the reaper

    [tick] and [reap] are written against the Go interfaces of the package, each a
    type class over an abstract state, and instantiated with the PostgreSQL and Redis
    stores at the end of the file.  What the Go code logs is the value they return. *)
From S2P Require Import Prelude Sql GoStd Domain World RedisStore PgStore Brownie.

#[local] Open Scope string_scope.
#[local] Open Scope Z_scope.

(** ** matcher.go *)

Fixpoint hasAgent (agents : list string) (agent : string) : bool :=
  match agents with
  | [] => false
  | a :: rest => if String.eqb a agent then true else hasAgent rest agent
  end.

Definition matchScore (task : Task) (worker : Worker) : Z :=
  if negb (hasAgent (elems (Worker_Agents worker)) (Task_AIAgent task)) then -1
  else if negb (String.eqb (Worker_State worker) WorkerStateIdle) then -1
  else
    let score := i64 (0 + i64 (Task_Priority task * 10)) in
    let score := i64 (score + Z.quot (Worker_CapacityScore worker) 10) in
    i64 (score - i64 (Task_RetryCount task * 5)).

(** The loop of bestWorker with its variables [best] and [bestScore]. *)
Fixpoint bestWorker_loop (task : Task) (workers : list Worker) (best : option Worker)
    (bestScore : Z) : option Worker :=
  match workers with
  | [] => best
  | w :: rest =>
      let score := matchScore task w in
      if bestScore <? score then bestWorker_loop task rest (Some w) score
      else bestWorker_loop task rest best bestScore
  end.

Definition bestWorker (task : Task) (workers : list Worker) : option Worker :=
  bestWorker_loop task workers None (-1).

(** ** window.go *)

(** [time.LoadLocation] reads the time zone database of the host: it maps a zone name
    to its offset from UTC, in nanoseconds, at each instant. *)
Class TimeZones := LoadLocation : string → option (Z → Z).

Definition containsInt (l : list Z) (val : Z) : bool := existsb (λ v, v =? val) l.

(** The weekday (0 = Sunday; the epoch was a Thursday) and the hour of a local time. *)
Definition weekday_of (local : Z) : Z := (local / (24 * Hour) + 4) mod 7.
Definition hour_of (local : Z) : Z := local / Hour mod 24.

Section window.
Context `{TimeZones}.

Definition inWindow (t : Z) (w : TimeWindow) : bool :=
  let offset :=
    if String.eqb (TW_Timezone w) "" then 0
    else match LoadLocation (TW_Timezone w) with
         | Some l => l t
         | None => 0                       (* time.UTC *)
         end in
  let local := t + offset in
  let weekday := weekday_of local in
  let hour := hour_of local in
  if (0 <? Z.of_nat (length (elems (TW_DayOfWeek w)))) &&
     negb (containsInt (elems (TW_DayOfWeek w)) weekday) then false
  else if TW_StartHour w <=? TW_EndHour w
  then (TW_StartHour w <=? hour) && (hour <? TW_EndHour w)
  else (TW_StartHour w <=? hour) || (hour <? TW_EndHour w).

Definition IsInWindow (now : Z) (policy : OrgPolicy) : bool :=
  match elems (OP_ExecutionWindows policy) with
  | [] => true
  | ws => existsb (inWindow now) ws
  end.
End window.

(** ** scheduler.go *)

Class SchedulerTaskStore (W : Type) :=
  sts_ClaimNextTask : uuid → slice string → M W (result (option Task)).

Class SchedulerWorkerStore (W : Type) := {
  sws_ListIdleWorkers : M W (result (list Worker));
  sws_UpdateWorkerState : uuid → string → M W (result unit);
}.

Class TxBeginner (W : Type) :=
  txb_WithTx : ∀ {A}, M W (result A) → M W (result A).

Class QueueDepth (W : Type) := qd_QueueLength : M W (result Z).

Section scheduler.
Context {W : Type} `{SchedulerTaskStore W} `{SchedulerWorkerStore W} `{TxBeginner W} `{QueueDepth W}.

(** The loop over the idle workers; the result lists the (task, worker) pairs that
    "scheduler: task assigned" logs. *)
Fixpoint tick_loop (qLen : Z) (workers : list Worker) : M W (list (Task * uuid)) :=
  match workers with
  | [] => mret []
  | worker :: rest =>
      if qLen <=? 0 then mret []
      else
        r ← txb_WithTx (sts_ClaimNextTask (Worker_ID worker) (Worker_Agents worker));
        match r with
        | Err _ | Ok None => tick_loop qLen rest
        | Ok (Some claimed) =>
            _ ← sws_UpdateWorkerState (Worker_ID worker) WorkerStateBusy;
            log ← tick_loop (qLen - 1) rest;
            mret ((claimed, Worker_ID worker) :: log)
        end
  end.

Definition tick : M W (list (Task * uuid)) :=
  r ← qd_QueueLength;
  match r with
  | Err _ => mret []
  | Ok qLen =>
      if qLen =? 0 then mret []
      else
        r ← sws_ListIdleWorkers;
        match r with
        | Err _ => mret []
        | Ok [] => mret []
        | Ok workers => tick_loop qLen workers
        end
  end.
End scheduler.

(** ** reaper.go *)

Class ReaperTaskStore (W : Type) := {
  rts_GetStaleTasks : Z → M W (result (list Task));
  rts_UpdateTaskState : uuid → string → option uuid → M W (result unit);
}.

Class ReaperWorkerStore (W : Type) := rws_UpdateWorkerState : uuid → string → M W (result unit).

Class ReaperHeartbeatStore (W : Type) := rhs_GetWorkerHeartbeat : uuid → M W (result bool).

(** [None] is a nil BrownieDeductor. *)
Class BrownieDeductor (W : Type) :=
  bd_Deduct : option (uuid → uuid → Z → string → option uuid → M W (result unit)).

Class Clock (W : Type) := clock_Now : M W Z.

Section reaper.
Context {W : Type} `{ReaperTaskStore W} `{ReaperWorkerStore W} `{ReaperHeartbeatStore W}
  `{BrownieDeductor W} `{Clock W}.

(** After the requeue: mark the worker offline and deduct points; failures are logged. *)
Definition reap_worker (t : Task) : M W unit :=
  match Task_AssignedWorkerID t with
  | None => mret tt
  | Some wid =>
      _ ← rws_UpdateWorkerState wid WorkerStateOffline;
      match bd_Deduct with
      | None => mret tt
      | Some deduct =>
          _ ← deduct wid (Task_OrgUnitID t) 5 "task_abandoned" (Some (Task_ID t));
          mret tt
      end
  end.

(** Is the worker of the task, if any, silent in Redis too?  An error counts as alive. *)
Definition heartbeat_absent (t : Task) : M W bool :=
  match Task_AssignedWorkerID t with
  | None => mret true
  | Some wid =>
      r ← rhs_GetWorkerHeartbeat wid;
      match r with
      | Err _ => mret false
      | Ok alive => mret (negb alive)
      end
  end.

(** The loop over the stale tasks; the result lists the tasks requeued. *)
Fixpoint reap_loop (stale : list Task) : M W (list Task) :=
  match stale with
  | [] => mret []
  | t :: rest =>
      absent ← heartbeat_absent t;
      if negb absent then reap_loop rest
      else
        r ← rts_UpdateTaskState (Task_ID t) TaskStateQueued None;
        match r with
        | Err _ => reap_loop rest
        | Ok _ =>
            _ ← reap_worker t;
            log ← reap_loop rest;
            mret (t :: log)
        end
  end.

Definition reap (heartbeatTTLSec : Z) : M W (list Task) :=
  now ← clock_Now;
  r ← rts_GetStaleTasks (now + i64 (i64 (- heartbeatTTLSec) * Second));
  match r with
  | Err _ => mret []
  | Ok [] => mret []
  | Ok stale => reap_loop stale
  end.
End reaper.

(** ** The stores behind the interfaces (cmd/server/main.go) *)

Section instances.
Context {R : Type} `{RD : Redis R} `{UT : UUIDText}.
#[export] Instance pg_SchedulerTaskStore : SchedulerTaskStore (world R) := ClaimNextTask.
#[export] Instance pg_SchedulerWorkerStore : SchedulerWorkerStore (world R) := {|
  sws_ListIdleWorkers := ListIdleWorkers;
  sws_UpdateWorkerState := UpdateWorkerState;
|}.
#[export] Instance pg_TxBeginner : TxBeginner (world R) := λ A, WithTx.
#[export] Instance redis_QueueDepth : QueueDepth (world R) := QueueLength.
#[export] Instance pg_ReaperTaskStore : ReaperTaskStore (world R) := {|
  rts_GetStaleTasks := GetStaleTasks;
  rts_UpdateTaskState := UpdateTaskState;
|}.
#[export] Instance pg_ReaperWorkerStore : ReaperWorkerStore (world R) := UpdateWorkerState.
#[export] Instance redis_ReaperHeartbeatStore : ReaperHeartbeatStore (world R) := GetWorkerHeartbeat.
#[export] Instance pg_BrownieDeductor : BrownieDeductor (world R) := Some Deduct.
#[export] Instance world_Clock : Clock (world R) := time_Now.
End instances.

(** ** Matching *)

#[local] Close Scope string_scope.

Lemma hasAgent_spec agents a : hasAgent agents a = true ↔ a ∈ agents.
Proof.
  induction agents as [|b l IH]; simpl.
  - split; [done | by intros ?%elem_of_nil].
  - rewrite elem_of_cons. destruct (String.eqb_spec b a) as [->|Hne]; [split; auto|].
    rewrite IH. split; [auto | by intros [->|?]].
Qed.

(** The database columns are INT, so these bounds hold for every stored row. *)
Definition row_bounds (t : Task) (wk : Worker) : Prop :=
  int4_ok (Task_Priority t) = true ∧ int4_ok (Task_RetryCount t) = true ∧
  int4_ok (Worker_CapacityScore wk) = true.

(** For every task and worker the database can hold, the score computation does not
    overflow, and a pair is accepted (score above -1) exactly when the worker supports
    the agent, is idle, and the retry penalty of 5 per retry does not exceed ten times
    the priority plus a tenth of the capacity. *)
Lemma matchScore_accepts t wk :
  row_bounds t wk →
  (-1 < matchScore t wk ↔
   Task_AIAgent t ∈ elems (Worker_Agents wk) ∧ Worker_State wk = WorkerStateIdle ∧
   Task_RetryCount t * 5 ≤ Task_Priority t * 10 + Z.quot (Worker_CapacityScore wk) 10).
Proof.
  intros (Hp%int4_ok_spec & Hr%int4_ok_spec & Hc%int4_ok_spec). unfold matchScore.
  destruct (hasAgent _ _) eqn:Ea; simpl.
  2:{ split; [lia|]. intros (Hin%hasAgent_spec & _). congruence. }
  apply hasAgent_spec in Ea.
  destruct (String.eqb_spec (Worker_State wk) WorkerStateIdle) as [Es|Es]; simpl.
  2:{ split; [lia|]. by intros (_ & ? & _). }
  assert (-214748365 <= Z.quot (Worker_CapacityScore wk) 10 <= 214748365) as Hq
    by (clear -Hc; change (2 ^ 31) with 2147483648 in Hc; Z.quot_rem_to_equations; lia).
  rewrite (i64_id (Task_Priority t * 10)), (i64_id (Task_RetryCount t * 5)) by (unfold in_i64; lia).
  rewrite (i64_id (0 + _)) by (unfold in_i64; lia).
  rewrite (i64_id (0 + _ + _)) by (unfold in_i64; lia).
  rewrite i64_id by (unfold in_i64; lia).
  split; [intros; split_and!; [done..|lia] | intros (_ & _ & ?); lia].
Qed.

Lemma bestWorker_loop_spec t ws best bs :
  match bestWorker_loop t ws best bs with
  | None => best = None ∧ ∀ w, w ∈ ws → matchScore t w ≤ bs
  | Some w =>
      (best = Some w ∧ ∀ w', w' ∈ ws → matchScore t w' ≤ bs) ∨
      (bs < matchScore t w ∧ ∃ l1 l2, ws = l1 ++ w :: l2 ∧
         (∀ w', w' ∈ l1 → matchScore t w' < matchScore t w) ∧
         (∀ w', w' ∈ l2 → matchScore t w' ≤ matchScore t w))
  end.
Proof.
  revert best bs; induction ws as [|w ws IH]; intros best bs; simpl.
  { destruct best; [left|]; split; try done; intros ? ?%elem_of_nil; done. }
  destruct (bs <? matchScore t w) eqn:E; boolify.
  - specialize (IH (Some w) (matchScore t w)).
    destruct (bestWorker_loop t ws (Some w) (matchScore t w)) as [w0|]; [|by destruct IH].
    right. destruct IH as [[Hw0 Hall]|(Hlt & l1 & l2 & -> & H1 & H2)].
    + injection Hw0 as <-. split; [done|]. exists [], ws. split_and!; [done| |done].
      intros ? ?%elem_of_nil. done.
    + split; [lia|]. exists (w :: l1), l2. split_and!; [done| |done].
      intros w' [->|?]%elem_of_cons; [done | by apply H1].
  - specialize (IH best bs). destruct (bestWorker_loop t ws best bs) as [w0|].
    + destruct IH as [[Hw0 Hall]|(Hlt & l1 & l2 & -> & H1 & H2)].
      * left. split; [done|]. intros w' [->|?]%elem_of_cons; [lia | by apply Hall].
      * right. split; [done|]. exists (w :: l1), l2. split_and!; [done| |done].
        intros w' [->|?]%elem_of_cons; [lia | by apply H1].
    + destruct IH as [? Hall]. split; [done|].
      intros w' [->|?]%elem_of_cons; [lia | by apply Hall].
Qed.

(** bestWorker returns the first of the workers with the highest score, and no worker
    exactly when every score is -1 or below. *)
Lemma bestWorker_first_max t ws :
  match bestWorker t ws with
  | Some w => -1 < matchScore t w ∧ ∃ l1 l2, ws = l1 ++ w :: l2 ∧
      (∀ w', w' ∈ l1 → matchScore t w' < matchScore t w) ∧
      (∀ w', w' ∈ l2 → matchScore t w' ≤ matchScore t w)
  | None => ∀ w, w ∈ ws → matchScore t w ≤ -1
  end.
Proof.
  pose proof (bestWorker_loop_spec t ws None (-1)) as H. unfold bestWorker.
  destruct (bestWorker_loop _ _ _ _); [|by destruct H]. by destruct H as [[??]|H].
Qed.

(** ** Windows *)

Section window_facts.
Context `{TimeZones}.

(** The local time at which a window is read. *)
Definition window_local (t : Z) (w : TimeWindow) : Z :=
  t + (if String.eqb (TW_Timezone w) "" then 0
       else match LoadLocation (TW_Timezone w) with Some l => l t | None => 0 end).

(** A window with hours between 0 and 23 is open exactly on its listed weekdays (every
    day when none is listed), during the clock hours from its start up to and without its
    end, read around midnight when the end is before the start. *)
Lemma inWindow_clock t w :
  0 ≤ TW_StartHour w < 24 → 0 ≤ TW_EndHour w < 24 →
  inWindow t w = true ↔
  (elems (TW_DayOfWeek w) = [] ∨ weekday_of (window_local t w) ∈ elems (TW_DayOfWeek w)) ∧
  (hour_of (window_local t w) - TW_StartHour w) mod 24 < (TW_EndHour w - TW_StartHour w) mod 24.
Proof.
  intros Hs He. unfold inWindow. fold (window_local t w).
  assert (containsInt (elems (TW_DayOfWeek w)) (weekday_of (window_local t w)) = true ↔
          weekday_of (window_local t w) ∈ elems (TW_DayOfWeek w)) as Hd.
  { unfold containsInt. rewrite existsb_exists, list_elem_of_In. split.
    - intros (x & Hin & <-%Z.eqb_eq). done.
    - intros Hin. eexists. split; [done | apply Z.eqb_refl]. }
  assert (0 ≤ hour_of (window_local t w) < 24) as Hh by (apply Z.mod_pos_bound; lia).
  set (h := hour_of (window_local t w)) in *. set (s := TW_StartHour w) in *.
  set (e := TW_EndHour w) in *.
  assert ((if s <=? e then (s <=? h) && (h <? e) else (s <=? h) || (h <? e)) = true ↔
          (h - s) mod 24 < (e - s) mod 24) as Hwin.
  { clear - Hh Hs He. destruct (s <=? e) eqn:E; boolify;
      rewrite ?andb_true_iff, ?orb_true_iff, Z.leb_le, Z.ltb_lt;
      Z.div_mod_to_equations; lia. }
  cbv zeta. fold s e h. destruct (containsInt _ _); simpl.
  { rewrite andb_false_r, Hwin. split; [intros; split; [right; by apply Hd | done] | by intros [_ ?]]. }
  rewrite andb_true_r. destruct (elems (TW_DayOfWeek w)) as [|d ds] eqn:Eds; simpl.
  - rewrite Hwin. split; [auto|by intros [_ ?]].
  - split; [done|]. intros [[?|Hin] _]; [congruence|]. by apply Hd in Hin.
Qed.
End window_facts.
