(* ===== verification/SchedulerFacts.v ===== *)
(** * What one pass of the scheduler and of the reaper guarantees

    The dispatch theorems quantify over every fault schedule and every set of locks
    held by other transactions unless they say otherwise. *)
From S2P Require Import Prelude Sql GoStd Domain World RedisStore PgStore ClaimFacts Brownie.
From S2P Require Import Scheduler.

(** ** Statements of the stores, inverted *)

Section store_inv.
Context {R : Type}.
Implicit Types (w : world R).

Lemma UpdateWorkerState_inv wid st w r w' :
  UpdateWorkerState wid st w = (r, w') →
  w_redis w' = w_redis w ∧ w_now w' = w_now w ∧
  (w_db w' = w_db w ∧ is_ok r = false ∨
   w_db w' = set_workers (sql_update (worker_by_id wid) (worker_set_state st)
                        (db_workers (w_db w))).1 (w_db w)).
Proof.
  intros H. apply pg_exec_inv in H as (Hr & Hn &
    [(a & d & -> & Hf & Hd)|[(e & -> & Hd)|(a & d & -> & Hf & Hd & _)]]); split_and!; auto; right;
    simpl in Hf; case_match; by simplify_eq.
Qed.

(** What the background loops leave alone: every table but tasks and the ledger, except the
    state column of the workers. *)
Record sched_frame (d d' : pgdb) : Prop := {
  sf_ids : List.map Worker_ID (db_workers d') = List.map Worker_ID (db_workers d);
  sf_hosts : List.map host_key (db_workers d') = List.map host_key (db_workers d);
  sf_agents : List.map Worker_Agents (db_workers d') = List.map Worker_Agents (db_workers d);
  sf_orgs : db_orgs d' = db_orgs d;
  sf_keys : db_apikeys d' = db_apikeys d;
  sf_audit : db_audit d' = db_audit d;
  sf_outputs : db_outputs d' = db_outputs d;
}.

#[global] Instance sched_frame_preorder : PreOrder sched_frame.
Proof.
  split; [by constructor|]. intros d1 d2 d3 [] []. constructor; congruence.
Qed.

(** A worker of the table is still there, but for its state. *)
Lemma sched_frame_worker d d' wk :
  sched_frame d d' → wk ∈ db_workers d →
  ∃ wk', wk' ∈ db_workers d' ∧ Worker_ID wk' = Worker_ID wk ∧ host_key wk' = host_key wk ∧
    Worker_Agents wk' = Worker_Agents wk.
Proof.
  intros [Hi Hh Ha _ _ _ _]. revert Hi Hh Ha. generalize (db_workers d') as l'.
  induction (db_workers d) as [|x l IH]; intros [|x' l']; try done; [by intros _ _ _ ?%elem_of_nil|].
  cbn [List.map]. intros [= E1 Hi] [= E2 E3 Hh] [= E4 Ha] [->|Hin]%elem_of_cons.
  - exists x'. split; [by left|]. unfold host_key. split_and!; congruence.
  - destruct (IH l' Hi Hh Ha Hin) as (wk' & ? & ?). exists wk'. split; [by right|done].
Qed.

Lemma sched_frame_tasks ts d : sched_frame d (set_tasks ts d).
Proof. by constructor. Qed.

Lemma sched_frame_ledger l d : sched_frame d (set_ledger l d).
Proof. by constructor. Qed.

Lemma UpdateWorkerState_tasks wid st w :
  let w' := (UpdateWorkerState wid st w).2 in
  db_tasks (w_db w') = db_tasks (w_db w) ∧ w_redis w' = w_redis w ∧ w_now w' = w_now w ∧
  sched_frame (w_db w) (w_db w') ∧ db_ledger (w_db w') = db_ledger (w_db w).
Proof.
  simpl. destruct (UpdateWorkerState wid st w) as [r w'] eqn:E; simpl.
  apply UpdateWorkerState_inv in E as (? & ? & [[-> _]| ->]); split_and!; auto; [done|].
  constructor; try done; cbn [db_workers set_workers]; by apply sql_update_column.
Qed.

Lemma worker_exists_ids d d' id :
  List.map Worker_ID (db_workers d') = List.map Worker_ID (db_workers d) →
  worker_exists d' id = worker_exists d id.
Proof.
  unfold worker_exists. generalize (db_workers d) as l. induction (db_workers d') as [|x l' IH];
    intros [|y l]; simpl; try done. intros [= -> ?]. f_equal. by apply IH.
Qed.

Lemma UpdateTaskState_inv id st wid w r w' :
  UpdateTaskState id st wid w = (r, w') →
  w_redis w' = w_redis w ∧ w_now w' = w_now w ∧
  (w_db w' = w_db w ∧ is_ok r = false ∨
   (r = Ok tt ∨ is_ok r = false ∧ (lost_replies w' < lost_replies w)%nat) ∧
   w_db w' = set_tasks (sql_update (task_by_id id) (task_set_state (w_now w) st wid)
                        (db_tasks (w_db w))).1 (w_db w)).
Proof.
  intros H. apply pg_exec_inv in H as (Hr & Hn &
    [([] & d & -> & Hf & Hd)|[(e & -> & Hd)|([] & d & -> & Hf & Hd & Hl)]]);
    split_and!; auto; right; (split; [auto|]); simpl in Hf; repeat case_match; by simplify_eq.
Qed.

End store_inv.

(** ** The scheduler's pass *)

Lemma sublist_same_length {A} (l k : list A) : l `sublist_of` k → (length k ≤ length l)%nat → k = l.
Proof.
  induction 1 as [|x l k _ IH|x l k Hs IH]; simpl; intros Hlen; [done|f_equal; apply IH; lia|].
  apply sublist_length in Hs. lia.
Qed.

(** The worker that a log of assignments gives a task to. *)
Fixpoint assigned_in (log : list (Task * uuid)) (id : uuid) : option uuid :=
  match log with
  | [] => None
  | (t, wid) :: rest => if Task_ID t =? id then Some wid else assigned_in rest id
  end.

Lemma assigned_in_Some log id wid :
  assigned_in log id = Some wid → ∃ x, x ∈ log ∧ Task_ID x.1 = id ∧ x.2 = wid.
Proof.
  induction log as [|[t wid'] log IH]; simpl; [done|].
  destruct (Z.eqb_spec (Task_ID t) id) as [<-|].
  - intros [= <-]. exists (t, wid'). split; [by left|done].
  - intros (x & Hin & Hx)%IH. exists x. split; [by right|done].
Qed.

Lemma assigned_in_entry log t wid :
  NoDup (List.map (λ x, Task_ID x.1) log) → (t, wid) ∈ log → assigned_in log (Task_ID t) = Some wid.
Proof.
  induction log as [|[t' wid'] log IH]; intros Hnd; [by intros ?%elem_of_nil|].
  apply NoDup_cons in Hnd as [Hno Hnd]. intros [[= <- <-]|Hin]%elem_of_cons; simpl; [by rewrite Z.eqb_refl|].
  destruct (Z.eqb_spec (Task_ID t') (Task_ID t)) as [E|]; [|by apply IH].
  destruct Hno. cbn [fst]. rewrite E. apply elem_of_bmap. by exists (t, wid).
Qed.

Definition dispatched (now : Z) (log : list (Task * uuid)) (t : Task) : Task :=
  match assigned_in log (Task_ID t) with
  | Some wid => task_set_assigned now wid t
  | None => t
  end.

Definition log_ids (log : list (Task * uuid)) : list uuid := List.map (λ x, Task_ID x.1) log.

Lemma assigned_in_None log id : assigned_in log id = None ↔ id ∉ log_ids log.
Proof.
  induction log as [|[t wid] log IH]; simpl.
  { split; [intros _; apply not_elem_of_nil | done]. }
  rewrite not_elem_of_cons. destruct (Z.eqb_spec (Task_ID t) id) as [->|Hne].
  - split; [done | by intros [? _]].
  - rewrite IH. split; [auto | by intros [_ ?]].
Qed.

(** What one assignment of a pass is: an idle worker of the list got a queued task its
    agents can run. *)
Definition good_assignment (now : Z) (workers : list Worker) (tasks : list Task)
    (x : Task * uuid) : Prop :=
  ∃ wk t0, wk ∈ workers ∧ x.2 = Worker_ID wk ∧ t0 ∈ tasks ∧ Task_State t0 = TaskStateQueued ∧
    Task_AIAgent t0 ∈ elems (Worker_Agents wk) ∧ x.1 = task_set_assigned now (Worker_ID wk) t0.

Section tick_facts.
Context {R : Type} `{RD : Redis R}.
Implicit Types (w : world R).

(** The summary of a run of the loop over the idle workers: [made] are the assignments
    made, [log] those that the pass knows of and logs. *)
Record tick_run (workers : list Worker) (q : Z) (log made : list (Task * uuid)) (w w' : world R) : Prop := {
  tick_run_now : w_now w' = w_now w;
  tick_run_redis : w_redis w' = w_redis w;
  tick_run_tasks : db_tasks (w_db w') = List.map (dispatched (w_now w) made) (db_tasks (w_db w));
  tick_run_ledger : db_ledger (w_db w') = db_ledger (w_db w);
  tick_run_frame : sched_frame (w_db w) (w_db w');
  tick_run_logged : log `sublist_of` made;
  tick_run_lost : (length made + lost_replies w' ≤ length log + lost_replies w)%nat;
  tick_run_len : Z.of_nat (length log) ≤ q;
  tick_run_workers : List.map snd made `sublist_of` List.map Worker_ID workers;
  tick_run_nodup : NoDup (log_ids made);
  tick_run_good : ∀ x, x ∈ made → good_assignment (w_now w) workers (db_tasks (w_db w)) x;
}.

Lemma tick_run_nil workers q w w' :
  0 ≤ q → w_now w' = w_now w → w_redis w' = w_redis w → w_db w' = w_db w → lost_replies w' = lost_replies w →
  tick_run workers q [] [] w w'.
Proof.
  intros Hq Hn Hr Hd Hl. constructor; simpl; try done; rewrite ?Hd, ?Hl; try done.
  - symmetry. apply map_id.
  - apply sublist_nil_l.
  - constructor.
  - by intros x ?%elem_of_nil.
Qed.

(** A queued row in the table after a claim was there, unchanged, before it, and is not
    the row claimed. *)
Lemma queued_after_claim now wid t0 ts t :
  t ∈ (sql_update (task_by_id (Task_ID t0)) (task_set_assigned now wid) ts).1 →
  Task_State t = TaskStateQueued → t ∈ ts ∧ Task_ID t ≠ Task_ID t0.
Proof.
  intros (r & Hin & ->)%elem_of_sql_update Hq. unfold task_by_id in *.
  destruct (Z.eqb_spec (Task_ID r) (Task_ID t0)); [done|auto].
Qed.

Lemma dispatched_cons now wid t0 log t :
  assigned_in log (Task_ID t0) = None →
  dispatched now log (if task_by_id (Task_ID t0) t then task_set_assigned now wid t else t) =
  dispatched now ((task_set_assigned now wid t0, wid) :: log) t.
Proof.
  intros Hn. unfold dispatched, task_by_id. simpl.
  destruct (Z.eqb_spec (Task_ID t) (Task_ID t0)) as [E|E].
  - simpl. rewrite E, Z.eqb_refl. by rewrite Hn.
  - rewrite (proj2 (Z.eqb_neq (Task_ID t0) (Task_ID t))); auto.
Qed.

(** A worker is given a task: the pass logs it, or loses the reply of a COMMIT. *)
Lemma tick_run_cons (logged : bool) wk rest q log made t0 w w2 w' :
  let x := (task_set_assigned (w_now w) (Worker_ID wk) t0, Worker_ID wk) in
  Task_State t0 = TaskStateQueued → t0 ∈ db_tasks (w_db w) →
  Task_AIAgent t0 ∈ elems (Worker_Agents wk) →
  w_now w2 = w_now w → w_redis w2 = w_redis w →
  db_tasks (w_db w2) = (sql_update (task_by_id (Task_ID t0))
     (task_set_assigned (w_now w) (Worker_ID wk)) (db_tasks (w_db w))).1 →
  db_ledger (w_db w2) = db_ledger (w_db w) → sched_frame (w_db w) (w_db w2) →
  ((if logged then 0 else 1) + lost_replies w2 ≤ lost_replies w)%nat →
  tick_run rest (if logged then q - 1 else q) log made w2 w' →
  tick_run (wk :: rest) q (if logged then x :: log else log) (x :: made) w w'.
Proof.
  intros x Hq Hin Ha Hn Hr Ht Hl Hsf Hlost [].
  assert (Task_ID t0 ∉ log_ids made) as Hfresh.
  { unfold log_ids. intros (y & Heq & Hx)%elem_of_bmap.
    destruct (tick_run_good0 y Hx) as (wk' & t1 & _ & _ & Hin1 & Hq1 & _ & Hx1).
    rewrite Ht in Hin1. apply queued_after_claim in Hin1 as [_ Hne]; [|done].
    rewrite Hx1 in Heq. simpl in Heq. congruence. }
  constructor; try congruence; simpl.
  - rewrite tick_run_tasks0, Ht, Hn. unfold sql_update; simpl. rewrite map_map.
    apply map_ext. intros t. apply dispatched_cons. by apply assigned_in_None.
  - by etrans.
  - destruct logged; [by apply sublist_skip|by apply sublist_cons].
  - destruct logged; simpl; lia.
  - destruct logged; simpl; lia.
  - by apply sublist_skip.
  - unfold log_ids; simpl. by constructor.
  - intros y [->|Hx]%elem_of_cons.
    + exists wk, t0. split_and!; try done. by left.
    + destruct (tick_run_good0 y Hx) as (wk' & t1 & ? & ? & Hin1 & Hq1 & ? & ?).
      rewrite Ht in Hin1. apply queued_after_claim in Hin1 as [? _]; [|done].
      exists wk', t1. rewrite <-Hn. split_and!; try done. by right.
Qed.

Lemma tick_run_skip wk rest q log made w w1 w' :
  w_now w1 = w_now w → w_redis w1 = w_redis w → w_db w1 = w_db w → (lost_replies w1 ≤ lost_replies w)%nat →
  tick_run rest q log made w1 w' → tick_run (wk :: rest) q log made w w'.
Proof.
  intros Hn Hr Hd Hl []. rewrite Hn, Hr, Hd in *. constructor; try done; simpl.
  - lia.
  - by apply sublist_cons.
  - intros x Hx. destruct (tick_run_good0 x Hx) as (wk' & t0 & ? & ?).
    exists wk', t0. split; [by right|done].
Qed.

Lemma tick_loop_run workers : ∀ q w log w',
  0 ≤ q → tick_loop q workers w = (log, w') → ∃ made, tick_run workers q log made w w'.
Proof.
  induction workers as [|wk rest IH]; intros q w log w' Hq; simpl.
  { intros [= <- <-]. exists []. by apply tick_run_nil. }
  destruct (q <=? 0) eqn:Eq; [intros [= <- <-]; exists []; by apply tick_run_nil|]. boolify.
  unfold mbind, M_bind, txb_WithTx, pg_TxBeginner, sts_ClaimNextTask, pg_SchedulerTaskStore.
  destruct (WithTx _ w) as [r w1] eqn:E1.
  apply claim_tx_cases in E1 as (Hr1 & Hn1 & Hl1 & [[Hd1 Hno]|(t0 & Hb & _ & _ & Hr & Hd1)]).
  { intros H. assert (tick_loop q rest w1 = (log, w')) as Ht
      by (destruct r as [[t|]|e]; [by destruct (Hno t)|done..]).
    apply IH in Ht as [made Ht]; [|done]. exists made. by eapply (tick_run_skip _ _ _ _ _ _ w1). }
  destruct Hb as (Hin & Hst & Hag & _). destruct Hr as [->|[-> Hlost]]; simpl.
  - pose proof (UpdateWorkerState_tasks (Worker_ID wk) WorkerStateBusy w1) as Hu.
    pose proof (consumes_exec _ w1 : (lost_replies (UpdateWorkerState (Worker_ID wk) WorkerStateBusy w1).2 ≤ _)%nat) as Hl2.
    unfold sws_UpdateWorkerState, pg_SchedulerWorkerStore.
    destruct (UpdateWorkerState _ _ w1) as [r2 w2]. simpl in Hu, Hl2.
    destruct Hu as (Ht2 & Hr2 & Hn2 & Hf2 & Hg2).
    destruct (tick_loop (q - 1) rest w2) as [log' w3] eqn:E3.
    intros [= <- <-]. apply IH in E3 as [made E3]; [|lia].
    assert (sched_frame (w_db w) (w_db w2)) as Hsf
      by (etrans; [|exact Hf2]; rewrite Hd1; apply sched_frame_tasks).
    eexists. eapply (tick_run_cons true _ _ _ _ _ _ _ w2); try done;
      rewrite ?Ht2, ?Hg2, ?Hd1; try done; [congruence..|simpl; lia].
  - intros H. apply IH in H as [made H]; [|done]. eexists.
    eapply (tick_run_cons false _ _ _ _ _ _ _ w1); try done; rewrite ?Hd1; try done.
Qed.

(** *** The pass as a whole *)

Lemma QueueLength_inv w r w' :
  QueueLength w = (r, w') →
  w_db w' = w_db w ∧ w_redis w' = w_redis w ∧ w_now w' = w_now w ∧
  (r = Ok (redis_ZCard taskQueueKey (w_redis w)) ∨ r = Err ErrUnavailable).
Proof.
  intros H. apply redis_do_inv in H as (? & ? & [(a & rd & -> & [= <- <-] & ->)|[-> [->| ->]]]); auto.
Qed.

Lemma elem_of_ListIdleWorkers w ws w' :
  ListIdleWorkers w = (Ok ws, w') → ∀ wk,
  wk ∈ ws ↔ wk ∈ db_workers (w_db w) ∧ idle_recent (w_now w) wk = true.
Proof.
  intros H wk. apply pg_query_inv in H as (_ & _ & _ & [H|H]); [|done]. injection H as ->.
  by rewrite elem_of_sql_order_by, elem_of_sql_where.
Qed.

Lemma good_assignment_sub now ws ws' ts x :
  (∀ wk, wk ∈ ws → wk ∈ ws') → good_assignment now ws ts x → good_assignment now ws' ts x.
Proof. intros Hs (wk & t0 & ? & ?). exists wk, t0. auto. Qed.

(** The idle workers a pass considers, in its order. *)
Definition idle_workers (w : world R) : list Worker :=
  sql_order_by capacity_desc (sql_where (idle_recent (w_now w)) (db_workers (w_db w))).

Lemma NoDup_idle_ids w :
  NoDup (List.map Worker_ID (db_workers (w_db w))) → NoDup (List.map Worker_ID (idle_workers w)).
Proof.
  intros Hnd. unfold idle_workers.
  eapply NoDup_Permutation_proper; [apply Permutation_map, sql_order_by_permutation|].
  unfold sql_where. induction (db_workers (w_db w)) as [|x l IH]; simpl in *; [done|].
  apply NoDup_cons in Hnd as [Hx Hl]. destruct (idle_recent _ x); simpl; [|auto].
  constructor; [|auto]. intros (y & E & [Hy _]%elem_of_bfilter)%elem_of_bmap.
  apply Hx. rewrite E. apply elem_of_bmap. eauto.
Qed.

Lemma tick_cases w log w' :
  tick w = (log, w') →
  (log = [] ∧ w_db w' = w_db w ∧ w_redis w' = w_redis w ∧ w_now w' = w_now w ∧
   (lost_replies w' ≤ lost_replies w)%nat) ∨
  (redis_ZCard taskQueueKey (w_redis w) ≠ 0 ∧
   ∃ w1, w_db w1 = w_db w ∧ w_redis w1 = w_redis w ∧ w_now w1 = w_now w ∧
     (lost_replies w1 ≤ lost_replies w)%nat ∧
     tick_loop (redis_ZCard taskQueueKey (w_redis w)) (idle_workers w) w1 = (log, w')).
Proof.
  unfold tick, mbind, M_bind, mret, M_ret, qd_QueueLength, redis_QueueDepth.
  destruct (QueueLength w) as [r w1] eqn:E1. pose proof (consumes_run _ _ _ _ (consumes_redis _) E1) as Hl1.
  apply QueueLength_inv in E1 as (Hd1 & Hr1 & Hn1 & [->| ->]); [|intros [= <- <-]; auto 10].
  destruct (_ =? 0) eqn:Ez; boolify; [intros [= <- <-]; auto 10|].
  unfold sws_ListIdleWorkers, pg_SchedulerWorkerStore.
  destruct (ListIdleWorkers w1) as [r2 w2] eqn:E2. pose proof (consumes_run _ _ _ _ (consumes_query _) E2) as Hl2.
  apply pg_query_inv in E2 as (Hd2 & Hr2 & Hn2 & [->| ->]);
    [|intros [= <- <-]; left; split_and!; first [congruence|lia]].
  rewrite Hd1, Hn1. fold (idle_workers w). intros H. right. split; [done|].
  exists w2. split_and!; try congruence; [lia|]. by destruct (idle_workers w).
Qed.

(** A pass that assigns something has run its loop. *)
Lemma tick_ran `{!RedisLaws R} w log w' :
  tick w = (log, w') → log ≠ [] → ∃ w1 made, w_db w1 = w_db w ∧ w_redis w1 = w_redis w ∧ w_now w1 = w_now w ∧
    (lost_replies w1 ≤ lost_replies w)%nat ∧
    tick_run (idle_workers w) (redis_ZCard taskQueueKey (w_redis w)) log made w1 w'.
Proof.
  intros [(-> & _)|(_ & w1 & ? & ? & ? & ? & H)]%tick_cases Hne; [done|].
  apply tick_loop_run in H as [made H]; [|rewrite redis_zcard; lia]. by exists w1, made.
Qed.

(** After a pass that gives a worker without a waiting task the task [t], this is the task
    that waits for it. *)
Lemma tick_waits `{!RedisLaws R} w log w' t wid :
  NoDup (List.map Task_ID (db_tasks (w_db w))) → NoDup (List.map Worker_ID (db_workers (w_db w))) →
  (∀ t', t' ∈ db_tasks (w_db w) → assigned_to wid t' = false) → tick w = (log, w') → (t, wid) ∈ log →
  t ∈ db_tasks (w_db w') ∧ assigned_to wid t = true ∧
  (∀ t', t' ∈ db_tasks (w_db w') → assigned_to wid t' = true → t' = t) ∧
  (∃ wk l, wk ∈ db_workers (w_db w) ∧ Worker_ID wk = wid ∧ Worker_Agents wk = Some l) ∧
  (∃ t0, t0 ∈ db_tasks (w_db w) ∧ Task_State t0 = TaskStateQueued ∧ t = task_set_assigned (w_now w) wid t0) ∧
  (∃ made, db_tasks (w_db w') = List.map (dispatched (w_now w) made) (db_tasks (w_db w))) ∧
  sched_frame (w_db w) (w_db w') ∧ w_now w' = w_now w ∧ w_redis w' = w_redis w.
Proof.
  intros Hti Hwi Hno Ht Hin.
  destruct (tick_ran w log w' Ht) as (w1 & made & Hd & Hr & Hn & _ & [Hn' Hr' Htk _ Hf Hlog _ _ Hws Hnd Hgood]); [by destruct log; [apply elem_of_nil in Hin|]|].
  assert ((t, wid) ∈ made) as Hmade by by eapply elem_of_sublist.
  rewrite Hd, Hn, Hr in *.
  destruct (Hgood _ Hmade) as (wk & t0 & Hwk & Hw2 & Hin0 & Hq & Hag & Ht1). cbn [fst snd] in Hw2, Ht1. rewrite <-Hw2 in Ht1.
  assert (dispatched (w_now w) made t0 = t) as Hdt.
  { unfold dispatched. replace (Task_ID t0) with (Task_ID t) by by rewrite Ht1. by rewrite (assigned_in_entry made t wid). }
  assert (wk ∈ db_workers (w_db w)) as Hwk'.
  { unfold idle_workers in Hwk. by apply elem_of_sql_order_by, elem_of_sql_where in Hwk as [? _]. }
  split_and!; try done.
  - rewrite Htk, <-Hdt. apply elem_of_bmap. by exists t0.
  - rewrite Ht1. unfold assigned_to. simpl. by rewrite bool_decide_eq_true_2.
  - intros t' Hin' Ha. rewrite Htk in Hin'. apply elem_of_bmap in Hin' as (t2 & -> & Hin2). rewrite <-Hdt.
    unfold dispatched in Ha |- * at 1. destruct (assigned_in made (Task_ID t2)) as [wid'|] eqn:E; [|by rewrite Hno in Ha].
    assert (wid' = wid) as ->.
    { unfold assigned_to in Ha. apply andb_true_iff in Ha as [Ha _]. apply bool_decide_eq_true in Ha. simpl in Ha. congruence. }
    apply assigned_in_Some in E as ([x wid'] & Hx & Hxid & Hxw). cbn [fst snd] in *. subst wid'.
    assert ((x, wid) = (t, wid)) as [= ->].
    { apply (NoDup_map_inj snd made); try done. eapply sublist_NoDup; [by apply NoDup_idle_ids|done]. }
    assert (t2 = t0) as -> by (apply (NoDup_map_inj Task_ID (db_tasks (w_db w))); [done..|]; rewrite <-Hxid, Ht1; done).
    unfold dispatched. rewrite <-Hxid. by rewrite (assigned_in_entry made t wid).
  - destruct (Worker_Agents wk) as [l|] eqn:El; [|by apply elem_of_nil in Hag]. by exists wk, l.
  - by exists t0.
  - by exists made.
Qed.

(** A pass schedules no failures. *)
Definition faultless {A} (m : M (world R) A) : Prop := ∀ w, w_faults w = [] → w_faults (m w).2 = [].

Lemma faultless_ret {A} (a : A) : faultless (mret a).
Proof. by intros w. Qed.

Lemma faultless_bind {A B} (m : M (world R) A) (f : A → M (world R) B) : faultless m → (∀ a, faultless (f a)) → faultless (m ≫= f).
Proof. intros Hm Hf w Hw. unfold mbind, M_bind. specialize (Hm w Hw). destruct (m w) as [a w1]. by apply Hf. Qed.

Lemma faultless_exec {A} (f : Z → pgdb → result (A * pgdb)) : faultless (pg_exec f).
Proof. intros w Hw. rewrite pg_exec_nofault by done. by destruct (f _ _) as [[]|]. Qed.

Lemma faultless_query {A} (f : Z → pgdb → result A) : faultless (pg_query f).
Proof. intros w Hw. by rewrite pg_query_nofault. Qed.

Lemma faultless_redis {A} (f : Z → R → A * R) : faultless (redis_do f).
Proof. intros w Hw. rewrite redis_do_nofault by done. by destruct (f _ _). Qed.

Lemma faultless_lock key : faultless (try_advisory_lock key).
Proof. intros w Hw. unfold try_advisory_lock, next_fault. by rewrite Hw. Qed.

Lemma faultless_tx {A} (m : M (world R) (result A)) : faultless m → faultless (WithTx m).
Proof.
  intros Hm w Hw. unfold WithTx, next_fault at 1. rewrite Hw. specialize (Hm w Hw).
  destruct (m w) as [[a|e] w1]; simpl in *; [|done]. unfold next_fault. by rewrite Hm.
Qed.

Lemma faultless_claim wid agents : faultless (ClaimNextTask wid agents).
Proof.
  apply faultless_bind; [intros w; apply faultless_query|]. intros [[t|]|e]; try apply faultless_ret.
  apply faultless_bind; [apply faultless_lock|]. intros [[]|e]; try apply faultless_ret.
  apply faultless_bind; [apply faultless_exec|]. intros [now|e]; apply faultless_ret.
Qed.

Lemma tick_faultless : faultless tick.
Proof.
  apply faultless_bind; [apply faultless_redis|]. intros [q|e]; [|apply faultless_ret].
  case_match; [apply faultless_ret|]. apply faultless_bind; [apply faultless_query|].
  intros [ws|e]; [|apply faultless_ret]. assert (∀ q, faultless (tick_loop q ws)) as Hl; [|by destruct ws; [apply faultless_ret|]].
  induction ws as [|wk ws IH]; intros q'; [apply faultless_ret|]. simpl. case_match; [apply faultless_ret|].
  apply faultless_bind; [apply faultless_tx, faultless_claim|]. intros [[t|]|e]; [|apply IH..].
  apply faultless_bind; [apply faultless_exec|]. intros u. apply faultless_bind; [apply IH|]. intros log. apply faultless_ret.
Qed.

(** C12: Whatever fails during a pass, and whatever locks others hold: the pass rewrites
    the task table exactly by a list of assignments, each of which gives a task that
    was queued to a worker that was idle with a heartbeat in the last 90 seconds and
    that runs the task's agent; no task and no worker appears twice.  The assignments
    that the pass logs and counts are among them, and each of the others took a COMMIT
    whose reply was lost, so when no reply is lost they are all of them; at most as many
    tasks are logged as the Redis queue holds, and the pass leaves the Redis queue and
    the incentive ledger as they are. *)
Theorem tick_dispatch `{!RedisLaws R} w log w' :
  NoDup (List.map Worker_ID (db_workers (w_db w))) →
  tick w = (log, w') →
  ∃ made,
    db_tasks (w_db w') = List.map (dispatched (w_now w) made) (db_tasks (w_db w)) ∧
    (∀ x, x ∈ made →
       good_assignment (w_now w) (sql_where (idle_recent (w_now w)) (db_workers (w_db w)))
         (db_tasks (w_db w)) x) ∧
    NoDup (log_ids made) ∧ NoDup (List.map snd made) ∧
    log `sublist_of` made ∧ (length made + lost_replies w' ≤ length log + lost_replies w)%nat ∧
    (lost_replies w = 0%nat → made = log) ∧
    (length log ≤ size (redis_zset taskQueueKey (w_redis w)))%nat ∧
    w_redis w' = w_redis w ∧ db_ledger (w_db w') = db_ledger (w_db w).
Proof.
  intros Hnd H. apply tick_cases in H as [(-> & Hd & Hr & Hn & Hl)|(Hz & w1 & Hd & Hr & Hn & Hl & H)].
  { exists []. rewrite Hd. split_and!; simpl; try constructor; try lia; try done.
    - symmetry. apply map_id.
    - by intros x ?%elem_of_nil. }
  apply tick_loop_run in H as [made H]; [|rewrite redis_zcard; lia]. destruct H.
  rewrite Hd, Hn, Hr in *. exists made. split_and!; try done.
  - intros x Hx. eapply good_assignment_sub; [|by apply tick_run_good0].
    intros wk. unfold idle_workers. by rewrite elem_of_sql_order_by.
  - eapply sublist_NoDup; [|done]. by apply NoDup_idle_ids.
  - lia.
  - intros H0. apply sublist_same_length; [done|lia].
  - rewrite redis_zcard in *. lia.
Qed.

(** A pass that finds the Redis queue empty assigns nothing and changes nothing in
    the database, whatever tasks are queued there and whatever workers are idle. *)
Lemma tick_needs_redis_queue `{!RedisLaws R} w log w' :
  redis_zset taskQueueKey (w_redis w) = ∅ → tick w = (log, w') → log = [] ∧ w_db w' = w_db w.
Proof.
  intros He H. apply tick_cases in H as [(-> & ? & _)|(Hz & _)]; [done|].
  rewrite redis_zcard, He, map_size_empty in Hz. done.
Qed.

(** *** Work conservation *)

Lemma claim_tx_quiet wid agents w :
  quiet w → worker_exists (w_db w) wid = true →
  WithTx (ClaimNextTask wid agents) w = ClaimNextTask wid agents w.
Proof.
  intros Hq Hw. unfold WithTx, next_fault. pose proof Hq as (Hf & _). rewrite Hf.
  rewrite ClaimNextTask_quiet by done. destruct (sql_first _ _ _); simpl; by rewrite Hf.
Qed.

Lemma UpdateWorkerState_quiet wid st w : quiet w → quiet (UpdateWorkerState wid st w).2.
Proof.
  intros Hq. unfold UpdateWorkerState. rewrite pg_exec_nofault by apply Hq.
  destruct (sql_update _ _ _) as [ws n]. by destruct (n =? 0).
Qed.

(** No queued task of the table runs on one of the agents. *)
Definition starved (agents : list string) (ts : list Task) : Prop :=
  ∀ t, t ∈ ts → Task_State t = TaskStateQueued → Task_AIAgent t ∉ agents.

(** Every worker of the list got a task or finds none left for it. *)
Definition all_served (workers : list Worker) (log : list (Task * uuid)) (ts : list Task) : Prop :=
  ∀ wk, wk ∈ workers → Worker_ID wk ∈ List.map snd log ∨ starved (elems (Worker_Agents wk)) ts.

Lemma starved_dispatched agents now log ts :
  starved agents ts → starved agents (List.map (dispatched now log) ts).
Proof.
  intros H t (t0 & -> & Hin)%elem_of_bmap. unfold dispatched.
  destruct (assigned_in _ _); [done|by apply H].
Qed.

Lemma tick_loop_conserving workers : ∀ q w log w',
  quiet w → 0 ≤ q → (∀ wk, wk ∈ workers → worker_exists (w_db w) (Worker_ID wk) = true) →
  tick_loop q workers w = (log, w') →
  Z.of_nat (length log) < q → all_served workers log (db_tasks (w_db w')).
Proof.
  induction workers as [|wk rest IH]; intros q w log w' Hqt Hq Hex.
  { intros _ _ ? ?%elem_of_nil. done. }
  intros Hrun Hlen. pose proof Hrun as Hsum. simpl in Hrun.
  destruct (q <=? 0) eqn:Eq; [injection Hrun as <- <-; boolify; simpl in *; lia|]. boolify.
  unfold mbind, M_bind, txb_WithTx, pg_TxBeginner, sts_ClaimNextTask, pg_SchedulerTaskStore,
    sws_UpdateWorkerState, pg_SchedulerWorkerStore in Hrun.
  rewrite claim_tx_quiet, ClaimNextTask_quiet in Hrun by (done || apply Hex; by left).
  destruct (sql_first _ _ _) as [t0|] eqn:Ef.
  - set (w1 := set_db _ w) in Hrun.
    pose proof (UpdateWorkerState_tasks (Worker_ID wk) WorkerStateBusy w1) as Hu.
    pose proof (UpdateWorkerState_quiet (Worker_ID wk) WorkerStateBusy w1 Hqt) as Hqt2.
    destruct (UpdateWorkerState _ _ w1) as [r2 w2]. simpl in Hu, Hqt2.
    destruct (tick_loop (q - 1) rest w2) as [log' w3] eqn:E3.
    injection Hrun as <- <-. simpl in Hlen.
    intros wk' [->|Hin]%elem_of_cons; [left; by left|].
    destruct (IH (q - 1) w2 log' w3) with (wk := wk') as [?|?]; try done; try lia.
    + intros wk0 Hwk0. destruct Hu as (_ & _ & _ & [Hids] & _).
      erewrite worker_exists_ids by exact Hids. unfold worker_exists. simpl.
      apply Hex. by right.
    + left. by right.
    + by right.
  - apply tick_loop_run in Hsum as [made Hsum]; [|done].
    intros wk' [->|Hin]%elem_of_cons.
    + right. rewrite (tick_run_tasks _ _ _ _ _ _ Hsum). apply starved_dispatched.
      intros t Hin Hst Ha. pose proof (proj1 (sql_first_None _ _ _) Ef t Hin) as Hc.
      apply not_true_iff_false in Hc. apply Hc, claimable_spec. split_and!; [done..|].
      apply not_elem_of_nil.
    + eapply IH; try done. intros. apply Hex. by right.
Qed.

(** When no statement fails and no other transaction interferes, a pass that assigns
    fewer tasks than the Redis queue holds leaves no work undone: every worker that was
    idle with a recent heartbeat got a task, or no task left queued needs one of its
    agents. *)
Lemma tick_work_conserving `{!RedisLaws R} w log w' :
  quiet w → tick w = (log, w') →
  (length log < size (redis_zset taskQueueKey (w_redis w)))%nat →
  all_served (sql_where (idle_recent (w_now w)) (db_workers (w_db w))) log (db_tasks (w_db w')).
Proof.
  intros Hq H Hlen. unfold tick, mbind, M_bind, mret, M_ret, qd_QueueLength, redis_QueueDepth,
    QueueLength, sws_ListIdleWorkers, pg_SchedulerWorkerStore, ListIdleWorkers in H.
  rewrite redis_do_nofault, redis_zcard in H by apply Hq.
  rewrite (proj2 (Z.eqb_neq _ _)) in H by lia.
  rewrite pg_query_nofault in H by apply Hq.
  simpl in H. fold (idle_workers w) in H.
  assert (tick_loop (Z.of_nat (size (redis_zset taskQueueKey (w_redis w)))) (idle_workers w)
            (set_redis (w_redis w) w) = (log, w')) as Hl by (by destruct (idle_workers w)).
  intros wk Hwk. apply tick_loop_conserving in Hl; [apply Hl| | | |]; try done; try lia.
  - unfold idle_workers. by rewrite elem_of_sql_order_by.
  - intros wk0 [Hin _]%elem_of_sql_order_by%elem_of_sql_where.
    unfold worker_exists. apply existsb_exists. exists wk0.
    split; [by apply list_elem_of_In | apply Z.eqb_refl].
Qed.
End tick_facts.

(** ** The reaper's pass *)

(** Requeueing keeps every column but the state. *)
Definition requeued (now : Z) (ids : list uuid) (t : Task) : Task :=
  if existsb (Z.eqb (Task_ID t)) ids then task_set_state now TaskStateQueued None t else t.

(** No heartbeat of the task's worker is in Redis. *)
Definition silent {R} `{Redis R} `{UUIDText} (now : Z) (r : R) (t : Task) : Prop :=
  ∀ wid, Task_AssignedWorkerID t = Some wid → redis_Exists now (heartbeatKey wid) r = false.

(** The points taken for an abandoned task. *)
Definition abandon_entry (x : uuid * uuid * Z) (t : Task) : Prop :=
  Task_AssignedWorkerID t = Some x.1.1 ∧ Task_OrgUnitID t = x.1.2 ∧ x.2 = -5.

Definition entry_key (e : BrownieEvent) : uuid * uuid * Z :=
  (Brownie_WorkerID e, Brownie_OrgUnitID e, Brownie_Points e).

Lemma requeued_cons now t ids x :
  requeued now ids (if task_by_id t x then task_set_state now TaskStateQueued None x else x) =
  requeued now (t :: ids) x.
Proof.
  unfold requeued, task_by_id. simpl. destruct (Z.eqb_spec (Task_ID x) t) as [E|E]; simpl; [|done].
  by destruct (existsb _ _).
Qed.

Section reap_facts.
Context {R : Type} `{RD : Redis R} `{UT : UUIDText}.
Implicit Types (w : world R).

Lemma heartbeat_absent_inv t w b w' :
  heartbeat_absent t w = (b, w') →
  w_db w' = w_db w ∧ w_redis w' = w_redis w ∧ w_now w' = w_now w ∧
  (b = true → silent (w_now w) (w_redis w) t).
Proof.
  unfold heartbeat_absent, silent, mbind, M_bind, mret, M_ret.
  destruct (Task_AssignedWorkerID t) as [wid|]; [|by intros [= <- <-]].
  unfold rhs_GetWorkerHeartbeat, redis_ReaperHeartbeatStore.
  destruct (GetWorkerHeartbeat wid w) as [r w1] eqn:E.
  apply redis_do_inv in E as (Hd & Hn & [(a & rd & -> & [= <- <-] & Hr)|[-> [Hr|Hr]]]);
    intros [= <- <-]; split_and!; try done.
  intros Hb%negb_true_iff wid' [= <-]. done.
Qed.

Lemma reap_worker_inv t w u w' :
  reap_worker t w = (u, w') →
  sched_frame (w_db w) (w_db w') ∧
  db_tasks (w_db w') = db_tasks (w_db w) ∧ w_redis w' = w_redis w ∧ w_now w' = w_now w ∧
  ∃ es, db_ledger (w_db w') = db_ledger (w_db w) ++ es ∧
    (es = [] ∨ ∃ e, es = [e] ∧ abandon_entry (entry_key e) t).
Proof.
  unfold reap_worker, mbind, M_bind, mret, M_ret.
  destruct (Task_AssignedWorkerID t) as [wid|] eqn:Ew.
  2:{ intros [= <- <-]. split_and!; try done. exists []. rewrite app_nil_r. auto. }
  unfold rws_UpdateWorkerState, pg_ReaperWorkerStore, bd_Deduct, pg_BrownieDeductor.
  pose proof (UpdateWorkerState_tasks wid WorkerStateOffline w) as Hu.
  destruct (UpdateWorkerState _ _ w) as [r1 w1]. simpl in Hu.
  destruct Hu as (Ht & Hr & Hn & Hsf & Hl).
  destruct (Deduct _ _ _ _ _ w1) as [r2 w2] eqn:Ed.
  apply brownie_write_cases in Ed as (Hr2 & Hn2 & [(_ & (e & He1 & He2 & He3 & Hd2) & _)|[_ Hd2]]);
    intros [= <- <-]; rewrite ?Hd2;
    (split; [try done; by etrans; [exact Hsf|apply sched_frame_ledger]|]);
    split_and!; simpl; try congruence.
  - exists [e]. split; [congruence|right]. exists e. split; [done|].
    unfold abandon_entry, entry_key. simpl. rewrite He1, He2, He3. done.
  - exists []. rewrite app_nil_r. auto.
Qed.

Lemma consumes_heartbeat_absent t : consumes (R:=R) (heartbeat_absent t).
Proof.
  unfold heartbeat_absent. destruct (Task_AssignedWorkerID t); [|apply consumes_ret].
  apply consumes_bind; [apply consumes_redis|]. intros [b|e]; apply consumes_ret.
Qed.

Lemma consumes_uuid : consumes (R:=R) new_uuid.
Proof. intros w. unfold new_uuid. by destruct (w_uuids w). Qed.

Lemma consumes_reap_worker t : consumes (R:=R) (reap_worker t).
Proof.
  unfold reap_worker. destruct (Task_AssignedWorkerID t); [|apply consumes_ret].
  apply consumes_bind; [apply consumes_exec|]. intros r. apply consumes_bind; [|intros; apply consumes_ret].
  change (Deduct ?a ?b 5 ?c ?d) with (brownie_write (W:=world R) a b (i64 (-5)) c d).
  apply consumes_bind; [apply consumes_uuid|]. intros u.
  apply consumes_bind; [apply consumes_exec|]. intros [[]|e]; apply consumes_ret.
Qed.

(** The summary of a run of the loop over the stale tasks: [back] are the tasks put back,
    [log] those that the pass knows of and follows up. *)
Record reap_run (stale log back : list Task) (w w' : world R) : Prop := {
  reap_run_now : w_now w' = w_now w;
  reap_run_redis : w_redis w' = w_redis w;
  reap_run_tasks : db_tasks (w_db w') =
    List.map (requeued (w_now w) (List.map Task_ID back)) (db_tasks (w_db w));
  reap_run_frame : sched_frame (w_db w) (w_db w');
  reap_run_logged : log `sublist_of` back;
  reap_run_lost : (length back + lost_replies w' ≤ length log + lost_replies w)%nat;
  reap_run_sub : back `sublist_of` stale;
  reap_run_silent : ∀ t, t ∈ back → silent (w_now w) (w_redis w) t;
  reap_run_ledger : ∃ es log', db_ledger (w_db w') = db_ledger (w_db w) ++ es ∧
    log' `sublist_of` log ∧ Forall2 abandon_entry (List.map entry_key es) log';
}.

Lemma reap_run_skip t rest log back w w2 w' :
  w_db w2 = w_db w → w_redis w2 = w_redis w → w_now w2 = w_now w → (lost_replies w2 ≤ lost_replies w)%nat →
  reap_run rest log back w2 w' → reap_run (t :: rest) log back w w'.
Proof.
  intros Hd Hr Hn Hl []. rewrite Hd, Hr, Hn in *. constructor; try done; [lia|by apply sublist_cons].
Qed.

(** A task is put back: the pass follows it up, or loses the reply of the UPDATE. *)
Lemma reap_run_cons (logged : bool) t rest log back es3 w w3 w' :
  silent (w_now w) (w_redis w) t → w_redis w3 = w_redis w → w_now w3 = w_now w →
  db_tasks (w_db w3) = (sql_update (task_by_id (Task_ID t)) (task_set_state (w_now w) TaskStateQueued None)
    (db_tasks (w_db w))).1 →
  sched_frame (w_db w) (w_db w3) → db_ledger (w_db w3) = db_ledger (w_db w) ++ es3 →
  (es3 = [] ∨ logged = true ∧ ∃ e, es3 = [e] ∧ abandon_entry (entry_key e) t) →
  ((if logged then 0 else 1) + lost_replies w3 ≤ lost_replies w)%nat →
  reap_run rest log back w3 w' →
  reap_run (t :: rest) (if logged then t :: log else log) (t :: back) w w'.
Proof.
  intros Hs Hr3 Hn3 Ht3 Hf3 Hl3 Hes Hlost [Hn4 Hr4 Ht4 Hf4 Hlog Hlost4 Hsub Hsil (es & log2 & Hl4 & Hs2 & Hf2)].
  constructor; try congruence.
  - rewrite Ht4, Ht3, Hn3. unfold sql_update; simpl. rewrite map_map.
    apply map_ext. intros x. apply requeued_cons.
  - by etrans.
  - destruct logged; [by apply sublist_skip|by apply sublist_cons].
  - destruct logged; simpl; lia.
  - by apply sublist_skip.
  - intros x [->|Hx]%elem_of_cons; [done|]. rewrite <-Hn3, <-Hr3. by apply Hsil.
  - rewrite Hl3 in Hl4. destruct Hes as [->|(-> & e & -> & He)].
    + exists es, log2. rewrite app_nil_r in Hl4. split_and!; [done| |done].
      destruct logged; [by apply sublist_cons|done].
    + exists (e :: es), (t :: log2). rewrite <-app_assoc in Hl4. split_and!; [done| |by constructor].
      by apply sublist_skip.
Qed.

Lemma reap_loop_run stale : ∀ w log w', reap_loop stale w = (log, w') → ∃ back, reap_run stale log back w w'.
Proof.
  induction stale as [|t rest IH]; intros w log w'; simpl; unfold mret, M_ret.
  { intros [= <- <-]. exists []. constructor; try done.
    - symmetry. apply map_id.
    - by intros ? ?%elem_of_nil.
    - exists [], []. rewrite app_nil_r. split_and!; constructor. }
  unfold mbind, M_bind.
  destruct (heartbeat_absent t w) as [b w1] eqn:E1.
  pose proof (consumes_run _ _ _ _ (consumes_heartbeat_absent t) E1) as Hl1.
  apply heartbeat_absent_inv in E1 as (Hd1 & Hr1 & Hn1 & Hs).
  destruct b; simpl; [|intros [back H]%IH; exists back; by eapply (reap_run_skip _ _ _ _ _ w1)].
  unfold rts_UpdateTaskState, pg_ReaperTaskStore.
  destruct (UpdateTaskState _ _ _ w1) as [r2 w2] eqn:E2.
  pose proof (consumes_run _ _ _ _ (consumes_exec _) E2) as Hl2.
  apply UpdateTaskState_inv in E2 as (Hr2 & Hn2 & [[Hd2 Hr]|[[->|[Hr Hlost]] Hd2]]).
  - destruct r2; [done|]. intros [back H]%IH. exists back.
    eapply (reap_run_skip _ _ _ _ _ w2); [congruence..|lia|done].
  - destruct (reap_worker t w2) as [u w3] eqn:E3.
    pose proof (consumes_run _ _ _ _ (consumes_reap_worker t) E3) as Hl3.
    apply reap_worker_inv in E3 as (Hf3 & Ht3 & Hr3 & Hn3 & es3 & Hg3 & Hes3).
    destruct (reap_loop rest w3) as [log' w4] eqn:E4. intros [= <- <-]. apply IH in E4 as [back H].
    exists (t :: back). eapply (reap_run_cons true _ _ _ _ es3 _ w3); try congruence; [auto|..].
    + rewrite Ht3, Hd2, Hn1. simpl. by rewrite Hd1.
    + etrans; [|exact Hf3]. rewrite Hd2, Hd1. apply sched_frame_tasks.
    + rewrite Hg3, Hd2. simpl. by rewrite Hd1.
    + destruct Hes3; auto.
    + simpl. lia.
  - destruct r2; [done|]. intros [back H]%IH. exists (t :: back).
    eapply (reap_run_cons false _ _ _ _ [] _ w2); try congruence; [auto|..].
    + rewrite Hd2, Hn1. simpl. by rewrite Hd1.
    + rewrite Hd2, Hd1. apply sched_frame_tasks.
    + rewrite Hd2, app_nil_r. simpl. by rewrite Hd1.
    + by left.
    + simpl. lia.
Qed.

Lemma GetStaleTasks_elem dl d t :
  t ∈ List.flat_map (λ t, List.map (λ _, t) (sql_where (stale_worker dl t) (db_workers d)))
        (sql_where stale_state (db_tasks d)) ↔
  t ∈ db_tasks d ∧ stale_state t = true ∧ ∃ wk, wk ∈ db_workers d ∧ stale_worker dl t wk = true.
Proof.
  rewrite list_elem_of_In, in_flat_map. split.
  - intros (t' & Ht'%list_elem_of_In & (wk & -> & Hwk)%list_elem_of_In%elem_of_bmap).
    apply elem_of_sql_where in Ht' as [? ?], Hwk as [? ?]. eauto.
  - intros (Hin & Hst & wk & Hwk & Hs). exists t. split.
    + by apply list_elem_of_In, elem_of_sql_where.
    + apply list_elem_of_In, elem_of_bmap. exists wk. split; [done|]. by apply elem_of_sql_where.
Qed.

(** A task is due for the reaper when it is assigned or running, the last heartbeat in
    the database of its (registered) worker is older than the deadline, and Redis has no
    heartbeat of the worker. *)
Definition abandoned (ttl : Z) (w : world R) (t : Task) : Prop :=
  t ∈ db_tasks (w_db w) ∧
  (Task_State t = TaskStateAssigned ∨ Task_State t = TaskStateRunning) ∧
  (∃ wk, wk ∈ db_workers (w_db w) ∧ Task_AssignedWorkerID t = Some (Worker_ID wk) ∧
     ∀ h, Worker_LastHeartbeatAt wk = Some h → h < w_now w - ttl * Second) ∧
  silent (w_now w) (w_redis w) t.

Definition reap_deadline (now ttl : Z) : Z := now + i64 (i64 (- ttl) * Second).

(** A TTL in seconds that a duration in nanoseconds can hold. *)
Definition ttl_ok (ttl : Z) : Prop := 0 ≤ ttl < 2 ^ 33.

Lemma reap_deadline_ok now ttl : ttl_ok ttl → reap_deadline now ttl = now - ttl * Second.
Proof.
  unfold ttl_ok, reap_deadline, Second. intros.
  rewrite (i64_id (- ttl)), i64_id by (unfold in_i64; lia). lia.
Qed.

Lemma stale_abandoned ttl w t :
  ttl_ok ttl →
  (t ∈ db_tasks (w_db w) ∧ stale_state t = true ∧
     ∃ wk, wk ∈ db_workers (w_db w) ∧ stale_worker (reap_deadline (w_now w) ttl) t wk = true) ∧
  silent (w_now w) (w_redis w) t ↔ abandoned ttl w t.
Proof.
  intros Ht. rewrite (reap_deadline_ok (w_now w) ttl Ht). unfold abandoned, stale_state, stale_worker.
  rewrite orb_true_iff, !String.eqb_eq.
  assert (∀ wk, bool_decide (Task_AssignedWorkerID t = Some (Worker_ID wk)) &&
      match Worker_LastHeartbeatAt wk with None => true | Some h => h <? w_now w - ttl * Second end
      = true ↔ Task_AssignedWorkerID t = Some (Worker_ID wk) ∧
      ∀ h, Worker_LastHeartbeatAt wk = Some h → h < w_now w - ttl * Second) as Heq.
  { intros wk. rewrite andb_true_iff, bool_decide_eq_true.
    destruct (Worker_LastHeartbeatAt wk) as [h|]; [rewrite Z.ltb_lt|].
    - split; [by intros [? ?]; split; [|by intros ? [= <-]] | intros [? H]; auto].
    - split; [by intros [? _] | by intros [? _]]. }
  setoid_rewrite Heq. tauto.
Qed.

Lemma reap_cases ttl w log w' :
  reap ttl w = (log, w') →
  (log = [] ∧ w_db w' = w_db w ∧ w_redis w' = w_redis w ∧ w_now w' = w_now w ∧
   (lost_replies w' ≤ lost_replies w)%nat) ∨
  ∃ stale back w1, w_db w1 = w_db w ∧ w_redis w1 = w_redis w ∧ w_now w1 = w_now w ∧
    (lost_replies w1 ≤ lost_replies w)%nat ∧
    (∀ t, t ∈ stale → t ∈ db_tasks (w_db w) ∧ stale_state t = true ∧
       ∃ wk, wk ∈ db_workers (w_db w) ∧ stale_worker (reap_deadline (w_now w) ttl) t wk = true) ∧
    reap_run stale log back w1 w'.
Proof.
  unfold reap, mbind, M_bind, mret, M_ret, clock_Now, world_Clock, time_Now,
    rts_GetStaleTasks, pg_ReaperTaskStore.
  destruct (GetStaleTasks _ w) as [r w1] eqn:E. pose proof (consumes_run _ _ _ _ (consumes_query _) E) as Hl.
  apply pg_query_inv in E as (Hd & Hr & Hn & E).
  fold (reap_deadline (w_now w) ttl) in E.
  destruct E as [->| ->]; [|by intros [= <- <-]; left].
  set (stale := List.flat_map _ _). intros H.
  assert (reap_loop stale w1 = (log, w') ∨ (log, w') = ([], w1)) as [Hrun|[= -> ->]]
    by (destruct stale; [by right|by left]); [|by left].
  right. apply reap_loop_run in Hrun as [back Hrun]. exists stale, back, w1. split_and!; try done.
  intros t Ht. by apply GetStaleTasks_elem in Ht.
Qed.

(** C13: Whatever fails during a pass of the reaper: every task it requeues was assigned or
    running for a worker that is silent both in the database (for longer than the TTL)
    and in Redis; the task table changes exactly by putting those tasks back to "queued",
    every other column, the assigned worker included, kept; and each new ledger entry
    takes 5 points from the worker of one of them, at most one entry per requeued task.
    The pass logs the tasks it requeues, except that for each UPDATE whose reply is lost
    one task may go back unlogged, and no points are taken for it. *)
Theorem reap_requeues ttl w log w' :
  ttl_ok ttl → reap ttl w = (log, w') →
  ∃ back,
    (∀ t, t ∈ back → abandoned ttl w t) ∧
    db_tasks (w_db w') =
      List.map (requeued (w_now w) (List.map Task_ID back)) (db_tasks (w_db w)) ∧
    log `sublist_of` back ∧ (length back + lost_replies w' ≤ length log + lost_replies w)%nat ∧
    (lost_replies w = 0%nat → back = log) ∧
    (∃ es log', db_ledger (w_db w') = db_ledger (w_db w) ++ es ∧
       log' `sublist_of` log ∧ Forall2 abandon_entry (List.map entry_key es) log').
Proof.
  intros Ht [(-> & Hd & _ & _ & Hl)|(stale & back & w1 & Hd & Hr & Hn & Hl & Hst &
    [Hn2 Hr2 Ht2 Hsf2 Hlog Hlost Hs2 Hsil Hled])]%reap_cases.
  { exists []. rewrite Hd. split_and!; try done.
    - by intros ? ?%elem_of_nil.
    - symmetry. apply map_id.
    - exists [], []. rewrite app_nil_r. split_and!; constructor. }
  rewrite Hd, Hr, Hn in *. exists back. split_and!; try done; [|lia|].
  - intros t Hin. apply stale_abandoned; [done|]. split; [|by apply Hsil].
    apply Hst. by eapply elem_of_sublist.
  - intros H0. apply sublist_same_length; [done|lia].
Qed.

(** Without failures a pass reaches every abandoned task. *)
Lemma heartbeat_absent_nofault t w :
  w_faults w = [] → silent (w_now w) (w_redis w) t →
  (heartbeat_absent t w).1 = true ∧ w_faults (heartbeat_absent t w).2 = [].
Proof.
  intros Hf Hs. unfold heartbeat_absent, mbind, M_bind, mret, M_ret.
  destruct (Task_AssignedWorkerID t) as [wid|] eqn:Ew; [|done].
  unfold rhs_GetWorkerHeartbeat, redis_ReaperHeartbeatStore, GetWorkerHeartbeat.
  rewrite redis_do_nofault by done. simpl. by rewrite (Hs wid).
Qed.

Lemma heartbeat_absent_faults t w : w_faults w = [] → w_faults (heartbeat_absent t w).2 = [].
Proof.
  intros Hf. unfold heartbeat_absent, mbind, M_bind, mret, M_ret.
  destruct (Task_AssignedWorkerID t) as [wid|] eqn:Ew; [|done].
  unfold rhs_GetWorkerHeartbeat, redis_ReaperHeartbeatStore, GetWorkerHeartbeat.
  by rewrite redis_do_nofault.
Qed.

Lemma UpdateTaskState_nofault id st w :
  w_faults w = [] →
  w_faults (UpdateTaskState id st None w).2 = [] ∧
  (id ∈ List.map Task_ID (db_tasks (w_db w)) → (UpdateTaskState id st None w).1 = Ok tt).
Proof.
  intros Hf. unfold UpdateTaskState. rewrite pg_exec_nofault by done.
  destruct (sql_update _ _ _) as [ts n] eqn:E. destruct (n =? 0) eqn:En; simpl.
  - split; [done|]. intros (t & -> & Hin)%elem_of_bmap. boolify. subst.
    exfalso.
    pose proof (proj2 (sql_update_count_pos (task_by_id (Task_ID t))
      (task_set_state (w_now w) st None) (db_tasks (w_db w)))) as Hc.
    rewrite E in Hc. apply Hc; [|done]. exists t. split; [done | apply Z.eqb_refl].
  - done.
Qed.

Lemma pg_exec_faults {A} (f : Z → pgdb → result (A * pgdb)) w :
  w_faults w = [] → w_faults (pg_exec f w).2 = [].
Proof. intros Hf. rewrite pg_exec_nofault by done. by destruct (f _ _) as [[??]|]. Qed.

Lemma reap_worker_nofault t w : w_faults w = [] → w_faults (reap_worker t w).2 = [].
Proof.
  intros Hf. unfold reap_worker, mbind, M_bind, mret, M_ret.
  destruct (Task_AssignedWorkerID t) as [wid|]; [|done].
  unfold rws_UpdateWorkerState, pg_ReaperWorkerStore, bd_Deduct, pg_BrownieDeductor.
  unfold UpdateWorkerState.
  match goal with |- context [pg_exec ?f w] =>
    pose proof (pg_exec_faults f w Hf) as Hf1; destruct (pg_exec f w) as [r1 w1] end.
  simpl in Hf1. change (Deduct wid (Task_OrgUnitID t) 5 "task_abandoned"%string (Some (Task_ID t)))
    with (brownie_write (W:=world R) wid (Task_OrgUnitID t) (i64 (-5)) "task_abandoned"%string
            (Some (Task_ID t))).
  unfold brownie_write, mbind, M_bind, mret, M_ret. simpl.
  destruct (new_uuid w1) as [u w2] eqn:Eu. apply new_uuid_frame in Eu as (_ & _ & _ & Hf2).
  unfold WriteLedgerEntry.
  match goal with |- context [pg_exec ?f w2] =>
    pose proof (pg_exec_faults f w2) as Hf3; destruct (pg_exec f w2) as [r3 w3] end.
  destruct r3; apply Hf3; congruence.
Qed.

Lemma reap_loop_complete stale : ∀ w log w',
  w_faults w = [] →
  (∀ t, t ∈ stale → Task_ID t ∈ List.map Task_ID (db_tasks (w_db w))) →
  reap_loop stale w = (log, w') →
  ∀ t, t ∈ stale → silent (w_now w) (w_redis w) t → t ∈ log.
Proof.
  induction stale as [|t rest IH]; intros w log w' Hf Hids; simpl; unfold mret, M_ret.
  { by intros _ ? ?%elem_of_nil. }
  unfold mbind, M_bind.
  pose proof (heartbeat_absent_nofault t w Hf) as Habs. pose proof (heartbeat_absent_faults t w Hf) as Hf1.
  destruct (heartbeat_absent t w) as [b w1] eqn:E1. simpl in Habs, Hf1.
  apply heartbeat_absent_inv in E1 as (Hd1 & Hr1 & Hn1 & _).
  destruct b; simpl.
  2:{ intros H t' [->|Hin]%elem_of_cons Hs; [by destruct (Habs Hs)|].
      eapply IH; [exact Hf1| |exact H|done|by rewrite Hn1, Hr1].
      intros. rewrite Hd1. apply Hids. by right. }
  unfold rts_UpdateTaskState, pg_ReaperTaskStore.
  destruct (UpdateTaskState_nofault (Task_ID t) TaskStateQueued w1 Hf1) as [Hf2 Hok].
  destruct (UpdateTaskState _ _ _ w1) as [r2 w2] eqn:E2. simpl in Hok, Hf2.
  rewrite Hok in * by (rewrite Hd1; apply Hids; by left).
  apply UpdateTaskState_inv in E2 as (Hr2 & Hn2 & [[_ ?]|[_ Hd2]]); [done|].
  pose proof (reap_worker_nofault t w2 Hf2) as Hf3.
  destruct (reap_worker t w2) as [u w3] eqn:E3. simpl in Hf3.
  apply reap_worker_inv in E3 as (_ & Ht3 & Hr3 & Hn3 & _).
  destruct (reap_loop rest w3) as [log' w4] eqn:E4. intros [= <- <-].
  intros t' [->|Hin]%elem_of_cons Hs; [by left|right].
  eapply IH; [exact Hf3| |exact E4|done|by rewrite Hn3, Hr3, Hn2, Hr2, Hn1, Hr1].
  intros x Hx. rewrite Ht3, Hd2. cbn [db_tasks set_tasks].
  rewrite (sql_update_column Task_ID) by done. rewrite Hd1. apply Hids. by right.
Qed.

(** When no statement fails, a pass of the reaper requeues every abandoned task: one
    whose worker has been silent longer than the TTL in the database and is silent in
    Redis. *)
Lemma reap_complete ttl w log w' t :
  ttl_ok ttl → w_faults w = [] → reap ttl w = (log, w') → abandoned ttl w t → t ∈ log.
Proof.
  intros Ht Hf H Hab. apply stale_abandoned in Hab as [Hst Hs]; [|done].
  unfold reap, mbind, M_bind, mret, M_ret, clock_Now, world_Clock, time_Now,
    rts_GetStaleTasks, pg_ReaperTaskStore, GetStaleTasks in H.
  rewrite pg_query_nofault in H by done. fold (reap_deadline (w_now w) ttl) in H.
  apply GetStaleTasks_elem in Hst as Hin. set (stale := List.flat_map _ _) in *.
  assert (reap_loop stale w = (log, w')) as Hl by (by destruct stale; [apply elem_of_nil in Hin|]).
  eapply reap_loop_complete; [exact Hf| |exact Hl|done..].
  intros x [Hx _]%GetStaleTasks_elem. apply elem_of_bmap. eauto.
Qed.
End reap_facts.
