(* ===== verification/Http.v ===== *)
(** * Requests and responses of the control plane's HTTP API

    A request is what package net/http hands to a handler: the body is its bytes, and
    [JSONDecode] is encoding/json reading them into one request type.  A response is the
    status, the headers written and a structured body.  Routing (go-chi) is a parameter:
    [Req_URLParams] are the values it extracted. *)
From S2P Require Import Prelude GoStd Domain World.

#[local] Open Scope string_scope.
#[local] Open Scope Z_scope.

#[local] Set Warnings "-register-all".

(** ** Status codes *)

Definition StatusOK : Z := 200.
Definition StatusCreated : Z := 201.
Definition StatusAccepted : Z := 202.
Definition StatusNoContent : Z := 204.
Definition StatusBadRequest : Z := 400.
Definition StatusUnauthorized : Z := 401.
Definition StatusForbidden : Z := 403.
Definition StatusNotFound : Z := 404.
Definition StatusUnprocessableEntity : Z := 422.
Definition StatusTooManyRequests : Z := 429.
Definition StatusInternalServerError : Z := 500.
Definition StatusServiceUnavailable : Z := 503.

(** ** Requests *)

(** The values that the middleware stores in the request context; [None] is a missing key.
    The worker id is a pointer that can be nil. *)
Record req_context := MkContext {
  ctx_OrgUnitID : option uuid;
  ctx_WorkerID : option (option uuid);
  ctx_APIKeyID : option uuid;
  ctx_Scopes : option (slice string);
}.

Definition empty_context : req_context := MkContext None None None None.

Record http_request := MkRequest {
  Req_Method : string;
  Req_Path : string;
  Req_Header : string → string;          (* r.Header.Get: empty when absent *)
  Req_Query : string → string;           (* r.URL.Query().Get *)
  Req_RemoteAddr : string;
  Req_URLParams : list (string * string);
  Req_Body : string;
  Req_Context : req_context;
}.

Definition with_context (r : http_request) (c : req_context) : http_request :=
  MkRequest (Req_Method r) (Req_Path r) (Req_Header r) (Req_Query r) (Req_RemoteAddr r)
    (Req_URLParams r) (Req_Body r) c.

(** [chi.URLParam(r, key)]: the last value bound to the key. *)
Definition URLParam (r : http_request) (key : string) : string :=
  foldl (λ acc kv, if String.eqb kv.1 key then kv.2 else acc) "" (Req_URLParams r).

(** [json.NewDecoder(r.Body).Decode(&req)]: the value that decoding leaves in [req],
    partly filled when it fails, and the error message if it does. *)
Class JSONDecode (A : Type) := json_Decode : string → A * option string.

(** ** Responses *)

Inductive pval :=
  | VStr (s : string)
  | VInt (z : Z)
  | VBool (b : bool)
  | VTime (t : Z)
  | VOptTime (t : option Z)
  | VID (id : uuid)
  | VStrings (l : slice string)
  | VStringMap (m : gmap string string)
  | VTask (t : Task)
  | VTasks (l : list Task)
  | VWorker (wk : Worker)
  | VWorkers (l : list Worker)
  | VOrg (o : OrgUnit)
  | VOrgs (l : list OrgUnit)
  | VAudits (l : list AuditEvent)
  | VLeaders (l : list LeaderboardEntry)
  | VObj (l : list (string * pval)).

Inductive payload :=
  | PEmpty
  | PJSON (v : pval)          (* encoded by encoding/json *)
  | PText (s : string).       (* bytes written as they are *)

Record http_response := MkResponse {
  Resp_Status : Z;
  Resp_Headers : list (string * string);
  Resp_Body : payload;
}.

Definition Handler (R : Type) : Type := http_request → M (world R) http_response.
Definition Middleware (R : Type) : Type := Handler R → Handler R.

Definition json_header : list (string * string) := [("Content-Type", "application/json")].

(** health.go *)
Definition writeJSON (code : Z) (v : pval) : http_response := MkResponse code json_header (PJSON v).

(** tasks.go *)
Definition writeError (code : Z) (msg : string) : http_response :=
  writeJSON code (VObj [("error", VStr msg)]).

(** The text of a JSON string without escapes, and of an object with one error field. *)
Definition quoted (s : string) : string := String chr_quote (s ++ str1 chr_quote).
Definition error_text (msg : string) : string := "{" ++ quoted "error" ++ ":" ++ quoted msg ++ "}".

(** [http.Error(w, text, code)] of net/http *)
Definition http_Error (msg : string) (code : Z) : http_response :=
  MkResponse code [("Content-Type", "text/plain; charset=utf-8"); ("X-Content-Type-Options", "nosniff")]
    (PText (error_text msg ++ str1 chr_lf)).

(** A response without a body. *)
Definition writeHeader (code : Z) : http_response := MkResponse code [] PEmpty.
