(* ===== verification/Middleware.v ===== *)
(** * internal/api/middleware: authentication, scopes, rate limiting, auditing

    A middleware is a function from handlers to handlers, as in the source.  The clock
    does not move inside one request, so the duration an audit event records is 0. *)
From S2P Require Import Prelude Sql GoStd Float64 Domain World RedisStore PgStore Security Http.
From Stdlib Require Import Ascii.

#[local] Open Scope string_scope.
#[local] Open Scope Z_scope.

(** ** auth.go *)

Definition OrgUnitIDFromContext (c : req_context) : option uuid := ctx_OrgUnitID c.
Definition WorkerIDFromContext (c : req_context) : option (option uuid) := ctx_WorkerID c.
Definition APIKeyIDFromContext (c : req_context) : option uuid := ctx_APIKeyID c.

Definition jsonEscape (s : string) : string :=
  let s := ReplaceAll s chr_backslash (String chr_backslash (str1 chr_backslash)) in
  let s := ReplaceAll s chr_quote (String chr_backslash (str1 chr_quote)) in
  let s := ReplaceAll s chr_lf (String chr_backslash "n") in
  let s := ReplaceAll s chr_cr (String chr_backslash "r") in
  ReplaceAll s chr_tab (String chr_backslash "t").

(** The body of a refusal: an object with an error code and an escaped message. *)
Definition refusal_text (code msg : string) : string :=
  "{" ++ quoted "error" ++ ":" ++ quoted code ++ "," ++ quoted "message" ++ ":" ++
  quoted (jsonEscape msg) ++ "}".

Definition writeUnauthorized (msg : string) : http_response :=
  MkResponse StatusUnauthorized
    (json_header ++ [("WWW-Authenticate", ("Bearer realm=" ++ quoted "grid-control-plane")%string)])%list
    (PText (refusal_text "unauthorized" msg)).

Definition writeForbidden (msg : string) : http_response :=
  MkResponse StatusForbidden json_header (PText (refusal_text "forbidden" msg)).

Definition realIP (r : http_request) : string :=
  let xff := Req_Header r "X-Forwarded-For" in
  if negb (String.eqb xff "") then
    match Split xff ","%char with
    | [] => ""
    | p :: _ => TrimSpace p
    end
  else
    let xri := Req_Header r "X-Real-IP" in
    if negb (String.eqb xri "") then xri
    else match CutLast (Req_RemoteAddr r) ":"%char with
         | Some host => host
         | None => Req_RemoteAddr r
         end.

Section middleware.
Context {R : Type} `{RD : Redis R} `{UT : UUIDText} `{A2 : Argon2}.
#[local] Abbreviation H := (Handler R).

(** Written before the refused request returns; a failure is logged. *)
Definition writeAuthAuditEvent (r : http_request) (actorType actorID : string) (orgUnitID : uuid)
    (action detail : string) : M (world R) unit :=
  id ← new_uuid;
  now ← time_Now;
  _ ← WriteAuditEvent (MkAuditEvent id orgUnitID actorType actorID action "api_key" None
        (list_to_map [("reason", JStr detail); ("path", JStr (Req_Path r))])
        (realIP r) now);
  mret tt.

Definition Auth (next : H) : H := λ r,
  let authHeader := Req_Header r "Authorization" in
  if String.eqb authHeader "" then mret (writeUnauthorized "missing Authorization header")
  else
    match SplitN2 authHeader " "%char with
    | [scheme; plaintext] =>
        if negb (EqualFold scheme "Bearer") then mret (writeUnauthorized "malformed Authorization header")
        else if (String.length plaintext <? String.length KeyPrefix + KeyPrefixLen)%nat
        then mret (writeUnauthorized "invalid key format")
        else
          let prefix := str_take (String.length KeyPrefix + KeyPrefixLen) plaintext in
          res ← GetAPIKeyByPrefix prefix;
          match res with
          | Err _ =>
              _ ← writeAuthAuditEvent r ActorTypeAPIKey prefix uuid_Nil "auth_failed" "invalid_key";
              mret (writeUnauthorized "invalid or expired key")
          | Ok apiKey =>
              if negb (VerifyAPIKey plaintext (Key_KeyHash apiKey)) then
                _ ← writeAuthAuditEvent r ActorTypeAPIKey (uuid_String (Key_ID apiKey))
                      (Key_OrgUnitID apiKey) "auth_failed" "bad_credentials";
                mret (writeUnauthorized "invalid credentials")
              else
                _ ← go_stmt (BgLastUsed (Key_ID apiKey));
                next (with_context r
                  (MkContext (Some (Key_OrgUnitID apiKey)) (Some (Key_WorkerID apiKey))
                     (Some (Key_ID apiKey)) (Some (Key_Scopes apiKey))))
          end
    | _ => mret (writeUnauthorized "malformed Authorization header")
    end.

Definition ScopeRequired (scope : string) (next : H) : H := λ r,
  match ctx_Scopes (Req_Context r) with
  | None => mret (writeForbidden "no scopes on token")
  | Some scopes =>
      if existsb (λ s, String.eqb s scope || String.eqb s "admin") (elems scopes) then next r
      else mret (writeForbidden ("insufficient scope: " ++ scope))
  end.

(** ** ratelimit.go *)

Definition ratelimit_key (orgID : uuid) : string := "ratelimit:org:" ++ uuid_String orgID.

(** Headers set on the response writer before the handler runs. *)
Definition add_headers (hs : list (string * string)) (resp : http_response) : http_response :=
  MkResponse (Resp_Status resp) (hs ++ Resp_Headers resp)%list (Resp_Body resp).

Definition rate_headers (requestsPerMin count : Z) : list (string * string) :=
  [("X-RateLimit-Limit", Itoa requestsPerMin);
   ("X-RateLimit-Remaining", Itoa (i64 (requestsPerMin - count)))].

Definition RateLimit (requestsPerMin : Z) (next : H) : H := λ r,
  let window := Minute in
  match OrgUnitIDFromContext (Req_Context r) with
  | None => next r
  | Some orgID =>
      let key := ratelimit_key orgID in
      res ← RateLimitIncr key window;
      match res with
      | Err _ => next r
      | Ok count =>
          let hs := rate_headers requestsPerMin count in
          if requestsPerMin <? count then
            let retryAfter := Z.quot window Second in
            mret (MkResponse StatusTooManyRequests
              (hs ++ [("Retry-After", Itoa retryAfter)] ++ json_header)%list
              (PText ("{" ++ quoted "error" ++ ":" ++ quoted "rate_limit_exceeded" ++ "," ++
                      quoted "retry_after" ++ ":" ++ Itoa retryAfter ++ "}")))
          else
            resp ← next r;
            mret (add_headers hs resp)
      end
  end.

(** ** audit.go *)

Definition mutatingMethods : list string := ["POST"; "PATCH"; "PUT"; "DELETE"].

Definition resource_names : list string := ["tasks"; "workers"; "api-keys"; "orgs"; "outputs"].

(** The first URL parameter named id, in any letter case. *)
Fixpoint first_id_param (params : list (string * string)) : option string :=
  match params with
  | [] => None
  | (k, v) :: rest => if EqualFold k "id" then Some v else first_id_param rest
  end.

(** The loop over the path segments: the resource type with the id, when one is found. *)
Fixpoint resource_from (segments : list string) (resourceID : option string) :
    option (string * option string) :=
  match segments with
  | [] => None
  | seg :: rest =>
      if existsb (String.eqb seg) resource_names then
        Some (seg,
          match rest, resourceID with
          | v :: _, None =>
              if negb (String.eqb v "") && negb (String.eqb v "register") &&
                 negb (String.eqb v "heartbeat") && negb (String.eqb v "rotate")
              then Some v else None
          | _, _ => resourceID
          end)
      else resource_from rest resourceID
  end.

Definition extractResource (r : http_request) : string * option string :=
  let resourceID := first_id_param (Req_URLParams r) in
  let segments := Split (Trim (Ascii.eqb "/"%char) (Req_Path r)) "/"%char in
  match resource_from segments resourceID with
  | Some res => res
  | None => (default "" (last segments), resourceID)
  end.

Definition audit_event (r : http_request) (id : uuid) (status now : Z) : AuditEvent :=
  let '(resourceType, resourceID) := extractResource r in
  let '(actorType, actorID) :=
    match APIKeyIDFromContext (Req_Context r) with
    | Some apiKeyID => (ActorTypeAPIKey, uuid_String apiKeyID)
    | None => (ActorTypeSystem, "system")
    end in
  MkAuditEvent id (default uuid_Nil (OrgUnitIDFromContext (Req_Context r))) actorType actorID
    (Req_Method r ++ " " ++ Req_Path r) resourceType resourceID
    (list_to_map [("status", JNum (spec_of_int status)); ("duration_ms", JNum (spec_of_int 0));
                  ("user_agent", JStr (Req_Header r "User-Agent"))])
    (realIP r) now.

Definition Audit (next : H) : H := λ r,
  if negb (existsb (String.eqb (Req_Method r)) mutatingMethods) then next r
  else
    resp ← next r;
    id ← new_uuid;
    now ← time_Now;
    _ ← go_stmt (BgAudit (audit_event r id (Resp_Status resp) now));
    mret resp.

(** A goroutine started by the middleware runs its statement; failures are logged. *)
Definition run_background (job : background) : M (world R) unit :=
  match job with
  | BgLastUsed id => _ ← UpdateAPIKeyLastUsed id; mret tt
  | BgAudit ev => _ ← WriteAuditEvent ev; mret tt
  end.

End middleware.
