(* ===== verification/MiddlewareFacts.v ===== *)
(** * What the middleware lets through *)
From S2P Require Import Prelude Sql GoStd Float64 Domain World RedisStore PgStore Security Http.
From S2P Require Import Middleware.
From Stdlib Require Import Ascii.

#[local] Open Scope string_scope.
#[local] Open Scope Z_scope.

(** ** Escaping *)

(** A JSON string after its opening quote, up to and without the closing one; raw control
    characters are invalid. *)
Fixpoint read_json_string (s : string) : option (string * string) :=
  match s with
  | EmptyString => None
  | String c s' =>
      if Ascii.eqb c chr_quote then Some (EmptyString, s')
      else if Ascii.eqb c chr_backslash then
        match s' with
        | EmptyString => None
        | String e s'' =>
            let out :=
              if Ascii.eqb e chr_quote then Some chr_quote
              else if Ascii.eqb e chr_backslash then Some chr_backslash
              else if Ascii.eqb e "n"%char then Some chr_lf
              else if Ascii.eqb e "r"%char then Some chr_cr
              else if Ascii.eqb e "t"%char then Some chr_tab
              else None in
            match out, read_json_string s'' with
            | Some a, Some (t, rest) => Some (String a t, rest)
            | _, _ => None
            end
        end
      else if byte_val c <? 32 then None
      else match read_json_string s' with
           | Some (t, rest) => Some (String c t, rest)
           | None => None
           end
  end.

(** The bytes that may stand in a message: no control character but the three escaped. *)
Definition message_byte (c : ascii) : bool :=
  (32 <=? byte_val c) || (byte_val c =? 9) || (byte_val c =? 10) || (byte_val c =? 13).

Fixpoint all_bytes (p : ascii → bool) (s : string) : bool :=
  match s with EmptyString => true | String c s => p c && all_bytes p s end.

Definition escape_byte (c : ascii) : string :=
  if Ascii.eqb c chr_backslash then String chr_backslash (str1 chr_backslash)
  else if Ascii.eqb c chr_quote then String chr_backslash (str1 chr_quote)
  else if Ascii.eqb c chr_lf then String chr_backslash "n"
  else if Ascii.eqb c chr_cr then String chr_backslash "r"
  else if Ascii.eqb c chr_tab then String chr_backslash "t"
  else str1 c.

Lemma jsonEscape_cons c s : jsonEscape (String c s) = escape_byte c ++ jsonEscape s.
Proof.
  unfold jsonEscape, escape_byte. cbn [ReplaceAll].
  destruct (Ascii.eqb c chr_backslash) eqn:E1; [reflexivity|].
  cbn [ReplaceAll]. destruct (Ascii.eqb c chr_quote) eqn:E2; [reflexivity|].
  cbn [ReplaceAll]. destruct (Ascii.eqb c chr_lf) eqn:E3; [reflexivity|].
  cbn [ReplaceAll]. destruct (Ascii.eqb c chr_cr) eqn:E4; [reflexivity|].
  cbn [ReplaceAll]. destruct (Ascii.eqb c chr_tab) eqn:E5; reflexivity.
Qed.

Lemma read_escape_byte c rest t r :
  message_byte c = true → read_json_string rest = Some (t, r) →
  read_json_string (escape_byte c ++ rest) = Some (String c t, r).
Proof.
  intros Hc Hr. unfold escape_byte.
  destruct (Ascii.eqb_spec c chr_backslash) as [->|H1]; [cbn; by rewrite Hr|].
  destruct (Ascii.eqb_spec c chr_quote) as [->|H2]; [cbn; by rewrite Hr|].
  destruct (Ascii.eqb_spec c chr_lf) as [->|H3]; [cbn; by rewrite Hr|].
  destruct (Ascii.eqb_spec c chr_cr) as [->|H4]; [cbn; by rewrite Hr|].
  destruct (Ascii.eqb_spec c chr_tab) as [->|H5]; [cbn; by rewrite Hr|].
  assert (32 <= byte_val c) as Hge.
  { destruct c as [[] [] [] [] [] [] [] []]; try discriminate Hc; try (by vm_compute);
      first [destruct (H3 eq_refl) | destruct (H4 eq_refl) | destruct (H5 eq_refl)]. }
  cbn [String.append str1 read_json_string].
  rewrite (proj2 (Ascii.eqb_neq c chr_quote) H2), (proj2 (Ascii.eqb_neq c chr_backslash) H1).
  rewrite (proj2 (Z.ltb_ge _ _)) by lia. cbn. by rewrite Hr.
Qed.

(** The refusals of the middleware are well-formed: a message without exotic control
    characters, put through jsonEscape between quotes, is read back by a JSON reader as
    exactly that message, whatever quotes, backslashes and line ends it contains. *)
Lemma jsonEscape_roundtrip s rest :
  all_bytes message_byte s = true →
  read_json_string (jsonEscape s ++ String chr_quote rest) = Some (s, rest).
Proof.
  induction s as [|c s IH]; intros H; [reflexivity|].
  cbn [all_bytes] in H. boolify. rewrite jsonEscape_cons, str_app_assoc.
  apply read_escape_byte; auto.
Qed.

Section middleware_facts.
Context {R : Type} `{RD : Redis R} `{UT : UUIDText} `{A2 : Argon2}.
Implicit Types (w : world R) (next : Handler R).

(** ** Authentication *)

(** Only the audit log may have changed, by at most one event. *)
Definition audit_only w w' : Prop :=
  w_redis w' = w_redis w ∧ w_now w' = w_now w ∧ w_bg w' = w_bg w ∧
  set_audit [] (w_db w') = set_audit [] (w_db w) ∧
  (db_audit (w_db w') = db_audit (w_db w) ∨
   ∃ ev, db_audit (w_db w') = (db_audit (w_db w) ++ [ev])%list ∧ Audit_Action ev = "auth_failed").

Lemma audit_only_refl w : audit_only w w.
Proof. split_and!; auto. Qed.

Lemma pg_exec_bg {A} (f : Z → pgdb → result (A * pgdb)) w : w_bg (pg_exec f w).2 = w_bg w.
Proof.
  unfold pg_exec, next_fault. destruct (w_faults w) as [|[] l]; simpl; try done;
    by destruct (f _ _) as [[??]|].
Qed.

Lemma pg_query_frame {A} (f : Z → pgdb → result A) w :
  w_bg (pg_query f w).2 = w_bg w ∧ w_uuids (pg_query f w).2 = w_uuids w.
Proof. unfold pg_query, next_fault. by destruct (w_faults w) as [|[] l]; simpl. Qed.

Lemma WriteAuditEvent_inv ev w r w' :
  WriteAuditEvent ev w = (r, w') →
  w_redis w' = w_redis w ∧ w_now w' = w_now w ∧ w_bg w' = w_bg w ∧
  (w_db w' = w_db w ∨ w_db w' = set_audit (db_audit (w_db w) ++ [ev])%list (w_db w)).
Proof.
  intros H. unfold WriteAuditEvent in H.
  match type of H with pg_exec ?f w = _ => pose proof (pg_exec_bg f w) as Hb end.
  rewrite H in Hb. apply pg_exec_effect in H as (Hr & Hn & [(e & _ & Hd)|(a & d & Hf & Hd & _)]);
    split_and!; auto. simpl in Hf. case_match; simplify_eq. by right.
Qed.

Lemma writeAuthAuditEvent_only r ty aid org detail w u w' :
  writeAuthAuditEvent r ty aid org "auth_failed" detail w = (u, w') → audit_only w w'.
Proof.
  unfold writeAuthAuditEvent, mbind, M_bind, mret, M_ret, time_Now.
  unfold new_uuid. set (w1 := match w_uuids w with [] => _ | _ => _ end).
  assert (w_db w1.2 = w_db w ∧ w_redis w1.2 = w_redis w ∧ w_now w1.2 = w_now w ∧ w_bg w1.2 = w_bg w) as Hw1
    by (unfold w1; by destruct (w_uuids w)).
  destruct w1 as [id w1]. simpl in Hw1. destruct Hw1 as (Hd & Hr & Hn & Hb).
  match goal with |- context [WriteAuditEvent ?ev w1] => destruct (WriteAuditEvent ev w1) as [r2 w2] eqn:E end.
  apply WriteAuditEvent_inv in E as (Hr2 & Hn2 & Hb2 & Hd2). intros [= <- <-].
  unfold audit_only. split_and!; try congruence.
  - destruct Hd2 as [-> | ->]; rewrite Hd; done.
  - destruct Hd2 as [-> | ->]; rewrite Hd; [by left|right]. by eexists.
Qed.

(** The context that a key puts into the request. *)
Definition key_context (k : APIKey) : req_context :=
  MkContext (Some (Key_OrgUnitID k)) (Some (Key_WorkerID k)) (Some (Key_ID k)) (Some (Key_Scopes k)).

(** The bearer token of an Authorization header. *)
Definition bearer (h pt : string) : Prop :=
  ∃ scheme, h = scheme ++ String " "%char pt ∧ EqualFold scheme "Bearer" = true.

(** The row of the key that a presented token unlocks at an instant. *)
Definition unlocks (w : world R) (pt : string) (k : APIKey) : Prop :=
  k ∈ db_apikeys (w_db w) ∧ Key_KeyPrefix k = str_take 11 pt ∧ Key_RevokedAt k = None ∧
  (∀ e, Key_ExpiresAt k = Some e → w_now w < e) ∧ VerifyAPIKey pt (Key_KeyHash k) = true.

Lemma SplitN2_two h a b : SplitN2 h " "%char = [a; b] ↔ Cut h " "%char = Some (a, b).
Proof.
  unfold SplitN2. destruct (Cut h _) as [[x y]|]; [|done].
  split; [by intros [= -> ->] | by intros [= -> ->]].
Qed.

Lemma key_usable_spec now p k :
  key_usable now p k = true ↔
  Key_KeyPrefix k = p ∧ Key_RevokedAt k = None ∧ ∀ e, Key_ExpiresAt k = Some e → now < e.
Proof.
  unfold key_usable. rewrite !andb_true_iff, String.eqb_eq.
  destruct (Key_RevokedAt k), (Key_ExpiresAt k) as [e|]; rewrite ?Z.ltb_lt;
    (split; [intros [[? ?] ?]; split_and!; try done; intros ? [= <-]; done
            |intros (? & ? & H); split_and!; try done; by apply H]).
Qed.

Lemma GetAPIKeyByPrefix_inv p w r w' :
  GetAPIKeyByPrefix p w = (r, w') →
  w_db w' = w_db w ∧ w_redis w' = w_redis w ∧ w_now w' = w_now w ∧ w_bg w' = w_bg w ∧
  w_uuids w' = w_uuids w ∧
  ∀ k, r = Ok k → k ∈ db_apikeys (w_db w) ∧ key_usable (w_now w) p k = true.
Proof.
  intros H. unfold GetAPIKeyByPrefix in H.
  match type of H with pg_query ?f w = _ => pose proof (pg_query_frame f w) as [Hb Hu] end.
  rewrite H in Hb, Hu. apply pg_query_inv in H as (Hd & Hr & Hn & Hres). split_and!; try done.
  intros k ->. destruct Hres as [Hres|]; [|done].
  destruct (sql_any _ _) eqn:E; simplify_eq. by apply sql_any_Some in E.
Qed.

(** A request reaches the handler behind Auth only with a bearer token whose row in
    api_keys is found by the token's first 11 characters, is neither revoked nor expired,
    and whose Argon2 hash accepts the token; the handler then runs in exactly that key's
    context, with the database as it was.  Every other request gets 401 without the
    handler running, whatever the handler is, and changes nothing but possibly one
    failure event in the audit log. *)
Lemma Auth_gate next r w resp w' :
  Auth next r w = (resp, w') →
  (Resp_Status resp = StatusUnauthorized ∧ audit_only w w' ∧ ∀ next', Auth next' r w = (resp, w')) ∨
  ∃ pt k w1, bearer (Req_Header r "Authorization") pt ∧ unlocks w pt k ∧
    w_db w1 = w_db w ∧ w_redis w1 = w_redis w ∧ w_now w1 = w_now w ∧
    w_uuids w1 = w_uuids w ∧ w_bg w1 = (w_bg w ++ [BgLastUsed (Key_ID k)])%list ∧
    next (with_context r (key_context k)) w1 = (resp, w').
Proof.
  unfold Auth, mbind, M_bind, mret, M_ret.
  destruct (String.eqb _ ""); [intros [= <- <-]; left; split_and!; auto using audit_only_refl|].
  destruct (SplitN2 _ _) as [|scheme [|pt [|]]] eqn:Es;
    try (intros [= <- <-]; left; split_and!; by auto using audit_only_refl).
  destruct (EqualFold scheme "Bearer") eqn:Ef; cbv beta iota delta [negb];
    [|intros [= <- <-]; left; split_and!; by auto using audit_only_refl].
  destruct (_ <? _)%nat eqn:El; [intros [= <- <-]; left; split_and!; by auto using audit_only_refl|].
  cbv beta zeta. destruct (GetAPIKeyByPrefix (str_take (String.length KeyPrefix + KeyPrefixLen) pt) w) as [[k|e] w1] eqn:E1;
    apply GetAPIKeyByPrefix_inv in E1 as (Hd1 & Hr1 & Hn1 & Hb1 & Hu1 & Hk).
  - destruct (Hk k eq_refl) as [Hin Hus].
    destruct (VerifyAPIKey pt (Key_KeyHash k)) eqn:Ev; cbv beta iota delta [negb].
    + unfold go_stmt. intros H. right. exists pt, k, (set_bg (w_bg w1 ++ [BgLastUsed (Key_ID k)])%list w1).
      apply key_usable_spec in Hus as (Hp & Hrev & Hexp).
      split; [exists scheme; split; [by apply Cut_spec, SplitN2_two | done]|].
      split; [by split_and!|]. split_and!; [simpl; congruence..|exact H].
    + destruct (writeAuthAuditEvent _ _ _ _ _ _ w1) as [u w2] eqn:E2.
      apply writeAuthAuditEvent_only in E2 as (Hr2 & Hn2 & Hb2 & Hs2 & Ha2). intros [= <- <-].
      left. split_and!; try done. rewrite Hd1 in *.
      split_and!; congruence || done.
  - destruct (writeAuthAuditEvent _ _ _ _ _ _ w1) as [u w2] eqn:E2.
    apply writeAuthAuditEvent_only in E2 as (Hr2 & Hn2 & Hb2 & Hs2 & Ha2). intros [= <- <-].
    left. split_and!; try done. rewrite Hd1 in *.
    split_and!; congruence || done.
Qed.

(** When no statement fails and no other key has the same 11-character prefix, a
    bearer token that unlocks a key is let through to the handler in that key's context:
    the middleware refuses no legitimate caller. *)
Lemma Auth_accepts next r w scheme pt k :
  w_faults w = [] → Cut (Req_Header r "Authorization") " "%char = Some (scheme, pt) →
  EqualFold scheme "Bearer" = true → (11 <= String.length pt)%nat → unlocks w pt k →
  (∀ k', k' ∈ db_apikeys (w_db w) → Key_KeyPrefix k' = Key_KeyPrefix k → k' = k) →
  Auth next r w =
    next (with_context r (key_context k)) (set_bg (w_bg w ++ [BgLastUsed (Key_ID k)])%list w).
Proof.
  intros Hf Hh Hs Hl (Hin & Hp & Hrev & Hexp & Hv) Huniq.
  unfold Auth, mbind, M_bind, mret, M_ret.
  destruct (String.eqb_spec (Req_Header r "Authorization") "") as [E|_]; [by rewrite E in Hh|].
  rewrite (proj2 (SplitN2_two _ _ _) Hh), Hs. cbv beta iota delta [negb].
  rewrite (proj2 (Nat.ltb_ge _ _)) by exact Hl. cbv zeta beta.
  unfold GetAPIKeyByPrefix. rewrite pg_query_nofault by done.
  change (String.length KeyPrefix + KeyPrefixLen)%nat with 11%nat. rewrite <-Hp.
  assert (key_usable (w_now w) (Key_KeyPrefix k) k = true) as Hk by by apply key_usable_spec.
  destruct (sql_any _ _) as [k'|] eqn:E.
  - apply sql_any_Some in E as [Hin' Hk']. apply key_usable_spec in Hk' as (Hp' & _).
    rewrite (Huniq k') by done. by rewrite Hv.
  - by rewrite (proj1 (sql_any_None _ _) E k Hin) in Hk.
Qed.

(** A handler behind ScopeRequired runs exactly when the key has the scope or the scope
    admin; otherwise the answer is 403, nothing changes and the handler does not run. *)
Lemma ScopeRequired_gate scope next r w scopes :
  ctx_Scopes (Req_Context r) = Some scopes →
  (scope ∈ elems scopes ∨ "admin" ∈ elems scopes → ScopeRequired scope next r w = next r w) ∧
  (scope ∉ elems scopes → "admin" ∉ elems scopes →
     ∃ resp, Resp_Status resp = StatusForbidden ∧ ScopeRequired scope next r w = (resp, w)).
Proof.
  intros Hs. unfold ScopeRequired. rewrite Hs.
  assert (existsb (λ s, String.eqb s scope || String.eqb s "admin") (elems scopes) = true ↔
          scope ∈ elems scopes ∨ "admin" ∈ elems scopes) as He.
  { rewrite existsb_exists. setoid_rewrite orb_true_iff. setoid_rewrite String.eqb_eq.
    rewrite !list_elem_of_In. split.
    - intros (x & Hin & [<- | <-]); auto.
    - intros [Hin|Hin]; eauto. }
  split.
  - intros H. by rewrite (proj2 He H).
  - intros H1 H2. destruct (existsb _ _) eqn:E;
      [|eexists; split; [|reflexivity]; reflexivity].
    destruct (proj1 He eq_refl); done.
Qed.

(** ** Rate limiting *)

Context `{RL : !RedisLaws R}.

Definition rate_count (w : world R) (org : uuid) : Z :=
  redis_counter (w_now w) (ratelimit_key org) (w_redis w).

Lemma RateLimit_nofault n next r w org :
  w_faults w = [] → ctx_OrgUnitID (Req_Context r) = Some org →
  ∃ w1, w_db w1 = w_db w ∧ w_now w1 = w_now w ∧ w_faults w1 = [] ∧ w_bg w1 = w_bg w ∧
    (∀ now', w_now w ≤ now' →
       redis_counter now' (ratelimit_key org) (w_redis w1) =
       if now' <? w_now w + Minute then rate_count w org + 1 else 0) ∧
    (∀ org' now', ratelimit_key org' ≠ ratelimit_key org →
       redis_counter now' (ratelimit_key org') (w_redis w1) =
       redis_counter now' (ratelimit_key org') (w_redis w)) ∧
    if n <? rate_count w org + 1
    then ∃ resp, Resp_Status resp = StatusTooManyRequests ∧ RateLimit n next r w = (resp, w1)
    else RateLimit n next r w =
      let '(resp, w') := next r w1 in (add_headers (rate_headers n (rate_count w org + 1)) resp, w').
Proof.
  intros Hf Ho. unfold RateLimit, OrgUnitIDFromContext, mbind, M_bind, mret, M_ret. rewrite Ho.
  unfold RateLimitIncr. rewrite redis_do_nofault by done.
  pose proof (redis_incr_value (w_now w) (ratelimit_key org) (w_redis w)) as Hv.
  pose proof (redis_incr_expire (w_now w)) as He. pose proof (redis_incr_expire_ne (w_now w)) as Hne.
  unfold rate_count. destruct (redis_Incr (w_now w) (ratelimit_key org) (w_redis w)) as [c r1] eqn:E.
  simpl in Hv. subst c. eexists (set_redis _ w). split; [done|]. split; [done|]. split; [done|].
  split; [done|]. split; [|split].
  - intros now' Hn. simpl. specialize (He now' (ratelimit_key org) (w_now w + Minute) (w_redis w)).
    rewrite E in He. simpl in He. rewrite He; [done| |done]. unfold Minute, Second. lia.
  - intros org' now' Hk. simpl.
    specialize (Hne now' (ratelimit_key org) (ratelimit_key org') (w_now w + Minute) (w_redis w)).
    rewrite E in Hne. simpl in Hne. apply Hne. done.
  - destruct (_ <? _); [eexists; split; [|reflexivity]; reflexivity | done].
Qed.

(** While Redis answers, a request is let through to the handler exactly when it is at
    most the n-th the counter of its org unit has seen, the counter goes up by one either
    way, and it vanishes one minute later unless another request comes in between; the
    counters of other org units are untouched. *)
Lemma RateLimit_counts n next r w org :
  w_faults w = [] → ctx_OrgUnitID (Req_Context r) = Some org →
  ∃ w1, w_db w1 = w_db w ∧ w_now w1 = w_now w ∧
    (∀ now', w_now w ≤ now' →
       redis_counter now' (ratelimit_key org) (w_redis w1) =
       if now' <? w_now w + Minute then rate_count w org + 1 else 0) ∧
    (∀ org' now', ratelimit_key org' ≠ ratelimit_key org →
       redis_counter now' (ratelimit_key org') (w_redis w1) =
       redis_counter now' (ratelimit_key org') (w_redis w)) ∧
    if n <? rate_count w org + 1
    then ∃ resp, Resp_Status resp = StatusTooManyRequests ∧ RateLimit n next r w = (resp, w1)
    else RateLimit n next r w =
      let '(resp, w') := next r w1 in (add_headers (rate_headers n (rate_count w org + 1)) resp, w').
Proof.
  intros Hf Ho. destruct (RateLimit_nofault n next r w org Hf Ho) as (w1 & ? & ? & _ & _ & ? & ? & ?).
  exists w1. auto.
Qed.

(** The responses to requests of one org unit, each arriving some time after the one before. *)
Fixpoint rate_run (n : Z) next (r : http_request) (delays : list Z) w : list Z :=
  match delays with
  | [] => []
  | d :: delays =>
      let '(resp, w') := RateLimit n next r (set_now (w_now w + d) w) in
      Resp_Status resp :: rate_run n next r delays w'
  end.

(** The window does not slide: every request, refused ones included, renews the expiry
    of the counter.  An org unit over its limit that keeps sending requests less than a
    minute apart is refused every one of them, however slowly it sends. *)
Lemma RateLimit_starves n next r w org delays :
  w_faults w = [] → ctx_OrgUnitID (Req_Context r) = Some org →
  Forall (λ d, 0 ≤ d < Minute) delays →
  (∀ now', w_now w ≤ now' < w_now w + Minute →
     n ≤ redis_counter now' (ratelimit_key org) (w_redis w)) →
  Forall (λ status, status = StatusTooManyRequests) (rate_run n next r delays w).
Proof.
  intros Hf Ho Hd. revert w Hf. induction Hd as [|d delays Hd _ IH]; intros w Hf Hc; simpl; [constructor|].
  destruct (RateLimit_nofault n next r (set_now (w_now w + d) w) org Hf Ho)
    as (w1 & Hdb & Hn & Hf1 & _ & Hcnt & _ & Hres).
  assert (n ≤ rate_count (set_now (w_now w + d) w) org) as Hge by (apply Hc; simpl; lia).
  rewrite (proj2 (Z.ltb_lt _ _)) in Hres by lia. destruct Hres as (resp & Hst & ->).
  constructor; [done|]. apply IH; [done|]. intros now' Hnow. rewrite Hn in Hnow. rewrite Hcnt by lia.
  rewrite (proj2 (Z.ltb_lt _ _)) by lia. lia.
Qed.

(** ** Auditing *)

(** The audit middleware does not change what the handler answers or does.  A request
    with a mutating method leaves exactly one audit event to be written, with the caller's
    key as actor, the method and path as action and the final status; any other request
    leaves none. *)
Lemma Audit_one_event next r w :
  let '(resp, w') := next r w in
  ∃ w'', Audit next r w = (resp, w'') ∧ w_db w'' = w_db w' ∧ w_redis w'' = w_redis w' ∧
  if existsb (String.eqb (Req_Method r)) mutatingMethods
  then ∃ id, w_bg w'' = (w_bg w' ++ [BgAudit (audit_event r id (Resp_Status resp) (w_now w'))])%list
  else w'' = w'.
Proof.
  destruct (next r w) as [resp w'] eqn:E. unfold Audit, mbind, M_bind, mret, M_ret.
  destruct (existsb _ mutatingMethods); cbv beta iota delta [negb]; [|rewrite E; eauto].
  rewrite E. unfold new_uuid, time_Now, go_stmt. destruct (w_uuids w'); simpl; eexists; split_and!; eauto.
Qed.

Lemma audit_event_fields r id st now :
  let ev := audit_event r id st now in
  Audit_OrgUnitID ev = default uuid_Nil (ctx_OrgUnitID (Req_Context r)) ∧
  Audit_Action ev = Req_Method r ++ " " ++ Req_Path r ∧ Audit_OccurredAt ev = now.
Proof.
  unfold audit_event. destruct (extractResource r) as [ty rid].
  by destruct (APIKeyIDFromContext _).
Qed.
End middleware_facts.
