(* ===== verification/TaskHandler.v ===== *)
(** * internal/api/handlers/tasks.go: submitting, reading and updating tasks *)
From S2P Require Import Prelude Sql GoStd Regexp Float64 Domain World RedisStore PgStore Security.
From S2P Require Import Http Middleware.
From Stdlib Require Import Ascii.

#[local] Open Scope string_scope.
#[local] Open Scope Z_scope.

(** Options is a nil map when the field is missing. *)
Record createTaskRequest := MkCreateTaskRequest {
  CT_Title : string;
  CT_Description : string;
  CT_TaskType : string;
  CT_Priority : Z;
  CT_AIAgent : string;
  CT_MaxRetries : Z;
  CT_Options : option (gmap string json);
}.

Record updateTaskStateRequest := MkUpdateTaskStateRequest {
  UT_State : string;
  UT_ErrorMessage : option string;
}.

Section task_handler.
Context {R : Type} `{RD : Redis R} `{UT : UUIDText}.
Context `{JC : JSONDecode createTaskRequest} `{JU : JSONDecode updateTaskStateRequest}.
Context (scanner : SecretScanner).
Implicit Types (w : world R).

(** The task a request describes, with the defaults filled in. *)
Definition new_task (req : createTaskRequest) (id orgID : uuid) (submitter : option uuid) (now : Z) : Task :=
  let priority := if CT_Priority req =? 0 then 5 else CT_Priority req in
  let maxRetries := if CT_MaxRetries req =? 0 then 3 else CT_MaxRetries req in
  MkTask id orgID submitter (CT_Title req) (CT_Description req) (CT_TaskType req) priority
    (CT_AIAgent req) TaskStateQueued None now None None None None "" 0 maxRetries
    (default ∅ (CT_Options req)).

Definition missing_field (req : createTaskRequest) : bool :=
  String.eqb (CT_Title req) "" || String.eqb (CT_Description req) "" ||
  String.eqb (CT_AIAgent req) "" || String.eqb (CT_TaskType req) "".

Definition combined_text (req : createTaskRequest) : string :=
  CT_Title req ++ str1 chr_lf ++ CT_Description req.

Definition CreateTask : Handler R := λ r,
  match OrgUnitIDFromContext (Req_Context r) with
  | None => mret (writeError StatusUnauthorized "missing org context")
  | Some orgID =>
      let '(req, err) := json_Decode (A := createTaskRequest) (Req_Body r) in
      match err with
      | Some e => mret (writeError StatusBadRequest ("invalid JSON: " ++ e))
      | None =>
          if missing_field req
          then mret (writeError StatusBadRequest "title, description, ai_agent, and task_type are required")
          else
            match ScanText scanner (combined_text req) with
            | Err _ => mret (writeError StatusInternalServerError "internal error")
            | Ok (_ :: _) =>
                mret (writeError StatusUnprocessableEntity "task payload contains potential secrets")
            | Ok [] =>
                now ← time_Now;
                id ← new_uuid;
                let submitter :=
                  match WorkerIDFromContext (Req_Context r) with Some (Some wid) => Some wid | _ => None end in
                let task := new_task req id orgID submitter now in
                res ← PgStore.CreateTask task;
                match res with
                | Err _ => mret (writeError StatusInternalServerError "failed to create task")
                | Ok _ =>
                    _ ← Enqueue (Task_ID task) (Task_Priority task) (Task_QueuedAt task);  (* errors are logged *)
                    mret (writeJSON StatusCreated (VTask task))
                end
            end
      end
  end.

Definition GetTask : Handler R := λ r,
  match OrgUnitIDFromContext (Req_Context r) with
  | None => mret (writeError StatusUnauthorized "missing org context")
  | Some orgID =>
      match uuid_Parse (URLParam r "id") with
      | None => mret (writeError StatusBadRequest "invalid task ID")
      | Some taskID =>
          res ← PgStore.GetTask taskID;
          match res with
          | Err _ => mret (writeError StatusNotFound "task not found")
          | Ok task =>
              if negb (Task_OrgUnitID task =? orgID) then mret (writeError StatusForbidden "access denied")
              else mret (writeJSON StatusOK (VTask task))
          end
      end
  end.

Definition validateStateTransition (s : string) : result unit :=
  if String.eqb s TaskStateRunning || String.eqb s TaskStateCompleted || String.eqb s TaskStateFailed
  then Ok tt
  else Err (ErrMsg "invalid state transition; allowed: running, completed, failed").

Definition error_String (e : error) : string := match e with ErrMsg m => m | _ => "" end.

Definition UpdateTaskStatus : Handler R := λ r,
  match OrgUnitIDFromContext (Req_Context r) with
  | None => mret (writeError StatusUnauthorized "missing org context")
  | Some orgID =>
      match WorkerIDFromContext (Req_Context r) with
      | None | Some None => mret (writeError StatusForbidden "worker authentication required")
      | Some (Some workerID) =>
          match uuid_Parse (URLParam r "id") with
          | None => mret (writeError StatusBadRequest "invalid task ID")
          | Some taskID =>
              let '(req, err) := json_Decode (A := updateTaskStateRequest) (Req_Body r) in
              match err with
              | Some e => mret (writeError StatusBadRequest ("invalid JSON: " ++ e))
              | None =>
                  let newState := UT_State req in
                  match validateStateTransition newState with
                  | Err e => mret (writeError StatusBadRequest (error_String e))
                  | Ok _ =>
                      res ← PgStore.GetTask taskID;
                      match res with
                      | Err _ => mret (writeError StatusNotFound "task not found")
                      | Ok task =>
                          if negb (Task_OrgUnitID task =? orgID)
                          then mret (writeError StatusForbidden "access denied")
                          else if negb (bool_decide (Task_AssignedWorkerID task = Some workerID))
                          then mret (writeError StatusForbidden "task not assigned to this worker")
                          else
                            res ← UpdateTaskState taskID newState (Some workerID);
                            match res with
                            | Err _ => mret (writeError StatusInternalServerError "failed to update task state")
                            | Ok _ => mret (writeJSON StatusOK (VObj [("state", VStr newState)]))
                            end
                      end
                  end
              end
          end
      end
  end.

(** A query parameter accepted when it is an integer between the bounds. *)
Definition query_int (s : string) (lo : Z) (hi : option Z) (dflt : Z) : Z :=
  if String.eqb s "" then dflt
  else match Atoi s with
       | Some n =>
           if (lo <=? n) && match hi with Some h => n <=? h | None => true end then n else dflt
       | None => dflt
       end.

Definition ListTasks : Handler R := λ r,
  match OrgUnitIDFromContext (Req_Context r) with
  | None => mret (writeError StatusUnauthorized "missing org context")
  | Some orgID =>
      let limit := query_int (Req_Query r "limit") 1 (Some 100) 20 in
      let offset := query_int (Req_Query r "offset") 0 None 0 in
      res ← ListTasksByOrg orgID limit offset;
      match res with
      | Err _ => mret (writeError StatusInternalServerError "failed to list tasks")
      | Ok tasks =>
          mret (writeJSON StatusOK (VObj [("tasks", VTasks tasks); ("limit", VInt limit); ("offset", VInt offset)]))
      end
  end.

(** ** Creation *)

(** C40: Whatever the state of the services, a task whose title and description together
    contain a substring that one of the scanner's patterns matches is answered with 422
    and leaves no trace in any store. *)
Theorem CreateTask_refuses_secrets r w orgID req patterns p :
  ctx_OrgUnitID (Req_Context r) = Some orgID →
  json_Decode (A := createTaskRequest) (Req_Body r) = (req, None) → missing_field req = false →
  scanner = Some patterns → p ∈ patterns →
  occurs (Pat_Regex p) (decode_runes (combined_text req)) →
  ∃ resp, Resp_Status resp = StatusUnprocessableEntity ∧ CreateTask r w = (resp, w).
Proof.
  intros Ho Hj Hm Hs Hp Hocc. unfold CreateTask, OrgUnitIDFromContext. rewrite Ho, Hj, Hm, Hs.
  unfold ScanText.
  destruct (List.flat_map (scan_pattern (combined_text req)) patterns) as [|f fs] eqn:E.
  - exfalso. apply FindAllString_spec in Hocc. apply Hocc.
    assert (scan_pattern (combined_text req) p = []) as Hn.
    { apply elem_of_nil_inv. intros f Hf. apply elem_of_nil with f. rewrite <-E.
      apply list_elem_of_In, in_flat_map. exists p. by rewrite <-!list_elem_of_In. }
    unfold scan_pattern in Hn. by apply map_eq_nil in Hn.
  - eexists. split; [|reflexivity]. reflexivity.
Qed.

(** The request passes every check that comes before the first statement. *)
Definition create_request_ok (r : http_request) (orgID : uuid) (req : createTaskRequest) : Prop :=
  ctx_OrgUnitID (Req_Context r) = Some orgID ∧
  json_Decode (A := createTaskRequest) (Req_Body r) = (req, None) ∧ missing_field req = false ∧
  ScanText scanner (combined_text req) = Ok [].

(** A row that the table of tasks accepts. *)
Lemma task_insert_Ok t d u d' :
  (if negb (int4_ok (Task_Priority t) && int4_ok (Task_RetryCount t) && int4_ok (Task_MaxRetries t))
   then Err (ErrConstraint "int4")
   else if negb (org_exists d (Task_OrgUnitID t)) then Err (ErrConstraint "tasks_org_unit_id_fkey")
   else if negb (worker_ref_ok d (Task_AssignedWorkerID t))
   then Err (ErrConstraint "tasks_assigned_worker_id_fkey")
   else if existsb (λ t', (Task_ID t' =? Task_ID t) && (Task_QueuedAt t' =? Task_QueuedAt t)) (db_tasks d)
   then Err (ErrConstraint "tasks_pkey")
   else Ok (tt, set_tasks (db_tasks d ++ [t]) d)) = Ok (u, d') →
  org_exists d (Task_OrgUnitID t) = true ∧
  (∀ t', t' ∈ db_tasks d → (Task_ID t', Task_QueuedAt t') ≠ (Task_ID t, Task_QueuedAt t)) ∧
  d' = set_tasks (db_tasks d ++ [t]) d.
Proof.
  intros H. repeat case_match; simplify_eq/=. boolify. split_and!; try done.
  intros t' Hin [= Hid Hq].
  match goal with H : existsb _ _ = false |- _ => apply not_true_iff_false in H; apply H end.
  apply existsb_exists. exists t'. split; [by apply list_elem_of_In|]. by rewrite Hid, Hq, !Z.eqb_refl.
Qed.

(** Whatever fails: CreateTask answers 201 only after inserting exactly one row, the
    queued task of the request with its defaults (priority 5, 3 retries) under the
    caller's org unit, and putting its id on the Redis queue unless Redis failed; the only
    other answer is 500, when the row was not inserted, or was inserted and the reply lost:
    then its id is not put on the queue. *)
Lemma CreateTask_inserts r w resp w' orgID req :
  create_request_ok r orgID req → CreateTask r w = (resp, w') →
  (Resp_Status resp = StatusInternalServerError ∧ w_db w' = w_db w ∧ w_redis w' = w_redis w) ∨
  ((Resp_Status resp = StatusCreated ∨ Resp_Status resp = StatusInternalServerError ∧ w_redis w' = w_redis w) ∧
   ∃ t id sub, t = new_task req id orgID sub (w_now w) ∧
     id = uuid_head w ∧
     (Resp_Status resp = StatusCreated → Resp_Body resp = PJSON (VTask t)) ∧ org_exists (w_db w) orgID = true ∧
     (∀ t', t' ∈ db_tasks (w_db w) → (Task_ID t', Task_QueuedAt t') ≠ (id, w_now w)) ∧
     w_db w' = set_tasks (db_tasks (w_db w) ++ [t])%list (w_db w) ∧
     (w_redis w' = w_redis w ∨
      w_redis w' = redis_ZAdd taskQueueKey (queue_score (Task_Priority t) (w_now w))
                     (uuid_String id) (w_redis w))).
Proof.
  intros (Ho & Hj & Hm & Hs). unfold CreateTask, OrgUnitIDFromContext. rewrite Ho, Hj, Hm, Hs.
  unfold mbind, M_bind, mret, M_ret, time_Now.
  pose proof (new_uuid_head w) as Hhd.
  destruct (new_uuid w) as [id w1] eqn:E1. apply new_uuid_frame in E1 as (Hd1 & Hr1 & Hn1 & _).
  set (sub := match WorkerIDFromContext _ with Some (Some wid) => _ | _ => _ end).
  set (t := new_task req id orgID sub (w_now w)). cbv zeta.
  destruct (PgStore.CreateTask t w1) as [r2 w2] eqn:E2.
  apply pg_exec_effect in E2 as (Hr2 & Hn2 & [(e & -> & Hd2)|(a & d & Hf & Hd2 & Hres)]).
  { intros [= <- <-]. left. split_and!; [done|congruence..]. }
  rewrite Hd1 in *. apply task_insert_Ok in Hf as (Hex & Hnew & ->).
  destruct Hres as [->| ->].
  - match goal with |- context [Enqueue ?a ?b ?c w2] => destruct (Enqueue a b c w2) as [r3 w3] eqn:E3 end.
    apply redis_do_inv in E3 as (Hd3 & _ & Hr3). intros [= <- <-]. right. split; [by left|].
    exists t, id, sub. split_and!; try done; [congruence|].
    destruct Hr3 as [([] & rd & _ & [= <-] & ->)|[_ [->| ->]]]; rewrite ?Hr2, ?Hr1; auto.
  - intros [= <- <-]. right. split; [right; split; [done|congruence]|].
    exists t, id, sub. split_and!; try done. left. congruence.
Qed.

(** ** Reading and updating *)

Lemma GetTask_store_inv id w r w' :
  PgStore.GetTask id w = (r, w') →
  w_db w' = w_db w ∧ w_redis w' = w_redis w ∧ w_now w' = w_now w ∧
  ∀ t, r = Ok t → t ∈ db_tasks (w_db w) ∧ Task_ID t = id.
Proof.
  intros H. apply pg_query_inv in H as (Hd & Hr & Hn & Hres). split_and!; try done.
  intros t ->. destruct Hres as [Hres|]; [|done].
  destruct (sql_any _ _) eqn:E; simplify_eq. apply sql_any_Some in E as [? Hid].
  unfold task_by_id in Hid. boolify. done.
Qed.

(** Reading a task changes nothing, and whatever fails, an answer that carries a task
    carries one of the caller's own org unit with the id of the URL. *)
Lemma GetTask_tenant r w resp w' :
  GetTask r w = (resp, w') →
  w_db w' = w_db w ∧ w_redis w' = w_redis w ∧
  (Resp_Status resp = StatusOK →
   ∃ t, Resp_Body resp = PJSON (VTask t) ∧ t ∈ db_tasks (w_db w) ∧
     Some (Task_OrgUnitID t) = ctx_OrgUnitID (Req_Context r) ∧
     Some (Task_ID t) = uuid_Parse (URLParam r "id")).
Proof.
  unfold GetTask, OrgUnitIDFromContext, mbind, M_bind, mret, M_ret.
  destruct (ctx_OrgUnitID _) as [org|]; [|by intros [= <- <-]].
  destruct (uuid_Parse _) as [id|]; [|by intros [= <- <-]].
  destruct (PgStore.GetTask id w) as [res w1] eqn:E.
  apply GetTask_store_inv in E as (Hd & Hr & _ & Ht).
  destruct res as [t|e]; [|by intros [= <- <-]].
  destruct (Z.eqb_spec (Task_OrgUnitID t) org) as [<-|]; intros [= <- <-]; split_and!; try done.
  intros _. destruct (Ht t eq_refl) as [Hin <-]. by exists t.
Qed.

(** The states a worker may report. *)
Definition reportable (st : string) : Prop :=
  st = TaskStateRunning ∨ st = TaskStateCompleted ∨ st = TaskStateFailed.

Lemma validateStateTransition_spec st : is_ok (validateStateTransition st) = true ↔ reportable st.
Proof.
  unfold validateStateTransition, reportable. rewrite <-!String.eqb_eq, <-!orb_true_iff, orb_assoc.
  by destruct (_ || _).
Qed.

Lemma UpdateTaskState_cases id st wid w r w' :
  UpdateTaskState id st wid w = (r, w') →
  w_redis w' = w_redis w ∧
  (is_ok r = false ∧ w_db w' = w_db w ∨
   w_db w' = set_tasks (List.map (λ t, if Task_ID t =? id then task_set_state (w_now w) st wid t else t)
                          (db_tasks (w_db w))) (w_db w)).
Proof.
  intros H. apply pg_exec_effect in H as (Hr & _ & [(e & -> & Hd)|(a & d & Hf & Hd & _)]); auto.
  split; [done|right]. simpl in Hf. repeat case_match; simplify_eq. done.
Qed.

(** Whatever fails: a status update that answers 200 changed the task table (one that
    answers 500 may have, its reply lost), and it changes it only for a key of the worker that the task is assigned to, in the
    task's own org unit, to one of the states running, completed and failed, and only in
    the rows with the id of the URL, whose assigned worker, priority, error message and
    retry count stay as they were.  Any other answer leaves every store unchanged. *)
Lemma UpdateTaskStatus_authorized r w resp w' :
  UpdateTaskStatus r w = (resp, w') →
  w_redis w' = w_redis w ∧
  (Resp_Status resp ≠ StatusOK ∧ w_db w' = w_db w ∨
   (Resp_Status resp = StatusOK ∨ Resp_Status resp = StatusInternalServerError) ∧ ∃ t wid st,
     t ∈ db_tasks (w_db w) ∧ Some (Task_ID t) = uuid_Parse (URLParam r "id") ∧
     Some (Task_OrgUnitID t) = ctx_OrgUnitID (Req_Context r) ∧
     ctx_WorkerID (Req_Context r) = Some (Some wid) ∧ Task_AssignedWorkerID t = Some wid ∧
     reportable st ∧
     w_db w' = set_tasks (List.map (λ t', if Task_ID t' =? Task_ID t
                                          then task_set_state (w_now w) st (Some wid) t' else t')
                            (db_tasks (w_db w))) (w_db w)).
Proof.
  unfold UpdateTaskStatus, OrgUnitIDFromContext, WorkerIDFromContext, mbind, M_bind, mret, M_ret.
  match goal with |- _ → ?G => assert (∀ resp0 w0, w_redis w0 = w_redis w → w_db w0 = w_db w →
    Resp_Status resp0 ≠ StatusOK → (resp0, w0) = (resp, w') → G) as Hrefuse by (intros ???? Hs [= <- <-]; auto) end.
  destruct (ctx_OrgUnitID _) as [org|] eqn:Eo; [|by apply Hrefuse].
  destruct (ctx_WorkerID _) as [[wid|]|] eqn:Ew; [|by apply Hrefuse..].
  destruct (uuid_Parse _) as [id|] eqn:Eid; [|by apply Hrefuse].
  destruct (json_Decode _) as [req [e|]]; [by apply Hrefuse|].
  pose proof (validateStateTransition_spec (UT_State req)) as Hv.
  destruct (validateStateTransition _) as [u|]; [|by apply Hrefuse].
  destruct (PgStore.GetTask id w) as [[t|] w1] eqn:E1;
    apply GetTask_store_inv in E1 as (Hd1 & Hr1 & Hn1 & Ht); [|by apply Hrefuse].
  destruct (Ht t eq_refl) as [Hin Hid].
  destruct (Z.eqb_spec (Task_OrgUnitID t) org) as [Horg|]; [|by apply Hrefuse].
  destruct (bool_decide_reflect (Task_AssignedWorkerID t = Some wid)) as [Hwid|]; [|by apply Hrefuse].
  cbv beta iota delta [negb].
  destruct (UpdateTaskState id _ _ w1) as [r2 w2] eqn:E2.
  apply UpdateTaskState_cases in E2 as (Hr2 & Hc). rewrite Hr1 in Hr2.
  destruct Hc as [[Hok Hd2]|Hd2]; [destruct r2; [done|]; apply Hrefuse; [done|congruence|done]|].
  intros H. assert ((Resp_Status resp = StatusOK ∨ Resp_Status resp = StatusInternalServerError) ∧ w' = w2) as [Hs ->]
    by (destruct r2; injection H as <- <-; auto).
  split; [done|right]. split; [done|]. exists t, wid, (UT_State req).
  rewrite Hd2, Hd1, Hn1, Hid, Horg. split_and!; try done. by apply Hv.
Qed.

(** The state a task is in does not matter for a status update: when no statement
    fails, the assigned worker's request to set a reportable state succeeds from every
    state, completed and failed included, and the error message of the request is not
    stored. *)
Lemma UpdateTaskStatus_any_state r w orgID wid t req :
  w_faults w = [] → ctx_OrgUnitID (Req_Context r) = Some orgID →
  ctx_WorkerID (Req_Context r) = Some (Some wid) → worker_exists (w_db w) wid = true →
  uuid_Parse (URLParam r "id") = Some (Task_ID t) → t ∈ db_tasks (w_db w) →
  (∀ t', t' ∈ db_tasks (w_db w) → Task_ID t' = Task_ID t → t' = t) →
  Task_OrgUnitID t = orgID → Task_AssignedWorkerID t = Some wid →
  json_Decode (A := updateTaskStateRequest) (Req_Body r) = (req, None) → reportable (UT_State req) →
  ∃ resp w', UpdateTaskStatus r w = (resp, w') ∧ Resp_Status resp = StatusOK ∧
    ∃ t', t' ∈ db_tasks (w_db w') ∧ Task_ID t' = Task_ID t ∧ Task_State t' = UT_State req ∧
      Task_ErrorMessage t' = Task_ErrorMessage t.
Proof.
  intros Hf Ho Hw Hex Hid Hin Huniq Horg Hass Hj Hrep.
  unfold UpdateTaskStatus, OrgUnitIDFromContext, WorkerIDFromContext, mbind, M_bind, mret, M_ret.
  rewrite Ho, Hw, Hid, Hj. apply validateStateTransition_spec in Hrep.
  destruct (validateStateTransition _) as [u|]; [|done].
  unfold PgStore.GetTask. rewrite pg_query_nofault by done.
  destruct (sql_any (task_by_id (Task_ID t)) (db_tasks (w_db w))) as [t0|] eqn:Ea.
  2:{ pose proof (proj1 (sql_any_None _ _) Ea t Hin) as Hc. unfold task_by_id in Hc. boolify. done. }
  apply sql_any_Some in Ea as [Hin0 Hid0]. unfold task_by_id in Hid0. boolify.
  assert (t0 = t) as -> by by apply Huniq.
  rewrite Horg, Z.eqb_refl, bool_decide_eq_true_2 by done. cbv beta iota delta [negb].
  unfold UpdateTaskState. rewrite pg_exec_nofault by done.
  destruct (sql_update _ _ _) as [ts n] eqn:Eu.
  assert (n ≠ 0) as Hn.
  { change n with (ts, n).2. rewrite <-Eu. apply sql_update_count_pos. exists t.
    split; [done | apply Z.eqb_refl]. }
  rewrite (proj2 (Z.eqb_neq _ _)) by done. simpl worker_ref_ok. rewrite Hex. simpl.
  do 2 eexists. split; [reflexivity|]. split; [done|].
  exists (task_set_state (w_now w) (UT_State req) (Some wid) t). split_and!; try done. simpl.
  change ts with (ts, n).1. rewrite <-Eu. apply elem_of_sql_update. exists t. split; [done|].
  unfold task_by_id. by rewrite Z.eqb_refl.
Qed.

Lemma query_int_range s lo hi d :
  lo ≤ d → (∀ h, hi = Some h → d ≤ h) →
  lo ≤ query_int s lo hi d ∧ ∀ h, hi = Some h → query_int s lo hi d ≤ h.
Proof.
  intros Hd Hh. unfold query_int. destruct (String.eqb s ""); [auto|].
  destruct (Atoi s) as [n|]; [|auto]. destruct (_ && _) eqn:E; [|auto]. boolify.
  split; [done|]. intros h ->. by boolify.
Qed.

(** A task listing is a page of at most 100 tasks, all of the caller's org unit; reading
    it changes nothing, and no pair of query parameters makes the database refuse it. *)
Lemma ListTasks_tenant r w resp w' org :
  ctx_OrgUnitID (Req_Context r) = Some org → ListTasks r w = (resp, w') →
  w_db w' = w_db w ∧ w_redis w' = w_redis w ∧ (w_faults w = [] → Resp_Status resp = StatusOK) ∧
  (Resp_Status resp = StatusOK → ∃ ts limit offset,
     Resp_Body resp = PJSON (VObj [("tasks", VTasks ts); ("limit", VInt limit); ("offset", VInt offset)]) ∧
     1 ≤ limit ≤ 100 ∧ 0 ≤ offset ∧ Z.of_nat (length ts) ≤ limit ∧
     ∀ t, t ∈ ts → t ∈ db_tasks (w_db w) ∧ Task_OrgUnitID t = org).
Proof.
  intros Ho. unfold ListTasks, OrgUnitIDFromContext, mbind, M_bind, mret, M_ret. rewrite Ho.
  destruct (query_int_range (Req_Query r "limit") 1 (Some 100) 20) as [Hl1 Hl2];
    [lia|by intros ? [= <-]|]. specialize (Hl2 100 eq_refl).
  destruct (query_int_range (Req_Query r "offset") 0 None 0) as [Ho1 _]; [lia|done|].
  set (limit := query_int _ 1 _ _) in *. set (offset := query_int _ 0 _ _) in *. cbv zeta.
  unfold ListTasksByOrg.
  match goal with |- context [pg_query ?f w] =>
    pose proof (pg_query_nofault f w) as Hnf; destruct (pg_query f w) as [res w1] eqn:E end.
  apply pg_query_inv in E as (Hd & Hr & _ & Hres). rewrite sql_page_ok in Hnf, Hres by lia.
  destruct res as [ts|e]; intros [= <- <-]; split_and!; try done.
  - intros _. destruct Hres as [Hres|]; [|done]. injection Hres as ->.
    do 3 eexists. split; [reflexivity|]. split; [lia|]. split; [lia|]. split.
    { rewrite length_take. lia. }
    intros t Ht%subseteq_take%subseteq_drop.
    apply elem_of_sql_order_by, elem_of_sql_where in Ht as [? ?]. by boolify.
  - intros Hf. specialize (Hnf Hf). congruence.
Qed.

End task_handler.
