(* ===== verification/WorkerHandler.v ===== *)
(** * internal/api/handlers/workers.go: registration and heartbeats *)
From S2P Require Import Prelude Sql GoStd Crypto Float64 Domain World RedisStore PgStore Http.
From S2P Require Import Middleware.
From Stdlib Require Import Ascii SpecFloat.

#[local] Open Scope string_scope.
#[local] Open Scope Z_scope.

Record registerWorkerRequest := MkRegisterWorkerRequest {
  RW_HostnameHash : string;
  RW_Hostname : string;
  RW_Agents : slice string;
  RW_CapacityScore : spec_float;
}.

Record heartbeatRequest := MkHeartbeatRequest { HB_Agents : slice string }.

Definition maxAgents : Z := 50.
Definition maxAgentNameLen : Z := 100.

(** The loop over the agent names: is one of them empty or too long? *)
Definition bad_agent_name (agents : list string) : bool :=
  existsb (λ a, (str_len a =? 0) || (maxAgentNameLen <? str_len a)) agents.

(** A JSON string value, and a JSON number, in a decoded object. *)
Definition json_string (v : option json) : option string :=
  match v with Some (JStr s) => Some s | _ => None end.
Definition json_number (v : option json) : option spec_float :=
  match v with Some (JNum f) => Some f | _ => None end.

(** The assigned task as the heartbeat response describes it. *)
Definition assigned_task_value `{UUIDText} (t : Task) : pval :=
  let options := omap (λ v, json_string (Some v)) (Task_Options t) in
  let repoURL := default "" (json_string (Task_Options t !! "repo_url")) in
  let branch := default "" (json_string (Task_Options t !! "branch")) in
  let timeoutSec :=
    match json_number (Task_Options t !! "timeout_sec") with
    | Some f => f64_to_int f
    | None => 3600
    end in
  VObj [("task_id", VStr (uuid_String (Task_ID t))); ("title", VStr (Task_Title t));
        ("description", VStr (Task_Description t)); ("task_type", VStr (Task_TaskType t));
        ("ai_agent", VStr (Task_AIAgent t)); ("options", VStringMap options);
        ("repo_url", VStr repoURL); ("branch", VStr branch); ("timeout_sec", VInt timeoutSec)].

Section worker_handler.
Context {R : Type} `{RD : Redis R} `{UT : UUIDText}.
Context `{JR : JSONDecode registerWorkerRequest} `{JH : JSONDecode heartbeatRequest}.
Context (heartbeatTTLSec : Z).
Implicit Types (w : world R).

(** The hash of the host name that identifies the worker, if the request names one. *)
Definition hostname_hash (req : registerWorkerRequest) : option string :=
  if negb (String.eqb (RW_HostnameHash req) "") then Some (RW_HostnameHash req)
  else if String.eqb (RW_Hostname req) "" then None
  else Some (hex_EncodeToString (Sum256 (RW_Hostname req))).

Definition Register : Handler R := λ r,
  match OrgUnitIDFromContext (Req_Context r) with
  | None => mret (writeError StatusUnauthorized "missing org context")
  | Some orgID =>
      let '(req, err) := json_Decode (A := registerWorkerRequest) (Req_Body r) in
      match err with
      | Some e => mret (writeError StatusBadRequest ("invalid JSON: " ++ e))
      | None =>
          match hostname_hash req with
          | None => mret (writeError StatusBadRequest "hostname or hostname_hash is required")
          | Some hostnameHash =>
              if maxAgents <? Z.of_nat (length (elems (RW_Agents req)))
              then mret (writeError StatusBadRequest "agents list exceeds maximum allowed size")
              else if bad_agent_name (elems (RW_Agents req))
              then mret (writeError StatusBadRequest "agent name must be between 1 and 100 characters")
              else
                let capacityScore := f64_to_int (RW_CapacityScore req) in
                let capacityScore := if capacityScore =? 0 then 100 else capacityScore in
                if (capacityScore <? 0) || (100 <? capacityScore)
                then mret (writeError StatusBadRequest "capacity_score must be between 0 and 100")
                else
                  now ← time_Now;
                  id ← new_uuid;
                  res ← RegisterWorker (MkWorker id orgID hostnameHash (RW_Agents req) WorkerStateIdle
                          (Some now) capacityScore now);
                  match res with
                  | Err _ => mret (writeError StatusInternalServerError "failed to register worker")
                  | Ok workerID =>
                      _ ← SetWorkerHeartbeat workerID heartbeatTTLSec;   (* errors are logged *)
                      mret (writeJSON StatusCreated
                        (VObj [("worker_id", VID workerID); ("state", VStr WorkerStateIdle)]))
                  end
          end
      end
  end.

Definition List : Handler R := λ r,
  match OrgUnitIDFromContext (Req_Context r) with
  | None => mret (writeError StatusUnauthorized "missing org context")
  | Some orgID =>
      res ← ListWorkers orgID;
      match res with
      | Err _ => mret (writeError StatusInternalServerError "failed to list workers")
      | Ok workers =>
          mret (writeJSON StatusOK
            (VObj [("workers", VWorkers workers); ("count", VInt (Z.of_nat (length workers)))]))
      end
  end.

Definition Get : Handler R := λ r,
  match OrgUnitIDFromContext (Req_Context r) with
  | None => mret (writeError StatusUnauthorized "missing org context")
  | Some orgID =>
      match uuid_Parse (URLParam r "id") with
      | None => mret (writeError StatusBadRequest "invalid worker ID")
      | Some workerID =>
          res ← GetWorker workerID;
          match res with
          | Err _ => mret (writeError StatusNotFound "worker not found")
          | Ok worker =>
              if negb (Worker_OrgUnitID worker =? orgID)
              then mret (writeError StatusForbidden "access denied")
              else mret (writeJSON StatusOK (VWorker worker))
          end
      end
  end.

(** The response of an accepted heartbeat, with the task waiting for the worker. *)
Definition heartbeat_response (workerID : uuid) : M (world R) http_response :=
  let resp := [("ok", VBool true); ("worker_id", VID workerID); ("next_ttl_sec", VInt heartbeatTTLSec)] in
  res ← GetAssignedTaskForWorker workerID;
  match res with
  | Err _ | Ok None => mret (writeJSON StatusOK (VObj resp))
  | Ok (Some assigned) =>
      mret (writeJSON StatusOK (VObj (resp ++ [("assigned_task", assigned_task_value assigned)])%list))
  end.

Definition Heartbeat : Handler R := λ r,
  match OrgUnitIDFromContext (Req_Context r) with
  | None => mret (writeError StatusUnauthorized "missing org context")
  | Some orgID =>
      match uuid_Parse (URLParam r "id") with
      | None => mret (writeError StatusBadRequest "invalid worker ID")
      | Some workerID =>
          res ← GetWorker workerID;
          match res with
          | Err _ => mret (writeError StatusNotFound "worker not found")
          | Ok worker =>
              if negb (Worker_OrgUnitID worker =? orgID)
              then mret (writeError StatusForbidden "access denied")
              else
                (* the body is optional: a decoding error is ignored *)
                let '(req, _) := json_Decode (A := heartbeatRequest) (Req_Body r) in
                if maxAgents <? Z.of_nat (length (elems (HB_Agents req)))
                then mret (writeError StatusBadRequest "agents list exceeds maximum allowed size")
                else if bad_agent_name (elems (HB_Agents req))
                then mret (writeError StatusBadRequest "agent name must be between 1 and 100 characters")
                else
                  let agents :=
                    match HB_Agents req with None => Worker_Agents worker | Some _ => HB_Agents req end in
                  _ ← SetWorkerHeartbeat workerID heartbeatTTLSec;       (* errors are logged *)
                  res ← UpdateWorkerHeartbeat workerID agents;
                  match res with
                  | Err _ => mret (writeError StatusInternalServerError "failed to update heartbeat")
                  | Ok _ => heartbeat_response workerID
                  end
          end
      end
  end.

(** ** Registration *)

(** The agents and the capacity are within the limits of the API. *)
Definition agents_ok (agents : slice string) : Prop :=
  Z.of_nat (length (elems agents)) ≤ 50 ∧
  ∀ a, a ∈ elems agents → (1 <= String.length a <= 100)%nat.

Lemma bad_agent_name_spec l :
  bad_agent_name l = false ↔ ∀ a, a ∈ l → (1 <= String.length a <= 100)%nat.
Proof.
  unfold bad_agent_name, str_len, maxAgentNameLen. rewrite <-not_true_iff_false, existsb_exists. split.
  - intros H a Ha%list_elem_of_In. destruct (decide (1 <= String.length a <= 100)%nat) as [|Hn]; [done|].
    destruct H. exists a. split; [done|]. rewrite orb_true_iff, Z.eqb_eq, Z.ltb_lt. lia.
  - intros H (a & Ha%list_elem_of_In & Hb). apply H in Ha.
    rewrite orb_true_iff, Z.eqb_eq, Z.ltb_lt in Hb. lia.
Qed.

(** The row that the worker of a host has after a registration. *)
Definition registered_as (now : Z) (org : uuid) (hash : string) (agents : slice string) (cap : Z)
    (wk : Worker) : Prop :=
  Worker_OrgUnitID wk = org ∧ Worker_HostnameHash wk = hash ∧ Worker_Agents wk = agents ∧
  Worker_State wk = WorkerStateIdle ∧ Worker_LastHeartbeatAt wk = Some now ∧
  Worker_CapacityScore wk = cap.

(** The table of workers after the upsert of the row [new]. *)
Definition upserted (new : Worker) (ws ws' : list Worker) : Prop :=
  ws' = (sql_update (worker_conflict new) (worker_refresh new) ws).1 ∨ ws' = (ws ++ [new])%list.

Lemma RegisterWorker_inv wk w r w' :
  RegisterWorker wk w = (r, w') →
  w_redis w' = w_redis w ∧ w_now w' = w_now w ∧
  (is_ok r = false ∧ w_db w' = w_db w ∨
   (∃ old, (r = Ok (Worker_ID old) ∨ r = Err ErrUnavailable) ∧ old ∈ db_workers (w_db w) ∧ worker_conflict wk old = true ∧
      w_db w' = set_workers (sql_update (worker_conflict wk) (worker_refresh wk)
                               (db_workers (w_db w))).1 (w_db w)) ∨
   ((r = Ok (Worker_ID wk) ∨ r = Err ErrUnavailable) ∧ (∀ old, old ∈ db_workers (w_db w) → worker_conflict wk old = false) ∧
      org_exists (w_db w) (Worker_OrgUnitID wk) = true ∧ worker_exists (w_db w) (Worker_ID wk) = false ∧
      w_db w' = set_workers (db_workers (w_db w) ++ [wk])%list (w_db w))).
Proof.
  intros H. apply pg_exec_effect in H as (Hr & Hn & [(e & -> & Hd)|(a & d & Hf & Hd & Hres)]);
    split_and!; auto; right.
  simpl in Hf. destruct (negb (int4_ok _)); [done|]. destruct (Worker_Agents wk); [|done].
  destruct (sql_any _ _) as [old|] eqn:E.
  - left. exists old. apply sql_any_Some in E as [? ?]. injection Hf as <- <-. done.
  - right. destruct (negb (org_exists _ _)) eqn:E1; [done|]. destruct (worker_exists _ _) eqn:E2; [done|].
    injection Hf as <- <-. boolify. split_and!; try done. by apply sql_any_None.
Qed.

Lemma worker_conflict_spec wk wk' : worker_conflict wk wk' = true ↔ host_key wk' = host_key wk.
Proof.
  unfold worker_conflict, host_key. rewrite andb_true_iff, Z.eqb_eq, String.eqb_eq.
  split; [by intros [-> ->] | by intros [= -> ->]].
Qed.

Lemma RegisterWorker_keys wk w r w' :
  RegisterWorker wk w = (r, w') →
  NoDup (map host_key (db_workers (w_db w))) → NoDup (map Worker_ID (db_workers (w_db w))) →
  NoDup (map host_key (db_workers (w_db w'))) ∧ NoDup (map Worker_ID (db_workers (w_db w'))).
Proof.
  intros H Hk Hid. apply RegisterWorker_inv in H as
    (_ & _ & [[_ ->]|[(old & _ & _ & _ & ->)|(_ & Hno & _ & Hne & ->)]]); [done| |].
  - cbn [db_workers set_workers]. rewrite !sql_update_column by (intros; done). done.
  - cbn [db_workers set_workers]. rewrite !map_app. split; apply NoDup_app; split_and!; try done.
    + intros x (o & -> & Ho)%elem_of_bmap. simpl. rewrite list_elem_of_singleton. intros E.
      apply worker_conflict_spec in E. rewrite Hno in E; done.
    + apply NoDup_singleton.
    + intros x (o & -> & Ho)%elem_of_bmap. simpl. rewrite list_elem_of_singleton. intros E.
      apply not_true_iff_false in Hne. apply Hne, existsb_exists. exists o.
      split; [by apply list_elem_of_In|]. by apply Z.eqb_eq.
    + apply NoDup_singleton.
Qed.

Lemma SetWorkerHeartbeat_inv wid ttl w r w' :
  SetWorkerHeartbeat wid ttl w = (r, w') → w_db w' = w_db w ∧ w_now w' = w_now w.
Proof. by intros (? & ? & _)%redis_do_inv. Qed.

(** The requests that registration accepts. *)
Definition register_request_ok (req : registerWorkerRequest) (hash : string) (cap : Z) : Prop :=
  hostname_hash req = Some hash ∧ agents_ok (RW_Agents req) ∧ 1 ≤ cap ≤ 100 ∧
  (f64_to_int (RW_CapacityScore req) = cap ∨ f64_to_int (RW_CapacityScore req) = 0 ∧ cap = 100).

(** Whatever fails: registration answers 201 only for a decoded request with a host, at
    most 50 agents with names of 1 to 100 bytes and a capacity of 1 to 100 (0 meaning 100),
    and then the table has the worker's row (the one the answer names) for this org unit
    and host, idle, with a heartbeat now; the rows of every other host are untouched, and
    the table still has one row per host and per id.  Any other answer changes nothing,
    except a 500 after the reply of the upsert was lost: then the row is there as well. *)
Lemma Register_upserts r w resp w' org :
  ctx_OrgUnitID (Req_Context r) = Some org →
  NoDup (map host_key (db_workers (w_db w))) → NoDup (map Worker_ID (db_workers (w_db w))) →
  Register r w = (resp, w') →
  (Resp_Status resp ≠ StatusCreated ∧ w_db w' = w_db w) ∨
  ((Resp_Status resp = StatusCreated ∨ Resp_Status resp = StatusInternalServerError) ∧ ∃ req hash cap wk,
     json_Decode (A := registerWorkerRequest) (Req_Body r) = (req, None) ∧
     register_request_ok req hash cap ∧
     (Resp_Status resp = StatusCreated →
        Resp_Body resp = PJSON (VObj [("worker_id", VID (Worker_ID wk)); ("state", VStr WorkerStateIdle)])) ∧
     wk ∈ db_workers (w_db w') ∧
     registered_as (w_now w) org hash (RW_Agents req) cap wk ∧
     (∀ o, host_key o ≠ (org, hash) → o ∈ db_workers (w_db w') ↔ o ∈ db_workers (w_db w)) ∧
     (∀ o, o ∈ db_workers (w_db w) → ∃ o', o' ∈ db_workers (w_db w') ∧ Worker_ID o' = Worker_ID o ∧
        Worker_OrgUnitID o' = Worker_OrgUnitID o) ∧
     NoDup (map host_key (db_workers (w_db w'))) ∧ NoDup (map Worker_ID (db_workers (w_db w'))) ∧
     (∃ new, host_key new = (org, hash) ∧ Worker_State new = WorkerStateIdle ∧
        upserted new (db_workers (w_db w)) (db_workers (w_db w'))) ∧
     set_workers [] (w_db w') = set_workers [] (w_db w)).
Proof.
  intros Ho Hk Hid. unfold Register, OrgUnitIDFromContext, mbind, M_bind, mret, M_ret, time_Now. rewrite Ho.
  destruct (json_Decode _) as [req [e|]] eqn:Ej; [by intros [= <- <-]; left|].
  destruct (hostname_hash req) as [hash|] eqn:Eh; [|by intros [= <- <-]; left].
  destruct (maxAgents <? _) eqn:El; [by intros [= <- <-]; left|].
  destruct (bad_agent_name _) eqn:Eb; [by intros [= <- <-]; left|]. cbv zeta.
  set (cap := if f64_to_int _ =? 0 then 100 else _).
  destruct (_ || _) eqn:Ec; [by intros [= <- <-]; left|].
  destruct (new_uuid w) as [id w1] eqn:E1. apply new_uuid_frame in E1 as (Hd1 & _ & Hn1 & _).
  set (wk := MkWorker id org hash (RW_Agents req) WorkerStateIdle (Some (w_now w)) cap (w_now w)).
  destruct (RegisterWorker wk w1) as [res w2] eqn:E2.
  pose proof E2 as Hkeys. apply RegisterWorker_keys in Hkeys as [Hk2 Hid2]; [|by rewrite Hd1..].
  apply RegisterWorker_inv in E2 as (_ & _ & Hcases). rewrite Hd1 in Hcases.
  assert (register_request_ok req hash cap) as Hreq.
  { clear -Eh El Eb Ec. revert Ec. subst cap. unfold maxAgents in El.
    destruct (f64_to_int (RW_CapacityScore req) =? 0) eqn:E0; intros Ec; boolify;
      (split; [done|]; split; [by split; [lia|apply bad_agent_name_spec]|]); split; lia. }
  match goal with |- ?L = _ → _ => assert (∀ x, res = Ok x ∨ res = Err ErrUnavailable → L = (resp, w') →
    w_db w' = w_db w2 ∧ (Resp_Status resp = StatusCreated ∨ Resp_Status resp = StatusInternalServerError) ∧
    (Resp_Status resp = StatusCreated →
       Resp_Body resp = PJSON (VObj [("worker_id", VID x); ("state", VStr WorkerStateIdle)]))) as Hresp end.
  { intros x [-> | ->]; [|intros [= <- <-]; split_and!; auto; done].
    destruct (SetWorkerHeartbeat x _ w2) as [r3 w3] eqn:E3.
    apply SetWorkerHeartbeat_inv in E3 as [Hd3 _]. intros [= <- <-]. auto. }
  destruct Hcases as [[Hok Hd2]|[(old & Hres & Hin & Hc & Hd2)|(Hres & Hno & _ & _ & Hd2)]].
  { destruct res; [done|]. intros [= <- <-]. by left. }
  all: intros H; right; destruct (Hresp _ Hres H) as (Hd3 & Hst & Hb); rewrite Hd3; (split; [done|]).
  - apply worker_conflict_spec in Hc. exists req, hash, cap, (worker_refresh wk old).
    split; [done|]. split; [done|]. split; [done|]. rewrite Hd2 in *. split.
    { apply elem_of_sql_update. exists old. split; [done|].
      by rewrite (proj2 (worker_conflict_spec wk old) Hc). }
    split. { unfold host_key in Hc. injection Hc as ? ?. by split_and!. }
    split; [|split; [|split_and!; try done; exists wk; split_and!; try done; by left]].
    2:{ intros o Hino. eexists. split; [apply elem_of_sql_update; eauto|]. by destruct (worker_conflict wk o). }
    intros o Hne. cbn [db_workers set_workers]. rewrite elem_of_sql_update. split.
    + intros (o0 & Hin0 & ->). destruct (worker_conflict wk o0) eqn:Ec0; [|done].
      apply worker_conflict_spec in Ec0. by destruct Hne.
    + intros Hino. exists o. split; [done|]. destruct (worker_conflict wk o) eqn:Ec0; [|done].
      apply worker_conflict_spec in Ec0. by destruct Hne.
  - exists req, hash, cap, wk. split; [done|]. split; [done|]. split; [done|]. rewrite Hd2 in *. split.
    { simpl. apply elem_of_app. right. by apply list_elem_of_singleton. }
    split; [by split_and!|].
    split; [|split; [|split_and!; try done; exists wk; split_and!; try done; by right]].
    2:{ intros o Hino. exists o. split; [|done]. simpl. apply elem_of_app. by left. }
    intros o Hne. simpl. rewrite elem_of_app, list_elem_of_singleton. split; [|by left].
    intros [?| ->]; [done|]. by destruct Hne.
Qed.

(** ** Heartbeats *)

Lemma GetWorker_inv id w r w' :
  GetWorker id w = (r, w') →
  w_db w' = w_db w ∧ w_redis w' = w_redis w ∧ w_now w' = w_now w ∧
  ∀ wk, r = Ok wk → wk ∈ db_workers (w_db w) ∧ Worker_ID wk = id.
Proof.
  intros H. apply pg_query_inv in H as (Hd & Hr & Hn & Hres). split_and!; try done.
  intros wk ->. destruct Hres as [Hres|]; [|done].
  destruct (sql_any _ _) eqn:E; simplify_eq. apply sql_any_Some in E as [? Hid].
  unfold worker_by_id in Hid. boolify. done.
Qed.

Lemma UpdateWorkerHeartbeat_inv id agents w r w' :
  UpdateWorkerHeartbeat id agents w = (r, w') →
  w_now w' = w_now w ∧
  (is_ok r = false ∧ w_db w' = w_db w ∨
   w_db w' = set_workers (sql_update (worker_by_id id) (worker_set_heartbeat (w_now w) agents)
                            (db_workers (w_db w))).1 (w_db w)).
Proof.
  intros H. apply pg_exec_effect in H as (_ & Hn & [(e & -> & Hd)|(a & d & Hf & Hd & _)]);
    split_and!; auto; right. simpl in Hf. repeat case_match; simplify_eq. done.
Qed.

Lemma heartbeat_response_ok wid w :
  Resp_Status (heartbeat_response wid w).1 = StatusOK ∧ w_db (heartbeat_response wid w).2 = w_db w.
Proof.
  unfold heartbeat_response, mbind, M_bind, mret, M_ret.
  destruct (GetAssignedTaskForWorker wid w) as [res w1] eqn:E. apply pg_query_inv in E as (Hd & _).
  by destruct res as [[t|]|].
Qed.

(** Whatever fails: a heartbeat that answers 200 touched the worker (one that answers 500
    may have, the reply of the UPDATE lost), which it does only for a worker of the caller's own org unit.  It then records the instant and
    the agents sent (or keeps the agents when none are sent) in the rows with the id of
    the URL and changes nothing else: in particular the worker's state, so that a worker
    marked busy stays busy however often it reports. *)
Lemma Heartbeat_touches r w resp w' :
  Heartbeat r w = (resp, w') →
  (Resp_Status resp ≠ StatusOK ∧ w_db w' = w_db w) ∨
  ((Resp_Status resp = StatusOK ∨ Resp_Status resp = StatusInternalServerError) ∧ ∃ wk agents,
     wk ∈ db_workers (w_db w) ∧ Some (Worker_ID wk) = uuid_Parse (URLParam r "id") ∧
     Some (Worker_OrgUnitID wk) = ctx_OrgUnitID (Req_Context r) ∧
     (agents = Worker_Agents wk ∨ agents_ok agents) ∧
     w_db w' = set_workers (map (λ x, if Worker_ID x =? Worker_ID wk
                                      then worker_set_heartbeat (w_now w) agents x else x)
                              (db_workers (w_db w))) (w_db w)).
Proof.
  unfold Heartbeat, OrgUnitIDFromContext, mbind, M_bind, mret, M_ret.
  destruct (ctx_OrgUnitID _) as [org|]; [|by intros [= <- <-]; left].
  destruct (uuid_Parse _) as [id|]; [|by intros [= <- <-]; left].
  destruct (GetWorker id w) as [[wk|e] w1] eqn:E1;
    apply GetWorker_inv in E1 as (Hd1 & _ & Hn1 & Hwk); [|by intros [= <- <-]; left].
  destruct (Hwk wk eq_refl) as [Hin Hid].
  destruct (Z.eqb_spec (Worker_OrgUnitID wk) org) as [Horg|]; [|by intros [= <- <-]; left].
  cbv beta iota delta [negb].
  destruct (json_Decode _) as [req err]. destruct (maxAgents <? _) eqn:El; [by intros [= <- <-]; left|].
  destruct (bad_agent_name _) eqn:Eb; [by intros [= <- <-]; left|]. cbv zeta.
  set (agents := match HB_Agents req with None => _ | Some _ => _ end).
  destruct (SetWorkerHeartbeat id _ w1) as [r2 w2] eqn:E2.
  apply SetWorkerHeartbeat_inv in E2 as [Hd2 Hn2].
  destruct (UpdateWorkerHeartbeat id agents w2) as [r3 w3] eqn:E3.
  apply UpdateWorkerHeartbeat_inv in E3 as (_ & Hc). rewrite Hd2, Hd1, Hn2, Hn1 in Hc.
  destruct Hc as [[Hok Hd3]|Hd3].
  { destruct r3; [done|]. intros [= <- <-]. left. split; [done|congruence]. }
  intros H. assert ((Resp_Status resp = StatusOK ∨ Resp_Status resp = StatusInternalServerError) ∧
    w_db w' = w_db w3) as [Hst Hdb].
  { destruct r3; [|injection H as <- <-; auto]. pose proof (heartbeat_response_ok id w3) as [Hst Hdb].
    destruct (heartbeat_response id w3) as [resp4 w4]. injection H as <- <-. auto. }
  right. split; [done|]. exists wk, agents. rewrite Hdb, Hd3, Horg, Hid. split_and!; try done.
  subst agents. destruct (HB_Agents req) as [l|] eqn:Ea; [|by left]. right. rewrite ?Ea in El, Eb.
  split; [unfold maxAgents in *; boolify; simpl in *; lia | by apply bad_agent_name_spec].
Qed.

Lemma assigned_asc_total a b : assigned_asc a b = true ∨ assigned_asc b a = true.
Proof.
  unfold assigned_asc. destruct (Task_AssignedAt a), (Task_AssignedAt b); auto.
  rewrite !Z.leb_le. lia.
Qed.

Lemma assigned_asc_trans a b c :
  assigned_asc a b = true → assigned_asc b c = true → assigned_asc a c = true.
Proof.
  unfold assigned_asc. destruct (Task_AssignedAt a), (Task_AssignedAt b), (Task_AssignedAt c); auto;
    rewrite ?Z.leb_le; intros; done || lia.
Qed.

(** When no statement fails, an accepted heartbeat hands the worker the task waiting for
    it: if some task is assigned to it, the answer describes such a task, none of them
    assigned earlier. *)
Lemma Heartbeat_delivers r w org wk :
  w_faults w = [] → ctx_OrgUnitID (Req_Context r) = Some org →
  uuid_Parse (URLParam r "id") = Some (Worker_ID wk) →
  wk ∈ db_workers (w_db w) → (∀ x, x ∈ db_workers (w_db w) → Worker_ID x = Worker_ID wk → x = wk) →
  Worker_OrgUnitID wk = org → (∃ l, Worker_Agents wk = Some l) →
  HB_Agents (json_Decode (A := heartbeatRequest) (Req_Body r)).1 = None →
  (∃ t, t ∈ db_tasks (w_db w) ∧ assigned_to (Worker_ID wk) t = true) →
  ∃ t, t ∈ db_tasks (w_db w) ∧ assigned_to (Worker_ID wk) t = true ∧
    (∀ t', t' ∈ db_tasks (w_db w) → assigned_to (Worker_ID wk) t' = true → assigned_asc t t' = true) ∧
    (Heartbeat r w).1 = writeJSON StatusOK
      (VObj [("ok", VBool true); ("worker_id", VID (Worker_ID wk)); ("next_ttl_sec", VInt heartbeatTTLSec);
             ("assigned_task", assigned_task_value t)]).
Proof.
  intros Hf Ho Hid Hin Huniq Horg [ags Hags] Hbody Hass.
  unfold Heartbeat, OrgUnitIDFromContext, mbind, M_bind, mret, M_ret. rewrite Ho, Hid.
  unfold GetWorker. rewrite pg_query_nofault by done.
  destruct (sql_any _ _) as [wk'|] eqn:Ea.
  2:{ pose proof (proj1 (sql_any_None _ _) Ea wk Hin) as Hc. unfold worker_by_id in Hc. boolify. done. }
  apply sql_any_Some in Ea as [Hin' Hid']. unfold worker_by_id in Hid'. boolify.
  rewrite (Huniq wk') in * by done. rewrite Horg, Z.eqb_refl. cbv beta iota delta [negb].
  destruct (json_Decode _) as [req err]. simpl in Hbody. rewrite Hbody. simpl. rewrite Hags.
  unfold SetWorkerHeartbeat. rewrite redis_do_nofault by done.
  unfold UpdateWorkerHeartbeat. rewrite pg_exec_nofault by done.
  destruct (sql_update _ _ _) as [ws n] eqn:Eu.
  assert (n ≠ 0) as Hn.
  { change n with (ws, n).2. rewrite <-Eu. apply sql_update_count_pos. exists wk.
    split; [done | apply Z.eqb_refl]. }
  rewrite (proj2 (Z.eqb_neq _ _)) by done. cbv beta iota.
  unfold heartbeat_response, mbind, M_bind, mret, M_ret, GetAssignedTaskForWorker.
  rewrite pg_query_nofault by done. cbn [w_db set_db set_redis db_tasks set_workers].
  destruct (sql_first _ _ _) as [t|] eqn:Et.
  - apply sql_first_Some in Et as (? & ? & ?); [|apply assigned_asc_total|apply assigned_asc_trans].
    exists t. done.
  - destruct Hass as (t & Ht & Hat). by rewrite (proj1 (sql_first_None _ _ _) Et t Ht) in Hat.
Qed.
End worker_handler.
