(* ===== verification/KeyHandler.v ===== *)
(** * internal/api/handlers/apikeys.go: the life cycle of API keys *)
From S2P Require Import Prelude Sql GoStd Crypto Domain World RedisStore PgStore Security Http.
From S2P Require Import ClaimFacts.
From S2P Require Import Middleware MiddlewareFacts.
From Stdlib Require Import Ascii.

#[local] Open Scope string_scope.
#[local] Open Scope Z_scope.

Record createAPIKeyRequest := MkCreateAPIKeyRequest {
  CK_Name : string;
  CK_Scopes : slice string;
  CK_ExpiresAt : option Z;
  CK_WorkerID : option string;
}.

Section key_handler.
Context {R : Type} `{RD : Redis R} `{UT : UUIDText} `{A2 : Argon2}.
Context `{JK : JSONDecode createAPIKeyRequest}.
Context (argon : ArgonParams).
Implicit Types (w : world R).

(** The worker id of a request: absent, parsed, or malformed. *)
Definition parse_worker_id (s : option string) : result (option uuid) :=
  match s with
  | None => Ok None
  | Some s => match uuid_Parse s with Some id => Ok (Some id) | None => Err (ErrMsg "uuid") end
  end.

Definition CreateAPIKey : Handler R := λ r,
  match OrgUnitIDFromContext (Req_Context r) with
  | None => mret (writeError StatusUnauthorized "missing org context")
  | Some orgID =>
      let '(req, err) := json_Decode (A := createAPIKeyRequest) (Req_Body r) in
      match err with
      | Some e => mret (writeError StatusBadRequest ("invalid JSON: " ++ e))
      | None =>
          if String.eqb (CK_Name req) "" then mret (writeError StatusBadRequest "name is required")
          else
            gen ← GenerateAPIKeyWithParams argon;
            match gen with
            | Err _ => mret (writeError StatusInternalServerError "failed to generate key")
            | Ok (plaintext, prefix, hash) =>
                match parse_worker_id (CK_WorkerID req) with
                | Err _ => mret (writeError StatusBadRequest "invalid worker_id")
                | Ok workerID =>
                    id ← new_uuid;
                    now ← time_Now;
                    let k := MkAPIKey id orgID workerID hash prefix (CK_Name req) (CK_Scopes req) now
                               (CK_ExpiresAt req) None None in
                    res ← PgStore.CreateAPIKey k;
                    match res with
                    | Err _ => mret (writeError StatusInternalServerError "failed to store key")
                    | Ok _ =>
                        mret (writeJSON StatusCreated
                          (VObj [("id", VID (Key_ID k)); ("key", VStr plaintext); ("key_prefix", VStr prefix);
                                 ("name", VStr (Key_Name k)); ("scopes", VStrings (Key_Scopes k));
                                 ("created_at", VTime (Key_CreatedAt k));
                                 ("expires_at", VOptTime (Key_ExpiresAt k))]))
                    end
                end
            end
      end
  end.

Definition RotateAPIKey : Handler R := λ r,
  match OrgUnitIDFromContext (Req_Context r) with
  | None => mret (writeError StatusUnauthorized "missing org context")
  | Some orgID =>
      match uuid_Parse (URLParam r "id") with
      | None => mret (writeError StatusBadRequest "invalid key ID")
      | Some keyID =>
          gen ← GenerateAPIKeyWithParams argon;
          match gen with
          | Err _ => mret (writeError StatusInternalServerError "failed to generate new key")
          | Ok (plaintext, prefix, hash) =>
              res ← PgStore.RotateAPIKey keyID orgID hash prefix;
              match res with
              | Err _ => mret (writeError StatusNotFound "key not found or access denied")
              | Ok k =>
                  mret (writeJSON StatusOK
                    (VObj [("id", VID (Key_ID k)); ("key", VStr plaintext); ("key_prefix", VStr prefix);
                           ("name", VStr (Key_Name k))]))
              end
          end
      end
  end.

Definition RevokeAPIKey : Handler R := λ r,
  match OrgUnitIDFromContext (Req_Context r) with
  | None => mret (writeError StatusUnauthorized "missing org context")
  | Some orgID =>
      match uuid_Parse (URLParam r "id") with
      | None => mret (writeError StatusBadRequest "invalid key ID")
      | Some keyID =>
          res ← PgStore.RevokeAPIKey keyID orgID;
          match res with
          | Err _ => mret (writeError StatusNotFound "key not found or access denied")
          | Ok _ => mret (writeHeader StatusNoContent)
          end
      end
  end.

(** ** Facts *)

Lemma Generate_verifies pt pre h w w' :
  GenerateAPIKeyWithParams argon w = (Ok (pt, pre, h), w') →
  pre = str_take 11 pt ∧ (argon = DefaultArgonParams → VerifyAPIKey pt h = true).
Proof.
  intros H. apply Generate_inv in H as (_ & _ & _ & _ & H).
  destruct (H _ _ _ eq_refl) as (raw & salt & Hlen & _ & _ & Hpt & -> & ->). split.
  - by rewrite Hpt.
  - intros ->. by apply VerifyAPIKey_hash.
Qed.

Lemma CreateAPIKey_store_inv k w r w' :
  PgStore.CreateAPIKey k w = (r, w') →
  w_now w' = w_now w ∧
  (is_ok r = false ∧ w_db w' = w_db w ∨
   org_exists (w_db w) (Key_OrgUnitID k) = true ∧
   worker_ref_ok (w_db w) (Key_WorkerID k) = true ∧
   w_db w' = set_apikeys (db_apikeys (w_db w) ++
      [MkAPIKey (Key_ID k) (Key_OrgUnitID k) (Key_WorkerID k) (Key_KeyHash k) (Key_KeyPrefix k)
         (Key_Name k) (Key_Scopes k) (Key_CreatedAt k) (Key_ExpiresAt k) None None])%list (w_db w)).
Proof.
  intros H. apply pg_exec_effect in H as (_ & Hn & [(e & -> & Hd)|(a & d & Hf & Hd & _)]);
    split_and!; auto; right. simpl in Hf. repeat case_match; simplify_eq. boolify.
  split_and!; auto.
Qed.

(** Whatever fails: creating a key answers 201 only when it added one row, for the
    caller's own org unit and for the worker named (any registered worker, of whatever org
    unit); with the default Argon2 parameters the key shown in the answer unlocks that row
    until it expires.  Any other answer leaves the database unchanged, unless the reply of
    the INSERT was lost: then it is 500 and nobody has seen the key. *)
Lemma CreateAPIKey_usable r w resp w' org :
  ctx_OrgUnitID (Req_Context r) = Some org → CreateAPIKey r w = (resp, w') →
  (Resp_Status resp ≠ StatusCreated ∧ w_db w' = w_db w) ∨
  ((Resp_Status resp = StatusCreated ∨ Resp_Status resp = StatusInternalServerError) ∧ ∃ k pt fields,
     (Resp_Status resp = StatusCreated →
        Resp_Body resp = PJSON (VObj (("id", VID (Key_ID k)) :: ("key", VStr pt) :: fields))) ∧
     w_db w' = set_apikeys (db_apikeys (w_db w) ++ [k])%list (w_db w) ∧
     Key_OrgUnitID k = org ∧
     parse_worker_id (CK_WorkerID (json_Decode (A := createAPIKeyRequest) (Req_Body r)).1) = Ok (Key_WorkerID k) ∧
     worker_ref_ok (w_db w) (Key_WorkerID k) = true ∧
     (argon = DefaultArgonParams → (∀ e, Key_ExpiresAt k = Some e → w_now w < e) → unlocks w' pt k)).
Proof.
  intros Ho. unfold CreateAPIKey, OrgUnitIDFromContext, mbind, M_bind, mret, M_ret. rewrite Ho.
  destruct (json_Decode _) as [req [e|]] eqn:Ej; [by intros [= <- <-]; left|].
  destruct (String.eqb _ ""); [by intros [= <- <-]; left|].
  destruct (GenerateAPIKeyWithParams argon w) as [[[[pt pre] h]|e] w1] eqn:E1;
    pose proof (Generate_inv _ _ _ _ E1) as (Hd1 & _ & Hn1 & _); [|by intros [= <- <-]; left].
  apply Generate_verifies in E1 as [Hpre Hver].
  destruct (parse_worker_id (CK_WorkerID req)) as [wid|e] eqn:Ew; [|by intros [= <- <-]; left].
  destruct (new_uuid w1) as [id w2] eqn:E2. apply new_uuid_frame in E2 as (Hd2 & _ & Hn2 & _).
  unfold time_Now. cbv zeta.
  match goal with |- context [PgStore.CreateAPIKey ?k w2] => destruct (PgStore.CreateAPIKey k w2) as [r3 w3] eqn:E3 end.
  apply CreateAPIKey_store_inv in E3 as (Hn3 & Hc). simpl in Hc. rewrite Hd2, Hd1 in Hc.
  destruct Hc as [[Hok Hd3]|(_ & Hwr & Hd3)].
  { destruct r3; [done|]. intros [= <- <-]. left. split; [done|congruence]. }
  set (k := MkAPIKey _ _ _ _ _ _ _ _ _ _ _) in Hd3. intros H. right.
  assert (w' = w3) as -> by by destruct r3; injection H.
  split; [destruct r3; injection H as <-; auto|]. exists k, pt. eexists.
  split; [intros Hs; by destruct r3; injection H as <-|]. do 4 (split; [done|]).
  intros Ha Hexp. unfold unlocks. rewrite Hd3, Hn3, Hn2, Hn1. simpl.
  specialize (Hver Ha). split_and!; try done. apply elem_of_app. right. by apply list_elem_of_singleton.
Qed.

(** *** Revocation *)

Lemma RevokeAPIKey_store_inv id org w r w' :
  PgStore.RevokeAPIKey id org w = (r, w') →
  (is_ok r = false ∧ w_db w' = w_db w ∨
   (∃ k, k ∈ db_apikeys (w_db w) ∧ revocable id org k = true) ∧
   w_db w' = set_apikeys (sql_update (revocable id org) (key_set_revoked (w_now w))
                            (db_apikeys (w_db w))).1 (w_db w)).
Proof.
  intros H. apply pg_exec_effect in H as (_ & _ & [(e & -> & Hd)|(a & d & Hf & Hd & _)]); auto; right.
  simpl in Hf. destruct (_ =? 0) eqn:E; simplify_eq. boolify. split_and!; try done.
  apply (sql_update_count_pos _ (key_set_revoked (w_now w))). simpl. done.
Qed.

(** Whatever fails: revoking answers 204 only when it revoked, which it does only for
    a key of the caller's own org unit that was not revoked yet; no row of that id and org
    unit unlocks anything afterwards, at any later time, and every other row is as it was.
    Any other answer leaves the database unchanged, unless the reply of the UPDATE was
    lost: then a revoked key is answered with 404. *)
Lemma RevokeAPIKey_effective r w resp w' org :
  ctx_OrgUnitID (Req_Context r) = Some org → RevokeAPIKey r w = (resp, w') →
  (Resp_Status resp ≠ StatusNoContent ∧ w_db w' = w_db w) ∨
  ((Resp_Status resp = StatusNoContent ∨ Resp_Status resp = StatusNotFound) ∧ ∃ k,
     k ∈ db_apikeys (w_db w) ∧ Some (Key_ID k) = uuid_Parse (URLParam r "id") ∧
     Key_OrgUnitID k = org ∧ Key_RevokedAt k = None ∧
     set_apikeys [] (w_db w') = set_apikeys [] (w_db w) ∧
     (∀ k' pt t, key_of_org (Key_ID k) org k' = true → ¬ unlocks (set_now t w') pt k') ∧
     (∀ k', key_of_org (Key_ID k) org k' = false →
        k' ∈ db_apikeys (w_db w') ↔ k' ∈ db_apikeys (w_db w))).
Proof.
  intros Ho. unfold RevokeAPIKey, OrgUnitIDFromContext, mbind, M_bind, mret, M_ret. rewrite Ho.
  destruct (uuid_Parse _) as [id|]; [|by intros [= <- <-]; left].
  destruct (PgStore.RevokeAPIKey id org w) as [r1 w1] eqn:E1.
  apply RevokeAPIKey_store_inv in E1 as [[Hok Hd]|((k & Hin & Hk) & Hd)].
  { destruct r1; [done|]. intros [= <- <-]. by left. }
  intros H. right. assert ((Resp_Status resp = StatusNoContent ∨ Resp_Status resp = StatusNotFound) ∧ w' = w1)
    as [Hst ->] by (destruct r1; injection H as <- <-; auto). split; [done|].
  unfold revocable in Hk. apply andb_true_iff in Hk as [Hk Hrev]. boolify. subst org.
  exists k. split; [done|]. split; [by f_equal|]. split; [done|].
  split; [by destruct (Key_RevokedAt k)|]. rewrite Hd. split; [done|].
  assert (Key_ID k = id) as Hid by done. rewrite Hid. split.
  - intros k' pt t Hk' (Hin' & _ & Hr' & _). cbn [w_db set_now] in Hin'.
    rewrite Hd in Hin'. cbn [db_apikeys set_apikeys] in Hin'.
    apply elem_of_sql_update in Hin' as (k0 & _ & ->).
    destruct (revocable id _ k0) eqn:Er; [done|]. unfold revocable in Er.
    unfold key_of_org in Hk'. rewrite Hk' in Er. simpl in Er. by rewrite Hr' in Er.
  - intros k' Hk'. cbn [db_apikeys set_apikeys]. rewrite elem_of_sql_update. split.
    + intros (k0 & Hin0 & ->). destruct (revocable id _ k0) eqn:Er; [|done].
      unfold revocable in Er. apply andb_true_iff in Er as [Er _].
      unfold key_of_org in Hk'. simpl in Hk'. congruence.
    + intros Hin'. exists k'. split; [done|]. destruct (revocable id _ k') eqn:Er; [|done].
      unfold revocable in Er. apply andb_true_iff in Er as [Er _]. unfold key_of_org in Hk'. congruence.
Qed.

(** *** Rotation *)

Lemma RotateAPIKey_store_inv id org h p w r w' :
  PgStore.RotateAPIKey id org h p w = (r, w') →
  w_now w' = w_now w ∧
  (is_ok r = false ∧ w_db w' = w_db w ∨
   ∃ k, (r = Ok k ∨ is_ok r = false) ∧ k ∈ db_apikeys (w_db w') ∧ key_of_org id org k = true ∧
     w_db w' = set_apikeys (sql_update (key_of_org id org) (key_set_rotated (w_now w) h p)
                              (db_apikeys (w_db w))).1 (w_db w)).
Proof.
  intros H. assert (w_redis w' = w_redis w ∧ w_now w' = w_now w) as [_ Hn].
  { eapply WithTx_frame, H. intros ??? (? & ? & _)%pg_exec_inv. done. }
  split; [done|]. apply WithTx_inv in H as [(w1 & w2 & k & b & E1 & E2 & E3 & Hr)|?]; [right|by left].
  apply next_fault_frame in E1 as (Hd1 & _ & Hn1 & _). apply next_fault_frame in E3 as (Hd3 & _ & Hn3 & _).
  apply pg_exec_inv in E2 as (_ & Hn2 & [(a & d & [= ->] & Hf & Hd2)|[(e & ? & _)|(a & d & ? & _)]]); [|done..].
  cbv zeta in Hf. destruct (sql_any _ _) as [k'|] eqn:Ea; [|done]. injection Hf as -> <-.
  exists a. apply sql_any_Some in Ea as [Hin Hk]. rewrite Hd3, Hd2, Hd1, Hn1 in *. split_and!; try done.
  destruct Hr as [[_ ->]|[_ ->]]; auto.
Qed.

(** Whatever fails: rotation answers 200 only when it replaced the secret of a key of
    the caller's own org unit.  Then, with the default Argon2 parameters, the new key shown
    in the answer unlocks the row until it expires, whether or not the row was revoked
    before: rotation lifts a revocation.  A token unlocks a rotated row only with the new
    prefix, and every other row is as it was.  Any other answer leaves the database
    unchanged, unless the reply of the COMMIT was lost: then the secret is replaced, the
    answer is 404 and nobody has seen the new key. *)
Lemma RotateAPIKey_replaces r w resp w' org :
  ctx_OrgUnitID (Req_Context r) = Some org → RotateAPIKey r w = (resp, w') →
  (Resp_Status resp ≠ StatusOK ∧ w_db w' = w_db w) ∨
  ((Resp_Status resp = StatusOK ∨ Resp_Status resp = StatusNotFound) ∧ ∃ k pt,
     (Resp_Status resp = StatusOK →
        Resp_Body resp = PJSON (VObj [("id", VID (Key_ID k)); ("key", VStr pt);
                                      ("key_prefix", VStr (str_take 11 pt)); ("name", VStr (Key_Name k))])) ∧
     Some (Key_ID k) = uuid_Parse (URLParam r "id") ∧ k ∈ db_apikeys (w_db w') ∧ Key_OrgUnitID k = org ∧
     (argon = DefaultArgonParams → (∀ e, Key_ExpiresAt k = Some e → w_now w < e) → unlocks w' pt k) ∧
     (∀ k' pt', key_of_org (Key_ID k) org k' = true → unlocks w' pt' k' → str_take 11 pt' = str_take 11 pt) ∧
     (∀ k', key_of_org (Key_ID k) org k' = false →
        k' ∈ db_apikeys (w_db w') ↔ k' ∈ db_apikeys (w_db w)) ∧
     set_apikeys [] (w_db w') = set_apikeys [] (w_db w)).
Proof.
  intros Ho. unfold RotateAPIKey, OrgUnitIDFromContext, mbind, M_bind, mret, M_ret. rewrite Ho.
  destruct (uuid_Parse _) as [id|]; [|by intros [= <- <-]; left].
  destruct (GenerateAPIKeyWithParams argon w) as [[[[pt pre] h]|e] w1] eqn:E1;
    pose proof (Generate_inv _ _ _ _ E1) as (Hd1 & _ & Hn1 & _); [|by intros [= <- <-]; left].
  apply Generate_verifies in E1 as [-> Hver].
  destruct (PgStore.RotateAPIKey id org h _ w1) as [r2 w2] eqn:E2.
  apply RotateAPIKey_store_inv in E2 as (Hn2 & [[Hok Hd2]|(k & Hres & Hin & Hk & Hd2)]).
  { destruct r2; [done|]. intros [= <- <-]. left. split; [done|congruence]. }
  intros H. right. assert (w' = w2) as -> by by destruct r2; injection H.
  split; [destruct r2; injection H as <-; auto|]. exists k, pt.
  split; [intros Hs; destruct Hres as [->|?]; [by injection H as <-|by destruct r2; [|injection H as <-]]|].
  unfold key_of_org in Hk. boolify. subst org. rewrite Hd1, Hn1 in Hd2.
  assert (Key_ID k = id) as Hid by done. rewrite Hid.
  assert (∀ k', k' ∈ db_apikeys (w_db w2) → key_of_org id (Key_OrgUnitID k) k' = true →
    ∃ k0, k' = key_set_rotated (w_now w) h (str_take 11 pt) k0) as Hrot.
  { intros k' Hin' Hk'. rewrite Hd2 in Hin'. cbn [db_apikeys set_apikeys] in Hin'.
    apply elem_of_sql_update in Hin' as (k0 & _ & ->).
    destruct (key_of_org id _ k0) eqn:E0; [by eexists|congruence]. }
  split; [done|]. split; [done|]. split; [done|]. split; [|split; [|split]].
  - intros Ha Hexp. destruct (Hrot k Hin) as [k0 Hk0]; [unfold key_of_org; by rewrite Hid, !Z.eqb_refl|].
    unfold unlocks. rewrite Hn2, Hn1. split; [done|]. specialize (Hver Ha). rewrite Hk0 in *. by split_and!.
  - intros k' pt' Hk' (Hin' & Hp & _). destruct (Hrot k' Hin' Hk') as [k0 ->]. done.
  - intros k' Hk'. rewrite Hd2. cbn [db_apikeys set_apikeys]. rewrite elem_of_sql_update. split.
    + intros (k0 & Hin0 & ->). destruct (key_of_org id _ k0) eqn:Er; [|done].
      unfold key_of_org in *. simpl in Hk'. congruence.
    + intros Hin'. exists k'. split; [done|]. by rewrite Hk'.
  - by rewrite Hd2.
Qed.
End key_handler.
