(* ===== verification/OutputHandler.v ===== *)
(** * internal/api/handlers/outputs.go: submitting and reviewing the results of tasks *)
From S2P Require Import Prelude Sql GoStd Domain World RedisStore PgStore Brownie Http Middleware.
From Stdlib Require Import Ascii.

#[local] Open Scope string_scope.
#[local] Open Scope Z_scope.

Record submitRequest := MkSubmitRequest {
  SO_TaskID : string;
  SO_HMACSha256 : string;
  SO_Artifacts : list ArtifactMeta;
  SO_Metadata : gmap string json;
}.

Record reviewRequest := MkReviewRequest {
  RV_ReviewStatus : string;
  RV_Comment : string;
}.

Definition validStatuses : list string := ["approved"; "rejected"; "changes_requested"].

Section output_handler.
Context {R : Type} `{RD : Redis R} `{UT : UUIDText}.
Context `{JS : JSONDecode submitRequest} `{JR : JSONDecode reviewRequest}.
Implicit Types (w : world R).

Definition Submit : Handler R := λ r,
  match WorkerIDFromContext (Req_Context r) with
  | None | Some None => mret (http_Error "worker authentication required" StatusForbidden)
  | Some (Some workerID) =>
      let '(req, err) := json_Decode (A := submitRequest) (Req_Body r) in
      match err with
      | Some _ => mret (http_Error "invalid JSON" StatusBadRequest)
      | None =>
          let sigHeader := Req_Header r "X-HMAC-SHA256" in
          if negb (String.eqb sigHeader (SO_HMACSha256 req))
          then mret (http_Error "HMAC mismatch" StatusUnprocessableEntity)
          else
            match uuid_Parse (SO_TaskID req) with
            | None => mret (http_Error "invalid task_id" StatusBadRequest)
            | Some taskID =>
                id ← new_uuid;
                now ← time_Now;
                let output := MkOutputPackage id taskID workerID (SO_HMACSha256 req) (SO_Artifacts req)
                  (SO_Metadata req) ReviewStatusPending None now None in
                res ← CreateOutput output;
                match res with
                | Err _ => mret (http_Error "internal error" StatusInternalServerError)
                | Ok _ =>
                    let orgUnitID := default uuid_Nil (OrgUnitIDFromContext (Req_Context r)) in
                    _ ← Award workerID orgUnitID PointsTaskCompleted "task_completed" (Some taskID);
                    mret (MkResponse StatusAccepted json_header
                      (PJSON (VObj [("id", VID (Out_ID output)); ("status", VStr "accepted")])))
                end
            end
      end
  end.

(** Points for the reviewed worker; failures are logged. *)
Definition review_points (status : string) (workerID orgID id : uuid) : M (world R) unit :=
  if String.eqb status "approved" then
    _ ← Award workerID orgID PointsOutputApproved "output_approved" (Some id); mret tt
  else if String.eqb status "rejected" then
    _ ← Deduct workerID orgID (i64 (- PointsOutputRejected)) "output_rejected" (Some id); mret tt
  else mret tt.

Definition Review : Handler R := λ r,
  match OrgUnitIDFromContext (Req_Context r) with
  | None => mret (http_Error "unauthorized" StatusUnauthorized)
  | Some orgID =>
      match APIKeyIDFromContext (Req_Context r) with
      | None => mret (http_Error "reviewer authentication required" StatusUnauthorized)
      | Some reviewerID =>
          if reviewerID =? uuid_Nil
          then mret (http_Error "reviewer authentication required" StatusUnauthorized)
          else
            match uuid_Parse (URLParam r "id") with
            | None => mret (http_Error "invalid output id" StatusBadRequest)
            | Some id =>
                let '(req, err) := json_Decode (A := reviewRequest) (Req_Body r) in
                match err with
                | Some _ => mret (http_Error "invalid JSON" StatusBadRequest)
                | None =>
                    if negb (existsb (String.eqb (RV_ReviewStatus req)) validStatuses)
                    then mret (http_Error "invalid review_status" StatusBadRequest)
                    else
                      res ← GetOutput id;
                      match res with
                      | Err _ => mret (http_Error "output not found" StatusNotFound)
                      | Ok output =>
                          res ← GetTask (Out_TaskID output);
                          match res with
                          | Err _ => mret (http_Error "internal error" StatusInternalServerError)
                          | Ok task =>
                              if negb (Task_OrgUnitID task =? orgID)
                              then mret (http_Error "access denied" StatusForbidden)
                              else
                                res ← UpdateOutputReview id (RV_ReviewStatus req) reviewerID;
                                match res with
                                | Err _ => mret (http_Error "internal error" StatusInternalServerError)
                                | Ok _ =>
                                    _ ← review_points (RV_ReviewStatus req) (Out_WorkerID output) orgID id;
                                    mret (writeHeader StatusNoContent)
                                end
                          end
                      end
                end
            end
      end
  end.

(** ** Facts *)

Lemma Award_inv wid org p reason ref w r w' :
  Award wid org p reason ref w = (r, w') →
  w_now w' = w_now w ∧ (ledger_append w w' wid org p ∨ w_db w' = w_db w).
Proof.
  unfold Award, mret, M_ret. destruct (p <=? 0); [intros [= <- <-]; auto|].
  intros (_ & Hn & [(_ & ? & _)|[_ ?]])%brownie_write_cases; auto.
Qed.

Lemma Deduct_inv wid org p reason ref w r w' :
  in_i64 p → in_i64 (- p) → Deduct wid org p reason ref w = (r, w') →
  w_now w' = w_now w ∧ (ledger_append w w' wid org (- p) ∨ w_db w' = w_db w).
Proof.
  intros Hp Hm. unfold Deduct, mret, M_ret. destruct (p <=? 0); [intros [= <- <-]; auto|].
  rewrite i64_id by done.
  intros (_ & Hn & [(_ & ? & _)|[_ ?]])%brownie_write_cases; auto.
Qed.

(** The ledger got one entry for the worker, of the given points, or none; nothing else
    changed with respect to the database [d]. *)
Definition ledger_only (d d' : pgdb) (wid : uuid) (points : Z) : Prop :=
  d' = d ∨ ∃ e, Brownie_WorkerID e = wid ∧ Brownie_Points e = points ∧
    d' = set_ledger (db_ledger d ++ [e])%list d.

Lemma ledger_append_only w w' d wid org p :
  w_db w = d → ledger_append w w' wid org p ∨ w_db w' = w_db w → ledger_only d (w_db w') wid p.
Proof.
  intros <- [(e & ? & _ & ? & ->)| ->]; [right; by exists e | by left].
Qed.

Lemma CreateOutput_inv o w r w' :
  CreateOutput o w = (r, w') →
  w_now w' = w_now w ∧
  (is_ok r = false ∧ w_db w' = w_db w ∨
   (is_ok r = true ∨ (lost_replies w' < lost_replies w)%nat) ∧
   worker_exists (w_db w) (Out_WorkerID o) = true ∧
   w_db w' = set_outputs (db_outputs (w_db w) ++ [o])%list (w_db w)).
Proof.
  intros H. apply pg_exec_inv in H as (_ & Hn &
    [(a & d & -> & Hf & Hd)|[(e & -> & Hd)|(a & d & -> & Hf & Hd & Hl)]]);
    split_and!; auto; right; simpl in Hf; repeat case_match; simplify_eq; boolify; split_and!; auto.
Qed.

(** Whatever fails: a submission answers 202 only when it added one output, pending
    review, of the caller's worker; the ledger then gained the 10 points of a completed
    task or, if that failed, nothing.  Any other answer leaves the database unchanged,
    except a 500 after the reply of the INSERT was lost: then the output is there. *)
Lemma Submit_records r w resp w' :
  Submit r w = (resp, w') →
  (Resp_Status resp ≠ StatusAccepted ∧ w_db w' = w_db w) ∨
  ((Resp_Status resp = StatusAccepted ∨
    Resp_Status resp = StatusInternalServerError ∧ (lost_replies w' < lost_replies w)%nat) ∧ ∃ wid o,
     ctx_WorkerID (Req_Context r) = Some (Some wid) ∧ Out_WorkerID o = wid ∧
     worker_exists (w_db w) wid = true ∧
     Out_ReviewStatus o = ReviewStatusPending ∧ Out_HMACSha256 o = Req_Header r "X-HMAC-SHA256" ∧
     (Resp_Status resp = StatusAccepted →
        Resp_Body resp = PJSON (VObj [("id", VID (Out_ID o)); ("status", VStr "accepted")])) ∧
     (∃ req, json_Decode (A := submitRequest) (Req_Body r) = (req, None) ∧ uuid_Parse (SO_TaskID req) = Some (Out_TaskID o) ∧
        Out_Artifacts o = SO_Artifacts req ∧ Out_Metadata o = SO_Metadata req) ∧
     ledger_only (set_outputs (db_outputs (w_db w) ++ [o])%list (w_db w)) (w_db w') wid 10).
Proof.
  unfold Submit, WorkerIDFromContext, mbind, M_bind, mret, M_ret, time_Now.
  destruct (ctx_WorkerID _) as [[wid|]|] eqn:Ew; try (by intros [= <- <-]; left).
  destruct (json_Decode _) as [req [e|]] eqn:Ej; [by intros [= <- <-]; left|].
  destruct (String.eqb_spec (Req_Header r "X-HMAC-SHA256") (SO_HMACSha256 req)) as [Hsig|];
    [|by intros [= <- <-]; left]. cbv beta iota delta [negb].
  destruct (uuid_Parse _) as [tid|] eqn:Et; [|by intros [= <- <-]; left].
  destruct (new_uuid w) as [id w1] eqn:E1. apply new_uuid_frame in E1 as (Hd1 & _ & Hn1 & Hf1). cbv zeta.
  set (o := MkOutputPackage _ _ _ _ _ _ _ _ _ _).
  destruct (CreateOutput o w1) as [r2 w2] eqn:E2. apply CreateOutput_inv in E2 as (Hn2 & Hc).
  rewrite Hd1 in Hc. assert (lost_replies w1 = lost_replies w) as Hl1 by (unfold lost_replies; by rewrite Hf1).
  destruct Hc as [[? Hd2]|(Hlost & Hex & Hd2)].
  { destruct r2; [done|]. intros [= <- <-]. left. split; [done|congruence]. }
  intros H. right.
  assert ((Resp_Status resp = StatusAccepted ∨
      Resp_Status resp = StatusInternalServerError ∧ (lost_replies w' < lost_replies w)%nat) ∧
    (Resp_Status resp = StatusAccepted →
       Resp_Body resp = PJSON (VObj [("id", VID (Out_ID o)); ("status", VStr "accepted")])) ∧
    ledger_only (set_outputs (db_outputs (w_db w) ++ [o])%list (w_db w)) (w_db w') wid 10) as (Hst & Hb & Hl).
  { destruct r2 as [u|e].
    - destruct (Award _ _ _ _ _ w2) as [r3 w3] eqn:E3. apply Award_inv in E3 as [_ Ha].
      injection H as <- <-. split_and!; auto. eapply ledger_append_only; [exact Hd2|exact Ha].
    - injection H as <- <-. destruct Hlost as [|Hlost]; [done|]. rewrite <-Hl1.
      split_and!; auto; [done|]. rewrite Hd2. by left. }
  split; [done|]. exists wid, o. split_and!; try done. by exists req.
Qed.

(** The signature of a submission is compared with itself and never verified: when no
    statement fails, a request of a registered worker is accepted for any text as
    signature, any artifacts and any task id, of an existing task or not. *)
Lemma Submit_accepts_any_signature r w wid req tid :
  w_faults w = [] → ctx_WorkerID (Req_Context r) = Some (Some wid) → worker_exists (w_db w) wid = true →
  json_Decode (A := submitRequest) (Req_Body r) = (req, None) →
  Req_Header r "X-HMAC-SHA256" = SO_HMACSha256 req → uuid_Parse (SO_TaskID req) = Some tid →
  (∀ u l, w_uuids w = u :: l → ∀ o, o ∈ db_outputs (w_db w) → Out_ID o ≠ u) → w_uuids w ≠ [] →
  Resp_Status (Submit r w).1 = StatusAccepted.
Proof.
  intros Hf Hw Hex Hj Hsig Hid Hfresh Hne.
  unfold Submit, WorkerIDFromContext, mbind, M_bind, mret, M_ret, time_Now.
  rewrite Hw, Hj, Hsig, String.eqb_refl. cbv beta iota delta [negb]. rewrite Hid.
  unfold new_uuid. destruct (w_uuids w) as [|u l] eqn:Eu; [done|]. cbv zeta.
  unfold CreateOutput. rewrite pg_exec_nofault by done. simpl. rewrite Hex. simpl.
  destruct (existsb _ _) eqn:Ee.
  - apply existsb_exists in Ee as (o & Ho & E). boolify. exfalso.
    eapply (Hfresh u l); [done|by apply list_elem_of_In|done].
  - by destruct (Award _ _ _ _ _ _).
Qed.

Lemma GetOutput_inv id w r w' :
  GetOutput id w = (r, w') →
  w_db w' = w_db w ∧ w_now w' = w_now w ∧
  ∀ o, r = Ok o → o ∈ db_outputs (w_db w) ∧ Out_ID o = id.
Proof.
  intros H. apply pg_query_inv in H as (Hd & _ & Hn & Hres). split_and!; try done.
  intros o ->. destruct Hres as [Hres|]; [|done].
  destruct (sql_any _ _) eqn:E; simplify_eq. apply sql_any_Some in E as [? Hid]. by boolify.
Qed.

Lemma UpdateOutputReview_inv id st rv w r w' :
  UpdateOutputReview id st rv w = (r, w') →
  w_now w' = w_now w ∧
  (is_ok r = false ∧ w_db w' = w_db w ∨
   w_db w' = set_outputs (map (λ o, if Out_ID o =? id then output_set_review (w_now w) st rv o else o)
                            (db_outputs (w_db w))) (w_db w)).
Proof.
  intros H. apply pg_exec_effect in H as (_ & Hn & [(e & -> & Hd)|(a & d & Hf & Hd & _)]);
    split_and!; auto; right. simpl in Hf. repeat case_match; simplify_eq. done.
Qed.

(** The points a review decision is worth. *)
Definition review_value (status : string) : Z :=
  if String.eqb status "approved" then 20 else if String.eqb status "rejected" then -10 else 0.

Lemma review_points_inv st wid org id w u w' :
  review_points st wid org id w = (u, w') → ledger_only (w_db w) (w_db w') wid (review_value st).
Proof.
  unfold review_points, review_value, mbind, M_bind, mret, M_ret.
  destruct (String.eqb st "approved").
  { destruct (Award _ _ _ _ _ w) as [r1 w1] eqn:E. apply Award_inv in E as [_ H].
    intros [= <- <-]. by eapply ledger_append_only. }
  destruct (String.eqb st "rejected").
  { destruct (Deduct _ _ _ _ _ w) as [r1 w1] eqn:E.
    apply Deduct_inv in E as [_ H]; [|by unfold in_i64; split..].
    intros [= <- <-]. by eapply ledger_append_only. }
  intros [= <- <-]. by left.
Qed.

(** Whatever fails: a review answers 204 only when it recorded the decision, which it
    does only for an output whose task belongs to the caller's org unit and for one of the
    three decisions; it names the caller's key as reviewer, and the submitting worker then
    gets 20 points for an approval, loses 10 for a rejection, or nothing.  The state the
    output was in does not matter: a second approval pays again.  Any other answer leaves
    the database unchanged, except a 500 after the reply of the UPDATE was lost: then the
    decision is recorded and no points move. *)
Lemma Review_records r w resp w' :
  Review r w = (resp, w') →
  (Resp_Status resp ≠ StatusNoContent ∧ w_db w' = w_db w) ∨
  ((Resp_Status resp = StatusNoContent ∨ Resp_Status resp = StatusInternalServerError) ∧ ∃ o t key st,
     o ∈ db_outputs (w_db w) ∧ Some (Out_ID o) = uuid_Parse (URLParam r "id") ∧
     t ∈ db_tasks (w_db w) ∧ Task_ID t = Out_TaskID o ∧
     Some (Task_OrgUnitID t) = ctx_OrgUnitID (Req_Context r) ∧
     ctx_APIKeyID (Req_Context r) = Some key ∧ st ∈ validStatuses ∧
     ledger_only
       (set_outputs (map (λ o', if Out_ID o' =? Out_ID o then output_set_review (w_now w) st key o' else o')
                       (db_outputs (w_db w))) (w_db w))
       (w_db w') (Out_WorkerID o) (review_value st)).
Proof.
  unfold Review, OrgUnitIDFromContext, APIKeyIDFromContext, mbind, M_bind, mret, M_ret.
  destruct (ctx_OrgUnitID _) as [org|]; [|by intros [= <- <-]; left].
  destruct (ctx_APIKeyID _) as [key|]; [|by intros [= <- <-]; left].
  destruct (key =? uuid_Nil); [by intros [= <- <-]; left|].
  destruct (uuid_Parse _) as [id|]; [|by intros [= <- <-]; left].
  destruct (json_Decode _) as [req [e|]]; [by intros [= <- <-]; left|].
  destruct (existsb _ validStatuses) eqn:Ev; [|by intros [= <- <-]; left].
  cbv beta iota delta [negb].
  destruct (GetOutput id w) as [[o|e] w1] eqn:E1; apply GetOutput_inv in E1 as (Hd1 & Hn1 & Ho);
    [|by intros [= <- <-]; left].
  destruct (Ho o eq_refl) as [Hin Hid].
  destruct (GetTask (Out_TaskID o) w1) as [rt w2] eqn:E2.
  apply pg_query_inv in E2 as (Hd2 & _ & Hn2 & Ht).
  destruct rt as [t|e]; [|intros [= <- <-]; left; split; [done|congruence]].
  assert (t ∈ db_tasks (w_db w) ∧ Task_ID t = Out_TaskID o) as [Htin Htid].
  { destruct Ht as [Ht|]; [|done]. rewrite Hd1 in Ht. destruct (sql_any _ _) eqn:Ea; simplify_eq.
    apply sql_any_Some in Ea as [? Hb]. unfold task_by_id in Hb. by boolify. }
  destruct (Z.eqb_spec (Task_OrgUnitID t) org) as [Horg|];
    [|intros [= <- <-]; left; split; [done|congruence]]. cbv beta iota delta [negb].
  destruct (UpdateOutputReview id _ key w2) as [r3 w3] eqn:E3.
  apply UpdateOutputReview_inv in E3 as (_ & Hc). rewrite Hd2, Hd1, Hn2, Hn1 in Hc.
  destruct Hc as [[? Hd3]|Hd3].
  { destruct r3; [done|]. intros [= <- <-]. left. split; [done|congruence]. }
  intros H. right.
  assert ((Resp_Status resp = StatusNoContent ∨ Resp_Status resp = StatusInternalServerError) ∧
    ledger_only (w_db w3) (w_db w') (Out_WorkerID o) (review_value (RV_ReviewStatus req))) as (Hst & Hl).
  { destruct r3 as [u|e]; [|injection H as <- <-; split; [auto|by left]].
    destruct (review_points _ _ _ _ w3) as [u4 w4] eqn:E4. apply review_points_inv in E4.
    injection H as <- <-. auto. }
  split; [done|]. exists o, t, key, (RV_ReviewStatus req). rewrite Hid, Horg. split_and!; try done.
  - apply existsb_exists in Ev as (x & Hx & ->%String.eqb_eq). by apply list_elem_of_In.
  - by rewrite <-Hd3.
Qed.
End output_handler.
