(* ===== verification/AdminHandlers.v ===== *)
(** * internal/api/handlers: orgs.go, audit.go, browniepoints.go, health.go and dashboard.go

    The org unit, audit, leaderboard and health endpoints, and the dashboard snapshot.
    [ParseRFC3339] is [time.Parse(time.RFC3339, s)] of the standard library, left abstract:
    the source only compares the instants it returns. *)
From S2P Require Import Prelude Sql GoStd Float64 Domain World RedisStore PgStore Http Middleware.
From S2P Require Import TaskHandler.
From Stdlib Require Import Ascii.

#[local] Open Scope string_scope.
#[local] Open Scope Z_scope.

Class TimeParse := ParseRFC3339 : string → option Z.

(** [err.Error()] *)
Class ErrorText := error_Error : error → string.

Record createOrgRequest := MkCreateOrgRequest {
  CO_Name : string;
  CO_PlanTier : string;
}.

(** The JSON object that encoding/json makes of an OrgPolicy. *)
Definition json_int (z : Z) : json := JNum (spec_of_int z).
Definition json_slice {A} (f : A → json) (s : slice A) : json :=
  match s with None => JNull | Some l => JArr (map f l) end.

Definition window_json (tw : TimeWindow) : json :=
  JObj [("day_of_week", json_slice json_int (TW_DayOfWeek tw)); ("start_hour", json_int (TW_StartHour tw));
        ("end_hour", json_int (TW_EndHour tw)); ("timezone", JStr (TW_Timezone tw))].

Definition policy_json (p : OrgPolicy) : gmap string json :=
  list_to_map
    [("execution_windows", json_slice window_json (OP_ExecutionWindows p));
     ("max_concurrent_jobs", json_int (OP_MaxConcurrentJobs p));
     ("allowed_agents", json_slice JStr (OP_AllowedAgents p));
     ("auto_merge", JBool (OP_AutoMerge p)); ("require_review", JBool (OP_RequireReview p));
     ("max_retries", json_int (OP_MaxRetries p))].

Section admin_handlers.
Context {R : Type} `{RD : Redis R} `{UT : UUIDText} `{TP : TimeParse} `{ET : ErrorText}.
Context `{JO : JSONDecode createOrgRequest} `{JP : JSONDecode OrgPolicy}.
Implicit Types (w : world R).

(** ** orgs.go *)

Definition OrgCreate : Handler R := λ r,
  let '(req, err) := json_Decode (A := createOrgRequest) (Req_Body r) in
  match err with
  | Some _ => mret (http_Error "invalid JSON" StatusBadRequest)
  | None =>
      if String.eqb (CO_Name req) "" then mret (http_Error "name is required" StatusBadRequest)
      else
        let planTier := if String.eqb (CO_PlanTier req) "" then "free" else CO_PlanTier req in
        now ← time_Now;
        id ← new_uuid;
        let org := MkOrgUnit id (CO_Name req) planTier ∅ now now in
        res ← CreateOrg org;
        match res with
        | Err _ => mret (http_Error "internal error" StatusInternalServerError)
        | Ok _ => mret (MkResponse StatusCreated json_header (PJSON (VOrg org)))
        end
  end.

Definition OrgGet : Handler R := λ r,
  match uuid_Parse (URLParam r "id") with
  | None => mret (http_Error "invalid org id" StatusBadRequest)
  | Some id =>
      res ← GetOrg id;
      match res with
      | Err _ => mret (http_Error "not found" StatusNotFound)
      | Ok org => mret (MkResponse StatusOK json_header (PJSON (VOrg org)))
      end
  end.

Definition OrgList : Handler R := λ r,
  res ← ListOrgs;
  match res with
  | Err _ => mret (http_Error "internal error" StatusInternalServerError)
  | Ok orgs => mret (MkResponse StatusOK json_header (PJSON (VOrgs orgs)))
  end.

Definition OrgUpdatePolicy : Handler R := λ r,
  match uuid_Parse (URLParam r "id") with
  | None => mret (http_Error "invalid org id" StatusBadRequest)
  | Some id =>
      let '(policy, err) := json_Decode (A := OrgPolicy) (Req_Body r) in
      match err with
      | Some _ => mret (http_Error "invalid JSON" StatusBadRequest)
      | None =>
          res ← UpdateOrgPolicy id (policy_json policy);
          match res with
          | Err _ => mret (http_Error "internal error" StatusInternalServerError)
          | Ok _ => mret (writeHeader StatusNoContent)
          end
      end
  end.

(** ** audit.go *)

Definition query_time (s : string) (dflt : Z) : Z :=
  if String.eqb s "" then dflt else match ParseRFC3339 s with Some t => t | None => dflt end.

Definition AuditList : Handler R := λ r,
  match OrgUnitIDFromContext (Req_Context r) with
  | None => mret (http_Error "unauthenticated" StatusUnauthorized)
  | Some orgUnitID =>
      now ← time_Now;
      let from := query_time (Req_Query r "from") (now - 24 * Hour) in
      let to := query_time (Req_Query r "to") now in
      let limit := query_int (Req_Query r "limit") 1 (Some 1000) 100 in
      let offset := query_int (Req_Query r "offset") 0 None 0 in
      res ← QueryAuditLog orgUnitID from to limit offset;
      match res with
      | Err _ => mret (http_Error "internal error" StatusInternalServerError)
      | Ok events => mret (MkResponse StatusOK json_header (PJSON (VAudits events)))
      end
  end.

(** ** browniepoints.go *)

Definition Leaderboard : Handler R := λ r,
  match OrgUnitIDFromContext (Req_Context r) with
  | None => mret (http_Error "unauthenticated" StatusUnauthorized)
  | Some orgUnitID =>
      let limit := query_int (Req_Query r "limit") 1 (Some 100) 10 in
      res ← GetLeaderboard orgUnitID limit;
      match res with
      | Err _ => mret (http_Error "internal error" StatusInternalServerError)
      | Ok entries => mret (MkResponse StatusOK json_header (PJSON (VLeaders entries)))
      end
  end.

(** ** health.go *)

(** The Ping of the Redis store. *)
Definition RedisPing : M (world R) (result unit) := redis_do (λ _ r, (tt, r)).

Definition Liveness : Handler R := λ r, mret (writeJSON StatusOK (VObj [("status", VStr "ok")])).

Definition check_detail (res : result unit) : string :=
  match res with Ok _ => "ok" | Err e => "unhealthy: " ++ error_Error e end.

Definition Readiness : Handler R := λ r,
  pg ← Ping;
  rd ← RedisPing;
  now ← time_Now;
  let allOK := is_ok pg && is_ok rd in
  let status := if allOK then "ok" else "degraded" in
  let code := if allOK then StatusOK else StatusServiceUnavailable in
  mret (writeJSON code
    (VObj [("status", VStr status);
           ("checks", VObj [("postgres", VStr (check_detail pg)); ("redis", VStr (check_detail rd))]);
           ("time", VTime now)])).

(** ** dashboard.go *)

Record dashboardSnapshot := MkSnapshot {
  Snap_GeneratedAt : Z;
  Snap_ActiveWorkers : list Worker;
  Snap_QueuedTasks : list Task;
  Snap_RunningTasks : list Task;
  Snap_RecentCompleted : list Task;
  Snap_TopBrownieEarners : list LeaderboardEntry;
  Snap_RecentSecurityEvents : list AuditEvent;
}.

(** A query whose failure leaves its field of the snapshot empty. *)
Definition or_empty {A} (res : result (list A)) : list A := match res with Ok l => l | Err _ => [] end.

Definition active_worker (wk : Worker) : bool :=
  String.eqb (Worker_State wk) WorkerStateIdle || String.eqb (Worker_State wk) WorkerStateBusy.
Definition queued_task (t : Task) : bool := String.eqb (Task_State t) TaskStateQueued.
Definition running_task (t : Task) : bool :=
  String.eqb (Task_State t) TaskStateRunning || String.eqb (Task_State t) TaskStateAssigned.
Definition finished_task (t : Task) : bool :=
  String.eqb (Task_State t) TaskStateCompleted || String.eqb (Task_State t) TaskStateFailed.
Definition security_event (ev : AuditEvent) : bool :=
  String.eqb (Audit_Action ev) "auth_failed" || String.eqb (Audit_ResourceType ev) "api_key".

(** The queries, which the source runs in goroutines that fill different fields, one after
    the other. *)
Definition build_snapshot (orgID : uuid) : M (world R) dashboardSnapshot :=
  now ← time_Now;
  workers ← ListWorkers orgID;
  queued ← ListTasksByOrg orgID 50 0;
  running ← ListTasksByOrg orgID 50 0;
  completed ← ListTasksByOrg orgID 20 0;
  entries ← GetLeaderboard orgID 10;
  events ← QueryAuditLog orgID (now - 24 * Hour) now 20 0;
  mret (MkSnapshot now
    (List.filter active_worker (or_empty workers))
    (List.filter queued_task (or_empty queued))
    (List.filter running_task (or_empty running))
    (List.filter finished_task (or_empty completed))
    (or_empty entries)
    (List.filter security_event (or_empty events))).

Definition snapshot_value (s : dashboardSnapshot) : pval :=
  VObj [("generated_at", VTime (Snap_GeneratedAt s)); ("active_workers", VWorkers (Snap_ActiveWorkers s));
        ("queued_tasks", VTasks (Snap_QueuedTasks s)); ("running_tasks", VTasks (Snap_RunningTasks s));
        ("recent_completed", VTasks (Snap_RecentCompleted s));
        ("top_brownie_earners", VLeaders (Snap_TopBrownieEarners s));
        ("recent_security_events", VAudits (Snap_RecentSecurityEvents s))].

Definition Snapshot : Handler R := λ r,
  match OrgUnitIDFromContext (Req_Context r) with
  | None => mret (writeError StatusUnauthorized "missing org context")
  | Some orgID =>
      snap ← build_snapshot orgID;
      mret (writeJSON StatusOK (snapshot_value snap))
  end.

(** ** Facts *)

Lemma CreateOrg_inv o w r w' :
  CreateOrg o w = (r, w') →
  (is_ok r = false ∧ w_db w' = w_db w) ∨
  (org_exists (w_db w) (Org_ID o) = false ∧
   (∀ o', o' ∈ db_orgs (w_db w) → Org_Name o' ≠ Org_Name o) ∧
   w_db w' = set_orgs (db_orgs (w_db w) ++ [o])%list (w_db w)).
Proof.
  intros H. apply pg_exec_effect in H as (_ & Hn & [(e & -> & Hd)|(a & d & Hf & Hd & _)]);
    [by left|right]. simpl in Hf. repeat case_match; simplify_eq; boolify. split_and!; try done.
  intros o' Hin E. match goal with H : existsb _ _ = false |- _ => apply not_true_iff_false in H; apply H end.
  apply existsb_exists. exists o'. split; [by apply list_elem_of_In|]. by apply String.eqb_eq.
Qed.

(** Whatever fails: creating an org unit answers 201 only when it added one row, with
    the plan free unless one is named and an empty policy, and org names and ids stay
    unique.  Any other answer leaves the database unchanged, except a 500 after the reply
    of the INSERT was lost: then the row is there. *)
Lemma OrgCreate_unique r w resp w' :
  NoDup (map Org_Name (db_orgs (w_db w))) → NoDup (map Org_ID (db_orgs (w_db w))) →
  OrgCreate r w = (resp, w') →
  NoDup (map Org_Name (db_orgs (w_db w'))) ∧ NoDup (map Org_ID (db_orgs (w_db w'))) ∧
  ((Resp_Status resp ≠ StatusCreated ∧ w_db w' = w_db w) ∨
   ((Resp_Status resp = StatusCreated ∨ Resp_Status resp = StatusInternalServerError) ∧ ∃ o,
      (Resp_Status resp = StatusCreated → Resp_Body resp = PJSON (VOrg o)) ∧
      Org_Name o ≠ "" ∧ Org_Policy o = ∅ ∧ Org_PlanTier o ≠ "" ∧
      w_db w' = set_orgs (db_orgs (w_db w) ++ [o])%list (w_db w))).
Proof.
  intros Hname Hid. unfold OrgCreate, mbind, M_bind, mret, M_ret, time_Now.
  destruct (json_Decode _) as [req [e|]]; [by intros [= <- <-]; auto|].
  destruct (String.eqb_spec (CO_Name req) ""); [by intros [= <- <-]; auto|]. cbv zeta.
  destruct (new_uuid w) as [id w1] eqn:E1. apply new_uuid_frame in E1 as (Hd1 & _ & Hn1 & _).
  set (o := MkOrgUnit _ _ _ _ _ _). destruct (CreateOrg o w1) as [r2 w2] eqn:E2.
  apply CreateOrg_inv in E2. rewrite Hd1 in E2.
  destruct E2 as [[Hok Hd2]|(Hne & Hnn & Hd2)].
  - destruct r2; [done|]. intros [= <- <-]. rewrite Hd2. auto.
  - intros H. assert (w' = w2) as -> by by destruct r2; injection H. rewrite Hd2.
    cbn [db_orgs set_orgs]. rewrite !map_app.
    split; [|split; [|right; split; [destruct r2; injection H as <-; auto|exists o]]].
    + apply NoDup_app. split_and!; [done| |apply NoDup_singleton].
      intros x (o' & -> & Ho)%elem_of_bmap. simpl. rewrite list_elem_of_singleton. by apply Hnn.
    + apply NoDup_app. split_and!; [done| |apply NoDup_singleton].
      intros x (o' & -> & Ho)%elem_of_bmap. simpl. rewrite list_elem_of_singleton. intros E.
      apply not_true_iff_false in Hne. apply Hne, existsb_exists. exists o'.
      split; [by apply list_elem_of_In|]. by apply Z.eqb_eq.
    + split_and!; try done; [intros Hs; by destruct r2; injection H as <-|].
      simpl. by destruct (String.eqb_spec (CO_PlanTier req) "").
Qed.

(** An audit listing is a page of at most 1000 events of the caller's own org unit, newest
    first; when no statement fails it succeeds whatever the query parameters are, and
    reading changes nothing. *)
Lemma AuditList_tenant r w resp w' org :
  ctx_OrgUnitID (Req_Context r) = Some org → AuditList r w = (resp, w') →
  w_db w' = w_db w ∧ w_redis w' = w_redis w ∧ (w_faults w = [] → Resp_Status resp = StatusOK) ∧
  (Resp_Status resp = StatusOK → ∃ evs, Resp_Body resp = PJSON (VAudits evs) ∧
     (length evs <= 1000)%nat ∧
     (∀ ev, ev ∈ evs → ev ∈ db_audit (w_db w) ∧ Audit_OrgUnitID ev = org) ∧
     StronglySorted (λ a b, Audit_OccurredAt b ≤ Audit_OccurredAt a) evs).
Proof.
  intros Ho. unfold AuditList, OrgUnitIDFromContext, mbind, M_bind, mret, M_ret, time_Now. rewrite Ho.
  destruct (query_int_range (Req_Query r "limit") 1 (Some 1000) 100) as [Hl1 Hl2];
    [lia|by intros ? [= <-]|]. specialize (Hl2 1000 eq_refl).
  destruct (query_int_range (Req_Query r "offset") 0 None 0) as [Ho1 _]; [lia|done|].
  set (limit := query_int _ 1 _ _) in *. set (offset := query_int _ 0 _ _) in *. cbv zeta.
  unfold QueryAuditLog.
  match goal with |- context [pg_query ?f w] =>
    pose proof (pg_query_nofault f w) as Hnf; destruct (pg_query f w) as [res w1] eqn:E end.
  apply pg_query_inv in E as (Hd & Hr & _ & Hres). rewrite sql_page_ok in Hnf, Hres by lia.
  destruct res as [evs|e]; intros [= <- <-]; split_and!; try done.
  - intros _. destruct Hres as [Hres|]; [|done]. injection Hres as ->.
    eexists. split; [reflexivity|]. split; [rewrite length_take; lia|]. split.
    + intros ev Hev%subseteq_take%subseteq_drop.
      apply elem_of_sql_order_by, elem_of_sql_where in Hev as [? ?]. by boolify.
    + apply StronglySorted_page. eapply StronglySorted_weaken; [|apply sql_order_by_sorted].
      * intros a b. unfold occurred_desc. by rewrite Z.leb_le.
      * intros a b. unfold occurred_desc. rewrite !Z.leb_le. lia.
      * intros a b c. unfold occurred_desc. rewrite !Z.leb_le. lia.
  - intros Hf. specialize (Hnf Hf). congruence.
Qed.

Lemma Readiness_frame r w :
  w_db (Readiness r w).2 = w_db w ∧ w_redis (Readiness r w).2 = w_redis w.
Proof.
  unfold Readiness, mbind, M_bind, mret, M_ret, time_Now.
  destruct (Ping w) as [r1 w1] eqn:E1. apply pg_query_inv in E1 as (Hd1 & Hr1 & _).
  destruct (RedisPing w1) as [r2 w2] eqn:E2. apply redis_do_inv in E2 as (Hd2 & _ & Hr2).
  simpl. split; [congruence|].
  destruct Hr2 as [(a & rd & _ & [= _ <-] & ->)|[_ [->| ->]]]; done.
Qed.

(** The service reports ready exactly when both the database and Redis answer, and
    degraded (503) otherwise; the probe changes nothing. *)
Lemma Readiness_both r w :
  let '(resp, w') := Readiness r w in
  (Resp_Status resp = StatusOK ↔ is_ok (Ping w).1 = true ∧ is_ok (RedisPing (Ping w).2).1 = true) ∧
  (Resp_Status resp = StatusOK ∨ Resp_Status resp = StatusServiceUnavailable) ∧
  w_db w' = w_db w ∧ w_redis w' = w_redis w.
Proof.
  pose proof (Readiness_frame r w) as [Hd Hr]. destruct (Readiness r w) as [resp w'] eqn:E.
  split_and!; try done; unfold Readiness, mbind, M_bind, mret, M_ret, time_Now in E;
    destruct (Ping w) as [r1 w1]; simpl; destruct (RedisPing w1) as [r2 w2]; simpl;
    injection E as <- _; destruct (is_ok r1), (is_ok r2); simpl; auto;
    (split; [done | by intros [? ?]]).
Qed.

(** What a snapshot may show to an org unit. *)
Record snapshot_of (org : uuid) (d : pgdb) (s : dashboardSnapshot) : Prop := {
  snap_workers : ∀ wk, wk ∈ Snap_ActiveWorkers s → wk ∈ db_workers d ∧ Worker_OrgUnitID wk = org;
  snap_tasks : ∀ t, t ∈ Snap_QueuedTasks s ∨ t ∈ Snap_RunningTasks s ∨ t ∈ Snap_RecentCompleted s →
    t ∈ db_tasks d ∧ Task_OrgUnitID t = org;
  snap_earners : ∀ e, e ∈ Snap_TopBrownieEarners s → LB_OrgUnitID e = org;
  snap_events : ∀ ev, ev ∈ Snap_RecentSecurityEvents s → ev ∈ db_audit d ∧ Audit_OrgUnitID ev = org;
}.

Lemma ListTasksByOrg_inv org l o w r w' :
  ListTasksByOrg org l o w = (r, w') →
  w_db w' = w_db w ∧ w_redis w' = w_redis w ∧ w_now w' = w_now w ∧
  ∀ t, t ∈ or_empty r → t ∈ db_tasks (w_db w) ∧ Task_OrgUnitID t = org.
Proof.
  intros (Hd & Hr & Hn & Hres)%pg_query_inv. split_and!; try done.
  destruct r as [ts|e]; [|by intros ? ?%elem_of_nil]. destruct Hres as [Hres|]; [|done].
  intros t Ht. apply eq_sym, sql_page_elem in Hres as [_ Hin]. apply Hin in Ht.
  apply elem_of_sql_order_by, elem_of_sql_where in Ht as [? ?]. by boolify.
Qed.

Lemma ListWorkers_inv org w r w' :
  ListWorkers org w = (r, w') →
  w_db w' = w_db w ∧ w_redis w' = w_redis w ∧ w_now w' = w_now w ∧
  ∀ wk, wk ∈ or_empty r → wk ∈ db_workers (w_db w) ∧ Worker_OrgUnitID wk = org.
Proof.
  intros (Hd & Hr & Hn & Hres)%pg_query_inv. split_and!; try done.
  destruct r as [ws|e]; [|by intros ? ?%elem_of_nil]. destruct Hres as [[= ->]|]; [|done].
  intros wk Hwk. apply elem_of_sql_order_by, elem_of_sql_where in Hwk as [? ?]. by boolify.
Qed.

Lemma GetLeaderboard_inv org l w r w' :
  GetLeaderboard org l w = (r, w') →
  w_db w' = w_db w ∧ w_redis w' = w_redis w ∧ w_now w' = w_now w ∧
  ∀ e, e ∈ or_empty r → LB_OrgUnitID e = org.
Proof.
  intros (Hd & Hr & Hn & Hres)%pg_query_inv. split_and!; try done.
  destruct r as [es|e]; [|by intros ? ?%elem_of_nil]. destruct Hres as [Hres|]; [|done].
  intros e He. apply eq_sym, sql_page_elem in Hres as [_ Hin]. apply Hin in He.
  apply elem_of_sql_order_by, elem_of_sql_where in He as [_ ?]. by boolify.
Qed.

Lemma QueryAuditLog_inv org f t l o w r w' :
  QueryAuditLog org f t l o w = (r, w') →
  w_db w' = w_db w ∧ w_redis w' = w_redis w ∧ w_now w' = w_now w ∧
  ∀ ev, ev ∈ or_empty r → ev ∈ db_audit (w_db w) ∧ Audit_OrgUnitID ev = org.
Proof.
  intros (Hd & Hr & Hn & Hres)%pg_query_inv. split_and!; try done.
  destruct r as [es|e]; [|by intros ? ?%elem_of_nil]. destruct Hres as [Hres|]; [|done].
  intros e He. apply eq_sym, sql_page_elem in Hres as [_ Hin]. apply Hin in He.
  apply elem_of_sql_order_by, elem_of_sql_where in He as [? ?]. by boolify.
Qed.

(** The dashboard snapshot always answers 200: a failing query only empties its part.
    It shows workers, tasks, points and security events of the caller's org unit only,
    changes nothing, and when no statement fails its queued tasks are exactly the queued
    ones among the 50 newest of the org unit, so that an older queued task is missing. *)
Lemma Snapshot_tenant r w org :
  ctx_OrgUnitID (Req_Context r) = Some org →
  ∃ s w', Snapshot r w = (writeJSON StatusOK (snapshot_value s), w') ∧
    w_db w' = w_db w ∧ w_redis w' = w_redis w ∧ snapshot_of org (w_db w) s ∧
    (w_faults w = [] → Snap_QueuedTasks s =
       List.filter queued_task (take 50 (sql_order_by queued_desc
         (sql_where (λ t, Task_OrgUnitID t =? org) (db_tasks (w_db w)))))).
Proof.
  intros Ho. unfold Snapshot, OrgUnitIDFromContext, build_snapshot, mbind, M_bind, mret, M_ret, time_Now.
  rewrite Ho.
  destruct (ListWorkers org w) as [r1 w1] eqn:E1.
  assert (w_faults w = [] → w_faults w1 = []) as Hf1.
  { intros Hf. unfold ListWorkers in E1. rewrite pg_query_nofault in E1 by done. by injection E1 as _ <-. }
  apply ListWorkers_inv in E1 as (Hd1 & Hr1 & Hn1 & H1).
  destruct (ListTasksByOrg org 50 0 w1) as [r2 w2] eqn:E2. pose proof E2 as E2'.
  apply ListTasksByOrg_inv in E2 as (Hd2 & Hr2 & Hn2 & H2).
  destruct (ListTasksByOrg org 50 0 w2) as [r3 w3] eqn:E3.
  apply ListTasksByOrg_inv in E3 as (Hd3 & Hr3 & Hn3 & H3).
  destruct (ListTasksByOrg org 20 0 w3) as [r4 w4] eqn:E4.
  apply ListTasksByOrg_inv in E4 as (Hd4 & Hr4 & Hn4 & H4).
  destruct (GetLeaderboard org 10 w4) as [r5 w5] eqn:E5.
  apply GetLeaderboard_inv in E5 as (Hd5 & Hr5 & Hn5 & H5).
  destruct (QueryAuditLog org _ _ _ _ w5) as [r6 w6] eqn:E6.
  apply QueryAuditLog_inv in E6 as (Hd6 & Hr6 & Hn6 & H6).
  rewrite Hd5, Hd4, Hd3, Hd2, Hd1 in H6. rewrite Hd3, Hd2, Hd1 in H4. rewrite Hd2, Hd1 in H3. rewrite Hd1 in H2.
  eexists _, w6. split; [reflexivity|]. split; [congruence|]. split; [congruence|]. split.
  - constructor; simpl.
    + intros wk [? _]%elem_of_bfilter. auto.
    + intros t [[? _]%elem_of_bfilter|[[? _]%elem_of_bfilter|[? _]%elem_of_bfilter]]; auto.
    + auto.
    + intros ev [? _]%elem_of_bfilter. auto.
  - intros Hf. simpl. unfold ListTasksByOrg in E2'. rewrite pg_query_nofault in E2' by auto.
    rewrite sql_page_ok in E2' by lia. injection E2' as <- _. by rewrite Hd1.
Qed.
End admin_handlers.
