(* ===== verification/Fork.v ===== *)
(** * Goroutines that fill the fields of one value

    The pattern of the two dashboard snapshots: each goroutine makes a query, then takes the
    mutex and stores what it got; sync.WaitGroup waits for all of them.  A state of the run
    is the world, the shared value, what has been noted besides (errors, in the order in
    which they came), and where each goroutine is.  Steps interleave freely, and the world
    may change in between.  A query may hang for as long as its answer does not come, and
    ends with an error once its context is over.

    [fork_join]: whatever the schedule, the value is the one assembled from what the queries
    returned at some moment of the run.  [fork_ends] and [fork_cut_short]: a goroutine is
    left behind only by a query that hangs, and none after the end of the context. *)
From S2P Require Import Prelude.

#[local] Open Scope Z_scope.

Section fork.
Context {W A E R : Type}.

(** The world changes without the goroutines. *)
Variable env : W → W → Prop.

(** The answer for goroutine [i] has not come yet; and what a query returns when its context
    is over ([None]: it is not). *)
Variable hangs : nat → W → bool.
Variable cut : W → option R.

(** Goroutine [i] stores the result [r] of its query, and notes it. *)
Variable commit : nat → R → A → A.
Variable note : R → E → E.

Inductive goroutine :=
  | GQuery (q : M W R)
  | GCommit (r : R)        (* the query has returned *)
  | GDone (r : R).         (* wg.Done *)

Record fork := MkFork {
  fk_world : W;
  fk_value : A;
  fk_note : E;
  fk_threads : list goroutine;
}.

Inductive fork_step : fork → fork → Prop :=
  | fork_query i q w a e ts :
      ts !! i = Some (GQuery q) → hangs i w = false →
      fork_step (MkFork w a e ts) (MkFork (q w).2 a e (<[i := GCommit (q w).1]> ts))
  | fork_cut i q r w a e ts :
      ts !! i = Some (GQuery q) → cut w = Some r →
      fork_step (MkFork w a e ts) (MkFork w a e (<[i := GCommit r]> ts))
  | fork_commit i r w a e ts :
      ts !! i = Some (GCommit r) →
      fork_step (MkFork w a e ts) (MkFork w (commit i r a) (note r e) (<[i := GDone r]> ts)).

(** A run: the worlds that it has gone through and the number of steps of goroutines. *)
Inductive fork_run (s : fork) : list W → nat → fork → Prop :=
  | fork_nil : fork_run s [fk_world s] 0 s
  | fork_go ws n s1 s2 : fork_run s ws n s1 → fork_step s1 s2 → fork_run s (fk_world s2 :: ws) (S n) s2
  | fork_env ws n s1 w : fork_run s ws n s1 → env (fk_world s1) w →
      fork_run s (w :: ws) n (MkFork w (fk_value s1) (fk_note s1) (fk_threads s1)).

Definition result_of (t : goroutine) : option R := match t with GDone r => Some r | _ => None end.
Definition is_done (t : goroutine) : bool := match t with GDone _ => true | _ => false end.
Definition fork_done (s : fork) : bool := forallb is_done (fk_threads s).

(** The goroutines as they start. *)
Definition fork_start (w : W) (a : A) (e : E) (qs : list (M W R)) : fork := MkFork w a e (map GQuery qs).

(** ** Every run ends *)

Definition steps_left (t : goroutine) : nat := match t with GQuery _ => 2 | GCommit _ => 1 | GDone _ => 0 end.
Definition work (ts : list goroutine) : nat := sum_list_with steps_left ts.

Lemma work_insert ts i t t' :
  ts !! i = Some t → (work (<[i := t']> ts) + steps_left t = work ts + steps_left t')%nat.
Proof.
  revert i. induction ts as [|x ts IH]; intros [|i] H; simpl in *; try done.
  - injection H as ->. unfold work. simpl. lia.
  - specialize (IH i H). unfold work in *. simpl. lia.
Qed.

Lemma fork_step_work s s' : fork_step s s' → (S (work (fk_threads s')) = work (fk_threads s))%nat.
Proof.
  intros H. inversion H as [i q w a e ts Ht _|i q r w a e ts Ht _|i r w a e ts Ht]; subst; cbn [fk_threads];
    [pose proof (work_insert ts i _ (GCommit (q w).1) Ht)|pose proof (work_insert ts i _ (GCommit r) Ht)
    |pose proof (work_insert ts i _ (GDone r) Ht)]; simpl in *; lia.
Qed.

Lemma fork_run_work s ws n s' : fork_run s ws n s' → (n + work (fk_threads s') = work (fk_threads s))%nat.
Proof.
  induction 1 as [|ws n s1 s2 _ IH Hs|ws n s1 w _ IH _]; [done| |done]. apply fork_step_work in Hs. lia.
Qed.

(** No query hangs that nothing cuts short. *)
Definition responsive (w : W) : Prop := ∀ i, hangs i w = false ∨ is_Some (cut w).

Lemma fork_step_exists s : fork_done s = false → responsive (fk_world s) → ∃ s', fork_step s s'.
Proof.
  destruct s as [w a e ts]. unfold fork_done. cbn [fk_threads fk_world]. intros H Hh.
  assert (∃ i t, ts !! i = Some t ∧ is_done t = false) as (i & t & Ht & Hd).
  { induction ts as [|t ts IH]; [done|]. simpl in H. apply andb_false_iff in H as [H|H]; [by exists 0%nat, t|].
    destruct (IH H) as (i & t' & ? & ?). by exists (S i), t'. }
  destruct t as [q|r|r]; [| |done]; [|eexists; by econstructor].
  destruct (Hh i) as [?|[r ?]]; eexists; [by eapply fork_query|by eapply fork_cut].
Qed.

(** A run of goroutines alone makes at most two steps each, and as long as one is not done
    a step is possible, unless a query hangs. *)
Lemma fork_ends w a e qs ws n s :
  fork_run (fork_start w a e qs) ws n s →
  (n <= 2 * length qs)%nat ∧ (fork_done s = true ↔ n = 2 * length qs)%nat ∧
  (fork_done s = false → responsive (fk_world s) → ∃ s', fork_step s s').
Proof.
  intros H. apply fork_run_work in H. cbn [fork_start fk_threads] in H.
  assert (work (map GQuery qs) = 2 * length qs)%nat as E0.
  { unfold work. clear. induction qs as [|q qs IH]; [done|]. cbn [map sum_list_with length steps_left]. lia. }
  rewrite E0 in H. split; [lia|]. split; [|apply fork_step_exists].
  assert (fork_done s = true ↔ work (fk_threads s) = 0%nat) as ->; [|lia].
  unfold fork_done, work. clear. induction (fk_threads s) as [|t ts IH]; [done|].
  cbn [forallb sum_list_with]. rewrite andb_true_iff, IH. destruct t; simpl;
    (split; [intros [? ?]; first [done|lia]|intros ?; split; first [done|lia|exfalso; lia]]).
Qed.

(** Some run gets to the end. *)
Lemma fork_completes s0 ws n s :
  (∀ w, responsive w) → fork_run s0 ws n s → ∃ ws' n' s', fork_run s0 ws' n' s' ∧ fork_done s' = true.
Proof.
  intros Hh. remember (work (fk_threads s)) as k eqn:Ek. revert ws n s Ek. induction (lt_wf k) as [k _ IH]. intros ws n s -> Hr.
  destruct (fork_done s) eqn:Hd; [by exists ws, n, s|]. destruct (fork_step_exists s Hd) as [s' Hs]; [done|].
  eapply (IH (work (fk_threads s'))); [apply fork_step_work in Hs; lia|reflexivity|by eapply fork_go].
Qed.

(** Once the context is over the goroutines get done without the store. *)
Lemma cut_step s : is_Some (cut (fk_world s)) → fork_done s = false →
  ∃ s', fork_step s s' ∧ fk_world s' = fk_world s.
Proof.
  destruct s as [w a e ts]. unfold fork_done. cbn [fk_threads fk_world]. intros [r0 Hcut] H.
  assert (∃ i t, ts !! i = Some t ∧ is_done t = false) as (i & t & Ht & Hd).
  { induction ts as [|t ts IH]; [done|]. simpl in H. apply andb_false_iff in H as [H|H]; [by exists 0%nat, t|].
    destruct (IH H) as (i & t' & ? & ?). by exists (S i), t'. }
  destruct t as [q|r|r]; [| |done].
  - exists (MkFork w a e (<[i := GCommit r0]> ts)). split; [by eapply fork_cut|done].
  - exists (MkFork w (commit i r a) (note r e) (<[i := GDone r]> ts)). split; [by eapply fork_commit|done].
Qed.

Lemma fork_run_cons s s1 ws n s' : fork_step s s1 → fork_run s1 ws n s' → ∃ ws', fork_run s ws' (S n) s'.
Proof.
  intros Hs. induction 1 as [|ws n s2 s3 _ [ws' IH] H3|ws n s2 w _ [ws' IH] Hw].
  - eexists. eapply fork_go; [apply fork_nil|done].
  - eexists. by eapply fork_go.
  - eexists. by eapply fork_env.
Qed.

Lemma fork_cut_short s : is_Some (cut (fk_world s)) →
  ∃ ws s', fork_run s ws (work (fk_threads s)) s' ∧ fork_done s' = true ∧ fk_world s' = fk_world s.
Proof.
  remember (work (fk_threads s)) as k eqn:Ek. revert s Ek. induction k as [|k IH]; intros s Ek Hc.
  - exists [fk_world s], s. split; [apply fork_nil|]. split; [|done]. unfold fork_done.
    clear -Ek. unfold work in Ek. induction (fk_threads s) as [|[] ts IH]; simpl in *; [done|lia|lia|auto].
  - destruct (fork_done s) eqn:Hd.
    { exfalso. unfold fork_done in Hd. clear -Ek Hd. unfold work in Ek.
      induction (fk_threads s) as [|[] ts IH]; simpl in *; [lia|done|done|auto]. }
    destruct (cut_step s Hc Hd) as (s1 & Hs & Hw). pose proof (fork_step_work _ _ Hs) as Hwk.
    destruct (IH s1) as (ws & s' & Hr & Hd' & Hw'); [lia|by rewrite Hw|].
    destruct (fork_run_cons _ _ _ _ _ Hs Hr) as [ws' Hr']. exists ws', s'. split; [done|]. split; [done|]. by rewrite Hw'.
Qed.

(** ** What the goroutines leave *)

Variable assemble : list (option R) → A.
Hypothesis commit_assemble : ∀ ps i r, ps !! i = Some None → commit i r (assemble ps) = assemble (<[i := Some r]> ps).

(** [r] is what the query [q] returned in the world [w], or what cut it short there. *)
Definition answer (q : M W R) (w : W) (r : R) : Prop := r = (q w).1 ∨ cut w = Some r.

(** What is known of goroutine [i] with the query [q]. *)
Definition goes (ws : list W) (q : M W R) (t : goroutine) : Prop :=
  match t with
  | GQuery q' => q' = q
  | GCommit r | GDone r => ∃ w, w ∈ ws ∧ answer q w r
  end.

Record fork_inv (qs : list (M W R)) (e0 : E) (ws : list W) (s : fork) : Prop := {
  fi_world : fk_world s ∈ ws;
  fi_threads : Forall2 (goes ws) qs (fk_threads s);
  fi_value : fk_value s = assemble (map result_of (fk_threads s));
  fi_note : ∃ rs, rs ≡ₚ omap result_of (fk_threads s) ∧ fk_note s = foldr note e0 rs;
}.

Lemma goes_mono ws w q t : goes ws q t → goes (w :: ws) q t.
Proof. destruct t; simpl; [done|..]; intros (w' & ? & ?); exists w'; (split; [by right|done]). Qed.

Lemma Forall2_insert_goes ws w qs ts i q t :
  qs !! i = Some q → Forall2 (goes ws) qs ts → goes (w :: ws) q t → Forall2 (goes (w :: ws)) qs (<[i := t]> ts).
Proof.
  intros Hq Hts Ht. rewrite <-(list_insert_id qs i q Hq). apply Forall2_insert; [|done].
  eapply Forall2_impl; [exact Hts|]. intros. by apply goes_mono.
Qed.

Lemma omap_insert_done ts i r :
  ts !! i = Some (GCommit r) → omap result_of (<[i := GDone r]> ts) ≡ₚ r :: omap result_of ts.
Proof.
  revert i. induction ts as [|t ts IH]; intros [|i] H; simpl in *; try done.
  - by injection H as ->.
  - destruct (result_of t); [etransitivity; [by apply Permutation_cons; [done|apply IH]|apply Permutation_swap]|by apply IH].
Qed.

Lemma fork_inv_answer qs e0 ws i q r w w' a e ts :
  fork_inv qs e0 ws (MkFork w a e ts) → ts !! i = Some (GQuery q) → answer q w r →
  fork_inv qs e0 (w' :: ws) (MkFork w' a e (<[i := GCommit r]> ts)).
Proof.
  intros [Hw Ht Hv (rs & Hrs & Hn)] Hi Ha; cbn [fk_world fk_value fk_note fk_threads] in *.
  destruct (Forall2_lookup_r _ _ _ _ _ Ht Hi) as (q' & Hq & ->). constructor; cbn [fk_world fk_value fk_note fk_threads].
  - by left.
  - eapply Forall2_insert_goes; [done..|]. exists w. split; [by right|done].
  - rewrite Hv, list_fmap_insert. f_equal. symmetry. apply list_insert_id. by rewrite list_lookup_fmap, Hi.
  - exists rs. split; [|done]. rewrite Hrs. clear -Hi. revert i Hi. induction ts as [|t ts IH]; intros [|i] Hi; simpl in *; try done.
    + by injection Hi as ->.
    + destruct (result_of t); [apply Permutation_cons; [done|]|]; by apply IH.
Qed.

Lemma fork_inv_step qs e0 ws s s' : fork_inv qs e0 ws s → fork_step s s' → fork_inv qs e0 (fk_world s' :: ws) s'.
Proof.
  intros I Hs. inversion Hs as [i q w a e ts Hi _|i q r w a e ts Hi Hc|i r w a e ts Hi]; subst; cbn [fk_world] in *.
  - eapply fork_inv_answer; [done..|by left].
  - eapply fork_inv_answer; [done..|by right].
  - destruct I as [Hw Ht Hv (rs & Hrs & Hn)]; cbn [fk_world fk_value fk_note fk_threads] in *.
    destruct (Forall2_lookup_r _ _ _ _ _ Ht Hi) as (q' & Hq & (w' & Hw' & Ha)). constructor; cbn [fk_world fk_value fk_note fk_threads].
    + by left.
    + eapply Forall2_insert_goes; [done..|]. exists w'. split; [by right|done].
    + rewrite Hv, commit_assemble, list_fmap_insert; [done|]. by rewrite list_lookup_fmap, Hi.
    + exists (r :: rs). split; [by rewrite omap_insert_done, Hrs|by rewrite Hn].
Qed.

Lemma fork_inv_run qs w e0 ws n s :
  fork_run (fork_start w (assemble (replicate (length qs) None)) e0 qs) ws n s → fork_inv qs e0 ws s.
Proof.
  induction 1 as [|ws n s1 s2 _ IH Hs|ws n s1 w' _ IH _].
  - constructor; cbn [fork_start fk_world fk_threads fk_value fk_note].
    + by left.
    + induction qs; by constructor.
    + f_equal. induction qs as [|q qs IH]; [done|]. simpl. by rewrite <-IH.
    + exists []. split; [|done]. induction qs as [|q qs IH]; [done|]. exact IH.
  - by eapply fork_inv_step.
  - destruct IH as [Hw Ht Hv Hn]. constructor; [by left| |done|done].
    eapply Forall2_impl; [exact Ht|]. intros. by apply goes_mono.
Qed.

(** A run that is over: the value is assembled from the results, each of a query at some
    moment of the run; they were noted in some order. *)
Lemma fork_join qs w e0 ws n s :
  fork_run (fork_start w (assemble (replicate (length qs) None)) e0 qs) ws n s → fork_done s = true →
  ∃ rs order, Forall2 (λ q r, ∃ w', w' ∈ ws ∧ answer q w' r) qs rs ∧ fk_value s = assemble (map Some rs) ∧
    order ≡ₚ rs ∧ fk_note s = foldr note e0 order.
Proof.
  intros Hr Hd. apply fork_inv_run in Hr as [_ Ht Hv (order & Ho & Hn)]. exists (omap result_of (fk_threads s)), order.
  unfold fork_done in Hd. assert (map result_of (fk_threads s) = map Some (omap result_of (fk_threads s)) ∧
    Forall2 (λ q r, ∃ w', w' ∈ ws ∧ answer q w' r) qs (omap result_of (fk_threads s))) as [Hm Hf].
  { clear -Ht Hd. induction Ht as [|q t qs ts Hq Ht IH]; [by split|]. simpl in Hd. apply andb_true_iff in Hd as [Hdt Hd].
    destruct (IH Hd) as [Em Fm]. destruct t as [| |r]; try done. simpl in *. split; [by rewrite Em|]. by constructor. }
  by rewrite <-Hm.
Qed.
End fork.
