(* ===== verification/Snapshots.v ===== *)
(** * The two dashboard snapshots and their goroutines

    api/handlers/dashboard.go, whose Snapshot runs six queries at once, and
    dashboard/snapshot.go, whose Build runs seven under a deadline of 2.5 seconds.  Each
    goroutine makes one query and stores the panel under a mutex: an instance of Fork.v.  Five of the store methods that
    Build calls do not exist in store/postgres; they are parameters. *)
From S2P Require Import Prelude Sql GoStd Domain World RedisStore PgStore Http Middleware AdminHandlers Fork.

#[local] Open Scope string_scope.
#[local] Open Scope Z_scope.

(** ** Panels *)

Record TokenUsageStat := MkTokenUsageStat {
  TU_AIAgent : string;
  TU_TotalTokens : Z;
  TU_InputTokens : Z;
  TU_OutputTokens : Z;
  TU_Period : string;
}.

(** A LeaderboardEntry of package dashboard. *)
Record LeaderboardRow := MkLeaderboardRow {
  LR_WorkerID : uuid;
  LR_OrgUnitID : uuid;
  LR_TotalPoints : Z;
  LR_EventCount : Z;
  LR_LastEventAt : option Z;
}.

Record SecurityEventSummary := MkSecurityEventSummary {
  SE_OccurredAt : Z;
  SE_WorkerID : string;
  SE_Action : string;
  SE_Details : gmap string json;
}.

(** What a goroutine's query returns. *)
Inductive panel :=
  | PWorkers (l : list Worker)
  | PTasks (l : list Task)
  | PLeaders (l : list LeaderboardEntry)
  | PAudits (l : list AuditEvent)
  | PUsage (l : list TokenUsageStat)
  | PRows (l : list LeaderboardRow)
  | PSecurity (l : list SecurityEventSummary).

Definition the_workers (p : panel) : list Worker := match p with PWorkers l => l | _ => [] end.
Definition the_tasks (p : panel) : list Task := match p with PTasks l => l | _ => [] end.
Definition the_leaders (p : panel) : list LeaderboardEntry := match p with PLeaders l => l | _ => [] end.
Definition the_audits (p : panel) : list AuditEvent := match p with PAudits l => l | _ => [] end.
Definition the_usage (p : panel) : list TokenUsageStat := match p with PUsage l => l | _ => [] end.
Definition the_rows (p : panel) : list LeaderboardRow := match p with PRows l => l | _ => [] end.
Definition the_security (p : panel) : list SecurityEventSummary := match p with PSecurity l => l | _ => [] end.

(** A panel of the results so far: a query that has not returned or has failed leaves it nil. *)
Definition panel_at {A} (i : nat) (f : panel → list A) (ps : list (option (result panel))) : list A :=
  match ps !! i with
  | Some (Some (Ok p)) => f p
  | _ => []
  end.

Lemma panel_at_ne {A} i j (f : panel → list A) ps x : i ≠ j → panel_at i f (<[j := x]> ps) = panel_at i f ps.
Proof. intros H. unfold panel_at. by rewrite list_lookup_insert_ne. Qed.

Lemma panel_at_eq {A} i (f : panel → list A) ps r :
  ps !! i = Some None → panel_at i f (<[i := Some r]> ps) = match r with Ok p => f p | Err _ => [] end.
Proof.
  intros H. unfold panel_at. rewrite list_lookup_insert_eq by (by eapply lookup_lt_Some). by destruct r.
Qed.

Lemma panel_at_none {A} i (f : panel → list A) ps : ps !! i = Some None → panel_at i f ps = [].
Proof. intros H. unfold panel_at. by rewrite H. Qed.

(** Storing result [r] of goroutine [i], by cases on the fields. *)
Ltac solve_commit Hi r :=
  rewrite ?(panel_at_eq _ _ _ _ Hi), ?panel_at_ne by lia; destruct r; cbn; rewrite ?(panel_at_none _ _ _ Hi); reflexivity.

(** ** handlers/dashboard.go *)

Section handler.
Context {R : Type}.
Implicit Types (w : world R).

(** The six goroutines. *)
Definition snapshot_queries (orgID : uuid) : list (M (world R) (result panel)) :=
  [(r ← ListWorkers orgID; mret (PWorkers <$> r));
   (r ← ListTasksByOrg orgID 50 0; mret (PTasks <$> r));
   (r ← ListTasksByOrg orgID 50 0; mret (PTasks <$> r));
   (r ← ListTasksByOrg orgID 20 0; mret (PTasks <$> r));
   (r ← GetLeaderboard orgID 10; mret (PLeaders <$> r));
   (now ← time_Now; r ← QueryAuditLog orgID (now - 24 * Hour) now 20 0; mret (PAudits <$> r))].

(** What goroutine [i] stores. *)
Definition store_panel (i : nat) (r : result panel) (s : dashboardSnapshot) : dashboardSnapshot :=
  match r with
  | Err _ => s
  | Ok p =>
      match i with
      | 0%nat => MkSnapshot (Snap_GeneratedAt s) (List.filter active_worker (the_workers p)) (Snap_QueuedTasks s)
                   (Snap_RunningTasks s) (Snap_RecentCompleted s) (Snap_TopBrownieEarners s) (Snap_RecentSecurityEvents s)
      | 1%nat => MkSnapshot (Snap_GeneratedAt s) (Snap_ActiveWorkers s) (List.filter queued_task (the_tasks p))
                   (Snap_RunningTasks s) (Snap_RecentCompleted s) (Snap_TopBrownieEarners s) (Snap_RecentSecurityEvents s)
      | 2%nat => MkSnapshot (Snap_GeneratedAt s) (Snap_ActiveWorkers s) (Snap_QueuedTasks s)
                   (List.filter running_task (the_tasks p)) (Snap_RecentCompleted s) (Snap_TopBrownieEarners s) (Snap_RecentSecurityEvents s)
      | 3%nat => MkSnapshot (Snap_GeneratedAt s) (Snap_ActiveWorkers s) (Snap_QueuedTasks s) (Snap_RunningTasks s)
                   (List.filter finished_task (the_tasks p)) (Snap_TopBrownieEarners s) (Snap_RecentSecurityEvents s)
      | 4%nat => MkSnapshot (Snap_GeneratedAt s) (Snap_ActiveWorkers s) (Snap_QueuedTasks s) (Snap_RunningTasks s)
                   (Snap_RecentCompleted s) (the_leaders p) (Snap_RecentSecurityEvents s)
      | 5%nat => MkSnapshot (Snap_GeneratedAt s) (Snap_ActiveWorkers s) (Snap_QueuedTasks s) (Snap_RunningTasks s)
                   (Snap_RecentCompleted s) (Snap_TopBrownieEarners s) (List.filter security_event (the_audits p))
      | _ => s
      end
  end.

(** errs, as long as they are counted. *)
Definition count_error (r : result panel) (n : nat) : nat := if is_ok r then n else S n.

Definition assemble_snapshot (now : Z) (ps : list (option (result panel))) : dashboardSnapshot :=
  MkSnapshot now (List.filter active_worker (panel_at 0 the_workers ps)) (List.filter queued_task (panel_at 1 the_tasks ps))
    (List.filter running_task (panel_at 2 the_tasks ps)) (List.filter finished_task (panel_at 3 the_tasks ps))
    (panel_at 4 the_leaders ps) (List.filter security_event (panel_at 5 the_audits ps)).

Lemma store_panel_assemble now ps i r :
  ps !! i = Some None → store_panel i r (assemble_snapshot now ps) = assemble_snapshot now (<[i := Some r]> ps).
Proof.
  intros Hi. unfold assemble_snapshot.
  destruct i as [|[|[|[|[|[|i]]]]]]; solve_commit Hi r.
Qed.

(** A run of the goroutines from [w]; [env] is what the rest of the server may do. *)
Definition snapshot_run (env : world R → world R → Prop) (orgID : uuid) w :=
  fork_run env (λ _ _, false) (λ _, None) store_panel count_error
    (fork_start w (MkSnapshot (w_now w) [] [] [] [] [] []) 0%nat (snapshot_queries orgID)).

(** Without failures a query leaves the world alone. *)
Lemma queries_read_only orgID w : w_faults w = [] → Forall (λ q, (q w).2 = w) (snapshot_queries orgID).
Proof.
  intros Hf. unfold snapshot_queries, ListWorkers, ListTasksByOrg, GetLeaderboard, QueryAuditLog, mbind, M_bind, mret, M_ret, time_Now.
  repeat (constructor; [rewrite pg_query_nofault by done; done|]). constructor.
Qed.

(** The world does not change in a run that nobody disturbs. *)
Lemma snapshot_run_world orgID w ws n s :
  w_faults w = [] → snapshot_run eq orgID w ws n s →
  fk_world s = w ∧ (∀ w', w' ∈ ws → w' = w) ∧
  Forall2 (λ q t, match t with GQuery q' => q' = q | _ => True end) (snapshot_queries orgID) (fk_threads s).
Proof.
  intros Hf. induction 1 as [|ws n s1 s2 _ (Hw & Hws & Ht) Hs|ws n s1 w' _ (Hw & Hws & Ht) E].
  - split; [done|]. split; [by intros w' ->%list_elem_of_singleton|]. by repeat constructor.
  - assert (fk_world s2 = w ∧ Forall2 (λ q t, match t with GQuery q' => q' = q | _ => True end) (snapshot_queries orgID) (fk_threads s2))
      as [Hw2 Ht2].
    { pose proof (queries_read_only orgID w Hf) as Hro. inversion Hs as [i q w1 a e ts Hi _|? ? ? ? ? ? ? ? Hc|i r w1 a e ts Hi]; subst; cbn [fk_world fk_threads] in *.
      - destruct (Forall2_lookup_r _ _ _ _ _ Ht Hi) as (q' & Hq & ->). split; [by rewrite Forall_lookup in Hro; eapply Hro|].
        rewrite <-(list_insert_id _ i q' Hq). by apply Forall2_insert.
      - done.
      - split; [done|]. destruct (Forall2_lookup_r _ _ _ _ _ Ht Hi) as (q' & Hq & _).
        rewrite <-(list_insert_id _ i q' Hq). by apply Forall2_insert. }
    split; [done|]. split; [|done]. intros w' [->|Hin]%elem_of_cons; auto.
  - cbn [fk_world fk_threads]. rewrite <-E. split; [done|]. split; [|done]. intros w2 [->|Hin]%elem_of_cons; [congruence|auto].
Qed.

Lemma count_error_spec l : foldr count_error 0%nat l = length (List.filter (λ r, negb (is_ok r)) l).
Proof. induction l as [|r l IH]; [done|]. simpl. rewrite IH. unfold count_error. by destruct (is_ok r). Qed.

(** C34: The goroutines of the snapshot endpoint may run in any order, and other requests in
    between: when the last of them is done, every panel holds what its own query returned at
    some moment of the run, filtered, or nothing when that query failed, and the errors are
    counted.  With no failure and nobody writing meanwhile every schedule gives the snapshot
    of the queries made one after the other. *)
Theorem snapshot_any_schedule env orgID w ws n s :
  snapshot_run env orgID w ws n s → fork_done s = true →
  (∃ rs, Forall2 (λ q r, ∃ w', w' ∈ ws ∧ r = (q w').1) (snapshot_queries orgID) rs ∧
     fk_value s = assemble_snapshot (w_now w) (map Some rs) ∧
     fk_note s = length (List.filter (λ r, negb (is_ok r)) rs)) ∧
  (w_faults w = [] → (∀ w1 w2, env w1 w2 → w1 = w2) → fk_value s = (build_snapshot orgID w).1).
Proof.
  intros Hr Hd.
  destruct (fork_join env (λ _ _, false) (λ _, None) store_panel count_error (assemble_snapshot (w_now w)) (store_panel_assemble (w_now w))
    (snapshot_queries orgID) w 0%nat ws n s Hr Hd) as (rs & order & Hrs' & Hv & Ho & Hn).
  assert (Forall2 (λ q r, ∃ w', w' ∈ ws ∧ r = (q w').1) (snapshot_queries orgID) rs) as Hrs.
  { eapply Forall2_impl; [exact Hrs'|]. intros q r (w' & ? & [?|?]); [by exists w'|done]. }
  clear Hrs'. split.
  - exists rs. split; [done|]. split; [done|]. rewrite Hn, count_error_spec.
    clear -Ho. induction Ho as [|r l1 l2 _ IH|r1 r2 l|l1 l2 l3 _ IH1 _ IH2]; simpl; repeat case_match; simpl; lia.
  - intros Hf He. assert (snapshot_run eq orgID w ws n s) as Hr'.
    { clear -Hr He. induction Hr; [by constructor|by eapply fork_go|by apply fork_env; auto]. }
    destruct (snapshot_run_world orgID w ws n s Hf Hr') as (_ & Hws & _). rewrite Hv.
    assert (rs = map (λ q, (q w).1) (snapshot_queries orgID)) as ->.
    { clear -Hrs Hws. induction Hrs as [|q r qs rs (w' & Hin & ->) _ IH]; [done|]. cbn [map]. by rewrite IH, (Hws w' Hin). }
    unfold build_snapshot, snapshot_queries, ListWorkers, ListTasksByOrg, GetLeaderboard, QueryAuditLog, mbind, M_bind, mret, M_ret, time_Now.
    cbn [map]. rewrite !pg_query_nofault by done. unfold assemble_snapshot, panel_at. cbn [lookup list_lookup fst].
    repeat match goal with |- context [_ <$> ?r] => destruct r; cbn end; reflexivity.
Qed.
End handler.

(** ** dashboard/snapshot.go *)

Record Snapshot := MkDashSnapshot {
  DS_Workers : list Worker;
  DS_QueuedTasks : list Task;
  DS_RunningTasks : list Task;
  DS_RecentCompleted : list Task;
  DS_TokenUsage : list TokenUsageStat;
  DS_Leaderboard : list LeaderboardRow;
  DS_SecurityEvents : list SecurityEventSummary;
  DS_GeneratedAt : Z;
}.

(** The methods that package postgres does not have. *)
Class SnapshotStore (R : Type) := {
  ListTasksByOrgAndState : uuid → string → Z → Z → M (world R) (result (list Task));
  ListRecentCompletedTasks : uuid → Z → Z → M (world R) (result (list Task));
  GetTokenUsageByAgent : uuid → Z → M (world R) (result (list TokenUsageStat));
  GetLeaderboardFull : uuid → Z → M (world R) (result (list LeaderboardRow));
  GetSecurityEvents : uuid → Z → Z → M (world R) (result (list SecurityEventSummary));
}.

Section builder.
Context {R : Type} `{SS : SnapshotStore R}.
Implicit Types (w : world R).

Definition build_queries (orgUnitID : uuid) : list (M (world R) (result panel)) :=
  [(r ← ListWorkers orgUnitID; mret (PWorkers <$> r));
   (r ← ListTasksByOrgAndState orgUnitID "queued" 50 0; mret (PTasks <$> r));
   (r ← ListTasksByOrgAndState orgUnitID "running" 50 0; mret (PTasks <$> r));
   (r ← ListRecentCompletedTasks orgUnitID (24 * Hour) 50; mret (PTasks <$> r));
   (r ← GetTokenUsageByAgent orgUnitID (30 * (24 * Hour)); mret (PUsage <$> r));
   (r ← GetLeaderboardFull orgUnitID 10; mret (PRows <$> r));
   (r ← GetSecurityEvents orgUnitID (24 * Hour) 20; mret (PSecurity <$> r))].

Definition build_store (i : nat) (r : result panel) (s : Snapshot) : Snapshot :=
  match r with
  | Err _ => s
  | Ok p =>
      let '(MkDashSnapshot wk qu ru co us le se now) := s in
      match i with
      | 0%nat => MkDashSnapshot (the_workers p) qu ru co us le se now
      | 1%nat => MkDashSnapshot wk (the_tasks p) ru co us le se now
      | 2%nat => MkDashSnapshot wk qu (the_tasks p) co us le se now
      | 3%nat => MkDashSnapshot wk qu ru (the_tasks p) us le se now
      | 4%nat => MkDashSnapshot wk qu ru co (the_usage p) le se now
      | 5%nat => MkDashSnapshot wk qu ru co us (the_rows p) se now
      | 6%nat => MkDashSnapshot wk qu ru co us le (the_security p) now
      | _ => s
      end
  end.

(** setErr *)
Definition set_err (r : result panel) (firstErr : option error) : option error :=
  match firstErr, r with
  | None, Err e => Some e
  | _, _ => firstErr
  end.

Definition assemble_build (now : Z) (ps : list (option (result panel))) : Snapshot :=
  MkDashSnapshot (panel_at 0 the_workers ps) (panel_at 1 the_tasks ps) (panel_at 2 the_tasks ps) (panel_at 3 the_tasks ps)
    (panel_at 4 the_usage ps) (panel_at 5 the_rows ps) (panel_at 6 the_security ps) now.

Lemma build_store_assemble now ps i r :
  ps !! i = Some None → build_store i r (assemble_build now ps) = assemble_build now (<[i := Some r]> ps).
Proof.
  intros Hi. unfold assemble_build. destruct i as [|[|[|[|[|[|[|i]]]]]]]; solve_commit Hi r.
Qed.

(** ctx: the caller's context, whose end is an error that [parent] knows, under the deadline
    of 2.5 seconds after the call.  A query whose context is over returns its error. *)
Definition Millisecond : Z := 1000000.
Definition build_timeout : Z := 2500 * Millisecond.

Definition build_ctx (parent : world R → option error) (start : Z) (w : world R) : option (result panel) :=
  match parent w with
  | Some e => Some (Err e)
  | None => if start + build_timeout <=? w_now w then Some (Err (ErrMsg "context deadline exceeded")) else None
  end.

(** A run of Build; when all goroutines are done it returns the value and no error.
    [hangs i] is whether the answer for goroutine [i] has not come yet. *)
Definition build_run (env : world R → world R → Prop) (hangs : nat → world R → bool)
    (parent : world R → option error) (orgUnitID : uuid) w :=
  fork_run env hangs (build_ctx parent (w_now w)) build_store set_err
    (fork_start w (MkDashSnapshot [] [] [] [] [] [] [] (w_now w)) None (build_queries orgUnitID)).

Lemma set_err_spec l :
  (foldr set_err None l = None ↔ Forall (λ r, is_ok r = true) l) ∧ (∀ e, foldr set_err None l = Some e → Err e ∈ l).
Proof.
  induction l as [|r l [IH1 IH2]]; [by split|]. simpl. destruct (foldr set_err None l) as [e'|].
  - split; [|intros e [= <-]; right; auto]. split; [done|]. intros [_ H]%Forall_cons. by apply IH1 in H.
  - rewrite Forall_cons, <-IH1. destruct r as [p|e]; simpl; [by split|]. split; [by split; [|intros [? _]]|]. intros ? [= <-]. by left.
Qed.

(** What a query of Build has come back with: its own answer at some moment of the run, or
    the error of a context that was over by then. *)
Definition came_back {A} (parent : world R → option error) (start : Z) (ws : list (world R))
    (q : M (world R) (result (list A))) (r : result (list A)) : Prop :=
  ∃ w', w' ∈ ws ∧ (r = (q w').1 ∨ ∃ e, build_ctx parent start w' = Some (Err e) ∧ r = Err e).

(** A panel: what its query returned, or nothing. *)
Definition panel_of {A} (r : result (list A)) : list A := match r with Ok l => l | Err _ => [] end.
Definition failure {A} (r : result (list A)) : list error := match r with Ok _ => [] | Err e => [e] end.

Lemma answer_panel {A} (f : list A → panel) (q : M (world R) (result (list A))) parent start ws (x : result panel) :
  (∃ w', w' ∈ ws ∧ answer (build_ctx parent start) (r ← q; mret (f <$> r)) w' x) →
  ∃ r, came_back parent start ws q r ∧ x = f <$> r.
Proof.
  unfold answer, came_back, mbind, M_bind, mret, M_ret. intros (w' & Hw & [->|Hc]).
  - exists (q w').1. split; [by exists w'; auto|]. by destruct (q w').
  - assert (∃ e, x = Err e) as [e ->].
    { unfold build_ctx in Hc. repeat case_match; simplify_eq; eauto. }
    exists (Err e). split; [|done]. exists w'. split; [done|]. right. by exists e.
Qed.

Lemma failure_ok {A} (f : list A → panel) (r : result (list A)) : is_ok (f <$> r) = true ↔ failure r = [].
Proof. by destruct r. Qed.

Lemma failure_err {A} (f : list A → panel) (r : result (list A)) e : Err e = f <$> r → e ∈ failure r.
Proof. destruct r; intros [= ->]; by left. Qed.

End builder.
