(* ===== verification/Router.v ===== *)
(** * internal/api/router.go: the routes and the middleware chain

    go-chi decides which registered pattern matches a path: [Chi] is that decision.  The
    server-sent-event stream is behind the interface [DashboardHub], as in the source.
    The router is built without the routes of a component that its dependencies lack, as in
    the source.  Of the global middleware the request logger is modelled; chi's RequestID,
    RealIP, Recoverer and Timeout are not: [Req_RemoteAddr] is the address after RealIP. *)
From S2P Require Import Prelude Sql GoStd Domain World RedisStore PgStore Brownie Security Http.
From S2P Require Import Middleware MiddlewareFacts TaskHandler WorkerHandler KeyHandler.
From S2P Require Import OutputHandler AdminHandlers.
From Stdlib Require Import Ascii.

#[local] Open Scope string_scope.
#[local] Open Scope Z_scope.

(** The index of the matching pattern and the values of its parameters. *)
Class Chi := {
  chi_lookup : list (string * string) → string → string → option (nat * list (string * string));
  chi_NotFound : http_response;
}.

Class DashboardHub (R : Type) := hub_ServeSSE : uuid → Handler R.

(** The stream only writes to its connection. *)
Class DashboardHubLaws (R : Type) `{DashboardHub R} :=
  hub_frame org r w : w_db (hub_ServeSSE org r w).2 = w_db w.

(** RouterDeps.  The stores, the hub and the queue are the world that handlers act on; the
    two pointers that NewRouter compares with nil are there or not. *)
Record RouterDeps := MkRouterDeps {
  RD_ConcreteStore : bool;
  RD_BrownieEng : bool;
  RD_ArgonParams : ArgonParams;
  RD_HeartbeatTTLSec : Z;
  RD_RatePerMin : Z;
  RD_HMACSecret : string;          (* of OutputHandler, which does not use it *)
}.

(** Logging shows in no answer and in no store. *)
Definition requestLogger {R} (next : Handler R) : Handler R := λ r, next r.

Section router.
Context {R : Type} `{RD : Redis R} `{UT : UUIDText} `{A2 : Argon2} `{CH : Chi} `{HUB : DashboardHub R}
  `{TP : TimeParse} `{ET : ErrorText}.
Context `{JC : JSONDecode createTaskRequest} `{JU : JSONDecode updateTaskStateRequest}
  `{JR : JSONDecode registerWorkerRequest} `{JH : JSONDecode heartbeatRequest}
  `{JK : JSONDecode createAPIKeyRequest} `{JS : JSONDecode submitRequest} `{JV : JSONDecode reviewRequest}
  `{JO : JSONDecode createOrgRequest} `{JP : JSONDecode OrgPolicy}.
Implicit Types (w : world R).

Variable deps : RouterDeps.

Definition Stream : Handler R := λ r,
  match OrgUnitIDFromContext (Req_Context r) with
  | None => mret (writeError StatusUnauthorized "missing org context")
  | Some orgID => hub_ServeSSE orgID r
  end.

Definition public_routes : list (string * string * Handler R) :=
  [("GET", "/healthz", Liveness);
   ("GET", "/readyz", Readiness)].

(** The routes of the handlers that need the concrete store. *)
Definition store_routes : list (string * string * Handler R) :=
  ([("GET", "/orgs/", ScopeRequired "admin" OrgList);
   ("POST", "/orgs/", ScopeRequired "admin" OrgCreate);
   ("GET", "/orgs/{id}", ScopeRequired "admin" OrgGet);
   ("PUT", "/orgs/{id}/policy", ScopeRequired "admin" OrgUpdatePolicy);
   ("GET", "/audit/", AuditList);
   ("GET", "/brownie/leaderboard", Leaderboard)] ++
  (if RD_BrownieEng deps then
     [("POST", "/outputs/", ScopeRequired "workers:heartbeat" Submit);
      ("POST", "/outputs/{id}/review", ScopeRequired "tasks:write" Review)]
   else []))%list.

Definition api_routes : list (string * string * Handler R) :=
  ([("GET", "/tasks/", ListTasks);
   ("POST", "/tasks/", ScopeRequired "tasks:write" (TaskHandler.CreateTask NewDefaultScanner));
   ("GET", "/tasks/{id}", TaskHandler.GetTask);
   ("PATCH", "/tasks/{id}/status", ScopeRequired "tasks:write" UpdateTaskStatus);
   ("GET", "/workers/", WorkerHandler.List);
   ("GET", "/workers/{id}", WorkerHandler.Get);
   ("POST", "/workers/register", ScopeRequired "workers:register" (Register (RD_HeartbeatTTLSec deps)));
   ("POST", "/workers/{id}/heartbeat", ScopeRequired "workers:heartbeat" (Heartbeat (RD_HeartbeatTTLSec deps)));
   ("POST", "/api-keys/", ScopeRequired "keys:write" (KeyHandler.CreateAPIKey (RD_ArgonParams deps)));
   ("POST", "/api-keys/{id}/rotate", ScopeRequired "keys:write" (KeyHandler.RotateAPIKey (RD_ArgonParams deps)));
   ("DELETE", "/api-keys/{id}", ScopeRequired "keys:write" KeyHandler.RevokeAPIKey);
   ("GET", "/dashboard/stream", Stream);
   ("GET", "/dashboard/snapshot", Snapshot)] ++
  (if RD_ConcreteStore deps then store_routes else []))%list.

(** The handler that a table of routes selects for a request, and its URL parameters. *)
Definition select_route (routes : list (string * string * Handler R)) (method path : string) :
    option (Handler R * list (string * string)) :=
  match chi_lookup (map fst routes) method path with
  | None => None
  | Some (i, params) =>
      match nth_error routes i with
      | Some (_, h) => Some (h, params)
      | None => None
      end
  end.

Definition with_params (r : http_request) (params : list (string * string)) : http_request :=
  MkRequest (Req_Method r) (Req_Path r) (Req_Header r) (Req_Query r) (Req_RemoteAddr r) params
    (Req_Body r) (Req_Context r).

Definition not_found : Handler R := λ _, mret chi_NotFound.

(** The sub-router mounted at /api/v1: its middleware also runs for unknown paths. *)
Definition api_prefix : string := "/api/v1".

Definition serve_api (path : string) : Handler R := λ r,
  let '(h, params) := default (not_found, []) (select_route api_routes (Req_Method r) path) in
  Auth (Audit (RateLimit (RD_RatePerMin deps) h)) (with_params r params).

Definition NewRouter : Handler R := requestLogger (λ r,
  let r := with_context r empty_context in
  if String.eqb (Req_Path r) api_prefix || HasPrefix (Req_Path r) (api_prefix ++ "/")
  then serve_api (TrimPrefix (Req_Path r) api_prefix) r
  else
    let '(h, params) := default (not_found, []) (select_route public_routes (Req_Method r) (Req_Path r)) in
    h (with_params r params)).

(** ** What a request can do to the database *)

Definition has_scope (c : req_context) (scope : string) : Prop :=
  ∃ scopes, ctx_Scopes c = Some scopes ∧ (scope ∈ elems scopes ∨ "admin" ∈ elems scopes).

(** One constructor per writing endpoint; [c] is the context of the caller's key and [fresh]
    the identifier that uuid.New returns. *)
Inductive request_effect (c : req_context) (now : Z) (fresh : uuid) (d d' : pgdb) : Prop :=
  | eff_none : d' = d → request_effect c now fresh d d'
  | eff_task t :
      has_scope c "tasks:write" → ctx_OrgUnitID c = Some (Task_OrgUnitID t) →
      Task_State t = TaskStateQueued → Task_AssignedWorkerID t = None → Task_ID t = fresh →
      org_exists d (Task_OrgUnitID t) = true →
      d' = set_tasks (db_tasks d ++ [t])%list d → request_effect c now fresh d d'
  | eff_status t wid st :
      has_scope c "tasks:write" → t ∈ db_tasks d → ctx_OrgUnitID c = Some (Task_OrgUnitID t) →
      ctx_WorkerID c = Some (Some wid) → Task_AssignedWorkerID t = Some wid → reportable st →
      d' = set_tasks (map (λ t', if Task_ID t' =? Task_ID t then task_set_state now st (Some wid) t' else t')
                        (db_tasks d)) d → request_effect c now fresh d d'
  | eff_register org hash :
      has_scope c "workers:register" → ctx_OrgUnitID c = Some org →
      (∀ o, host_key o ≠ (org, hash) → o ∈ db_workers d' ↔ o ∈ db_workers d) →
      (∀ o, o ∈ db_workers d → ∃ o', o' ∈ db_workers d' ∧ Worker_ID o' = Worker_ID o ∧
         Worker_OrgUnitID o' = Worker_OrgUnitID o) →
      NoDup (map host_key (db_workers d')) → NoDup (map Worker_ID (db_workers d')) →
      (∃ new, host_key new = (org, hash) ∧ Worker_State new = WorkerStateIdle ∧
         upserted new (db_workers d) (db_workers d')) →
      set_workers [] d' = set_workers [] d → request_effect c now fresh d d'
  | eff_heartbeat wk agents :
      has_scope c "workers:heartbeat" → wk ∈ db_workers d → ctx_OrgUnitID c = Some (Worker_OrgUnitID wk) →
      d' = set_workers (map (λ x, if Worker_ID x =? Worker_ID wk then worker_set_heartbeat now agents x else x)
                          (db_workers d)) d → request_effect c now fresh d d'
  | eff_keys org :
      has_scope c "keys:write" → ctx_OrgUnitID c = Some org →
      (∀ k, Key_OrgUnitID k ≠ org → k ∈ db_apikeys d' ↔ k ∈ db_apikeys d) →
      set_apikeys [] d' = set_apikeys [] d → request_effect c now fresh d d'
  | eff_orgs os :
      has_scope c "admin" → d' = set_orgs os d →
      (∀ o, o ∈ db_orgs d → ∃ o', o' ∈ os ∧ Org_ID o' = Org_ID o) → request_effect c now fresh d d'
  | eff_submit wid o :
      has_scope c "workers:heartbeat" → ctx_WorkerID c = Some (Some wid) → Out_WorkerID o = wid →
      Out_ReviewStatus o = ReviewStatusPending →
      ledger_only (set_outputs (db_outputs d ++ [o])%list d) d' wid 10 → request_effect c now fresh d d'
  | eff_review o t key st :
      has_scope c "tasks:write" → o ∈ db_outputs d → t ∈ db_tasks d → Task_ID t = Out_TaskID o →
      ctx_OrgUnitID c = Some (Task_OrgUnitID t) → ctx_APIKeyID c = Some key → st ∈ validStatuses →
      ledger_only
        (set_outputs (map (λ o', if Out_ID o' =? Out_ID o then output_set_review now st key o' else o')
                        (db_outputs d)) d) d' (Out_WorkerID o) (review_value st) →
      request_effect c now fresh d d'.

(** The handler [h], run in the context [c], has only such effects. *)
Definition has_effect (h : Handler R) : Prop := ∀ r w resp w',
  NoDup (map host_key (db_workers (w_db w))) → NoDup (map Worker_ID (db_workers (w_db w))) →
  h r w = (resp, w') → request_effect (Req_Context r) (w_now w) (uuid_head w) (w_db w) (w_db w').

(** A scoped handler whose effects are established under the scope. *)
Lemma ScopeRequired_effect scope h :
  (∀ r w resp w', has_scope (Req_Context r) scope →
     NoDup (map host_key (db_workers (w_db w))) → NoDup (map Worker_ID (db_workers (w_db w))) →
     h r w = (resp, w') → request_effect (Req_Context r) (w_now w) (uuid_head w) (w_db w) (w_db w')) →
  has_effect (ScopeRequired scope h).
Proof.
  intros Hh r w resp w' H1 H2. unfold ScopeRequired, mret, M_ret.
  destruct (ctx_Scopes (Req_Context r)) as [scopes|] eqn:Es; [|intros [= <- <-]; by apply eff_none].
  destruct (existsb _ (elems scopes)) eqn:E; [|intros [= <- <-]; by apply eff_none].
  apply Hh; [|done..]. exists scopes. split; [done|].
  apply existsb_exists in E as (s & Hin%list_elem_of_In & [Hs|Hs]%orb_true_iff);
    apply String.eqb_eq in Hs as <-; auto.
Qed.

Lemma reads_effect h :
  (∀ r w, w_db (h r w).2 = w_db w) → has_effect h.
Proof.
  intros Hh r w resp w' _ _ H. apply eff_none. specialize (Hh r w). by rewrite H in Hh.
Qed.

(** *** Reading handlers *)

(** A handler that only queries. *)
Ltac reads :=
  repeat first
    [ progress unfold mbind, M_bind, mret, M_ret, time_Now in *
    | match goal with
      | |- context [pg_query ?f ?w0] =>
          let E := fresh "E" in let Hd := fresh "Hd" in
          destruct (pg_query f w0) as [? ?] eqn:E; apply pg_query_inv in E as (Hd & _)
      end
    | case_match; simplify_eq/= ]; simpl in *; congruence.

Lemma TaskGet_reads r w : w_db (TaskHandler.GetTask (R := R) r w).2 = w_db w.
Proof. unfold TaskHandler.GetTask, PgStore.GetTask. reads. Qed.

Lemma ListTasks_reads r w : w_db (ListTasks (R := R) r w).2 = w_db w.
Proof. unfold ListTasks, ListTasksByOrg. cbv zeta. reads. Qed.

Lemma WorkerList_reads r w : w_db (WorkerHandler.List (R := R) r w).2 = w_db w.
Proof. unfold WorkerHandler.List, ListWorkers. reads. Qed.

Lemma WorkerGet_reads r w : w_db (WorkerHandler.Get (R := R) r w).2 = w_db w.
Proof. unfold WorkerHandler.Get, GetWorker. reads. Qed.

Lemma OrgList_reads r w : w_db (OrgList (R := R) r w).2 = w_db w.
Proof. unfold OrgList, ListOrgs. reads. Qed.

Lemma OrgGet_reads r w : w_db (OrgGet (R := R) r w).2 = w_db w.
Proof. unfold OrgGet, GetOrg. reads. Qed.

Lemma AuditList_reads r w : w_db (AuditList (R := R) r w).2 = w_db w.
Proof. unfold AuditList, QueryAuditLog. cbv zeta. reads. Qed.

Lemma Leaderboard_reads r w : w_db (Leaderboard (R := R) r w).2 = w_db w.
Proof. unfold Leaderboard, GetLeaderboard. cbv zeta. reads. Qed.

Lemma Snapshot_reads r w : w_db (Snapshot (R := R) r w).2 = w_db w.
Proof.
  unfold Snapshot, build_snapshot, ListWorkers, ListTasksByOrg, GetLeaderboard, QueryAuditLog. reads.
Qed.

Lemma Stream_reads `{!DashboardHubLaws R} r w : w_db (Stream r w).2 = w_db w.
Proof. unfold Stream. destruct (OrgUnitIDFromContext _); [apply hub_frame | done]. Qed.

(** *** Writing handlers *)

Lemma CreateTask_effect : has_effect (ScopeRequired "tasks:write" (TaskHandler.CreateTask NewDefaultScanner)).
Proof.
  apply ScopeRequired_effect. intros r w resp w' Hs _ _ H.
  unfold TaskHandler.CreateTask, OrgUnitIDFromContext in H.
  destruct (ctx_OrgUnitID (Req_Context r)) as [org|] eqn:Eo; [|injection H as <- <-; by apply eff_none].
  destruct (json_Decode _) as [req [e|]] eqn:Ej; [injection H as <- <-; by apply eff_none|].
  destruct (missing_field req) eqn:Em; [injection H as <- <-; by apply eff_none|].
  destruct (ScanText _ _) as [[|f fs]|] eqn:Es; [|injection H as <- <-; by apply eff_none..].
  assert (TaskHandler.CreateTask NewDefaultScanner r w = (resp, w')) as H'.
  { unfold TaskHandler.CreateTask, OrgUnitIDFromContext. by rewrite Eo, Ej, Em, Es. }
  eapply CreateTask_inserts in H' as [(_ & -> & _)|(_ & t & id & sub & Ht & Hid & _ & Hex & _ & Hd & _)];
    [by apply eff_none| |by split_and!].
  subst t. by eapply (eff_task _ _ _ _ _ (new_task req id org sub (w_now w))).
Qed.

Lemma UpdateTaskStatus_effect : has_effect (ScopeRequired "tasks:write" UpdateTaskStatus).
Proof.
  apply ScopeRequired_effect. intros r w resp w' Hs _ _ H.
  apply UpdateTaskStatus_authorized in H as (_ & [[_ ->]|(_ & t & wid & st & Hin & _ & Ho & Hw & Ha & Hr & Hd)]).
  - by apply eff_none.
  - by eapply eff_status.
Qed.

Lemma Register_effect : has_effect (ScopeRequired "workers:register" (Register (RD_HeartbeatTTLSec deps))).
Proof.
  apply ScopeRequired_effect. intros r w resp w' Hs Hk Hid H.
  destruct (ctx_OrgUnitID (Req_Context r)) as [org|] eqn:Eo.
  - eapply Register_upserts in H; [|done..].
    destruct H as [[_ ->]|(_ & req & hash & cap & wk & _ & _ & _ & _ & _ & Ho & Hkeep & ? & ? & ? & ?)];
      [by apply eff_none|].
    by eapply (eff_register _ _ _ _ _ org hash).
  - unfold Register, OrgUnitIDFromContext in H. rewrite Eo in H. injection H as <- <-. by apply eff_none.
Qed.

Lemma Heartbeat_effect : has_effect (ScopeRequired "workers:heartbeat" (Heartbeat (RD_HeartbeatTTLSec deps))).
Proof.
  apply ScopeRequired_effect. intros r w resp w' Hs _ _ H.
  apply Heartbeat_touches in H as [[_ ->]|(_ & wk & ags & Hin & _ & Ho & _ & Hd)].
  - by apply eff_none.
  - by eapply eff_heartbeat.
Qed.

Lemma CreateAPIKey_effect : has_effect (ScopeRequired "keys:write" (KeyHandler.CreateAPIKey (RD_ArgonParams deps))).
Proof.
  apply ScopeRequired_effect. intros r w resp w' Hs _ _ H.
  destruct (ctx_OrgUnitID (Req_Context r)) as [org|] eqn:Eo.
  - eapply CreateAPIKey_usable in H; [|done].
    destruct H as [[_ ->]|(_ & k & pt & fields & _ & Hd & Hk & _)]; [by apply eff_none|].
    eapply (eff_keys _ _ _ _ _ org); try done; rewrite Hd; [|done].
    intros k' Hne. simpl. rewrite elem_of_app, list_elem_of_singleton. split; [|by left].
    intros [?| ->]; done.
  - unfold KeyHandler.CreateAPIKey, OrgUnitIDFromContext in H. rewrite Eo in H. injection H as <- <-.
    by apply eff_none.
Qed.

Lemma key_of_org_other id org k : Key_OrgUnitID k ≠ org → key_of_org id org k = false.
Proof. intros H. unfold key_of_org. by rewrite (proj2 (Z.eqb_neq _ _) H), andb_false_r. Qed.

Lemma RotateAPIKey_effect : has_effect (ScopeRequired "keys:write" (KeyHandler.RotateAPIKey (RD_ArgonParams deps))).
Proof.
  apply ScopeRequired_effect. intros r w resp w' Hs _ _ H.
  destruct (ctx_OrgUnitID (Req_Context r)) as [org|] eqn:Eo.
  - eapply RotateAPIKey_replaces in H; [|done].
    destruct H as [[_ ->]|(_ & k & pt & _ & _ & _ & _ & _ & _ & Ho & Hd)]; [by apply eff_none|].
    eapply (eff_keys _ _ _ _ _ org); try done. intros k' Hne. apply Ho. by apply key_of_org_other.
  - unfold KeyHandler.RotateAPIKey, OrgUnitIDFromContext in H. rewrite Eo in H. injection H as <- <-.
    by apply eff_none.
Qed.

Lemma RevokeAPIKey_effect : has_effect (ScopeRequired "keys:write" KeyHandler.RevokeAPIKey).
Proof.
  apply ScopeRequired_effect. intros r w resp w' Hs _ _ H.
  destruct (ctx_OrgUnitID (Req_Context r)) as [org|] eqn:Eo.
  - eapply RevokeAPIKey_effective in H; [|done].
    destruct H as [[_ ->]|(_ & k & _ & _ & _ & _ & Hd & _ & Ho)]; [by apply eff_none|].
    eapply (eff_keys _ _ _ _ _ org); try done. intros k' Hne. apply Ho. by apply key_of_org_other.
  - unfold KeyHandler.RevokeAPIKey, OrgUnitIDFromContext in H. rewrite Eo in H. injection H as <- <-.
    by apply eff_none.
Qed.

Lemma OrgCreate_effect : has_effect (ScopeRequired "admin" OrgCreate).
Proof.
  apply ScopeRequired_effect. intros r w resp w' Hs _ _ H.
  unfold OrgCreate, mbind, M_bind, mret, M_ret, time_Now in H.
  destruct (json_Decode _) as [req [e|]]; [injection H as <- <-; by apply eff_none|].
  destruct (String.eqb (CO_Name req) ""); [injection H as <- <-; by apply eff_none|]. cbv zeta in H.
  destruct (new_uuid w) as [id w1] eqn:E1. apply new_uuid_frame in E1 as (Hd1 & _ & _ & _).
  destruct (CreateOrg _ w1) as [r2 w2] eqn:E2. apply CreateOrg_inv in E2. rewrite Hd1 in E2.
  assert (w_db w' = w_db w2) as -> by (by destruct r2; injection H as <- <-).
  destruct E2 as [[_ ->]|(_ & _ & ->)]; [by apply eff_none|].
  eapply eff_orgs; [done|reflexivity|]. intros o Ho. exists o. split; [|done].
  apply elem_of_app. by left.
Qed.

Lemma OrgUpdatePolicy_effect : has_effect (ScopeRequired "admin" OrgUpdatePolicy).
Proof.
  apply ScopeRequired_effect. intros r w resp w' Hs _ _ H.
  unfold OrgUpdatePolicy, mbind, M_bind, mret, M_ret in H.
  destruct (uuid_Parse _) as [id|]; [|injection H as <- <-; by apply eff_none].
  destruct (json_Decode _) as [pol [e|]]; [injection H as <- <-; by apply eff_none|].
  destruct (UpdateOrgPolicy _ _ w) as [r2 w2] eqn:E2.
  assert (w_db w' = w_db w2) as -> by (by destruct r2; injection H as <- <-).
  apply pg_exec_effect in E2 as (_ & _ & [(e & _ & ->)|(a & d & Hf & -> & _)]); [by apply eff_none|].
  simpl in Hf. destruct (Z.of_nat _ =? 0); simplify_eq. eapply eff_orgs; [done|reflexivity|].
  intros o Ho. eexists. split; [apply elem_of_bmap; eauto|]. by destruct (_ =? id).
Qed.

Lemma Submit_effect : has_effect (ScopeRequired "workers:heartbeat" Submit).
Proof.
  apply ScopeRequired_effect. intros r w resp w' Hs _ _ H.
  apply Submit_records in H as [[_ ->]|(_ & wid & o & Hw & Ho & _ & Hst & _ & _ & _ & Hl)].
  - by apply eff_none.
  - by eapply eff_submit.
Qed.

Lemma Review_effect : has_effect (ScopeRequired "tasks:write" Review).
Proof.
  apply ScopeRequired_effect. intros r w resp w' Hs _ _ H.
  apply Review_records in H as [[_ ->]|(_ & o & t & key & st & Ho & _ & Ht & Hid & Horg & Hk & Hst & Hl)].
  - by apply eff_none.
  - by eapply eff_review.
Qed.

Lemma OrgList_effect : has_effect (ScopeRequired "admin" OrgList).
Proof.
  apply ScopeRequired_effect. intros r w resp w' _ _ _ H. apply eff_none.
  pose proof (OrgList_reads r w) as Hr. by rewrite H in Hr.
Qed.

Lemma OrgGet_effect : has_effect (ScopeRequired "admin" OrgGet).
Proof.
  apply ScopeRequired_effect. intros r w resp w' _ _ _ H. apply eff_none.
  pose proof (OrgGet_reads r w) as Hr. by rewrite H in Hr.
Qed.

Lemma api_routes_effect `{!DashboardHubLaws R} : Forall (λ x, has_effect x.2) api_routes.
Proof.
  unfold api_routes, store_routes. cbn [app].
  apply Forall_cons_2; [exact (reads_effect _ ListTasks_reads)|].
  apply Forall_cons_2; [exact CreateTask_effect|].
  apply Forall_cons_2; [exact (reads_effect _ TaskGet_reads)|].
  apply Forall_cons_2; [exact UpdateTaskStatus_effect|].
  apply Forall_cons_2; [exact (reads_effect _ WorkerList_reads)|].
  apply Forall_cons_2; [exact (reads_effect _ WorkerGet_reads)|].
  apply Forall_cons_2; [exact Register_effect|].
  apply Forall_cons_2; [exact Heartbeat_effect|].
  apply Forall_cons_2; [exact CreateAPIKey_effect|].
  apply Forall_cons_2; [exact RotateAPIKey_effect|].
  apply Forall_cons_2; [exact RevokeAPIKey_effect|].
  apply Forall_cons_2; [exact (reads_effect _ Stream_reads)|].
  apply Forall_cons_2; [exact (reads_effect _ Snapshot_reads)|].
  destruct (RD_ConcreteStore deps); [|apply Forall_nil_2].
  apply Forall_cons_2; [exact OrgList_effect|].
  apply Forall_cons_2; [exact OrgCreate_effect|].
  apply Forall_cons_2; [exact OrgGet_effect|].
  apply Forall_cons_2; [exact OrgUpdatePolicy_effect|].
  apply Forall_cons_2; [exact (reads_effect _ AuditList_reads)|].
  apply Forall_cons_2; [exact (reads_effect _ Leaderboard_reads)|].
  destruct (RD_BrownieEng deps); [|apply Forall_nil_2].
  apply Forall_cons_2; [exact Submit_effect|].
  apply Forall_cons_2; [exact Review_effect|].
  apply Forall_nil_2.
Qed.

(** ** The chain of middleware *)

Lemma RateLimit_gate n next r w resp w' :
  RateLimit n next r w = (resp, w') →
  w_db w' = w_db w ∨
  ∃ resp1 w1, w_db w1 = w_db w ∧ w_now w1 = w_now w ∧ w_uuids w1 = w_uuids w ∧ next r w1 = (resp1, w').
Proof.
  unfold RateLimit, OrgUnitIDFromContext, mbind, M_bind, mret, M_ret.
  destruct (ctx_OrgUnitID _) as [org|]; [|right; by exists resp, w].
  destruct (RateLimitIncr _ _ w) as [res w1] eqn:E. unfold RateLimitIncr in E.
  match type of E with redis_do ?f w = _ => pose proof (redis_do_uuids f w) as Hu end.
  rewrite E in Hu. apply redis_do_inv in E as (Hd & Hn & _).
  destruct res as [c|e]; [|right; by exists resp, w1]. cbv zeta.
  destruct (n <? c); [intros [= <- <-]; by left|].
  destruct (next r w1) as [resp1 w2] eqn:E1. intros [= <- <-]. right. by exists resp1, w1.
Qed.

Lemma Audit_db next r w :
  w_db (Audit next r w).2 = w_db (next r w).2.
Proof.
  unfold Audit, mbind, M_bind, mret, M_ret. destruct (negb _); [done|].
  destruct (next r w) as [resp w1]. unfold new_uuid, time_Now, go_stmt.
  by destruct (w_uuids w1).
Qed.

(** The stores after a request that was not let through: at most a failure was audited. *)
Definition refused (d d' : pgdb) : Prop :=
  set_audit [] d' = set_audit [] d ∧
  (db_audit d' = db_audit d ∨
   ∃ ev, db_audit d' = (db_audit d ++ [ev])%list ∧ Audit_Action ev = "auth_failed").

Lemma NewRouter_cases `{!DashboardHubLaws R} r w resp w' :
  NoDup (map host_key (db_workers (w_db w))) → NoDup (map Worker_ID (db_workers (w_db w))) →
  NewRouter r w = (resp, w') →
  refused (w_db w) (w_db w') ∨
  ∃ pt k, bearer (Req_Header r "Authorization") pt ∧ unlocks w pt k ∧
    request_effect (key_context k) (w_now w) (uuid_head w) (w_db w) (w_db w').
Proof.
  intros Hk Hid. unfold NewRouter, requestLogger. cbv zeta.
  destruct (_ || _).
  - unfold serve_api. destruct (default _ _) as [h params] eqn:Er. intros H.
    apply Auth_gate in H as [(_ & (_ & _ & _ & Hs & Ha) & _)|(pt & k & w1 & Hb & Hun & Hd & _ & Hn & Hu & _ & H)].
    { left. by split. }
    assert (has_effect h) as Heff.
    { unfold select_route in Er. destruct (chi_lookup _ _ _) as [[i ps]|]; simpl in Er.
      2:{ injection Er as <- <-. by apply reads_effect. }
      destruct (nth_error _ i) as [[mp h']|] eqn:En; simpl in Er; injection Er as <- <-;
        [|by apply reads_effect].
      apply nth_error_In, list_elem_of_In in En.
      exact (proj1 (Forall_forall _ _) api_routes_effect _ En). }
    right. exists pt, k. split; [done|]. split; [done|].
    match type of H with Audit ?nx ?rq w1 = _ => pose proof (Audit_db nx rq w1) as Hdb;
      destruct (nx rq w1) as [resp2 w2] eqn:E2 end.
    rewrite H in Hdb. simpl in Hdb. rewrite Hdb. apply RateLimit_gate in E2 as [->|(resp3 & w3 & Hd3 & Hn3 & Hu3 & E3)].
    { apply eff_none. done. }
    apply Heff in E3; [|by rewrite Hd3, Hd..]. unfold uuid_head in *.
    rewrite Hd3, Hn3, Hu3, Hd, Hn, Hu in E3. exact E3.
  - destruct (default _ _) as [h params] eqn:Er. intros H. left.
    assert (w_db (h (with_params (with_context r empty_context) params) w).2 = w_db w) as Hr.
    { unfold select_route in Er. destruct (chi_lookup _ _ _) as [[i ps]|]; simpl in Er.
      2:{ by injection Er as <- <-. }
      destruct i as [|[|i]]; simpl in Er.
      - by injection Er as <- <-.
      - injection Er as <- <-. apply Readiness_frame.
      - destruct i; simpl in Er; by injection Er as <- <-. }
    rewrite H in Hr. simpl in Hr. rewrite Hr. split; auto.
Qed.
End router.
