(* ===== verification/System.v ===== *)
(** * The control plane as a transition system

    The server handles requests, runs the goroutines they start, and runs the scheduler and
    the reaper; in between time passes.  One step is one request, one goroutine, or one
    pass: the statements of different steps do not interleave here (ClaimFacts.v is about
    claims against transactions that do). *)
From S2P Require Import Prelude Sql GoStd Domain World RedisStore PgStore ClaimFacts Brownie.
From S2P Require Import Scheduler SchedulerFacts Security Http Middleware MiddlewareFacts.
From S2P Require Import TaskHandler WorkerHandler KeyHandler OutputHandler AdminHandlers Router.
From Stdlib Require Import Ascii.

#[local] Open Scope string_scope.
#[local] Open Scope Z_scope.

(** ** The life of a task *)

(** What may happen to a row of the task table: a claim, a report of its worker, a requeue. *)
Inductive task_step : Task → Task → Prop :=
  | ts_claim t wid now :
      Task_State t = TaskStateQueued → task_step t (task_set_assigned now wid t)
  | ts_report t wid st now :
      Task_AssignedWorkerID t = Some wid → reportable st →
      task_step t (task_set_state now st (Some wid) t)
  | ts_requeue t now :
      Task_State t = TaskStateAssigned ∨ Task_State t = TaskStateRunning →
      task_step t (task_set_state now TaskStateQueued None t).

(** The columns that no step changes. *)
Definition task_identity (t : Task) :=
  (Task_ID t, Task_OrgUnitID t, Task_QueuedAt t, Task_AIAgent t, Task_Priority t, Task_Description t,
   Task_ErrorMessage t, Task_RetryCount t, Task_MaxRetries t).

Lemma task_step_identity t t' : task_step t t' → task_identity t' = task_identity t.
Proof. by inversion 1. Qed.

(** The states that occur. *)
Definition live_states : list string :=
  [TaskStateQueued; TaskStateAssigned; TaskStateRunning; TaskStateCompleted; TaskStateFailed].

(** The invariant of the database. *)
Record db_inv (d : pgdb) : Prop := {
  inv_tasks : NoDup (map Task_ID (db_tasks d));
  inv_workers : NoDup (map Worker_ID (db_workers d));
  inv_hosts : NoDup (map host_key (db_workers d));
  inv_task_org t : t ∈ db_tasks d → org_exists d (Task_OrgUnitID t) = true;
  inv_task_worker t wid : t ∈ db_tasks d → Task_AssignedWorkerID t = Some wid → worker_exists d wid = true;
  inv_task_state t : t ∈ db_tasks d → Task_State t ∈ live_states;
  inv_task_held t : t ∈ db_tasks d → Task_State t ≠ TaskStateQueued → ∃ wid, Task_AssignedWorkerID t = Some wid;
}.

Lemma db_inv_fresh d : db_tasks d = [] → db_workers d = [] → db_inv d.
Proof.
  intros Ht Hw. constructor; rewrite ?Ht, ?Hw; simpl; try apply NoDup_nil_2;
    try (intros ? ?%elem_of_nil; done); intros ? ? ?%elem_of_nil; done.
Qed.

(** The tables move by task steps and new queued tasks; org units and workers stay. *)
Record db_evolves (d d' : pgdb) : Prop := {
  ev_tasks : ∃ new, (new = [] ∨ ∃ t, new = [t] ∧ Task_State t = TaskStateQueued ∧
      Task_AssignedWorkerID t = None ∧ org_exists d (Task_OrgUnitID t) = true ∧
      Task_ID t ∉ map Task_ID (db_tasks d)) ∧
    ∃ old, db_tasks d' = (old ++ new)%list ∧
      Forall2 (λ t t', t' = t ∨ task_step t t' ∧
        ∀ wid, Task_AssignedWorkerID t' = Some wid →
          Task_AssignedWorkerID t = Some wid ∨ worker_exists d wid = true) (db_tasks d) old;
  ev_orgs id : org_exists d id = true → org_exists d' id = true;
  ev_workers id : worker_exists d id = true → worker_exists d' id = true;
  ev_worker_ids : NoDup (map Worker_ID (db_workers d)) → NoDup (map Worker_ID (db_workers d'));
  ev_hosts : NoDup (map host_key (db_workers d)) → NoDup (map host_key (db_workers d'));
}.

Lemma Forall2_refl_or {A} (P : A → A → Prop) l : Forall2 (λ x y, y = x ∨ P x y) l l.
Proof. induction l; constructor; auto. Qed.

(** An evolution that leaves the tasks alone. *)
Lemma db_evolves_tasks_same d d' :
  db_tasks d' = db_tasks d →
  (∀ id, org_exists d id = true → org_exists d' id = true) →
  (∀ id, worker_exists d id = true → worker_exists d' id = true) →
  (NoDup (map Worker_ID (db_workers d)) → NoDup (map Worker_ID (db_workers d'))) →
  (NoDup (map host_key (db_workers d)) → NoDup (map host_key (db_workers d'))) →
  db_evolves d d'.
Proof.
  intros Ht Ho Hw Hi Hh. constructor; try done. exists []. split; [by left|].
  exists (db_tasks d). rewrite app_nil_r. split; [done|]. apply Forall2_refl_or.
Qed.

Lemma db_evolves_refl d : db_evolves d d.
Proof. by apply db_evolves_tasks_same. Qed.

Lemma identity_ids (l l' : list Task) P :
  Forall2 (λ t t', t' = t ∨ task_step t t' ∧ P t t') l l' → map Task_ID l' = map Task_ID l.
Proof.
  induction 1 as [|t t' l l' Hs _ IH]; [done|]. simpl. f_equal; [|done].
  destruct Hs as [-> |[Hs _]]; [done|]. apply task_step_identity in Hs. by injection Hs.
Qed.

(** Every evolution keeps the invariant. *)
Lemma db_evolves_inv d d' : db_evolves d d' → db_inv d → db_inv d'.
Proof.
  intros [(new & Hnew & old & Ht & Hold) Ho Hw Hi Hh] [I1 I2 I3 I4 I5 I6 I7].
  pose proof (identity_ids _ _ _ Hold) as Hids.
  assert (∀ t', t' ∈ old → ∃ t, t ∈ db_tasks d ∧ (t' = t ∨ task_step t t' ∧
    ∀ wid, Task_AssignedWorkerID t' = Some wid →
      Task_AssignedWorkerID t = Some wid ∨ worker_exists d wid = true)) as Hback.
  { intros t' Hin. apply list_elem_of_lookup in Hin as [i Hi'].
    destruct (Forall2_lookup_r _ _ _ _ _ Hold Hi') as (t & Hl & Hs). exists t. split; [|done].
    by eapply list_elem_of_lookup_2. }
  constructor; auto.
  - rewrite Ht, map_app, Hids. destruct Hnew as [->|(t & -> & _ & _ & _ & Hf)]; simpl.
    + by rewrite app_nil_r.
    + apply NoDup_app. split_and!; [done| |apply NoDup_singleton].
      intros x Hx. rewrite list_elem_of_singleton. by intros ->.
  - intros t' Hin. rewrite Ht in Hin. apply Ho. apply elem_of_app in Hin as [Hin|Hin].
    + destruct (Hback t' Hin) as (t & Htin & [->|[Hs _]]); [auto|].
      apply task_step_identity in Hs. injection Hs as _ -> _ _ _ _ _ _ _. auto.
    + destruct Hnew as [->|(t & -> & _ & _ & Hex & _)]; [by apply elem_of_nil in Hin|].
      by apply list_elem_of_singleton in Hin as ->.
  - intros t' wid Hin Hwid. rewrite Ht in Hin. apply Hw. apply elem_of_app in Hin as [Hin|Hin].
    + destruct (Hback t' Hin) as (t & Htin & [->|[_ Hs]]); [eauto|].
      destruct (Hs wid Hwid); eauto.
    + destruct Hnew as [->|(t & -> & _ & Hn & _)]; [by apply elem_of_nil in Hin|].
      apply list_elem_of_singleton in Hin as ->. congruence.
  - intros t' Hin. rewrite Ht in Hin. apply elem_of_app in Hin as [Hin|Hin].
    + destruct (Hback t' Hin) as (t & Htin & [->|[Hs _]]); [auto|].
      inversion Hs as [??? _|???? _ Hr|?? _]; subst; simpl; unfold live_states; rewrite !elem_of_cons.
      * auto.
      * destruct Hr as [->|[->| ->]]; auto 10.
      * auto.
    + destruct Hnew as [->|(t & -> & Hq & _)]; [by apply elem_of_nil in Hin|].
      apply list_elem_of_singleton in Hin as ->. rewrite Hq. by left.
  - intros t' Hin Hq. rewrite Ht in Hin. apply elem_of_app in Hin as [Hin|Hin].
    + destruct (Hback t' Hin) as (t & Htin & [->|[Hs _]]); [auto|].
      inversion Hs as [??? _|???? _ Hr|?? _]; subst; simpl in *; eauto.
    + destruct Hnew as [->|(t & -> & Hs & _)]; [by apply elem_of_nil in Hin|].
      apply list_elem_of_singleton in Hin as ->. done.
Qed.

(** ** The effect of each kind of step *)

Lemma set_workers_same d d' :
  set_workers [] d' = set_workers [] d →
  db_tasks d' = db_tasks d ∧ db_orgs d' = db_orgs d ∧ db_apikeys d' = db_apikeys d ∧
  db_outputs d' = db_outputs d ∧ db_ledger d' = db_ledger d ∧ db_audit d' = db_audit d.
Proof. destruct d, d'. unfold set_workers. simpl. intros [=]. by split_and!. Qed.

Lemma set_apikeys_same d d' :
  set_apikeys [] d' = set_apikeys [] d →
  db_tasks d' = db_tasks d ∧ db_orgs d' = db_orgs d ∧ db_workers d' = db_workers d ∧
  db_outputs d' = db_outputs d ∧ db_ledger d' = db_ledger d ∧ db_audit d' = db_audit d.
Proof. destruct d, d'. unfold set_apikeys. simpl. intros [=]. by split_and!. Qed.

Lemma worker_exists_spec d id : worker_exists d id = true ↔ id ∈ map Worker_ID (db_workers d).
Proof.
  unfold worker_exists. rewrite existsb_exists, elem_of_bmap. setoid_rewrite list_elem_of_In.
  split; intros (x & H1 & H2); exists x; rewrite ?Z.eqb_eq in *; auto.
Qed.

Lemma org_exists_spec d id : org_exists d id = true ↔ id ∈ map Org_ID (db_orgs d).
Proof.
  unfold org_exists. rewrite existsb_exists, elem_of_bmap. setoid_rewrite list_elem_of_In.
  split; intros (x & H1 & H2); exists x; rewrite ?Z.eqb_eq in *; auto.
Qed.

Lemma ledger_only_tables d d' wid p :
  ledger_only d d' wid p →
  db_tasks d' = db_tasks d ∧ db_workers d' = db_workers d ∧ db_orgs d' = db_orgs d ∧
  db_apikeys d' = db_apikeys d ∧ db_audit d' = db_audit d ∧ db_outputs d' = db_outputs d ∧
  db_ledger d `prefix_of` db_ledger d'.
Proof.
  intros [->|(e & _ & _ & ->)]; split_and!; try done. by apply prefix_app_r.
Qed.

(** A database that differs in the other tables only. *)
Lemma db_evolves_other d d' :
  db_tasks d' = db_tasks d → db_workers d' = db_workers d → db_orgs d' = db_orgs d → db_evolves d d'.
Proof.
  intros Ht Hw Ho. apply db_evolves_tasks_same; [done|..].
  - intros id. by rewrite !org_exists_spec, Ho.
  - intros id. by rewrite !worker_exists_spec, Hw.
  - by rewrite Hw.
  - by rewrite Hw.
Qed.

Lemma Forall2_map_r_in {A} (P : A → A → Prop) (f : A → A) l :
  (∀ x, x ∈ l → P x (f x)) → Forall2 P l (map f l).
Proof.
  induction l as [|x l IH]; intros H; simpl; constructor; [apply H; by left|].
  apply IH. intros y Hy. apply H. by right.
Qed.

Lemma request_effect_evolves c now fresh d d' :
  db_inv d → fresh ∉ map Task_ID (db_tasks d) → request_effect c now fresh d d' → db_evolves d d'.
Proof.
  intros Hinv Hfresh [->|t _ _ Hq Hn Hid Hex ->|t wid st _ Hin _ _ Ha Hr ->
    |org hash _ _ _ Hkeep Hh Hi _ Hsame|wk ags _ _ _ ->|org _ _ _ Hsame|os _ -> Hkeep
    |wid o _ _ _ _ Hl|o t key st _ _ _ _ _ _ _ Hl].
  - apply db_evolves_refl.
  - constructor; try done. exists [t]. split.
    { right. exists t. by rewrite Hid. }
    exists (db_tasks d). split; [done|]. apply Forall2_refl_or.
  - constructor; try done. exists []. split; [by left|]. eexists. rewrite app_nil_r. split; [done|].
    apply Forall2_map_r_in. intros t' Hin'. destruct (Z.eqb_spec (Task_ID t') (Task_ID t)) as [E|]; [|by left].
    assert (t' = t) as -> by (by apply (NoDup_map_inj Task_ID (db_tasks d)); [apply inv_tasks|..]).
    right. split; [by apply ts_report|]. intros wid' [= <-]. by left.
  - assert (db_tasks d' = db_tasks d ∧ db_orgs d' = db_orgs d) as [Ht Ho].
    { split; [by apply (f_equal db_tasks) in Hsame | by apply (f_equal db_orgs) in Hsame]. }
    apply db_evolves_tasks_same; try done.
    + intros id. by rewrite !org_exists_spec, Ho.
    + intros id. rewrite !worker_exists_spec, !elem_of_bmap. intros (o & -> & Hin).
      destruct (Hkeep o Hin) as (o' & ? & ? & _). eauto.
  - apply db_evolves_tasks_same; try done.
    + intros id. rewrite !worker_exists_spec. cbn [db_workers set_workers]. by rewrite map_if_column.
    + cbn [db_workers set_workers]. by rewrite map_if_column.
    + cbn [db_workers set_workers]. by rewrite map_if_column.
  - apply db_evolves_other; [by apply (f_equal db_tasks) in Hsame | by apply (f_equal db_workers) in Hsame
      | by apply (f_equal db_orgs) in Hsame].
  - apply db_evolves_tasks_same; try done. intros id. rewrite !org_exists_spec, !elem_of_bmap.
    intros (o & -> & Hin). destruct (Hkeep o Hin) as (o' & ? & ?). exists o'. by split.
  - apply ledger_only_tables in Hl as (? & ? & ? & _). by apply db_evolves_other.
  - apply ledger_only_tables in Hl as (? & ? & ? & _). by apply db_evolves_other.
Qed.

Lemma sched_frame_evolves d d' f :
  sched_frame d d' → db_tasks d' = map f (db_tasks d) →
  (∀ t, t ∈ db_tasks d → f t = t ∨ task_step t (f t) ∧
     ∀ wid, Task_AssignedWorkerID (f t) = Some wid →
       Task_AssignedWorkerID t = Some wid ∨ worker_exists d wid = true) →
  db_evolves d d'.
Proof.
  intros [Hi Hh _ Ho _ _ _] Ht Hf. constructor.
  - exists []. split; [by left|]. exists (map f (db_tasks d)). rewrite app_nil_r. split; [done|].
    by apply Forall2_map_r_in.
  - intros id. by rewrite !org_exists_spec, Ho.
  - intros id. by rewrite !worker_exists_spec, Hi.
  - by rewrite Hi.
  - by rewrite Hh.
Qed.

Section system.
Context {R : Type} `{RD : Redis R} `{UT : UUIDText} `{A2 : Argon2} `{CH : Chi} `{HUB : DashboardHub R}
  `{TP : TimeParse} `{ET : ErrorText}.
Context `{JC : JSONDecode createTaskRequest} `{JU : JSONDecode updateTaskStateRequest}
  `{JR : JSONDecode registerWorkerRequest} `{JH : JSONDecode heartbeatRequest}
  `{JK : JSONDecode createAPIKeyRequest} `{JS : JSONDecode submitRequest} `{JV : JSONDecode reviewRequest}
  `{JO : JSONDecode createOrgRequest} `{JP : JSONDecode OrgPolicy}.
Context `{RL : !RedisLaws R} `{HL : !DashboardHubLaws R}.
Context (deps : RouterDeps).
Implicit Types (w : world R).

Lemma tick_evolves w log w' : db_inv (w_db w) → tick w = (log, w') → db_evolves (w_db w) (w_db w').
Proof.
  intros Hinv [(_ & -> & _)|(_ & w1 & Hd & _ & Hn & _ & H)]%tick_cases; [apply db_evolves_refl|].
  apply tick_loop_run in H as [made H]; [|rewrite redis_zcard; lia]. destruct H. rewrite Hd, Hn in *.
  eapply sched_frame_evolves; [done..|]. intros t Hin. unfold dispatched.
  destruct (assigned_in made (Task_ID t)) as [wid|] eqn:E; [right|by left].
  apply assigned_in_Some in E as ([t1 wid'] & Hx & Hid & <-).
  destruct (tick_run_good _ Hx) as (wk & t0 & Hwk & Hw2 & Hin0 & Hq & _ & Ht1). simpl in *. subst.
  assert (t = t0) as -> by (by apply (NoDup_map_inj Task_ID (db_tasks (w_db w))); [apply inv_tasks|..]).
  split; [by apply ts_claim|]. intros wid [= <-]. right.
  apply worker_exists_spec, elem_of_bmap. exists wk. split; [done|].
  unfold idle_workers in Hwk. by apply elem_of_sql_order_by, elem_of_sql_where in Hwk as [? _].
Qed.

Lemma reap_evolves ttl w log w' : db_inv (w_db w) → reap ttl w = (log, w') → db_evolves (w_db w) (w_db w').
Proof.
  intros Hinv [(_ & -> & _)|(stale & back & w1 & Hd & _ & Hn & _ & Hst & [_ _ Ht Hsf _ _ Hsub _ _])]%reap_cases;
    [apply db_evolves_refl|]. rewrite Hd, Hn in *.
  eapply sched_frame_evolves; [done..|]. intros t Hin. unfold requeued.
  destruct (existsb _ _) eqn:E; [right|by left].
  apply existsb_eqb_Z, elem_of_bmap in E as (t0 & Hid & Hin0).
  eapply elem_of_sublist in Hin0; [|exact Hsub]. apply Hst in Hin0 as (Hin0 & Hs & _).
  assert (t = t0) as -> by (by apply (NoDup_map_inj Task_ID (db_tasks (w_db w))); [apply inv_tasks|..]).
  split; [|by intros wid ?; left]. apply ts_requeue. unfold stale_state in Hs.
  by apply orb_true_iff in Hs as [->%String.eqb_eq| ->%String.eqb_eq]; [left|right].
Qed.

(** *** Goroutines *)

Lemma run_background_db job w u w' :
  run_background job w = (u, w') →
  db_tasks (w_db w') = db_tasks (w_db w) ∧ db_workers (w_db w') = db_workers (w_db w) ∧
  db_orgs (w_db w') = db_orgs (w_db w) ∧ db_ledger (w_db w') = db_ledger (w_db w) ∧
  db_audit (w_db w) `prefix_of` db_audit (w_db w').
Proof.
  unfold run_background, mbind, M_bind, mret, M_ret. destruct job as [id|ev].
  - destruct (UpdateAPIKeyLastUsed id w) as [r1 w1] eqn:E. intros [= <- <-].
    apply pg_exec_effect in E as (_ & _ & [(e & _ & ->)|(a & d & [= _ <-] & -> & _)]); split_and!; done.
  - destruct (WriteAuditEvent ev w) as [r1 w1] eqn:E. intros [= <- <-].
    apply WriteAuditEvent_inv in E as (_ & _ & _ & [-> | ->]); split_and!; try done.
    by apply prefix_app_r.
Qed.

(** ** Steps *)

Inductive sys_step : world R → world R → Prop :=
  (* a request, while uuid.New returns no identifier twice *)
  | sys_request r resp w w' :
      uuid_head w ∉ map Task_ID (db_tasks (w_db w)) →
      NewRouter deps r w = (resp, w') → sys_step w w'
  (* one of the goroutines that requests have started *)
  | sys_background job l1 l2 u w w' :
      w_bg w = (l1 ++ job :: l2)%list → run_background job (set_bg (l1 ++ l2)%list w) = (u, w') →
      sys_step w w'
  (* a pass of the scheduler, and one of the reaper *)
  | sys_tick log w w' : tick w = (log, w') → sys_step w w'
  | sys_reap log w w' : reap (RD_HeartbeatTTLSec deps) w = (log, w') → sys_step w w'
  (* time passes; keys expire, locks, failures and random sources change *)
  | sys_env w w' : w_db w' = w_db w → w_now w ≤ w_now w' → sys_step w w'.

Definition reachable : world R → world R → Prop := rtc sys_step.

Lemma sys_step_evolves w w' : db_inv (w_db w) → sys_step w w' → db_evolves (w_db w) (w_db w').
Proof.
  intros Hinv Hstep. inversion Hstep as [r resp ?? Hfresh H|job l1 l2 u ?? Hb H|log ?? H|log ?? H|?? Hd _]; subst.
  - apply NewRouter_cases in H as [[Hs _]|(pt & k & _ & _ & He)]; [| |first [exact HL | apply Hinv]..].
    + apply db_evolves_other;
        [by apply (f_equal db_tasks) in Hs | by apply (f_equal db_workers) in Hs | by apply (f_equal db_orgs) in Hs].
    + by eapply request_effect_evolves.
  - apply run_background_db in H as (? & ? & ? & _). by apply db_evolves_other.
  - by eapply tick_evolves.
  - by eapply reap_evolves.
  - rewrite Hd. apply db_evolves_refl.
Qed.

Lemma reachable_inv w w' : reachable w w' → db_inv (w_db w) → db_inv (w_db w').
Proof.
  induction 1 as [|w w1 w2 Hs _ IH]; [done|]. intros Hinv. apply IH.
  eapply db_evolves_inv; [by apply sys_step_evolves | done].
Qed.

(** C8: In every state the control plane reaches from a database that has any org units and
    API keys but no workers or tasks yet (by requests of any callers, goroutines, scheduler
    and reaper passes in any order, whatever fails): task ids, worker ids and hosts are
    unique; every task belongs to an existing org unit; a task's worker exists; a task is
    queued, assigned, running, completed or failed (never cancelled), and whenever it is
    not queued some worker holds it. *)
Theorem system_invariant w w' :
  db_tasks (w_db w) = [] → db_workers (w_db w) = [] → reachable w w' → db_inv (w_db w').
Proof. intros Ht Hw Hr. eapply reachable_inv; [done|]. by apply db_inv_fresh. Qed.

(** C2: The detailed system refines the abstract life of a task: each step takes every row
    of the task table to itself or by one claim of a queued task, one report by its own
    worker to running, completed or failed, or one requeue of an assigned or running task;
    a new row is queued and unassigned, and no row disappears or changes its id, org unit,
    priority, agent, text, retry count or error message. *)
Theorem task_life w w' :
  db_inv (w_db w) → sys_step w w' →
  ∃ old new, db_tasks (w_db w') = (old ++ new)%list ∧
    Forall2 (λ t t', (t' = t ∨ task_step t t') ∧ task_identity t' = task_identity t)
      (db_tasks (w_db w)) old ∧
    (length new <= 1)%nat ∧
    ∀ t, t ∈ new → Task_State t = TaskStateQueued ∧ Task_AssignedWorkerID t = None.
Proof.
  intros Hinv Hs. destruct (sys_step_evolves w w' Hinv Hs) as [(new & Hnew & old & Ht & Hold) _ _ _ _].
  exists old, new. split; [done|]. split.
  - eapply Forall2_impl; [exact Hold|]. intros t t' [->|[Hst _]]; [auto|].
    split; [by right|]. by apply task_step_identity.
  - destruct Hnew as [->|(t & -> & Hq & Hn & _)]; simpl; split; try lia.
    + by intros ? ?%elem_of_nil.
    + by intros ? ->%list_elem_of_singleton.
Qed.

(** *** Isolation and privilege *)

Lemma elem_of_map_if {A} (p : A → bool) (f : A → A) (q : A → Prop) l x :
  (∀ y, y ∈ l → p y = true → ¬ q y) → (∀ y, q (f y) → q y) → q x →
  x ∈ map (λ y, if p y then f y else y) l ↔ x ∈ l.
Proof.
  intros Hp Hf Hx. rewrite elem_of_bmap. split.
  - intros (y & -> & Hin). destruct (p y) eqn:E; [|done]. destruct (Hp y Hin E). by apply Hf.
  - intros Hin. exists x. split; [|done]. destruct (p x) eqn:E; [|done]. by destruct (Hp x Hin E).
Qed.

(** The caller's token unlocks a key that satisfies [P]. *)
Definition token (r : http_request) (w : world R) (P : APIKey → Prop) : Prop :=
  ∃ pt k, bearer (Req_Header r "Authorization") pt ∧ unlocks w pt k ∧ P k.

#[local] Abbreviation serve := (NewRouter deps).

Lemma serve_cases r w resp w' :
  db_inv (w_db w) → serve r w = (resp, w') →
  refused (w_db w) (w_db w') ∨
  token r w (λ k, request_effect (key_context k) (w_now w) (uuid_head w) (w_db w) (w_db w')).
Proof.
  intros Hinv H. apply NewRouter_cases in H as [H|(pt & k & ? & ? & ?)]; [| |first [exact HL|apply Hinv]..].
  - by left.
  - right. by exists pt, k.
Qed.

Lemma refused_tables d d' :
  refused d d' →
  db_tasks d' = db_tasks d ∧ db_workers d' = db_workers d ∧ db_orgs d' = db_orgs d ∧
  db_apikeys d' = db_apikeys d ∧ db_outputs d' = db_outputs d ∧ db_ledger d' = db_ledger d.
Proof.
  intros [H _]. split_and!;
    [by apply (f_equal db_tasks) in H | by apply (f_equal db_workers) in H | by apply (f_equal db_orgs) in H
    | by apply (f_equal db_apikeys) in H | by apply (f_equal db_outputs) in H | by apply (f_equal db_ledger) in H].
Qed.

(** C1: Tenant isolation: whatever a request contains, unless its token unlocks a key of an
    org unit, the tasks, workers and API keys of that org unit are exactly the same after
    it as before. *)
Theorem tenant_isolation r w resp w' org :
  db_inv (w_db w) → serve r w = (resp, w') → ¬ token r w (λ k, Key_OrgUnitID k = org) →
  (∀ t, Task_OrgUnitID t = org → t ∈ db_tasks (w_db w') ↔ t ∈ db_tasks (w_db w)) ∧
  (∀ wk, Worker_OrgUnitID wk = org → wk ∈ db_workers (w_db w') ↔ wk ∈ db_workers (w_db w)) ∧
  (∀ k, Key_OrgUnitID k = org → k ∈ db_apikeys (w_db w') ↔ k ∈ db_apikeys (w_db w)).
Proof.
  intros Hinv H Hno. apply serve_cases in H as [(-> & -> & _ & -> & _)%refused_tables|(pt & k & Hb & Hu & He)];
    [done| |done].
  assert (Key_OrgUnitID k ≠ org) as Hne by (intros E; apply Hno; by exists pt, k).
  destruct He as [->|t _ [= Ho] _ _ _ _ ->|t wid st _ Hin [= Ho] _ _ _ ->
    |org' hash _ [= Ho] Hkeep _ _ _ _ Hsame|wk ags _ Hin [= Ho] ->|org' _ [= Ho] Hkeep Hsame|os _ -> _
    |wid o _ _ _ _ Hl|o t key st _ _ _ _ _ _ _ Hl].
  - done.
  - split_and!; try done. intros t' Ht'. simpl. rewrite elem_of_app, list_elem_of_singleton.
    split; [|by left]. intros [?| ->]; [done|congruence].
  - split_and!; try done. intros t' Ht'. cbn [db_tasks set_tasks].
    apply (elem_of_map_if _ _ (λ x, Task_OrgUnitID x = org)); [|done..].
    intros y Hy E. boolify.
    assert (y = t) as -> by (by apply (NoDup_map_inj Task_ID (db_tasks (w_db w))); [apply inv_tasks|..]).
    congruence.
  - apply set_workers_same in Hsame as (-> & _ & -> & _). split_and!; try done.
    intros o Ho'. apply Hkeep. unfold host_key. congruence.
  - split_and!; try done. intros o Ho'. cbn [db_workers set_workers].
    apply (elem_of_map_if _ _ (λ x, Worker_OrgUnitID x = org)); [|done..].
    intros y Hy E. boolify.
    assert (y = wk) as -> by (by apply (NoDup_map_inj Worker_ID (db_workers (w_db w))); [apply inv_workers|..]).
    congruence.
  - apply set_apikeys_same in Hsame as (-> & _ & -> & _). split_and!; try done.
    intros k' Hk'. apply Hkeep. congruence.
  - done.
  - apply ledger_only_tables in Hl as (-> & -> & _ & -> & _). done.
  - apply ledger_only_tables in Hl as (-> & -> & _ & -> & _). done.
Qed.

(** C11: Privilege: a request changes the task table only with a token of scope tasks:write,
    the worker table only with workers:register or workers:heartbeat, the key table only
    with keys:write, the org units only with admin, and outputs and points only with
    tasks:write or workers:heartbeat (admin standing for every scope). *)
Theorem scope_needed r w resp w' :
  db_inv (w_db w) → serve r w = (resp, w') →
  let scoped s := token r w (λ k, has_scope (key_context k) s) in
  (db_tasks (w_db w') ≠ db_tasks (w_db w) → scoped "tasks:write") ∧
  (db_workers (w_db w') ≠ db_workers (w_db w) → scoped "workers:register" ∨ scoped "workers:heartbeat") ∧
  (db_apikeys (w_db w') ≠ db_apikeys (w_db w) → scoped "keys:write") ∧
  (db_orgs (w_db w') ≠ db_orgs (w_db w) → scoped "admin") ∧
  (db_outputs (w_db w') ≠ db_outputs (w_db w) ∨ db_ledger (w_db w') ≠ db_ledger (w_db w) →
     scoped "tasks:write" ∨ scoped "workers:heartbeat").
Proof.
  intros Hinv H scoped. apply serve_cases in H as [(-> & -> & -> & -> & -> & ->)%refused_tables|(pt & k & Hb & Hu & He)];
    [split_and!; intros H; by destruct H| |done].
  assert (∀ s, has_scope (key_context k) s → scoped s) as Hs by (intros s Hs; by exists pt, k).
  destruct He as [->|t Hsc _ _ _ _ _ ->|t wid st Hsc _ _ _ _ _ ->
    |org' hash Hsc _ _ _ _ _ _ Hsame|wk ags Hsc _ _ ->|org' Hsc _ _ Hsame|os Hsc -> _
    |wid o Hsc _ _ _ Hl|o t key st Hsc _ _ _ _ _ _ Hl]; apply Hs in Hsc || idtac;
    try (split_and!; intros Hd; first [by auto | by destruct Hd]).
  - apply set_workers_same in Hsame as (-> & -> & -> & -> & -> & _).
    split_and!; intros Hd; first [by auto | by destruct Hd].
  - apply set_apikeys_same in Hsame as (-> & -> & -> & -> & -> & _).
    split_and!; intros Hd; first [by auto | by destruct Hd].
  - apply ledger_only_tables in Hl as (-> & -> & -> & -> & _).
    split_and!; intros Hd; first [by auto | by destruct Hd].
  - apply ledger_only_tables in Hl as (-> & -> & -> & -> & _).
    split_and!; intros Hd; first [by auto | by destruct Hd].
Qed.

(** C9: A request changes an existing task only if its token unlocks a key bound to the very
    worker the task is assigned to, of the task's own org unit and with scope tasks:write;
    and then only to one of the states running, completed and failed. *)
Theorem task_change_authorized r w resp w' t :
  db_inv (w_db w) → serve r w = (resp, w') →
  t ∈ db_tasks (w_db w) → t ∉ db_tasks (w_db w') →
  ∃ wid st, Task_AssignedWorkerID t = Some wid ∧ reportable st ∧
    task_set_state (w_now w) st (Some wid) t ∈ db_tasks (w_db w') ∧
    token r w (λ k, Key_WorkerID k = Some wid ∧ Key_OrgUnitID k = Task_OrgUnitID t ∧
                    has_scope (key_context k) "tasks:write").
Proof.
  intros Hinv H Hin Hout. apply serve_cases in H as [(E & _)%refused_tables|(pt & k & Hb & Hu & He)];
    [by rewrite E in Hout| |done].
  revert Hout. destruct He as [->|t1 _ _ _ _ _ _ ->|t1 wid st Hsc Hin1 [= Ho] [= Hw] Ha Hr ->
    |org' hash _ _ _ _ _ _ _ Hsame|wk ags _ _ _ ->|org' _ _ _ Hsame|os _ -> _
    |wid o _ _ _ _ Hl|o t1 key st _ _ _ _ _ _ _ Hl]; intros Hout.
  - done.
  - destruct Hout. simpl. apply elem_of_app. by left.
  - assert (t = t1) as ->.
    { destruct (decide (Task_ID t = Task_ID t1)) as [E|E].
      - by apply (NoDup_map_inj Task_ID (db_tasks (w_db w))); [apply inv_tasks|..].
      - destruct Hout. cbn [db_tasks set_tasks]. apply elem_of_bmap. exists t. split; [|done].
        by rewrite (proj2 (Z.eqb_neq _ _) E). }
    exists wid, st. split; [done|]. split; [done|]. split.
    + cbn [db_tasks set_tasks]. apply elem_of_bmap. exists t1. by rewrite Z.eqb_refl.
    + exists pt, k. by split_and!.
  - apply set_workers_same in Hsame as (E & _). by rewrite E in Hout.
  - done.
  - apply set_apikeys_same in Hsame as (E & _). by rewrite E in Hout.
  - done.
  - apply ledger_only_tables in Hl as (E & _). by rewrite E in Hout.
  - apply ledger_only_tables in Hl as (E & _). by rewrite E in Hout.
Qed.

(** *** Append-only logs *)

Lemma request_effect_logs c now fresh d d' :
  request_effect c now fresh d d' → db_audit d' = db_audit d ∧ db_ledger d `prefix_of` db_ledger d'.
Proof.
  intros [->|t _ _ _ _ _ _ ->|t wid st _ _ _ _ _ _ ->
    |org' hash _ _ _ _ _ _ _ Hsame|wk ags _ _ _ ->|org' _ _ _ Hsame|os _ -> _
    |wid o _ _ _ _ Hl|o t key st _ _ _ _ _ _ _ Hl]; try done.
  - by apply set_workers_same in Hsame as (_ & _ & _ & _ & -> & ->).
  - by apply set_apikeys_same in Hsame as (_ & _ & _ & _ & -> & ->).
  - by apply ledger_only_tables in Hl as (_ & _ & _ & _ & -> & _ & ?).
  - by apply ledger_only_tables in Hl as (_ & _ & _ & _ & -> & _ & ?).
Qed.

Lemma sys_step_logs w w' :
  db_inv (w_db w) → sys_step w w' →
  db_audit (w_db w) `prefix_of` db_audit (w_db w') ∧ db_ledger (w_db w) `prefix_of` db_ledger (w_db w').
Proof.
  intros Hinv Hstep. inversion Hstep as [r resp ?? Hfresh H|job l1 l2 u ?? Hb H|log ?? H|log ?? H|?? Hd _]; subst.
  - apply serve_cases in H as [Href|(pt & k & _ & _ & He)]; [| |done].
    + pose proof (refused_tables _ _ Href) as (_ & _ & _ & _ & _ & ->). split; [|done].
      destruct Href as [_ [-> |(ev & -> & _)]]; [done|by apply prefix_app_r].
    + by apply request_effect_logs in He as [-> ?].
  - by apply run_background_db in H as (_ & _ & _ & -> & ?).
  - apply tick_cases in H as [(_ & -> & _)|(_ & w1 & Hd & _ & _ & _ & H)]; [done|].
    apply tick_loop_run in H as [made H]; [|rewrite redis_zcard; lia].
    destruct H as [_ _ _ Hl [_ _ _ _ _ Ha _] _ _ _ _ _ _].
    by rewrite Hl, Ha, Hd.
  - apply reap_cases in H as [(_ & -> & _)|(st & back & w1 & Hd & _ & _ & _ & _ & [_ _ _ [_ _ _ _ _ Ha _] _ _ _ _ (es & l & Hl & _)])];
      [done|]. rewrite Ha, Hl, Hd. split; [done|by apply prefix_app_r].
  - by rewrite Hd.
Qed.

(** C36: The audit log and the incentive ledger are append-only: from any state the system
    reaches to any later one, what was recorded is still there, in order, at the
    beginning. *)
Theorem logs_append_only w w' :
  db_inv (w_db w) → reachable w w' →
  db_audit (w_db w) `prefix_of` db_audit (w_db w') ∧ db_ledger (w_db w) `prefix_of` db_ledger (w_db w').
Proof.
  intros Hinv Hr. induction Hr as [|w w1 w2 Hs _ IH]; [done|].
  apply sys_step_logs in Hs as Hl; [|done]. destruct Hl as [Ha Hl].
  destruct IH as [Ha2 Hl2]; [eapply db_evolves_inv; [by apply sys_step_evolves|done]|].
  split; by etrans.
Qed.
End system.
