(* ===== verification/WorkerLife.v ===== *)
(** * The life of a row of the worker table

    What each step of the control plane (System.v) does to the rows of the workers: a
    simulation by the abstract life of one row, [worker_step], and what it implies: only a
    registration makes a worker idle again, so a worker that has been given one task gets
    no other before its host registers again. *)
From S2P Require Import Prelude Sql GoStd Domain World RedisStore PgStore ClaimFacts Brownie.
From S2P Require Import Scheduler SchedulerFacts Security Http Middleware MiddlewareFacts.
From S2P Require Import TaskHandler WorkerHandler KeyHandler OutputHandler AdminHandlers Router System.
From Stdlib Require Import Ascii.

#[local] Open Scope string_scope.
#[local] Open Scope Z_scope.

(** ** One row *)

(** A row stays, or its state becomes [st] and its worker satisfies [P]. *)
Definition moved (st : string) (P : uuid → Prop) (a b : Worker) : Prop :=
  b = a ∨ b = worker_set_state st a ∧ P (Worker_ID a).

#[global] Instance moved_reflexive st P : Reflexive (moved st P).
Proof. by left. Qed.

#[global] Instance moved_transitive st P : Transitive (moved st P).
Proof. by intros a b c [->|[-> H1]] [->|[-> H2]]; [left|right..]. Qed.

Lemma moved_mono st (P Q : uuid → Prop) a b : (∀ id, P id → Q id) → moved st P a b → moved st Q a b.
Proof. intros H [->|[-> ?]]; [by left|right; auto]. Qed.

(** The rows of a table, one by one. *)
Definition rows_moved (st : string) (P : uuid → Prop) (d d' : pgdb) : Prop :=
  Forall2 (moved st P) (db_workers d) (db_workers d').

#[global] Instance rows_moved_preorder st P : PreOrder (rows_moved st P).
Proof. unfold rows_moved. split; [intros d; reflexivity|intros d1 d2 d3 ??; by etrans]. Qed.

Lemma rows_moved_same st P d d' : db_workers d' = db_workers d → rows_moved st P d d'.
Proof. unfold rows_moved. by intros ->. Qed.

Lemma rows_moved_mono st (P Q : uuid → Prop) d d' : (∀ id, P id → Q id) → rows_moved st P d d' → rows_moved st Q d d'.
Proof. intros H Hl. eapply Forall2_impl; [exact Hl|]. intros a b. by apply moved_mono. Qed.

Section worker_life.
Context {R : Type} `{RD : Redis R} `{UT : UUIDText}.
Implicit Types (w : world R).

Lemma UpdateWorkerState_rows wid st w r w' P :
  P wid → UpdateWorkerState wid st w = (r, w') → rows_moved st P (w_db w) (w_db w').
Proof.
  intros HP H. apply UpdateWorkerState_inv in H as (_ & _ & [[-> _]| ->]); [done|].
  unfold rows_moved. cbn [db_workers set_workers]. apply Forall2_map_r_in. intros wk _.
  unfold worker_by_id. destruct (Z.eqb_spec (Worker_ID wk) wid) as [<-|]; [by right|by left].
Qed.

(** The workers a pass of the scheduler marks busy are among those it considers. *)
Lemma tick_loop_rows workers : ∀ q w log w',
  tick_loop q workers w = (log, w') → rows_moved WorkerStateBusy (.∈ map Worker_ID workers) (w_db w) (w_db w').
Proof.
  induction workers as [|wk rest IH]; intros q w log w'; simpl; [by intros [= <- <-]|].
  destruct (q <=? 0); [by intros [= <- <-]|].
  unfold mbind, M_bind, mret, M_ret, txb_WithTx, pg_TxBeginner, sts_ClaimNextTask, pg_SchedulerTaskStore,
    sws_UpdateWorkerState, pg_SchedulerWorkerStore.
  destruct (WithTx _ w) as [r w1] eqn:E1.
  assert (db_workers (w_db w1) = db_workers (w_db w)) as Hd1.
  { apply claim_tx_cases in E1 as (_ & _ & _ & [[-> _]|(t0 & _ & _ & _ & _ & ->)]); done. }
  assert (∀ q w2 log w', tick_loop q rest w2 = (log, w') →
    rows_moved WorkerStateBusy (.∈ map Worker_ID (wk :: rest)) (w_db w2) (w_db w')) as Hrest.
  { intros q2 w2 log2 w2' H. eapply rows_moved_mono; [|by eapply IH]. intros id Hid. by right. }
  destruct r as [[t|]|e].
  - destruct (UpdateWorkerState _ _ w1) as [r2 w2] eqn:E2.
    destruct (tick_loop (q - 1) rest w2) as [log2 w3] eqn:E3. intros [= <- <-].
    etrans; [by apply (rows_moved_same _ _ _ _ Hd1)|].
    etrans; [eapply UpdateWorkerState_rows, E2; by left | by eapply Hrest].
  - intros H. etrans; [by apply (rows_moved_same _ _ _ _ Hd1)|by eapply Hrest].
  - intros H. etrans; [by apply (rows_moved_same _ _ _ _ Hd1)|by eapply Hrest].
Qed.

Lemma tick_rows w log w' :
  tick w = (log, w') → rows_moved WorkerStateBusy (.∈ map Worker_ID (idle_workers w)) (w_db w) (w_db w').
Proof.
  intros [(_ & -> & _)|(_ & w1 & Hd & _ & _ & _ & H)]%tick_cases; [done|].
  rewrite <-Hd. by eapply tick_loop_rows.
Qed.

(** The worker that a task abandoned in the state [w] is assigned to. *)
Definition abandoner (ttl : Z) (w : world R) (id : uuid) : Prop :=
  ∃ t, abandoned ttl w t ∧ Task_AssignedWorkerID t = Some id.

Lemma reap_loop_rows stale : ∀ w log w',
  reap_loop stale w = (log, w') →
  rows_moved WorkerStateOffline
    (λ id, ∃ t, t ∈ stale ∧ silent (w_now w) (w_redis w) t ∧ Task_AssignedWorkerID t = Some id) (w_db w) (w_db w').
Proof.
  induction stale as [|t rest IH]; intros w log w'; simpl; unfold mret, M_ret; [by intros [= <- <-]|].
  unfold mbind, M_bind. destruct (heartbeat_absent t w) as [b w1] eqn:E1.
  apply heartbeat_absent_inv in E1 as (Hd1 & Hr1 & Hn1 & Hs).
  set (P id := ∃ t', t' ∈ t :: rest ∧ _ ∧ Task_AssignedWorkerID t' = Some id).
  assert (∀ w2 log w', w_redis w2 = w_redis w → w_now w2 = w_now w → reap_loop rest w2 = (log, w') →
    rows_moved WorkerStateOffline P (w_db w2) (w_db w')) as Hrest.
  { intros w2 log2 w2' Hr2 Hn2 H. eapply rows_moved_mono; [|by eapply IH].
    intros id (t' & Hin & Hsil & Ha). rewrite Hr2, Hn2 in Hsil. exists t'. split_and!; [by right|done..]. }
  destruct b; simpl; [|intros H; rewrite <-Hd1; by eapply Hrest].
  unfold rts_UpdateTaskState, pg_ReaperTaskStore.
  destruct (UpdateTaskState _ _ _ w1) as [r2 w2] eqn:E2.
  apply UpdateTaskState_inv in E2 as (Hr2 & Hn2 & [[Hd2 Hr]|[[->|[Hr _]] Hd2]]).
  { destruct r2; [done|]. intros H. rewrite <-Hd1, <-Hd2. eapply Hrest; [..|exact H]; congruence. }
  2:{ destruct r2; [done|]. intros H. etrans; [apply (rows_moved_same _ _ _ (w_db w2)); by rewrite Hd2, <-Hd1|].
      eapply Hrest; [..|exact H]; congruence. }
  destruct (reap_worker t w2) as [u w3] eqn:E3.
  pose proof E3 as Hf. apply reap_worker_inv in Hf as (_ & _ & Hr3 & Hn3 & _).
  destruct (reap_loop rest w3) as [log' w4] eqn:E4. intros [= <- <-].
  etrans; [apply (rows_moved_same _ _ _ (w_db w2)); by rewrite Hd2, <-Hd1|].
  etrans; [|eapply Hrest; [..|exact E4]; congruence].
  unfold reap_worker, mbind, M_bind, mret, M_ret in E3.
  destruct (Task_AssignedWorkerID t) as [wid|] eqn:Ew; [|injection E3 as <- <-; reflexivity].
  unfold rws_UpdateWorkerState, pg_ReaperWorkerStore, bd_Deduct, pg_BrownieDeductor in E3.
  destruct (UpdateWorkerState _ _ w2) as [r4 w4'] eqn:E5.
  destruct (Deduct _ _ _ _ _ w4') as [r6 w6] eqn:E6. injection E3 as <- <-.
  etrans; [eapply UpdateWorkerState_rows, E5|apply rows_moved_same].
  - exists t. split_and!; [by left|auto|done].
  - apply brownie_write_cases in E6 as (_ & _ & [(_ & (e & _ & _ & _ & ->) & _)|[_ ->]]); done.
Qed.

Lemma reap_rows ttl w log w' :
  ttl_ok ttl → reap ttl w = (log, w') → rows_moved WorkerStateOffline (abandoner ttl w) (w_db w) (w_db w').
Proof.
  intros Ht H. unfold reap, mbind, M_bind, mret, M_ret, clock_Now, world_Clock, time_Now,
    rts_GetStaleTasks, pg_ReaperTaskStore in H.
  destruct (GetStaleTasks _ w) as [r w1] eqn:E. apply pg_query_inv in E as (Hd & Hr & Hn & E).
  fold (reap_deadline (w_now w) ttl) in E. rewrite <-Hd.
  destruct E as [->| ->]; [|injection H as <- <-; reflexivity].
  set (stale := List.flat_map _ _) in H.
  assert (reap_loop stale w1 = (log, w') ∨ w' = w1) as [Hrun| ->]
    by (destruct stale; [right; by injection H|by left]); [|done].
  eapply rows_moved_mono; [|by eapply reap_loop_rows]. intros id (t & Hin & Hs & Ha).
  exists t. split; [|done]. apply stale_abandoned; [done|]. rewrite Hr, Hn in Hs. split; [|done].
  by apply GetStaleTasks_elem in Hin.
Qed.

(** ** The abstract life of a row *)

(** A worker the scheduler may choose: idle, with a heartbeat in the last 90 seconds. *)
Definition ready (now : Z) (wk : Worker) : Prop :=
  Worker_State wk = WorkerStateIdle ∧ ∃ h, Worker_LastHeartbeatAt wk = Some h ∧ now - 90 * Second < h.

Lemma idle_recent_ready now wk : idle_recent now wk = true → ready now wk.
Proof.
  unfold idle_recent, ready. intros [->%String.eqb_eq H]%andb_true_iff. split; [done|].
  destruct (Worker_LastHeartbeatAt wk) as [h|]; [|done]. exists h. by boolify.
Qed.

Lemma idle_workers_ready w wk : wk ∈ idle_workers w → wk ∈ db_workers (w_db w) ∧ ready (w_now w) wk.
Proof.
  unfold idle_workers. intros [? ?]%elem_of_sql_order_by%elem_of_sql_where. auto using idle_recent_ready.
Qed.

(** What may happen to a row of the worker table in the state [w]. *)
Inductive worker_step (ttl : Z) (w : world R) (wk : Worker) : Worker → Prop :=
  (* it is given a task *)
  | wr_dispatched :
      ready (w_now w) wk → worker_step ttl w wk (worker_set_state WorkerStateBusy wk)
  (* it has left a task behind *)
  | wr_abandoned :
      abandoner ttl w (Worker_ID wk) → worker_step ttl w wk (worker_set_state WorkerStateOffline wk)
  (* it reports *)
  | wr_beat agents : worker_step ttl w wk (worker_set_heartbeat (w_now w) agents wk)
  (* its host registers again *)
  | wr_registered new :
      host_key new = host_key wk → Worker_State new = WorkerStateIdle →
      worker_step ttl w wk (worker_refresh new wk).

(** The columns that no step changes. *)
Definition worker_identity (wk : Worker) :=
  (Worker_ID wk, Worker_OrgUnitID wk, Worker_HostnameHash wk, Worker_CreatedAt wk).

Lemma worker_step_identity ttl w wk wk' : worker_step ttl w wk wk' → worker_identity wk' = worker_identity wk.
Proof. by destruct 1. Qed.

Lemma moved_steps ttl w st P l l' :
  (∀ wk, wk ∈ l → P (Worker_ID wk) → worker_step ttl w wk (worker_set_state st wk)) →
  Forall2 (moved st P) l l' → Forall2 (λ a b, b = a ∨ worker_step ttl w a b) l l'.
Proof.
  intros H Hl. revert H. induction Hl as [|a b l l' Hab _ IH]; intros H; constructor.
  - destruct Hab as [->|[-> HP]]; [by left|right]. apply H; [by left|done].
  - apply IH. intros wk Hin. apply H. by right.
Qed.

(** The rows of a table move by worker steps; a new row is idle. *)
Definition rows_step (ttl : Z) (w : world R) (ws ws' : list Worker) : Prop :=
  ∃ old new, ws' = (old ++ new)%list ∧ Forall2 (λ a b, b = a ∨ worker_step ttl w a b) ws old ∧
    (length new <= 1)%nat ∧ ∀ wk, wk ∈ new → Worker_State wk = WorkerStateIdle.

Lemma rows_step_old ttl w ws ws' : Forall2 (λ a b, b = a ∨ worker_step ttl w a b) ws ws' → rows_step ttl w ws ws'.
Proof.
  intros H. exists ws', []. rewrite app_nil_r. split_and!; [done..|simpl; lia|]. by intros ? ?%elem_of_nil.
Qed.

Lemma rows_step_refl ttl w ws : rows_step ttl w ws ws.
Proof. apply rows_step_old, Forall2_refl_or. Qed.

Lemma rows_step_upserted ttl w new ws ws' :
  Worker_State new = WorkerStateIdle → upserted new ws ws' → rows_step ttl w ws ws'.
Proof.
  intros Hs [->| ->].
  - apply rows_step_old. unfold sql_update. simpl. apply Forall2_map_r_in. intros wk _.
    destruct (worker_conflict new wk) eqn:E; [right|by left].
    apply worker_conflict_spec in E. by apply wr_registered.
  - exists ws, [new]. split_and!; [done|apply Forall2_refl_or|simpl; lia|].
    by intros wk ->%list_elem_of_singleton.
Qed.

(** The row of a worker, found again in the table of a later state by its id. *)
Lemma rows_step_lookup ttl w ws ws' wk' :
  rows_step ttl w ws ws' → wk' ∈ ws' →
  (∃ wk, wk ∈ ws ∧ (wk' = wk ∨ worker_step ttl w wk wk')) ∨ Worker_State wk' = WorkerStateIdle.
Proof.
  intros (old & new & -> & Hold & _ & Hnew) [Hin|Hin]%elem_of_app; [left|right; auto].
  apply list_elem_of_lookup in Hin as [i Hi]. destruct (Forall2_lookup_r _ _ _ _ _ Hold Hi) as (wk & Hl & Hs).
  exists wk. split; [by eapply list_elem_of_lookup_2|done].
Qed.

Lemma rows_step_keeps ttl w ws ws' wk :
  rows_step ttl w ws ws' → wk ∈ ws → ∃ wk', wk' ∈ ws' ∧ (wk' = wk ∨ worker_step ttl w wk wk').
Proof.
  intros (old & new & -> & Hold & _) Hin. apply list_elem_of_lookup in Hin as [i Hi].
  destruct (Forall2_lookup_l _ _ _ _ _ Hold Hi) as (wk' & Hl & Hs).
  exists wk'. split; [|done]. apply elem_of_app. left. by eapply list_elem_of_lookup_2.
Qed.
End worker_life.

Section system_workers.
Context {R : Type} `{RD : Redis R} `{UT : UUIDText} `{A2 : Argon2} `{CH : Chi} `{HUB : DashboardHub R}
  `{TP : TimeParse} `{ET : ErrorText}.
Context `{JC : JSONDecode createTaskRequest} `{JU : JSONDecode updateTaskStateRequest}
  `{JR : JSONDecode registerWorkerRequest} `{JH : JSONDecode heartbeatRequest}
  `{JK : JSONDecode createAPIKeyRequest} `{JS : JSONDecode submitRequest} `{JV : JSONDecode reviewRequest}
  `{JO : JSONDecode createOrgRequest} `{JP : JSONDecode OrgPolicy}.
Context `{RL : !RedisLaws R} `{HL : !DashboardHubLaws R}.
Context (deps : RouterDeps).
Implicit Types (w : world R).

Local Abbreviation ttl := (RD_HeartbeatTTLSec deps).

(** *** Each kind of step *)

(** A request steps the rows; one that makes a worker idle registers it. *)
Lemma request_effect_rows c w d' :
  request_effect c (w_now w) (uuid_head w) (w_db w) d' →
  rows_step ttl w (db_workers (w_db w)) (db_workers d') ∧
  (db_workers d' = db_workers (w_db w) ∨
   (∃ wk agents, db_workers d' = map (λ x, if Worker_ID x =? Worker_ID wk
      then worker_set_heartbeat (w_now w) agents x else x) (db_workers (w_db w))) ∨
   (∃ new, has_scope c "workers:register" ∧ ctx_OrgUnitID c = Some (Worker_OrgUnitID new) ∧
      upserted new (db_workers (w_db w)) (db_workers d'))).
Proof.
  intros [->|t _ _ _ _ _ _ ->|t wid st _ _ _ _ _ _ ->
    |org hash Hsc Horg _ _ _ _ (new & Hk & Hi & Hup) _|wk ags _ _ _ ->|org _ _ _ Hsame|os _ -> _
    |wid o _ _ _ _ Hl|o t key st _ _ _ _ _ _ _ Hl].
  - split; [apply rows_step_refl|by left].
  - split; [apply rows_step_refl|by left].
  - split; [apply rows_step_refl|by left].
  - split; [by eapply rows_step_upserted|right; right]. exists new.
    split_and!; [done| |done]. rewrite Horg. unfold host_key in Hk. congruence.
  - split; [|right; left; by exists wk, ags]. apply rows_step_old. cbn [db_workers set_workers].
    apply Forall2_map_r_in. intros x _. destruct (_ =? _); [right; apply wr_beat|by left].
  - apply set_apikeys_same in Hsame as (_ & _ & -> & _). split; [apply rows_step_refl|by left].
  - split; [apply rows_step_refl|by left].
  - apply ledger_only_tables in Hl as (_ & -> & _). split; [apply rows_step_refl|by left].
  - apply ledger_only_tables in Hl as (_ & -> & _). split; [apply rows_step_refl|by left].
Qed.

Lemma tick_rows_step w log w' : tick w = (log, w') → db_inv (w_db w) →
  rows_step ttl w (db_workers (w_db w)) (db_workers (w_db w')).
Proof.
  intros H Hinv. apply rows_step_old. eapply moved_steps; [|by eapply tick_rows].
  intros wk Hin Hid. apply wr_dispatched. simpl in Hid. apply elem_of_bmap in Hid as (wk0 & Hid & Hin0).
  apply idle_workers_ready in Hin0 as [Hin0 Hi].
  replace wk with wk0; [done|]. apply (NoDup_map_inj Worker_ID (db_workers (w_db w))); [apply Hinv|done..].
Qed.

Lemma sys_step_rows w w' : ttl_ok ttl → db_inv (w_db w) → sys_step deps w w' →
  rows_step ttl w (db_workers (w_db w)) (db_workers (w_db w')).
Proof.
  intros Ht Hinv Hstep. inversion Hstep as [r resp ?? Hfresh H|job l1 l2 u ?? Hb H|log ?? H|log ?? H|?? Hd _]; subst.
  - apply serve_cases in H as [(_ & -> & _)%refused_tables|(pt & k & _ & _ & He)]; [apply rows_step_refl| |done].
    by apply request_effect_rows in He as [? _].
  - apply run_background_db in H as (_ & -> & _). apply rows_step_refl.
  - by eapply tick_rows_step.
  - apply rows_step_old. eapply moved_steps; [|by eapply reap_rows]. intros wk _ Ha. by apply wr_abandoned.
  - rewrite Hd. apply rows_step_refl.
Qed.

(** A task waits for a worker after a step only if it did before, or the worker was idle
    with a recent heartbeat. *)
Lemma sys_step_assigned w w' wid t' :
  db_inv (w_db w) → sys_step deps w w' → t' ∈ db_tasks (w_db w') → assigned_to wid t' = true →
  (∃ t, t ∈ db_tasks (w_db w) ∧ Task_ID t = Task_ID t' ∧ assigned_to wid t = true) ∨
  ∃ wk, wk ∈ db_workers (w_db w) ∧ Worker_ID wk = wid ∧ ready (w_now w) wk.
Proof.
  intros Hinv Hstep Hin Ha.
  assert (db_tasks (w_db w') = db_tasks (w_db w) → (∃ t, t ∈ db_tasks (w_db w) ∧ Task_ID t = Task_ID t' ∧ assigned_to wid t = true)) as Hsame.
  { intros E. rewrite E in Hin. by exists t'. }
  unfold assigned_to in Ha. apply andb_true_iff in Ha as [Hw%bool_decide_eq_true Hs%String.eqb_eq].
  inversion Hstep as [r resp ?? Hfresh H|job l1 l2 u ?? Hb H|log ?? H|log ?? H|?? Hd _]; subst.
  - left. apply serve_cases in H as [(E & _)%refused_tables|(pt & k & _ & _ & He)]; [by apply Hsame| |done].
    destruct He as [E|t _ _ Hq _ _ _ E|t wid' st _ _ _ _ _ Hr E
      |org' hash _ _ _ _ _ _ _ E|wk ags _ _ _ E|org' _ _ _ E|os _ E _|wid' o _ _ _ _ E|o t key st _ _ _ _ _ _ _ E].
    + apply Hsame. by rewrite E.
    + rewrite E in Hin. cbn [db_tasks set_tasks] in Hin.
      apply elem_of_app in Hin as [Hin| ->%list_elem_of_singleton]; [|by rewrite Hq in Hs].
      exists t'. split_and!; [done..|]. unfold assigned_to. by rewrite bool_decide_eq_true_2, Hs.
    + rewrite E in Hin. cbn [db_tasks set_tasks] in Hin. apply elem_of_bmap in Hin as (t0 & -> & Hin).
      destruct (_ =? _); [destruct Hr as [->|[->| ->]]; done|].
      exists t0. split_and!; [done..|]. unfold assigned_to. by rewrite bool_decide_eq_true_2, Hs.
    + apply set_workers_same in E as (E & _). by apply Hsame.
    + apply Hsame. by rewrite E.
    + apply set_apikeys_same in E as (E & _). by apply Hsame.
    + apply Hsame. by rewrite E.
    + apply ledger_only_tables in E as (E & _). by apply Hsame.
    + apply ledger_only_tables in E as (E & _). by apply Hsame.
  - left. apply run_background_db in H as (E & _). by apply Hsame.
  - apply tick_cases in H as [(_ & E & _)|(_ & w1 & Hd & _ & Hn & _ & H)]; [left; apply Hsame; by rewrite E|].
    apply tick_loop_run in H as [made H]; [|rewrite redis_zcard; lia].
    pose proof (tick_run_tasks _ _ _ _ _ _ H) as Ht. rewrite Ht, Hd, Hn in Hin. apply elem_of_bmap in Hin as (t0 & -> & Hin).
    unfold dispatched in *. destruct (assigned_in made (Task_ID t0)) as [wid'|] eqn:E.
    2:{ left. exists t0. split_and!; [done..|]. unfold assigned_to. by rewrite bool_decide_eq_true_2, Hs. }
    right. simpl in Hw. injection Hw as ->.
    apply assigned_in_Some in E as (x & Hx & _ & Hxw).
    destruct (tick_run_good _ _ _ _ _ _ H _ Hx) as (wk & t1 & Hwk & Hw2 & _).
    apply idle_workers_ready in Hwk as [Hwk Hi].
    exists wk. split_and!; [done|congruence|done].
  - left. apply reap_cases in H as [(_ & E & _)|(st & back & w1 & Hd & _ & Hn & _ & _ & [_ _ Ht _ _ _ _ _ _])]; [apply Hsame; by rewrite E|].
    rewrite Ht, Hd in Hin. apply elem_of_bmap in Hin as (t0 & -> & Hin). unfold requeued in *.
    destruct (existsb _ _); [done|].
    exists t0. split_and!; [done..|]. unfold assigned_to. by rewrite bool_decide_eq_true_2, Hs.
  - left. rewrite Hd in Hsame. by apply Hsame.
Qed.

(** C3: The detailed system refines the abstract life of a worker: each step takes every row
    of the worker table to itself or by one dispatch (an idle worker with a heartbeat in
    the last 90 seconds becomes busy), one report of the worker, one registration of its
    host (which makes it idle), or because it has left a task behind (it becomes offline);
    a new row is idle, and no row disappears or changes its id, org unit or host.  And a
    task waits for a worker after the step only if it did before, or the worker was idle
    with a recent heartbeat. *)
Theorem worker_life w w' :
  ttl_ok ttl → db_inv (w_db w) → sys_step deps w w' →
  (∃ old new, db_workers (w_db w') = (old ++ new)%list ∧
     Forall2 (λ a b, (b = a ∨ worker_step ttl w a b) ∧ worker_identity b = worker_identity a)
       (db_workers (w_db w)) old ∧
     (length new <= 1)%nat ∧ ∀ wk, wk ∈ new → Worker_State wk = WorkerStateIdle) ∧
  ∀ t' wid, t' ∈ db_tasks (w_db w') → assigned_to wid t' = true →
    (∃ t, t ∈ db_tasks (w_db w) ∧ Task_ID t = Task_ID t' ∧ assigned_to wid t = true) ∨
    ∃ wk, wk ∈ db_workers (w_db w) ∧ Worker_ID wk = wid ∧ ready (w_now w) wk.
Proof.
  intros Ht Hinv Hs. split; [|intros t' wid; by apply sys_step_assigned].
  destruct (sys_step_rows w w' Ht Hinv Hs) as (old & new & E & Hold & Hlen & Hnew).
  exists old, new. split_and!; [done| |done..].
  eapply Forall2_impl; [exact Hold|]. intros a b [->|Hab]; [auto|].
  split; [by right|]. by eapply worker_step_identity.
Qed.

(** ** Without a registration *)

(** A step in which no token of the org unit that may register workers is used. *)
Definition closed_step (org : uuid) (w w' : world R) : Prop :=
  sys_step deps w w' ∧
  (* a step that is a request *)
  ((∃ r resp, NewRouter deps r w = (resp, w') ∧
      ¬ token r w (λ k, Key_OrgUnitID k = org ∧ has_scope (key_context k) "workers:register")) ∨
   (* a goroutine, a pass, or time *)
   (∃ job l1 l2 u, w_bg w = (l1 ++ job :: l2)%list ∧ run_background job (set_bg (l1 ++ l2)%list w) = (u, w')) ∨
   (∃ log, tick w = (log, w')) ∨ (∃ log, reap ttl w = (log, w')) ∨ w_db w' = w_db w).

(** A row of the org unit that is not idle is not idle after such a step. *)
Lemma closed_step_row org w w' wk :
  ttl_ok ttl → db_inv (w_db w) → closed_step org w w' →
  wk ∈ db_workers (w_db w) → Worker_OrgUnitID wk = org → Worker_State wk ≠ WorkerStateIdle →
  ∃ wk', wk' ∈ db_workers (w_db w') ∧ Worker_ID wk' = Worker_ID wk ∧ Worker_OrgUnitID wk' = org ∧
    Worker_State wk' ≠ WorkerStateIdle.
Proof.
  intros Ht Hinv [_ Hkind] Hin Horg Hni.
  assert (∀ st P, st ≠ WorkerStateIdle → rows_moved st P (w_db w) (w_db w') →
    ∃ wk', wk' ∈ db_workers (w_db w') ∧ Worker_ID wk' = Worker_ID wk ∧ Worker_OrgUnitID wk' = org ∧
      Worker_State wk' ≠ WorkerStateIdle) as Hmoved.
  { intros st P Hst Hrows. apply list_elem_of_lookup in Hin as [i Hi].
    destruct (Forall2_lookup_l _ _ _ _ _ Hrows Hi) as (wk' & Hl & Hm). exists wk'.
    split; [by eapply list_elem_of_lookup_2|]. by destruct Hm as [->|[-> _]]. }
  assert (db_workers (w_db w') = db_workers (w_db w) →
    ∃ wk', wk' ∈ db_workers (w_db w') ∧ Worker_ID wk' = Worker_ID wk ∧ Worker_OrgUnitID wk' = org ∧
      Worker_State wk' ≠ WorkerStateIdle) as Hsame by (intros ->; by exists wk).
  destruct Hkind as [(r & resp & H & Hno)|[(job & l1 & l2 & u & _ & H)|[(log & H)|[(log & H)|E]]]].
  - apply serve_cases in H as [(_ & E & _)%refused_tables|(pt & k & Hb & Hu & He)]; [by apply Hsame| |done].
    apply request_effect_rows in He as (_ & [E|[(wk0 & ags & E)|(new & Hsc & Ho & Hup)]]); [by apply Hsame| |].
    + rewrite E. eexists. split; [apply elem_of_bmap; by exists wk|]. by destruct (_ =? _).
    + assert (Worker_OrgUnitID new ≠ org) as Hne.
      { intros <-. apply Hno. exists pt, k. injection Ho as Ho. by split_and!. }
      exists wk. split; [|done]. destruct Hup as [->| ->]; [|apply elem_of_app; by left].
      apply elem_of_sql_update. exists wk. split; [done|].
      destruct (worker_conflict new wk) eqn:Ec; [|done].
      apply worker_conflict_spec in Ec. unfold host_key in Ec. congruence.
  - apply run_background_db in H as (_ & E & _). by apply Hsame.
  - eapply Hmoved; [|by eapply tick_rows]. done.
  - eapply Hmoved; [|by eapply reap_rows]. done.
  - apply Hsame. by rewrite E.
Qed.

(** C4: Nothing but a registration gives a worker new work: from a state in which a worker is
    not idle (the scheduler marks it busy with its first task), and along any run in which
    no request carries a token that may register workers of its org unit, the worker
    never becomes idle again, however often it reports that its task is done, and every
    task that waits for it at the end was already waiting for it at the beginning. *)
Theorem busy_worker_starves org w w' wk :
  ttl_ok ttl → db_inv (w_db w) → rtc (closed_step org) w w' →
  wk ∈ db_workers (w_db w) → Worker_OrgUnitID wk = org → Worker_State wk ≠ WorkerStateIdle →
  (∀ wk', wk' ∈ db_workers (w_db w') → Worker_ID wk' = Worker_ID wk → Worker_State wk' ≠ WorkerStateIdle) ∧
  ∀ t', t' ∈ db_tasks (w_db w') → assigned_to (Worker_ID wk) t' = true →
    ∃ t, t ∈ db_tasks (w_db w) ∧ Task_ID t = Task_ID t' ∧ assigned_to (Worker_ID wk) t = true.
Proof.
  intros Ht Hinv Hr. revert wk Hinv. induction Hr as [w|w w1 w2 Hs _ IH]; intros wk Hinv Hin Horg Hni.
  - split; [|by eauto]. intros wk' Hin' Hid.
    by rewrite (NoDup_map_inj Worker_ID (db_workers (w_db w)) wk' wk (inv_workers _ Hinv) Hin' Hin Hid).
  - destruct (closed_step_row org w w1 wk) as (wk1 & Hin1 & Hid1 & Ho1 & Hni1); [done..|].
    destruct Hs as [Hs _].
    assert (db_inv (w_db w1)) as Hinv1 by (eapply db_evolves_inv; [by apply (sys_step_evolves deps)|done]).
    destruct (IH wk1 Hinv1 Hin1 Ho1 Hni1) as [H1 H2]. rewrite Hid1 in *. split; [done|].
    intros t' Hin' Ha. destruct (H2 t' Hin' Ha) as (t1 & Hint1 & Hidt & Ha1). rewrite <-Hidt.
    destruct (sys_step_assigned w w1 _ t1 Hinv Hs Hint1 Ha1) as [?|(wk0 & Hin0 & Hid0 & Hi)]; [done|].
    destruct Hni. replace wk with wk0.
    + apply Hi.
    + apply (NoDup_map_inj Worker_ID (db_workers (w_db w))); [apply Hinv|done..].
Qed.
End system_workers.
