(* ===== verification/Hub.v ===== *)
(** * internal/dashboard/hub.go: the server-sent-event hub

    Every connection has a buffered channel; [Broadcast] fans an event out to an org unit's
    connections, [BroadcastAll] to all.  A channel is a buffer and a closed flag, and
    sending on (or closing) a closed channel is a panic, [None].  Go leaves the order of a
    range over a map open: the loops take the list of clients they visit.

    [Broadcast] releases the lock before it sends, so connections come and go between its
    picking a client and sending to it: it is split into those two steps in [hub_step]. *)
From S2P Require Import Prelude GoStd Domain.

#[local] Open Scope Z_scope.

Record Event := MkEvent {
  Ev_ID : string;
  Ev_Type : string;
  Ev_Data : json;
}.

Record Client := MkClient {
  cl_orgID : uuid;
  cl_clientID : uuid;
  cl_ch : nat;                   (* the channel, by its allocation number *)
}.

#[export] Instance Client_eq_dec : EqDecision Client.
Proof. solve_decision. Defined.

(** A channel of capacity 32: its buffer, oldest first, and whether it is closed. *)
Abbreviation channel := (list Event * bool)%type.
Definition chan_cap : nat := 32.

Record Hub := MkHub {
  h_clients : gmap uuid (gmap uuid Client);
  h_maxClients : Z;
  h_chans : gmap nat channel;
  h_next : nat;
}.

Definition NewHub (maxClients : Z) : Hub := MkHub ∅ maxClients ∅ 0.

(** The count of the loop in Register. *)
Definition hub_total (m : gmap uuid (gmap uuid Client)) : Z :=
  map_fold (λ _ (inner : gmap uuid Client) total, total + Z.of_nat (size inner)) 0 m.

Definition Register (orgID id : uuid) (h : Hub) : option Client * Hub :=
  if h_maxClients h <=? hub_total (h_clients h) then (None, h)
  else
    let c := MkClient orgID id (h_next h) in
    let inner := default ∅ (h_clients h !! orgID) in
    (Some c, MkHub (<[orgID := <[id := c]> inner]> (h_clients h)) (h_maxClients h)
               (<[h_next h := ([], false)]> (h_chans h)) (S (h_next h))).

Definition close_chan (ch : nat) (chans : gmap nat channel) : option (gmap nat channel) :=
  match chans !! ch with
  | Some (buf, false) => Some (<[ch := (buf, true)]> chans)
  | _ => None
  end.

(** The deletion in Unregister. *)
Definition remove_client (c : Client) (m : gmap uuid (gmap uuid Client)) : gmap uuid (gmap uuid Client) :=
  match m !! cl_orgID c with
  | None => m
  | Some inner =>
      let inner := delete (cl_clientID c) inner in
      if decide (size inner = 0)%nat then delete (cl_orgID c) m else <[cl_orgID c := inner]> m
  end.

Definition Unregister (c : Client) (h : Hub) : option Hub :=
  match close_chan (cl_ch c) (h_chans h) with
  | Some chans => Some (MkHub (remove_client c (h_clients h)) (h_maxClients h) chans (h_next h))
  | None => None
  end.

(** The non-blocking send: a full buffer drops the event. *)
Definition send (ch : nat) (ev : Event) (chans : gmap nat channel) : option (gmap nat channel) :=
  match chans !! ch with
  | Some (buf, false) =>
      if (length buf <? chan_cap)%nat then Some (<[ch := (buf ++ [ev], false)]> chans) else Some chans
  | _ => None
  end.

Fixpoint send_each (cs : list Client) (ev : Event) (chans : gmap nat channel) : option (gmap nat channel) :=
  match cs with
  | [] => Some chans
  | c :: cs =>
      match send (cl_ch c) ev chans with
      | Some chans => send_each cs ev chans
      | None => None
      end
  end.

Definition set_chans (chans : gmap nat channel) (h : Hub) : Hub :=
  MkHub (h_clients h) (h_maxClients h) chans (h_next h).

(** BroadcastAll holds the read lock while it sends to all clients, [cs]. *)
Definition BroadcastAll (cs : list Client) (ev : Event) (h : Hub) : option Hub :=
  match send_each cs ev (h_chans h) with
  | Some chans => Some (set_chans chans h)
  | None => None
  end.

(** The clients registered for an org unit. *)
Definition registered (h : Hub) (c : Client) : Prop :=
  ∃ inner, h_clients h !! cl_orgID c = Some inner ∧ inner !! cl_clientID c = Some c.

(** The receive of the ServeSSE loop: the next event to write, if one is buffered. *)
Definition receive (c : Client) (h : Hub) : option (Event * Hub) :=
  match h_chans h !! cl_ch c with
  | Some (ev :: buf, closed) => Some (ev, set_chans (<[cl_ch c := (buf, closed)]> (h_chans h)) h)
  | _ => None
  end.

(** ** The hub and its connections *)

(** A Broadcast in progress: its org unit and event, and the client it has picked from the
    map but not sent to yet. *)
Record broadcast := MkBroadcast {
  bc_org : uuid;
  bc_event : Event;
  bc_picked : option Client;
}.

(** The hub, the connections being served, and the broadcasts in progress. *)
Record hub_state := MkHubState {
  hs_hub : Hub;
  hs_live : list Client;
  hs_bcasts : list broadcast;
}.

(** One step; [None] is a panic, which ends the process. *)
Inductive hub_step : hub_state → option hub_state → Prop :=
  (* ServeSSE: a connection that fits, with a fresh id, and one that does not *)
  | hub_connect org id c h h' live bcs :
      (∀ c', c' ∈ live → cl_clientID c' ≠ id) → Register org id h = (Some c, h') →
      hub_step (MkHubState h live bcs) (Some (MkHubState h' (c :: live) bcs))
  | hub_refuse org id h h' live bcs :
      Register org id h = (None, h') →
      hub_step (MkHubState h live bcs) (Some (MkHubState h' live bcs))
  (* ServeSSE returns: its deferred Unregister *)
  | hub_disconnect c h l1 l2 bcs :
      hub_step (MkHubState h (l1 ++ c :: l2) bcs)
        (match Unregister c h with Some h' => Some (MkHubState h' (l1 ++ l2) bcs) | None => None end)
  | hub_receive c ev h h' live bcs :
      c ∈ live → receive c h = Some (ev, h') →
      hub_step (MkHubState h live bcs) (Some (MkHubState h' live bcs))
  | hub_all cs ev h live bcs :
      (∀ c, c ∈ cs ↔ registered h c) → NoDup cs →
      hub_step (MkHubState h live bcs)
        (match BroadcastAll cs ev h with Some h' => Some (MkHubState h' live bcs) | None => None end)
  (* Broadcast: called; one client of the map picked; the event sent to it; done *)
  | hub_bc_start org ev h live bcs :
      hub_step (MkHubState h live bcs) (Some (MkHubState h live (MkBroadcast org ev None :: bcs)))
  | hub_bc_pick c ev h live b1 b2 :
      registered h c →
      hub_step (MkHubState h live (b1 ++ MkBroadcast (cl_orgID c) ev None :: b2))
        (Some (MkHubState h live (b1 ++ MkBroadcast (cl_orgID c) ev (Some c) :: b2)))
  | hub_bc_send c ev h live org b1 b2 :
      hub_step (MkHubState h live (b1 ++ MkBroadcast org ev (Some c) :: b2))
        (match send (cl_ch c) ev (h_chans h) with
         | Some chans => Some (MkHubState (set_chans chans h) live (b1 ++ MkBroadcast org ev None :: b2))
         | None => None
         end)
  | hub_bc_done org ev h live b1 b2 :
      hub_step (MkHubState h live (b1 ++ MkBroadcast org ev None :: b2))
        (Some (MkHubState h live (b1 ++ b2))).

Definition hub_init (maxClients : Z) : hub_state := MkHubState (NewHub maxClients) [] [].

Inductive hub_reachable (maxClients : Z) : hub_state → Prop :=
  | hub_reach_init : hub_reachable maxClients (hub_init maxClients)
  | hub_reach_step s s' : hub_reachable maxClients s → hub_step s (Some s') → hub_reachable maxClients s'.

(** ** Counting *)

Lemma hub_total_comm (j1 j2 : uuid) (z1 z2 : gmap uuid Client) (y : Z) :
  (y + Z.of_nat (size z2)) + Z.of_nat (size z1) = (y + Z.of_nat (size z1)) + Z.of_nat (size z2).
Proof. lia. Qed.

Lemma hub_total_insert org (inner : gmap uuid Client) m :
  hub_total (<[org := inner]> m) = hub_total (delete org m) + Z.of_nat (size inner).
Proof.
  unfold hub_total. rewrite <-insert_delete_eq.
  rewrite map_fold_insert_L; [done| |by apply lookup_delete_eq].
  intros. apply hub_total_comm; done.
Qed.

Lemma hub_total_delete org (inner : gmap uuid Client) m :
  m !! org = Some inner → hub_total m = hub_total (delete org m) + Z.of_nat (size inner).
Proof.
  intros H. unfold hub_total. rewrite (map_fold_delete_L _ _ org inner); [done| |done].
  intros. apply hub_total_comm; done.
Qed.

Lemma hub_total_register org id c m :
  default ∅ (m !! org) !! id = None →
  hub_total (<[org := <[id := c]> (default ∅ (m !! org))]> m) = hub_total m + 1.
Proof.
  intros Hid. rewrite hub_total_insert, map_size_insert_None by done.
  destruct (m !! org) as [inner|] eqn:E; simpl.
  - rewrite (hub_total_delete org inner m) by done. lia.
  - rewrite delete_id by done. rewrite map_size_empty. lia.
Qed.

Lemma hub_total_remove c m inner :
  m !! cl_orgID c = Some inner → is_Some (inner !! cl_clientID c) →
  hub_total (remove_client c m) = hub_total m - 1.
Proof.
  intros Hm Hin. unfold remove_client. rewrite Hm. rewrite (hub_total_delete _ _ _ Hm).
  assert (size inner = S (size (delete (cl_clientID c) inner))) as Hs.
  { rewrite map_size_delete_Some by done.
    destruct (size inner) eqn:E; [|done]. apply map_size_empty_inv in E. subst.
    destruct Hin as [? Hin]. by rewrite lookup_empty in Hin. }
  destruct (decide _) as [E|E].
  - lia.
  - rewrite hub_total_insert. lia.
Qed.

(** ** The invariant *)

Definition chan_open (h : Hub) (c : Client) : Prop :=
  ∃ buf, h_chans h !! cl_ch c = Some (buf, false) ∧ (length buf <= chan_cap)%nat.

Definition chan_closed (h : Hub) (c : Client) : Prop :=
  ∃ buf, h_chans h !! cl_ch c = Some (buf, true).

Record hub_inv (maxClients : Z) (s : hub_state) : Prop := {
  hi_max : h_maxClients (hs_hub s) = maxClients;
  hi_ids : NoDup (map cl_clientID (hs_live s));
  hi_chs : NoDup (map cl_ch (hs_live s));
  hi_live c : c ∈ hs_live s → registered (hs_hub s) c ∧ chan_open (hs_hub s) c;
  hi_keys org inner id c : h_clients (hs_hub s) !! org = Some inner → inner !! id = Some c →
    cl_orgID c = org ∧ cl_clientID c = id ∧ c ∈ hs_live s;
  hi_nonempty org inner : h_clients (hs_hub s) !! org = Some inner → inner ≠ ∅;
  hi_next ch : is_Some (h_chans (hs_hub s) !! ch) → (ch < h_next (hs_hub s))%nat;
  hi_total : hub_total (h_clients (hs_hub s)) = Z.of_nat (length (hs_live s));
  hi_bound : Z.of_nat (length (hs_live s)) <= Z.max 0 maxClients;
  hi_picked b c : b ∈ hs_bcasts s → bc_picked b = Some c → c ∈ hs_live s ∨ chan_closed (hs_hub s) c;
}.

Lemma hub_inv_init maxClients : hub_inv maxClients (hub_init maxClients).
Proof.
  constructor; simpl; try done; try constructor; try lia; try (intros; set_solver).
  - by intros ch [? ?].
Qed.

(** Channels may change as long as open ones stay open and closed ones closed. *)
Lemma hub_inv_chans maxClients h live bcs chans :
  hub_inv maxClients (MkHubState h live bcs) →
  (∀ ch, is_Some (chans !! ch) → is_Some (h_chans h !! ch)) →
  (∀ ch buf, h_chans h !! ch = Some (buf, true) → ∃ buf', chans !! ch = Some (buf', true)) →
  (∀ ch buf, h_chans h !! ch = Some (buf, false) → (length buf <= chan_cap)%nat →
     ∃ buf', chans !! ch = Some (buf', false) ∧ (length buf' <= chan_cap)%nat) →
  hub_inv maxClients (MkHubState (set_chans chans h) live bcs).
Proof.
  intros [] Hdom Hcl Hop. simpl in *. constructor; simpl; auto.
  - intros c Hc. destruct (hi_live0 c Hc) as [? (buf & Hb & Hlen)]. split; [done|].
    destruct (Hop _ _ Hb Hlen) as (buf' & ? & ?). by exists buf'.
  - intros b c Hb Hc. destruct (hi_picked0 b c Hb Hc) as [?|(buf & Hx)]; [by left|right].
    destruct (Hcl _ _ Hx) as (buf' & ?). by exists buf'.
Qed.

Lemma send_spec ch ev chans chans' :
  send ch ev chans = Some chans' →
  ∃ buf, chans !! ch = Some (buf, false) ∧
    chans' = <[ch := (if (length buf <? chan_cap)%nat then buf ++ [ev] else buf, false)]> chans.
Proof.
  unfold send. destruct (chans !! ch) as [[buf []]|] eqn:E; try done. intros H. exists buf. split; [done|].
  destruct (_ <? _)%nat; simplify_eq; [done|]. by rewrite insert_id.
Qed.

Lemma hub_inv_send maxClients h live bcs ch ev chans :
  hub_inv maxClients (MkHubState h live bcs) → send ch ev (h_chans h) = Some chans →
  hub_inv maxClients (MkHubState (set_chans chans h) live bcs).
Proof.
  intros Hinv (buf & Hb & ->)%send_spec. apply hub_inv_chans; [done|..].
  - intros ch'. destruct (decide (ch = ch')) as [->|]; [|by rewrite lookup_insert_ne]. eauto.
  - intros ch' buf' H. exists buf'. rewrite lookup_insert_ne; [done|]. intros ->. simplify_eq.
  - intros ch' buf' H Hlen. destruct (decide (ch = ch')) as [->|]; [|rewrite lookup_insert_ne by done; eauto].
    rewrite lookup_insert_eq. simplify_eq. eexists. split; [done|].
    destruct (Nat.ltb_spec (length buf) chan_cap); [|done]. rewrite length_app. simpl. lia.
Qed.

Lemma hub_inv_send_each maxClients cs ev h live bcs chans :
  hub_inv maxClients (MkHubState h live bcs) → send_each cs ev (h_chans h) = Some chans →
  hub_inv maxClients (MkHubState (set_chans chans h) live bcs).
Proof.
  revert h. induction cs as [|c cs IH]; intros h Hinv; simpl.
  - intros [= <-]. by destruct h.
  - destruct (send _ _ _) as [chans1|] eqn:E; [|done]. intros H.
    pose proof (hub_inv_send _ _ _ _ _ _ _ Hinv E) as H1.
    apply (IH (set_chans chans1 h)); done.
Qed.

Lemma hub_inv_receive maxClients h live bcs c ev h' :
  hub_inv maxClients (MkHubState h live bcs) → receive c h = Some (ev, h') →
  hub_inv maxClients (MkHubState h' live bcs).
Proof.
  unfold receive. intros Hinv. destruct (h_chans h !! cl_ch c) as [[[|ev' buf] cl]|] eqn:E; try done.
  intros [= <- <-]. apply hub_inv_chans; [done|..].
  - intros ch'. destruct (decide (cl_ch c = ch')) as [<-|]; [|by rewrite lookup_insert_ne]. eauto.
  - intros ch' buf' H. destruct (decide (cl_ch c = ch')) as [<-|].
    + simplify_eq. rewrite lookup_insert_eq. eauto.
    + rewrite lookup_insert_ne by done. eauto.
  - intros ch' buf' H Hlen. destruct (decide (cl_ch c = ch')) as [<-|].
    + simplify_eq. rewrite lookup_insert_eq. eexists. split; [done|]. simpl in Hlen. lia.
    + rewrite lookup_insert_ne by done. eauto.
Qed.

(** The broadcasts matter only through the clients they have picked. *)
Lemma hub_inv_bcasts maxClients h live bcs bcs' :
  hub_inv maxClients (MkHubState h live bcs) →
  (∀ b c, b ∈ bcs' → bc_picked b = Some c → c ∈ live ∨ chan_closed h c) →
  hub_inv maxClients (MkHubState h live bcs').
Proof. intros [] ?. by constructor. Qed.

Lemma hub_inv_register maxClients org id c h h' live bcs :
  hub_inv maxClients (MkHubState h live bcs) → (∀ c', c' ∈ live → cl_clientID c' ≠ id) →
  Register org id h = (Some c, h') → hub_inv maxClients (MkHubState h' (c :: live) bcs).
Proof.
  intros [] Hid. unfold Register. simpl in *. case_match eqn:Hfull; [done|]. boolify. intros [= <- <-].
  assert (default ∅ (h_clients h !! org) !! id = None) as Hnew.
  { destruct (h_clients h !! org) as [inner|] eqn:Eo; simpl; [|done].
    destruct (inner !! id) as [c'|] eqn:Ei; [|done].
    destruct (hi_keys0 _ _ _ _ Eo Ei) as (_ & E & Hl). by destruct (Hid c' Hl). }
  assert (h_chans h !! h_next h = None) as Hfresh.
  { apply eq_None_not_Some. intros H%hi_next0. lia. }
  constructor; simpl; auto.
  - constructor; [|done]. intros (c' & E & Hl)%elem_of_bmap. by destruct (Hid c' Hl).
  - constructor; [|done]. intros (c' & E & Hl)%elem_of_bmap. destruct (hi_live0 c' Hl) as [_ (b & Hb & _)].
    simpl in E. congruence.
  - intros c' [->|Hl]%elem_of_cons.
    + split; [|exists []; simpl; rewrite lookup_insert_eq; split; [done|lia]].
      eexists. simpl. rewrite lookup_insert_eq. split; [done|]. by rewrite lookup_insert_eq.
    + destruct (hi_live0 c' Hl) as [(inner & Hi & Hc) (b & Hb & Hlen)]. split.
      * unfold registered. simpl. destruct (decide (org = cl_orgID c')) as [->|].
        -- rewrite lookup_insert_eq. eexists. split; [done|]. rewrite Hi. simpl.
           rewrite lookup_insert_ne; [done|]. intros ->. by destruct (Hid c' Hl).
        -- rewrite lookup_insert_ne by done. eauto.
      * exists b. simpl. rewrite lookup_insert_ne; [done|]. intros E. congruence.
  - intros org' inner' id' c' Ho Hi. destruct (decide (org = org')) as [<-|].
    + rewrite lookup_insert_eq in Ho. simplify_eq. destruct (decide (id = id')) as [<-|].
      * rewrite lookup_insert_eq in Hi. simplify_eq. simpl. split_and!; try done. by left.
      * rewrite lookup_insert_ne in Hi by done. destruct (h_clients h !! org) as [inner|] eqn:Eo; simpl in Hi; [|done].
        destruct (hi_keys0 _ _ _ _ Eo Hi) as (? & ? & ?). split_and!; try done. by right.
    + rewrite lookup_insert_ne in Ho by done.
      destruct (hi_keys0 _ _ _ _ Ho Hi) as (? & ? & ?). split_and!; try done. by right.
  - intros org' inner'. destruct (decide (org = org')) as [<-|].
    + rewrite lookup_insert_eq. intros [= <-]. apply insert_non_empty.
    + rewrite lookup_insert_ne by done. apply hi_nonempty0.
  - intros ch. destruct (decide (h_next h = ch)) as [<-|]; [lia|]. rewrite lookup_insert_ne by done.
    intros ?%hi_next0. lia.
  - rewrite hub_total_register by done. lia.
  - lia.
  - intros b c' Hb Hc. destruct (hi_picked0 b c' Hb Hc) as [?|(buf & Hx)]; [left; by right|right].
    exists buf. simpl. rewrite lookup_insert_ne; [done|]. intros E. congruence.
Qed.

Lemma remove_client_lookup c m org id c' :
  (∃ inner, remove_client c m !! org = Some inner ∧ inner !! id = Some c') ↔
  (∃ inner, m !! org = Some inner ∧ inner !! id = Some c') ∧ (org ≠ cl_orgID c ∨ id ≠ cl_clientID c).
Proof.
  unfold remove_client. destruct (m !! cl_orgID c) as [inner0|] eqn:Eo.
  2: { split; [|tauto]. intros (inner & Hm & Hi). split; [eauto|]. left. intros ->. congruence. }
  destruct (decide (org = cl_orgID c)) as [->|Hne].
  - transitivity (∃ inner, delete (cl_clientID c) inner0 = inner ∧ inner !! id = Some c').
    + case_decide as Hs.
      * apply map_size_empty_iff in Hs. rewrite lookup_delete_eq.
        split; [by intros (? & [=] & _)|]. intros (? & <- & Hi). by rewrite Hs in Hi.
      * rewrite lookup_insert_eq. split; intros (i & H & ?); exists i; naive_solver.
    + rewrite Eo. split.
      * intros (? & <- & Hi%lookup_delete_Some). naive_solver.
      * intros [(i & [= <-] & Hi) Hor]. eexists. split; [done|]. apply lookup_delete_Some. naive_solver.
  - case_decide; rewrite ?lookup_delete_ne, ?lookup_insert_ne by done; naive_solver.
Qed.

Lemma remove_client_nonempty c m org inner :
  (∀ org inner, m !! org = Some inner → inner ≠ ∅) →
  remove_client c m !! org = Some inner → inner ≠ ∅.
Proof.
  intros Hm. unfold remove_client. destruct (m !! cl_orgID c) as [inner0|] eqn:Eo; [|eauto].
  case_decide as Hs.
  - intros [_ H]%lookup_delete_Some. eauto.
  - intros [[_ <-]|[_ H]]%lookup_insert_Some; [|eauto]. intros E. by rewrite E, map_size_empty in Hs.
Qed.

(** A connection that ends always finds its channel open. *)
Lemma hub_inv_unregister maxClients c h l1 l2 bcs :
  hub_inv maxClients (MkHubState h (l1 ++ c :: l2) bcs) →
  ∃ h', Unregister c h = Some h' ∧ hub_inv maxClients (MkHubState h' (l1 ++ l2) bcs).
Proof.
  intros []. simpl in *.
  assert (Permutation (l1 ++ c :: l2) (c :: l1 ++ l2)) as HP by (symmetry; apply Permutation_middle).
  assert (∀ x, x ∈ l1 ++ c :: l2 ↔ x = c ∨ x ∈ l1 ++ l2) as Hmem.
  { intros x. by rewrite HP, elem_of_cons. }
  rewrite HP in hi_ids0, hi_chs0, hi_total0, hi_bound0. simpl in *.
  apply NoDup_cons in hi_ids0 as [Hnid ?]. apply NoDup_cons in hi_chs0 as [Hnch ?].
  destruct (hi_live0 c) as [(inner & Hin & Hc) (buf & Hb & Hlen)]; [apply Hmem; by left|].
  assert (∀ x, x ∈ l1 ++ l2 → cl_clientID x ≠ cl_clientID c ∧ cl_ch x ≠ cl_ch c) as Hdiff.
  { intros x Hx. split; intros E; [destruct Hnid|destruct Hnch]; apply elem_of_bmap; by exists x. }
  unfold Unregister, close_chan. rewrite Hb. eexists. split; [done|].
  constructor; simpl; auto.
  - intros x Hx. destruct (Hdiff x Hx). destruct (hi_live0 x) as [Hr (b & Hxb & ?)]; [apply Hmem; by right|]. split.
    + unfold registered. simpl. apply remove_client_lookup. split; [done|]. by right.
    + exists b. simpl. by rewrite lookup_insert_ne.
  - intros org inner' id x Ho Hi.
    destruct (proj1 (remove_client_lookup c (h_clients h) org id x)) as [(i & Ho' & Hi') Hne]; [eauto|].
    destruct (hi_keys0 _ _ _ _ Ho' Hi') as (<- & <- & [-> |?]%Hmem); [|done]. naive_solver.
  - intros org inner' H'. eapply remove_client_nonempty; [|done]. done.
  - intros ch [x Hx]. apply hi_next0. apply lookup_insert_Some in Hx as [[<- _]|[_ ?]]; eauto.
  - rewrite (hub_total_remove _ _ _ Hin) by eauto. lia.
  - lia.
  - intros b x Hbb Hx. destruct (decide (cl_ch x = cl_ch c)) as [E|E].
    + right. exists buf. simpl. by rewrite E, lookup_insert_eq.
    + destruct (hi_picked0 b x Hbb Hx) as [[->|?]%Hmem|(y & Hy)]; [done|by left|right].
      exists y. simpl. by rewrite lookup_insert_ne.
Qed.

Lemma send_open c ev h : chan_open h c → ∃ chans, send (cl_ch c) ev (h_chans h) = Some chans.
Proof. intros (buf & Hb & _). unfold send. rewrite Hb. case_match; eauto. Qed.

Lemma send_each_total maxClients cs ev h live bcs :
  hub_inv maxClients (MkHubState h live bcs) → (∀ c, c ∈ cs → c ∈ live) →
  ∃ chans, send_each cs ev (h_chans h) = Some chans.
Proof.
  revert h. induction cs as [|c cs IH]; intros h Hinv Hcs; simpl; [eauto|].
  destruct (hi_live _ _ Hinv c) as [_ Ho]; [apply Hcs; by left|].
  destruct (send_open c ev h Ho) as (chans & E). simpl. rewrite E.
  apply (IH (set_chans chans h)); [by eapply hub_inv_send|]. intros x Hx. apply Hcs. by right.
Qed.

Lemma registered_live maxClients s c : hub_inv maxClients s → registered (hs_hub s) c ↔ c ∈ hs_live s.
Proof.
  intros Hinv. split; [|intros Hc; by apply (hi_live _ _ Hinv)].
  intros (inner & Ho & Hi). by apply (hi_keys _ _ Hinv _ _ _ _ Ho Hi).
Qed.

(** A broadcast holds a client that has disconnected since it picked it. *)
Definition stale_send (s : hub_state) : Prop :=
  ∃ b c, b ∈ hs_bcasts s ∧ bc_picked b = Some c ∧ c ∉ hs_live s.

Lemma hub_step_inv maxClients s r :
  hub_inv maxClients s → hub_step s r →
  match r with Some s' => hub_inv maxClients s' | None => stale_send s end.
Proof.
  intros Hinv Hs. destruct Hs as [org id c h h' live bcs Hid HR|org id h h' live bcs HR|c h l1 l2 bcs
    |c ev h h' live bcs _ Hr|cs ev h live bcs Hcs _|org ev h live bcs|c ev h live b1 b2 Hc
    |c ev h live org b1 b2|org ev h live b1 b2].
  - by eapply hub_inv_register.
  - unfold Register in HR. case_match; by simplify_eq.
  - destruct (hub_inv_unregister _ _ _ _ _ _ Hinv) as (h' & -> & ?). done.
  - by eapply hub_inv_receive.
  - destruct (send_each_total _ cs ev _ _ _ Hinv) as (chans & E).
    { intros c Hc. apply (registered_live _ _ c Hinv). by apply Hcs. }
    unfold BroadcastAll. rewrite E. by eapply hub_inv_send_each.
  - eapply hub_inv_bcasts; [done|]. intros b c [->|Hb]%elem_of_cons; [done|]. by apply (hi_picked _ _ Hinv).
  - eapply hub_inv_bcasts; [done|]. intros b c'. rewrite !elem_of_app, elem_of_cons.
    intros Hb Hp. destruct Hb as [Hb|[->|Hb]].
    + apply (hi_picked _ _ Hinv b); [|done]. set_solver.
    + simpl in Hp. simplify_eq. left. by apply (registered_live _ _ c' Hinv).
    + apply (hi_picked _ _ Hinv b); [|done]. set_solver.
  - destruct (hi_picked _ _ Hinv (MkBroadcast org ev (Some c)) c) as [Hl|(buf & Hb)]; [set_solver|done|..];
      simpl in *.
    + destruct (send_open c ev h) as (chans & E); [by apply (hi_live _ _ Hinv)|]. rewrite E.
      eapply hub_inv_send; [|done]. eapply hub_inv_bcasts; [done|].
      intros b c' Hb Hp. apply (hi_picked _ _ Hinv b); [|done]. simpl.
      rewrite !elem_of_app, !elem_of_cons in *. destruct Hb as [?|[->|?]]; [tauto|done|tauto].
    + unfold send. rewrite Hb. exists (MkBroadcast org ev (Some c)), c. simpl. split; [set_solver|].
      split; [done|]. intros Hl. destruct (hi_live _ _ Hinv c Hl) as [_ (? & Ho & _)]. simpl in Ho. congruence.
  - eapply hub_inv_bcasts; [done|]. intros b c Hb. apply (hi_picked _ _ Hinv b). set_solver.
Qed.

Lemma hub_reachable_inv maxClients s : hub_reachable maxClients s → hub_inv maxClients s.
Proof.
  induction 1 as [|s s' _ IH Hs]; [apply hub_inv_init|]. by apply (hub_step_inv _ _ _ IH) in Hs.
Qed.

(** C24: In every state the hub reaches, whatever connections, disconnections and broadcasts
    interleave: the registered clients are exactly the connections being served, at most
    maxClients of them (0 when maxClients is negative); each has a channel of its own, open,
    with at most 32 buffered events; and no org unit is left with an empty map. *)
Theorem hub_invariant maxClients s :
  hub_reachable maxClients s →
  (∀ c, registered (hs_hub s) c ↔ c ∈ hs_live s) ∧
  Z.of_nat (length (hs_live s)) <= Z.max 0 maxClients ∧
  NoDup (map cl_ch (hs_live s)) ∧
  (∀ c, c ∈ hs_live s → ∃ buf, h_chans (hs_hub s) !! cl_ch c = Some (buf, false) ∧ (length buf <= 32)%nat) ∧
  (∀ org inner, h_clients (hs_hub s) !! org = Some inner → inner ≠ ∅).
Proof.
  intros Hr%hub_reachable_inv. split_and!.
  - intros c. by eapply registered_live.
  - apply Hr.
  - apply Hr.
  - intros c Hc. by apply (hi_live _ _ Hr).
  - apply Hr.
Qed.

(** A reachable hub can panic in its next step exactly when a Broadcast has picked a
    client that has disconnected since: Unregister closed the channel that Broadcast, the
    lock released, is about to send on.  Connecting, disconnecting, receiving and
    BroadcastAll never panic. *)
Lemma hub_panic maxClients s :
  hub_reachable maxClients s → hub_step s None ↔ stale_send s.
Proof.
  intros Hr%hub_reachable_inv. split.
  - intros Hs. by apply (hub_step_inv _ _ _ Hr) in Hs.
  - intros (b & c & Hb & Hp & Hl). destruct (hi_picked _ _ Hr b c Hb Hp) as [?|(buf & Hx)]; [done|].
    destruct b as [org ev pk], s as [h live bcs]. simpl in *. subst.
    apply list_elem_of_split in Hb as (b1 & b2 & ->).
    pose proof (hub_bc_send c ev h live org b1 b2) as Hs. unfold send in Hs. by rewrite Hx in Hs.
Qed.

(** The run: connect; a broadcast starts and picks the client; it disconnects. *)
Definition crash_client : Client := MkClient 1 2 0.
Definition crash_event : Event := MkEvent "e" "task_updated" JNull.
Definition crash_state (maxClients : Z) : hub_state :=
  MkHubState (MkHub ∅ maxClients {[0%nat := ([], true)]} 1) []
    [MkBroadcast 1 crash_event (Some crash_client)].

Lemma crash_reachable maxClients : 0 < maxClients → hub_reachable maxClients (crash_state maxClients).
Proof.
  intros Hmax. set (h1 := MkHub {[1 := {[2 := crash_client]}]} maxClients {[0%nat := ([], false)]} 1).
  assert (registered h1 crash_client) as Hreg.
  { exists {[2 := crash_client]}. split; apply lookup_singleton_eq. }
  assert (hub_reachable maxClients (MkHubState h1 [crash_client] [])) as H1.
  { eapply hub_reach_step; [apply hub_reach_init|].
    eapply (hub_connect 1 2); [by intros ? ?%elem_of_nil|]. unfold Register.
    change (hub_total _) with 0. cbn [h_maxClients NewHub]. destruct (Z.leb_spec maxClients 0); [lia|]. reflexivity. }
  assert (hub_reachable maxClients (MkHubState h1 [crash_client] [MkBroadcast 1 crash_event (Some crash_client)])) as H2.
  { eapply hub_reach_step; [eapply hub_reach_step; [exact H1|apply (hub_bc_start 1 crash_event)]|].
    by apply (hub_bc_pick crash_client crash_event h1 [crash_client] [] []). }
  eapply hub_reach_step; [exact H2|].
  pose proof (hub_disconnect crash_client h1 [] [] [MkBroadcast 1 crash_event (Some crash_client)]) as Hd.
  exact Hd.
Qed.

(** With room for one connection the hub does reach a panic: one connection, one
    Broadcast that picks it, and its disconnection before the send. *)
Lemma hub_panic_reachable maxClients :
  0 < maxClients → ∃ s, hub_reachable maxClients s ∧ hub_step s None.
Proof.
  intros Hmax. exists (crash_state maxClients). split; [by apply crash_reachable|].
  exact (hub_bc_send crash_client crash_event (hs_hub (crash_state maxClients)) [] 1 [] []).
Qed.
