(* ===== verification/Witnesses.v ===== *)
(** * Witnesses

    Each theorem about the control plane that has hypotheses, applied to the rows and
    requests of Fixtures.v, where they hold. *)
From S2P Require Import Prelude Sql GoStd Crypto Regexp Float64 Domain World RedisStore PgStore.
From S2P Require Import ClaimFacts Brownie Scheduler SchedulerFacts Security Http Middleware.
From S2P Require Import MiddlewareFacts TaskHandler WorkerHandler KeyHandler OutputHandler.
From S2P Require Import AdminHandlers Router System WorkerLife Hub Fixtures.
From Stdlib Require Import Ascii.

#[local] Open Scope string_scope.
#[local] Open Scope Z_scope.

(** ** Stores *)

Lemma Dequeue_two_order_witness :
  drains (Enqueue 12 3 demo_now (Enqueue 11 4 demo_now (demo_world toy_empty)).2).2 11 12 ∧
  drains (Enqueue 11 4 demo_now (Enqueue 12 3 demo_now (demo_world toy_empty)).2).2 11 12.
Proof.
  apply (Dequeue_two_order (demo_world toy_empty) 11 4 demo_now 12 3 demo_now);
    [reflexivity | reflexivity | lia
    | unfold score_exact; vm_compute; intuition discriminate
    | unfold score_exact; vm_compute; intuition discriminate | reflexivity].
Defined.

Definition demo_claim := WithTx (ClaimNextTask 11 (Some ["claude"])) (demo_world toy_empty).

(** The same with the reply of the COMMIT lost. *)
Definition demo_claim_lost :=
  WithTx (ClaimNextTask 11 (Some ["claude"]))
    (set_faults [Delivered; Delivered; Delivered; Delivered; ReplyLost] (demo_world toy_empty)).

Lemma ClaimNextTask_picks_best_witness :
  (w_db demo_claim_lost.2 = demo_db ∧ (∀ t, demo_claim_lost.1 ≠ Ok (Some t)) ∨
   ∃ t0, best_claimable [] ["claude"] (db_tasks demo_db) t0 ∧ (lockKey (Task_ID t0) ∉ []) ∧
    (demo_claim_lost.1 = Ok (Some (task_set_assigned demo_now 11 t0)) ∨
     demo_claim_lost.1 = Err ErrUnavailable ∧ (lost_replies demo_claim_lost.2 < 1)%nat) ∧
    db_tasks (w_db demo_claim_lost.2) = List.map
      (λ t, if Task_ID t =? Task_ID t0 then task_set_assigned demo_now 11 t else t) (db_tasks demo_db) ∧
    set_tasks [] (w_db demo_claim_lost.2) = set_tasks [] demo_db) ∧
  is_ok demo_claim.1 = true.
Proof.
  split; [|by vm_compute].
  apply (ClaimNextTask_picks_best 11 (Some ["claude"])
    (set_faults [Delivered; Delivered; Delivered; Delivered; ReplyLost] (demo_world toy_empty))).
  apply surjective_pairing.
Defined.

(** It is the second case: the task is assigned, and the caller has an error. *)
Example demo_claim_lost_assigned :
  demo_claim_lost.1 = Err ErrUnavailable ∧
  List.map (λ t, (Task_ID t, Task_AssignedWorkerID t)) (List.filter (assigned_to 11) (db_tasks (w_db demo_claim_lost.2))) =
    [(22, Some 11)].
Proof. vm_compute. done. Qed.

Lemma ClaimNextTask_complete_witness :
  ∃ t w', ClaimNextTask 11 (Some ["claude"]) (demo_world toy_empty) = (Ok (Some t), w').
Proof.
  apply (ClaimNextTask_complete 11 (Some ["claude"]) (demo_world toy_empty)); [reflexivity..|].
  exists (demo_task 21 1 3 (demo_now - 60 * Second) TaskStateQueued None). split_and!; [by left|reflexivity|by left].
Defined.

Lemma award_deduct_balance_witness :
  balance_of 11 (db_ledger (w_db (Deduct 11 1 5 "r" None (demo_world toy_empty)).2)) = -5.
Proof.
  destruct (award_deduct_balance false 11 1 5 "r" None (demo_world toy_empty) _ _
    ltac:(unfold in_i64; lia) (surjective_pairing _)) as (_ & _ & H).
  rewrite H by (vm_compute; reflexivity). reflexivity.
Defined.

(** ** Scheduler *)

Lemma matchScore_accepts_witness :
  -1 < matchScore (demo_task 21 1 3 0 TaskStateQueued None) (demo_worker 11 1 WorkerStateIdle None).
Proof.
  apply matchScore_accepts; [by split_and!|]. split_and!; [by left|reflexivity|vm_compute; discriminate].
Defined.

Lemma inWindow_clock_witness :
  inWindow (23 * Hour) (MkTimeWindow None 22 6 "Asia/Kolkata") = true.
Proof.
  apply (inWindow_clock (23 * Hour) (MkTimeWindow None 22 6 "Asia/Kolkata")); [simpl; lia..|].
  split; [by left|vm_compute; reflexivity].
Defined.

Lemma demo_quiet r : quiet (demo_world r).
Proof. by split_and!. Defined.

Definition demo_tick := tick (demo_world demo_queue).

(** The pass with the reply of its first COMMIT lost. *)
Definition demo_tick_world : world toy_redis :=
  set_faults [Delivered; Delivered; Delivered; Delivered; Delivered; Delivered; ReplyLost] (demo_world demo_queue).
Definition demo_tick_lost := tick demo_tick_world.

Lemma tick_dispatch_witness :
  (∃ made, db_tasks (w_db demo_tick_lost.2) = List.map (dispatched demo_now made) (db_tasks demo_db) ∧
    NoDup (log_ids made) ∧ demo_tick_lost.1 `sublist_of` made) ∧
  db_tasks (w_db demo_tick.2) = List.map (dispatched demo_now demo_tick.1) (db_tasks demo_db).
Proof.
  split.
  - destruct (tick_dispatch demo_tick_world demo_tick_lost.1 demo_tick_lost.2) as (made & H1 & _ & H2 & _ & H3 & _).
    + by apply (bool_decide_unpack _).
    + apply surjective_pairing.
    + exists made. exact (conj H1 (conj H2 H3)).
  - destruct (tick_dispatch (demo_world demo_queue) demo_tick.1 demo_tick.2)
      as (made & H1 & _ & _ & _ & _ & _ & H0 & _).
    + by apply (bool_decide_unpack _).
    + apply surjective_pairing.
    + by rewrite H0 in H1.
Defined.

(** Its assignment is made and not logged. *)
Example demo_tick_lost_assigned :
  demo_tick_lost.1 = [] ∧
  List.map Task_ID (List.filter (assigned_to 11) (db_tasks (w_db demo_tick_lost.2))) = [22].
Proof. vm_compute. done. Qed.

(** The pass does assign a task. *)
Example demo_tick_ids : log_ids demo_tick.1 = [22].
Proof. vm_compute. reflexivity. Qed.

Lemma tick_needs_redis_queue_witness :
  (tick (demo_world toy_empty)).1 = [] ∧ w_db (tick (demo_world toy_empty)).2 = demo_db.
Proof.
  apply (tick_needs_redis_queue (demo_world toy_empty)); [reflexivity|apply surjective_pairing].
Defined.

Lemma tick_work_conserving_witness :
  all_served (sql_where (idle_recent demo_now) (db_workers demo_db)) demo_tick.1 (db_tasks (w_db demo_tick.2)).
Proof.
  apply (tick_work_conserving (demo_world demo_queue) demo_tick.1 demo_tick.2);
    [by split_and! | apply surjective_pairing | vm_compute; lia].
Defined.

Definition demo_reap := reap 90 (demo_world toy_empty).

Lemma reap_requeues_witness :
  db_tasks (w_db demo_reap.2) = List.map (requeued demo_now (List.map Task_ID demo_reap.1)) (db_tasks demo_db).
Proof.
  destruct (reap_requeues 90 (demo_world toy_empty) demo_reap.1 demo_reap.2) as (back & _ & H & _ & _ & H0 & _);
    [unfold ttl_ok; lia | apply surjective_pairing |].
  by rewrite H0 in H.
Defined.

Lemma reap_complete_witness :
  demo_task 23 1 5 (demo_now - 900 * Second) TaskStateAssigned (Some 12) ∈ demo_reap.1.
Proof.
  apply (reap_complete 90 (demo_world toy_empty) demo_reap.1 demo_reap.2);
    [unfold ttl_ok; lia | reflexivity | apply surjective_pairing|].
  split_and!; [right; right; by left | by left | | by intros wid [= <-]].
  eexists. split; [right; by left|]. split; [reflexivity|]. intros h [= <-]. vm_compute. reflexivity.
Defined.

(** ** Security *)

Definition demo_random : world toy_redis :=
  MkWorld demo_now [] [] "ABCDEFGHIJKLMNOPQRSTUVWXYZ0123456789abcdefghijklmnop" [] [] [] demo_db toy_empty.

Definition demo_generated : string * string * string :=
  match (GenerateAPIKey demo_random).1 with Ok x => x | Err _ => ("", "", "") end.

Lemma GenerateAPIKey_verifies_witness :
  VerifyAPIKey demo_generated.1.1 demo_generated.2 = true ∧ String.length demo_generated.1.1 = 46%nat.
Proof.
  destruct (GenerateAPIKey_verifies DefaultArgonParams demo_random demo_generated.1.1 demo_generated.1.2
    demo_generated.2 (GenerateAPIKey demo_random).2) as (H1 & _ & _ & H2).
  - vm_compute. reflexivity.
  - split; [by apply H2 | exact H1].
Defined.

Definition demo_text : string := combined_text demo_leak.
Definition demo_findings : list Finding :=
  match ScanText NewDefaultScanner demo_text with Ok fs => fs | Err _ => [] end.

Lemma ScanText_exact_witness :
  (∃ p, p ∈ BuiltinPatterns ∧ occurs (Pat_Regex p) (decode_runes demo_text)) ∧
  (∀ f, f ∈ demo_findings → ∃ p m a b, p ∈ BuiltinPatterns ∧ demo_text = a ++ rune_bytes m ++ b ∧
     f = finding_of p m) ∧
  ∃ mss, Forall2 (λ p ms, scan_of (Pat_Regex p) (decode_runes demo_text) ms) BuiltinPatterns mss ∧
    demo_findings = List.concat (zip_with (λ p, List.map (finding_of p)) BuiltinPatterns mss).
Proof.
  destruct (ScanText_exact BuiltinPatterns demo_text demo_findings) as (Hex & Hocc & Hscan & _);
    [reflexivity|].
  split_and!.
  - apply Hex. intros H. apply (f_equal length) in H. vm_compute in H. discriminate.
  - intros f (p & m & a & b & ? & ? & _ & ? & _)%Hocc. by exists p, m, a, b.
  - apply Hscan. intros p. apply builtin_not_nullable.
Defined.

(** ** Middleware *)

Lemma jsonEscape_roundtrip_witness :
  read_json_string (jsonEscape "bad key" ++ String chr_quote "}") = Some ("bad key", "}").
Proof. apply jsonEscape_roundtrip. reflexivity. Defined.

Definition demo_caller : APIKey := demo_key 31 1 (Some 12) ["tasks:write"; "workers:heartbeat"].

Lemma demo_unlocks r : unlocks (demo_world r) demo_token demo_caller.
Proof. split_and!; [by left | reflexivity | reflexivity | done | vm_compute; reflexivity]. Defined.

Lemma Auth_accepts_witness :
  Auth Readiness (demo_request "GET" "/" demo_auth "") (demo_world demo_queue) =
  Readiness (with_context (demo_request "GET" "/" demo_auth "") (key_context demo_caller))
    (set_bg [BgLastUsed 31] (demo_world demo_queue)).
Proof.
  apply (Auth_accepts Readiness (demo_request "GET" "/" demo_auth "") (demo_world demo_queue) "Bearer" demo_token
    demo_caller); [reflexivity..|vm_compute; lia|apply demo_unlocks|].
  intros k' ->%list_elem_of_singleton _. reflexivity.
Defined.

Lemma ScopeRequired_gate_witness :
  ScopeRequired "tasks:write" ListTasks (demo_inner "" "") (demo_world demo_queue) =
  ListTasks (demo_inner "" "") (demo_world demo_queue).
Proof.
  apply (ScopeRequired_gate "tasks:write" ListTasks (demo_inner "" "") (demo_world demo_queue)
    (Some ["tasks:write"; "workers:heartbeat"])); [reflexivity|]. left. by left.
Defined.

(** Org unit 1 has used its hundred requests. *)
Definition demo_limited : toy_redis := MkToy {[ratelimit_key 1 := (100, None)]} ∅.

Lemma RateLimit_counts_witness :
  ∃ w1 resp, w_db w1 = demo_db ∧ Resp_Status resp = StatusTooManyRequests ∧
    RateLimit 100 ListTasks (demo_inner "" "") (demo_world demo_limited) = (resp, w1).
Proof.
  destruct (RateLimit_counts 100 ListTasks (demo_inner "" "") (demo_world demo_limited) 1)
    as (w1 & Hd & _ & _ & _ & resp & H & E); [reflexivity..|].
  exists w1, resp. by split_and!.
Defined.

Lemma RateLimit_starves_witness :
  Forall (λ status, status = StatusTooManyRequests)
    (rate_run 100 ListTasks (demo_inner "" "") [59 * Second; 59 * Second; 59 * Second] (demo_world demo_limited)).
Proof.
  apply (RateLimit_starves 100 ListTasks (demo_inner "" "") (demo_world demo_limited) 1); [reflexivity|reflexivity| |].
  - by apply (bool_decide_unpack _).
  - intros now' _. vm_compute. discriminate.
Defined.

(** ** Handlers *)

Lemma found_occurs r s m rest : re_find r s = Some (m, rest) → occurs r s.
Proof. intros [Hl [pre ->]]%re_find_sound. by exists pre, m, rest. Qed.

Lemma CreateTask_refuses_secrets_witness :
  ∃ resp, Resp_Status resp = StatusUnprocessableEntity ∧
    CreateTask NewDefaultScanner (demo_inner "" "LEAK") (demo_world demo_queue) = (resp, demo_world demo_queue).
Proof.
  apply (CreateTask_refuses_secrets NewDefaultScanner (demo_inner "" "LEAK") (demo_world demo_queue) 1 demo_leak
    BuiltinPatterns (MkPattern "aws_access_key" "AWS Access Key ID" re_aws_access_key SeverityCritical ScopeAll));
    [reflexivity..|by left|].
  eapply found_occurs. vm_compute. reflexivity.
Defined.

Definition demo_task_23 : Task := demo_task 23 1 5 (demo_now - 900 * Second) TaskStateAssigned (Some 12).

Lemma demo_tasks_23 t : t ∈ db_tasks demo_db → Task_ID t = 23 → t = demo_task_23.
Proof.
  unfold demo_db, demo_task_23. cbn [db_tasks]. rewrite !elem_of_cons.
  intros [->|[->|[->|[->|[]%elem_of_nil]]]]; [discriminate..|done|discriminate].
Qed.

Lemma UpdateTaskStatus_any_state_witness :
  ∃ resp w', UpdateTaskStatus (demo_inner (uuid_String 23) "") (demo_world demo_queue) = (resp, w') ∧
    Resp_Status resp = StatusOK ∧
    ∃ t', t' ∈ db_tasks (w_db w') ∧ Task_ID t' = 23 ∧ Task_State t' = TaskStateCompleted ∧ Task_ErrorMessage t' = "".
Proof.
  apply (UpdateTaskStatus_any_state (demo_inner (uuid_String 23) "") (demo_world demo_queue) 1 12 demo_task_23
    (MkUpdateTaskStateRequest TaskStateCompleted (Some "boom"))); try reflexivity.
  - right; right; by left.
  - intros t' H E. by apply demo_tasks_23.
  - right. by left.
Defined.

Lemma ListTasks_tenant_witness :
  Resp_Status (ListTasks (demo_inner "" "") (demo_world demo_queue)).1 = StatusOK.
Proof.
  apply (ListTasks_tenant (demo_inner "" "") (demo_world demo_queue)
    _ (ListTasks (demo_inner "" "") (demo_world demo_queue)).2 1); [reflexivity|apply surjective_pairing|reflexivity].
Defined.

Lemma Heartbeat_delivers_witness :
  ∃ t, t ∈ db_tasks demo_db ∧ assigned_to 12 t = true ∧
    (Heartbeat 90 (demo_inner (uuid_String 12) "") (demo_world demo_queue)).1 = writeJSON StatusOK
      (VObj [("ok", VBool true); ("worker_id", VID 12); ("next_ttl_sec", VInt 90);
             ("assigned_task", assigned_task_value t)]).
Proof.
  destruct (Heartbeat_delivers 90 (demo_inner (uuid_String 12) "") (demo_world demo_queue) 1
    (demo_worker 12 1 WorkerStateBusy (Some (demo_now - 600 * Second)))) as (t & Hin & Ha & _ & H); try reflexivity.
  - right; by left.
  - intros x [->|[->|[]%elem_of_nil]%elem_of_cons]%elem_of_cons E; [discriminate|reflexivity].
  - by eexists.
  - exists demo_task_23. split; [right; right; by left|vm_compute; reflexivity].
  - by exists t.
Defined.

Lemma Submit_accepts_any_signature_witness :
  Resp_Status (Submit (demo_inner "" "") (demo_world demo_queue)).1 = StatusAccepted.
Proof.
  apply (Submit_accepts_any_signature (demo_inner "" "") (demo_world demo_queue) 12 demo_submit 23);
    try reflexivity; [|discriminate].
  intros u l _ o []%elem_of_nil.
Defined.

Lemma Snapshot_tenant_witness :
  ∃ s w', Snapshot (demo_inner "" "") (demo_world demo_queue) = (writeJSON StatusOK (snapshot_value s), w') ∧
    snapshot_of 1 demo_db s.
Proof.
  destruct (Snapshot_tenant (demo_inner "" "") (demo_world demo_queue) 1 eq_refl) as (s & w' & H & _ & _ & Hs & _).
  by exists s, w'.
Defined.

(** ** The whole server *)

Lemma demo_db_inv : db_inv demo_db.
Proof.
  constructor; try by apply (bool_decide_unpack _).
  - apply Forall_forall. by repeat constructor.
  - intros t wid Ht. revert t Ht wid.
    refine (proj1 (Forall_forall (λ t, ∀ wid, Task_AssignedWorkerID t = Some wid → worker_exists demo_db wid = true) _) _).
    repeat constructor; intros ? ?; by simplify_eq/=.
  - apply Forall_forall. by repeat constructor.
  - refine (proj1 (Forall_forall (λ t, Task_State t ≠ TaskStateQueued → ∃ wid, Task_AssignedWorkerID t = Some wid) _) _).
    repeat constructor; intros H; solve [by destruct H | by eexists].
Qed.

Definition demo_step := sys_step (R := toy_redis) demo_deps.
Definition demo_reachable := reachable (R := toy_redis) demo_deps.
Definition demo_create_request : http_request := demo_request "POST" "/api/v1/tasks/" demo_auth "".
Definition demo_report_request : http_request :=
  demo_request "PATCH" ("/api/v1/tasks/" ++ uuid_String 23 ++ "/status") demo_auth "".

(** A system with one org unit and one key in which a task has been created. *)
Definition demo_fresh : world toy_redis :=
  MkWorld demo_now [] [501; 502] "" [] [] [] (MkDB [demo_org 1] [] [] [demo_key 31 1 None ["tasks:write"]] [] [] [] [])
    toy_empty.
Definition demo_created : world toy_redis := (demo_serve demo_create_request demo_fresh).2.

Example demo_created_task : List.map Task_State (db_tasks (w_db demo_created)) = [TaskStateQueued].
Proof. vm_compute. reflexivity. Qed.

Lemma system_invariant_witness : db_inv (w_db demo_created).
Proof.
  apply (system_invariant demo_deps demo_fresh demo_created); [reflexivity|reflexivity|].
  apply rtc_once. eapply (sys_request _ demo_create_request); [by intros ?%elem_of_nil|apply surjective_pairing].
Defined.

Lemma task_life_witness :
  ∃ old new, db_tasks (w_db demo_tick.2) = (old ++ new)%list ∧
    Forall2 (λ t t', (t' = t ∨ task_step t t') ∧ task_identity t' = task_identity t) (db_tasks demo_db) old ∧
    (length new <= 1)%nat ∧ ∀ t, t ∈ new → Task_State t = TaskStateQueued ∧ Task_AssignedWorkerID t = None.
Proof.
  apply (task_life demo_deps (demo_world demo_queue) demo_tick.2); [apply demo_db_inv|].
  apply (sys_tick _ demo_tick.1), surjective_pairing.
Defined.

Lemma demo_token_org r req P : token req (demo_world r) P → P demo_caller.
Proof. by intros (pt & k & _ & (->%list_elem_of_singleton & _) & HP). Qed.

Definition demo_response := demo_serve demo_create_request (demo_world demo_queue).

Lemma tenant_isolation_witness :
  demo_task 24 2 1 (demo_now - 90 * Second) TaskStateQueued None ∈ db_tasks (w_db demo_response.2).
Proof.
  apply (tenant_isolation demo_deps demo_create_request (demo_world demo_queue)
    demo_response.1 demo_response.2 2);
    [apply demo_db_inv | apply surjective_pairing | | reflexivity | right; right; right; by left].
  intros H%demo_token_org. discriminate.
Defined.

Lemma scope_needed_witness :
  token demo_create_request (demo_world demo_queue) (λ k, has_scope (key_context k) "tasks:write").
Proof.
  apply (scope_needed demo_deps demo_create_request (demo_world demo_queue)
    demo_response.1 demo_response.2); [apply demo_db_inv|apply surjective_pairing|].
  intros H. apply (f_equal length) in H. vm_compute in H. discriminate.
Defined.

Definition demo_reported := demo_serve demo_report_request (demo_world demo_queue).

Lemma task_change_authorized_witness :
  ∃ wid st, Some 12 = Some wid ∧ reportable st ∧
    task_set_state demo_now st (Some wid) demo_task_23 ∈ db_tasks (w_db demo_reported.2) ∧
    token demo_report_request (demo_world demo_queue)
      (λ k, Key_WorkerID k = Some wid ∧ Key_OrgUnitID k = 1 ∧ has_scope (key_context k) "tasks:write").
Proof.
  apply (task_change_authorized demo_deps demo_report_request (demo_world demo_queue)
    demo_reported.1 demo_reported.2 demo_task_23); [apply demo_db_inv|apply surjective_pairing|right; right; by left|].
  intros H%(list_elem_of_fmap_2 (λ t, (Task_ID t, Task_State t))).
  apply (bool_decide_pack _) in H. vm_compute in H. done.
Defined.

Lemma logs_append_only_witness :
  db_audit demo_db `prefix_of` db_audit (w_db demo_reap.2) ∧ db_ledger demo_db `prefix_of` db_ledger (w_db demo_reap.2).
Proof.
  apply (logs_append_only demo_deps (demo_world toy_empty) demo_reap.2); [apply demo_db_inv|].
  apply rtc_once, (sys_reap _ demo_reap.1), surjective_pairing.
Defined.

(** ** The hub *)

Lemma hub_invariant_witness :
  Z.of_nat (length (hs_live (crash_state 1))) <= Z.max 0 1 ∧ ¬ registered (hs_hub (crash_state 1)) crash_client.
Proof.
  destruct (hub_invariant 1 (crash_state 1)) as (Hr & Hn & _); [apply crash_reachable; lia|].
  split; [exact Hn|]. intros H%Hr. by apply elem_of_nil in H.
Defined.

Lemma hub_panic_witness : hub_step (crash_state 1) None.
Proof.
  apply (hub_panic 1 (crash_state 1)); [apply crash_reachable; lia|].
  exists (MkBroadcast 1 crash_event (Some crash_client)), crash_client. split_and!; [by left|reflexivity|].
  by intros ?%elem_of_nil.
Defined.

Lemma hub_panic_reachable_witness : ∃ s, hub_reachable 1 s ∧ hub_step s None.
Proof. apply (hub_panic_reachable 1). lia. Defined.

(** ** The life of a worker *)

Lemma worker_life_witness :
  ∃ old new, db_workers (w_db demo_tick.2) = (old ++ new)%list ∧
    Forall2 (λ a b, (b = a ∨ worker_step 90 (demo_world demo_queue) a b) ∧ worker_identity b = worker_identity a)
      (db_workers demo_db) old ∧
    (length new <= 1)%nat ∧ ∀ wk, wk ∈ new → Worker_State wk = WorkerStateIdle.
Proof.
  apply (worker_life demo_deps (demo_world demo_queue) demo_tick.2);
    [unfold ttl_ok; simpl; lia|apply demo_db_inv|].
  apply (sys_tick _ demo_tick.1), surjective_pairing.
Defined.

(** Worker 12, busy, reports its task done, then reports itself alive, then the scheduler
    runs: with two tasks queued, and worker 12 able to run them. *)
Definition demo_done := demo_serve demo_report_request (demo_world demo_queue).
Definition demo_beat_request : http_request :=
  demo_request "POST" ("/api/v1/workers/" ++ uuid_String 12 ++ "/heartbeat") demo_auth "".
Definition demo_beaten := demo_serve demo_beat_request demo_done.2.
Definition demo_passed := tick demo_beaten.2.

Example demo_beaten_statuses : (Resp_Status demo_done.1, Resp_Status demo_beaten.1) = (200, 200).
Proof. vm_compute. reflexivity. Qed.
Example demo_passed_workers :
  List.map (λ wk, (Worker_ID wk, Worker_State wk, bool_decide (Worker_LastHeartbeatAt wk = Some demo_now)))
    (db_workers (w_db demo_passed.2)) =
  [(11, WorkerStateBusy, false); (12, WorkerStateBusy, true)].
Proof. vm_compute. reflexivity. Qed.
Example demo_passed_tasks :
  List.map (λ t, (Task_ID t, Task_State t)) (db_tasks (w_db demo_passed.2)) =
  [(21, TaskStateQueued); (22, TaskStateAssigned); (23, TaskStateCompleted); (24, TaskStateQueued)].
Proof. vm_compute. reflexivity. Qed.

(** The key of worker 12 may not register workers. *)
Lemma demo_no_register (w : world toy_redis) r :
  db_apikeys (w_db w) = [demo_caller] →
  ¬ token r w (λ k, Key_OrgUnitID k = 1 ∧ has_scope (key_context k) "workers:register").
Proof.
  intros E (pt & k & _ & (Hin & _) & _ & (l & [= <-] & [H|H])); rewrite E in Hin;
    apply list_elem_of_singleton in Hin as ->; simpl in H;
    repeat (apply elem_of_cons in H as [H|H]; [done|]); by apply elem_of_nil in H.
Qed.

Lemma demo_request_closed r (w : world toy_redis) :
  db_apikeys (w_db w) = [demo_caller] → uuid_head w ∉ List.map Task_ID (db_tasks (w_db w)) →
  closed_step demo_deps 1 w (demo_serve r w).2.
Proof.
  intros Hk Hf. assert (NewRouter demo_deps r w = ((demo_serve r w).1, (demo_serve r w).2)) as E
    by (unfold demo_serve; apply surjective_pairing).
  split; [by eapply sys_request|left]. exists r, (demo_serve r w).1. split; [done|by apply demo_no_register].
Qed.

Lemma demo_tick_closed (w : world toy_redis) : closed_step demo_deps 1 w (tick w).2.
Proof.
  assert (tick w = ((tick w).1, (tick w).2)) as E by apply surjective_pairing.
  split; [by eapply sys_tick|right; right; left]. by exists (tick w).1.
Qed.

Lemma demo_run_closed : rtc (closed_step demo_deps 1) (demo_world demo_queue) demo_passed.2.
Proof.
  unfold demo_passed, demo_beaten, demo_done.
  eapply rtc_l; [apply (demo_request_closed demo_report_request)|].
  { reflexivity. }
  { by apply (bool_decide_unpack _). }
  eapply rtc_l; [apply (demo_request_closed demo_beat_request)|].
  { vm_compute. reflexivity. }
  { apply (bool_decide_unpack _). vm_compute. exact I. }
  apply rtc_once, demo_tick_closed.
Qed.

Lemma busy_worker_starves_witness :
  (∀ wk', wk' ∈ db_workers (w_db demo_passed.2) → Worker_ID wk' = 12 → Worker_State wk' ≠ WorkerStateIdle) ∧
  ∀ t', t' ∈ db_tasks (w_db demo_passed.2) → assigned_to 12 t' = true →
    ∃ t, t ∈ db_tasks demo_db ∧ Task_ID t = Task_ID t' ∧ assigned_to 12 t = true.
Proof.
  apply (busy_worker_starves demo_deps 1 (demo_world demo_queue) demo_passed.2
    (demo_worker 12 1 WorkerStateBusy (Some (demo_now - 600 * Second))));
    [unfold ttl_ok; simpl; lia|apply demo_db_inv|apply demo_run_closed|right; by left|reflexivity|discriminate].
Defined.
