(* ===== verification/GoPath.v ===== *)
(** * Go standard library: package path/filepath on Unix

    [Clean], [Join], [Base], [Abs] and [Match] as the worker calls them.  [Clean] works on
    the segments between slashes: the stack holds the segments kept so far, last first. *)
From S2P Require Import Prelude GoStd Regexp.
From Stdlib Require Import Ascii.

#[local] Open Scope string_scope.
#[local] Open Scope Z_scope.

Definition slash : ascii := "/".

Definition IsAbs (path : string) : bool := HasPrefix path "/".

Definition clean_step (rooted : bool) (stack : list string) (seg : string) : list string :=
  if String.eqb seg "" || String.eqb seg "." then stack
  else if String.eqb seg ".." then
    match stack with
    | top :: rest => if String.eqb top ".." then seg :: stack else rest
    | [] => if rooted then [] else [seg]
    end
  else seg :: stack.

Definition clean_segments (path : string) : list string :=
  rev (foldl (clean_step (IsAbs path)) [] (Split path slash)).

Definition Clean (path : string) : string :=
  let segs := clean_segments path in
  if IsAbs path then "/" ++ Join segs "/"
  else match segs with [] => "." | _ => Join segs "/" end.

(** [filepath.Join]: empty leading elements are dropped. *)
Fixpoint path_Join (elems : list string) : string :=
  match elems with
  | [] => ""
  | e :: rest => if String.eqb e "" then path_Join rest else Clean (Join elems "/")
  end.

Definition is_slash (c : ascii) : bool := Ascii.eqb c slash.

Definition Base (path : string) : string :=
  if String.eqb path "" then "."
  else
    let path := str_rev (trim_left is_slash (str_rev path)) in
    let last := List.last (Split path slash) "" in
    if String.eqb last "" then "/" else last.

(** [filepath.Abs] in the working directory [wd]. *)
Definition Abs (wd path : string) : string := if IsAbs path then Clean path else path_Join [wd; path].

(** ** Match *)

(** scanChunk: the bytes up to the next star outside brackets. *)
Fixpoint scan_to_star (inrange : bool) (pattern : string) : string * string :=
  match pattern with
  | EmptyString => ("", "")
  | String c rest =>
      if Ascii.eqb c chr_backslash then
        match rest with
        | EmptyString => (pattern, "")
        | String d rest' => let '(a, b) := scan_to_star inrange rest' in (String c (String d a), b)
        end
      else if Ascii.eqb c "*" && negb inrange then ("", pattern)
      else
        let inrange := if Ascii.eqb c "[" then true else if Ascii.eqb c "]" then false else inrange in
        let '(a, b) := scan_to_star inrange rest in (String c a, b)
  end.

Fixpoint skip_stars (pattern : string) : bool * string :=
  match pattern with
  | String "*" rest => (true, snd (skip_stars rest))
  | _ => (false, pattern)
  end.

Definition scanChunk (pattern : string) : bool * string * string :=
  let '(star, pattern) := skip_stars pattern in
  let '(chunk, rest) := scan_to_star false pattern in (star, chunk, rest).

Definition decode_first (s : string) : Z * nat :=
  match s with String a s' => decode_rune a s' | EmptyString => (RuneError, 0%nat) end.

(** getEsc: a rune of a class, and what follows it; [None] is ErrBadPattern. *)
Definition getEsc (chunk : string) : option (Z * string) :=
  let decode (chunk : string) :=
    let '(r, n) := decode_first chunk in
    if (r =? RuneError) && (n =? 1)%nat then None
    else match str_drop n chunk with EmptyString => None | rest => Some (r, rest) end in
  match chunk with
  | EmptyString => None
  | String c rest =>
      if Ascii.eqb c "-" || Ascii.eqb c "]" then None
      else if Ascii.eqb c chr_backslash then
        match rest with EmptyString => None | _ => decode rest end
      else decode chunk
  end.

(** The ranges of a class: does one contain [r], and the chunk after the bracket. *)
Fixpoint class_ranges (fuel : nat) (r : Z) (nrange : nat) (found : bool) (chunk : string) : option (bool * string) :=
  match fuel with
  | O => None
  | S fuel =>
      match chunk with
      | String "]" rest => if (0 <? nrange)%nat then Some (found, rest) else None
      | _ =>
          match getEsc chunk with
          | None => None
          | Some (lo, chunk1) =>
              let range_end :=
                match chunk1 with
                | String "-" rest => getEsc rest
                | _ => Some (lo, chunk1)
                end in
              match range_end with
              | None => None
              | Some (hi, chunk2) =>
                  class_ranges fuel r (S nrange) (found || ((lo <=? r) && (r <=? hi))) chunk2
              end
          end
      end
  end.

(** matchChunk: the text is [None] once the match has failed, when the rest of the chunk is
    only checked for syntax.  [None] is ErrBadPattern, [Some None] a mismatch. *)
Fixpoint match_chunk (fuel : nat) (chunk : string) (s : option string) : option (option string) :=
  match fuel with
  | O => None
  | S fuel =>
      match chunk with
      | EmptyString => Some s
      | String c rest =>
          let s := match s with Some EmptyString => None | _ => s end in
          let literal (c : ascii) (rest : string) :=
            match_chunk fuel rest
              (match s with
               | Some (String d s') => if Ascii.eqb c d then Some s' else None
               | _ => None
               end) in
          if Ascii.eqb c "[" then
            let '(r, n) := match s with Some s => decode_first s | None => (0, 0%nat) end in
            let '(negated, rest) :=
              match rest with String "^" rest => (true, rest) | _ => (false, rest) end in
            match class_ranges (S (String.length rest)) r 0 false rest with
            | None => None
            | Some (found, rest) =>
                match_chunk fuel rest
                  (match s with
                   | Some s => if Bool.eqb found negated then None else Some (str_drop n s)
                   | None => None
                   end)
            end
          else if Ascii.eqb c "?" then
            match_chunk fuel rest
              (match s with
               | Some (String d s') =>
                   if is_slash d then None else Some (str_drop (decode_rune d s').2 (String d s'))
               | _ => None
               end)
          else if Ascii.eqb c chr_backslash then
            match rest with
            | EmptyString => None
            | String c rest => literal c rest
            end
          else literal c rest
      end
  end.

Definition matchChunk (chunk s : string) : option (option string) :=
  match_chunk (S (String.length chunk)) chunk (Some s).

(** The loop over the bytes that a star may skip: the text after the chunk. *)
Fixpoint skip_match (chunk : string) (last : bool) (name : string) : option (option string) :=
  match name with
  | EmptyString => Some None
  | String c rest =>
      if is_slash c then Some None
      else
        match matchChunk chunk rest with
        | None => None
        | Some (Some t) =>
            if last && negb (String.eqb t "") then skip_match chunk last rest else Some (Some t)
        | Some None => skip_match chunk last rest
        end
  end.

(** The remaining pattern is well formed. *)
Fixpoint well_formed (fuel : nat) (pattern : string) : bool :=
  match fuel with
  | O => false
  | S fuel =>
      if String.eqb pattern "" then true
      else
        let '(_, chunk, pattern) := scanChunk pattern in
        match matchChunk chunk "" with None => false | Some _ => well_formed fuel pattern end
  end.

(** [None] is ErrBadPattern. *)
Fixpoint match_from (fuel : nat) (pattern name : string) : option bool :=
  match fuel with
  | O => None
  | S fuel =>
      if String.eqb pattern "" then Some (String.eqb name "")
      else
        let '(star, chunk, pattern) := scanChunk pattern in
        if star && String.eqb chunk "" then Some (negb (Contains name "/"))
        else
          let last := String.eqb pattern "" in
          let mismatch :=
            if well_formed (S (String.length pattern)) pattern then Some false else None in
          match matchChunk chunk name with
          | Some (Some t) =>
              if String.eqb t "" || negb last then match_from fuel pattern t
              else if star then
                match skip_match chunk last name with
                | None => None
                | Some (Some t) => match_from fuel pattern t
                | Some None => mismatch
                end
              else mismatch
          | None => None
          | Some None =>
              if star then
                match skip_match chunk last name with
                | None => None
                | Some (Some t) => match_from fuel pattern t
                | Some None => mismatch
                end
              else mismatch
          end
  end.

Definition Match (pattern name : string) : option bool := match_from (S (String.length pattern)) pattern name.

(** ** Examples of the documentation and of the package's tests *)

Example Clean_ok :
  map Clean [""; "a/b"; "a//b/../c/."; "/../a"; "../../a"; "/"; "a/.."; "/a/b/../../.."] =
  ["."; "a/b"; "a/c"; "/a"; "../../a"; "/"; "."; "/"].
Proof. reflexivity. Qed.

Example Base_ok : map Base [""; "."; "/"; "a/b"; "a/b/"; "///"; "../x"] = ["."; "."; "/"; "b"; "b"; "/"; "x"].
Proof. reflexivity. Qed.

Example Join_ok :
  map path_Join [["a"; "b"]; [""; "b"]; ["/w"; "/"]; ["/w"; "../x"]; ["a"; ""]] = ["a/b"; "b"; "/w"; "/x"; "a"].
Proof. reflexivity. Qed.

Example Match_ok :
  map (λ x, Match x.1 x.2)
    [("abc", "abc"); ("*", "abc"); ("*c", "abc"); ("a*", "a"); ("a*/b", "abc/b"); ("a*/b", "a/c/b");
     ("ab[c]", "abc"); ("ab[b-d]", "abc"); ("ab[e-g]", "abc"); ("ab[^c]", "abc"); ("a?b", "a/b");
     ("a[b", "a"); ("[]a]", "]"); ("a*b?c*x", "abxbbxdbxebxczzx"); ("a*b?c*x", "abxbbxdbxebxczzy")] =
    [Some true; Some true; Some true; Some true; Some true; Some false;
     Some true; Some true; Some false; Some false; Some false;
     None; None; Some true; Some false].
Proof. vm_compute. reflexivity. Qed.

(** ** Clean paths *)

Fixpoint has_byte (c : ascii) (s : string) : bool :=
  match s with EmptyString => false | String d s => Ascii.eqb d c || has_byte c s end.

(** A name of a directory entry. *)
Definition plain (s : string) : Prop := s ≠ "" ∧ s ≠ "." ∧ s ≠ ".." ∧ has_byte slash s = false.

Lemma has_byte_app c s t : has_byte c (s ++ t) = has_byte c s || has_byte c t.
Proof. induction s as [|d s IH]; simpl; [done|]. by rewrite IH, orb_assoc. Qed.

Lemma Split_pieces s c x : x ∈ Split s c → has_byte c x = false.
Proof.
  revert x. induction s as [|d s IH]; intros x; simpl.
  - by intros ->%list_elem_of_singleton.
  - destruct (Ascii.eqb_spec d c) as [->|Hd].
    + intros [->|Hx]%elem_of_cons; auto.
    + destruct (Split s c) as [|y ys].
      * intros ->%list_elem_of_singleton. simpl. by rewrite (proj2 (Ascii.eqb_neq d c) Hd).
      * intros [->|Hx]%elem_of_cons.
        -- simpl. rewrite (proj2 (Ascii.eqb_neq d c) Hd). apply IH. by left.
        -- apply IH. by right.
Qed.

Lemma Split_none s c : has_byte c s = false → Split s c = [s].
Proof.
  induction s as [|d s IH]; simpl; [done|]. destruct (Ascii.eqb d c); simpl; [done|].
  intros H. by rewrite IH.
Qed.

Lemma Split_app s t c : Split (s ++ String c t) c = (Split s c ++ Split t c)%list.
Proof.
  induction s as [|d s IH]; simpl.
  - by rewrite Ascii.eqb_refl.
  - rewrite IH. destruct (Ascii.eqb d c); [done|].
    pose proof (Split_ne s c). by destruct (Split s c).
Qed.

Lemma Join_app l l' sep : l ≠ [] → l' ≠ [] → Join (l ++ l') sep = Join l sep ++ sep ++ Join l' sep.
Proof.
  induction l as [|x l IH]; [done|]. intros _ Hl'. destruct l as [|y l].
  - simpl. by destruct l'.
  - assert ((x :: (y :: l) ++ l')%list = (x :: y :: l ++ l')%list) as E by done. simpl app. simpl Join.
    simpl in IH. rewrite IH by done. rewrite !str_app_assoc. done.
Qed.

Lemma Split_Join l c : l ≠ [] → Forall (λ s, has_byte c s = false) l → Split (Join l (str1 c)) c = l.
Proof.
  induction l as [|x l IH]; [done|]. intros _ Hl. apply Forall_cons in Hl as [Hx Hl].
  destruct l as [|y l]; [by apply Split_none|].
  change (Join (x :: y :: l) (str1 c)) with (x ++ String c (Join (y :: l) (str1 c))).
  rewrite Split_app, IH by done. by rewrite Split_none.
Qed.

(** Rooted stacks hold names only. *)
Lemma clean_stack_plain segs stack :
  Forall (λ s, has_byte slash s = false) segs → Forall plain stack →
  Forall plain (foldl (clean_step true) stack segs).
Proof.
  revert stack. induction segs as [|s segs IH]; intros stack Hs Hst; simpl; [done|].
  apply Forall_cons in Hs as [Hsl Hs]. apply IH; [done|]. unfold clean_step.
  destruct (String.eqb_spec s ""); [done|]. destruct (String.eqb_spec s "."); [done|]. simpl.
  destruct (String.eqb_spec s "..").
  - destruct stack as [|top rest]; [constructor|]. apply Forall_cons in Hst as [(_ & _ & Ht & _) Hst].
    by rewrite (proj2 (String.eqb_neq top "..") Ht).
  - by constructor.
Qed.

Lemma clean_segments_plain p : IsAbs p = true → Forall plain (clean_segments p).
Proof.
  intros H. unfold clean_segments. rewrite H. apply Forall_rev. apply clean_stack_plain; [|constructor].
  apply Forall_forall. apply Split_pieces.
Qed.

(** Names are pushed as they come. *)
Lemma clean_plain rooted l stack : Forall plain l → foldl (clean_step rooted) stack l = (rev l ++ stack)%list.
Proof.
  revert stack. induction l as [|x l IH]; intros stack Hl; simpl; [done|].
  apply Forall_cons in Hl as [(H1 & H2 & H3 & _) Hl]. rewrite IH by done. unfold clean_step.
  rewrite (proj2 (String.eqb_neq _ _) H1), (proj2 (String.eqb_neq _ _) H2), (proj2 (String.eqb_neq _ _) H3).
  simpl. by rewrite <-app_assoc.
Qed.

Lemma plain_no_slash l : Forall plain l → Forall (λ s, has_byte slash s = false) l.
Proof. intros H. eapply Forall_impl; [exact H|]. by intros x (_ & _ & _ & ?). Qed.

(** The segments of a rooted path written from names. *)
Lemma clean_segments_names l : Forall plain l → clean_segments ("/" ++ Join l "/") = l.
Proof.
  intros Hl. unfold clean_segments. change (IsAbs ("/" ++ Join l "/")) with (HasPrefix ("/" ++ Join l "/") "/").
  rewrite HasPrefix_app. change ("/" ++ Join l "/") with ("" ++ String slash (Join l (str1 slash))).
  rewrite Split_app. simpl Split at 1. destruct l as [|x l]; [done|].
  rewrite Split_Join by (done || by apply plain_no_slash).
  rewrite foldl_app. simpl foldl at 2. change (clean_step true [] "") with (@nil string).
  rewrite clean_plain by done. by rewrite app_nil_r, rev_involutive.
Qed.

Lemma Clean_abs p : IsAbs p = true → Clean p = "/" ++ Join (clean_segments p) "/".
Proof. intros H. unfold Clean. by rewrite H. Qed.

Lemma Clean_segments p : IsAbs p = true → clean_segments (Clean p) = clean_segments p.
Proof. intros H. rewrite Clean_abs by done. by apply clean_segments_names, clean_segments_plain. Qed.

Lemma Clean_idempotent p : IsAbs p = true → Clean (Clean p) = Clean p.
Proof.
  intros H. assert (IsAbs (Clean p) = true) as H' by (rewrite (Clean_abs p H); apply HasPrefix_app).
  rewrite (Clean_abs (Clean p)) by done. by rewrite Clean_segments, Clean_abs.
Qed.

Lemma Clean_is_abs p : IsAbs p = true → IsAbs (Clean p) = true.
Proof. intros H. rewrite Clean_abs by done. apply HasPrefix_app. Qed.

(** Lexical containment: the segments of [p] continue those of [d]. *)
Definition under (d p : string) : Prop := ∃ rest, clean_segments p = (clean_segments d ++ rest)%list.

(** A clean path that continues another one after a slash lies under it. *)
Lemma prefix_under d p :
  IsAbs d = true → IsAbs p = true → HasPrefix (Clean p) (Clean d ++ "/") = true → under d p.
Proof.
  intros Hd Hp (t & E)%HasPrefix_spec. rewrite str_app_assoc in E.
  pose proof (clean_segments_plain p Hp) as Hpp. pose proof (clean_segments_plain d Hd) as Hdp.
  rewrite (Clean_abs p Hp), (Clean_abs d Hd) in E. unfold under.
  destruct (clean_segments d) as [|x l]; [by eexists|].
  assert (Join (clean_segments p) "/" = Join (x :: l) "/" ++ String slash t) as E2.
  { rewrite str_app_assoc in E. exact (f_equal (str_drop 1) E). }
  apply (f_equal (λ s, Split s slash)) in E2. rewrite Split_app in E2.
  change "/" with (str1 slash) in E2.
  rewrite (Split_Join (x :: l)) in E2 by (done || by apply plain_no_slash).
  destruct (clean_segments p) as [|y l']; [simpl in E2; injection E2 as <- _; by apply Forall_cons in Hdp as [[? _] _]|].
  rewrite Split_Join in E2 by (done || by apply plain_no_slash). by eexists.
Qed.
