(* ===== verification/RegexpSyntax.v ===== *)
(** * The syntax of package regexp, for the patterns of the program

    [re_parse] parses the text of a pattern: literals, classes, \s, \S, \d and \w, groups,
    alternatives, (?i) and the repetitions of classes.  Any other construct is [None].
    Two expressions are equivalent, [≡], when they match alike on every input; all that
    searches with them respects it. *)
From S2P Require Import Prelude GoStd GoPath Regexp.
From Stdlib Require Import Ascii.

#[local] Open Scope string_scope.
#[local] Open Scope Z_scope.

(** ** Parsing *)

(** An atom is a class of runes or a group. *)
Inductive atom := AClass (p : Z → bool) | AGroup (r : re).

Definition atom_re (a : atom) : re := match a with AClass p => Chr p | AGroup r => r end.

Definition folded (fold : bool) (p : Z → bool) : Z → bool := if fold then fold_case p else p.

Definition is_word : Z → bool := or_class (or_class is_digit is_upper) (or_class (Z.eqb 95) is_lower).

(** The class of one byte. *)
Definition rune_is (c : ascii) : Z → bool := Z.eqb (byte_val c).

(** A class escape. *)
Definition perl_class (c : ascii) : option (Z → bool) :=
  if Ascii.eqb c "s" then Some re_space else if Ascii.eqb c "S" then Some (not_class re_space)
  else if Ascii.eqb c "d" then Some is_digit else if Ascii.eqb c "w" then Some is_word else None.

(** A backslash before punctuation quotes it. *)
Definition is_punct (c : ascii) : bool := has_byte c "\.+*?()|[]{}^$-_/:=,;!@#%&~<>".

(** The items of a class after the opening bracket, up to and with the closing one. *)
Fixpoint class_items (s : string) (p : Z → bool) : option ((Z → bool) * string) :=
  match s with
  | String "]" s => Some (p, s)
  | String "[" _ => None
  | String "\" (String c s) =>
      match perl_class c with
      | Some q => class_items s (or_class p q)
      | None => if is_punct c then class_items s (or_class p (rune_is c)) else None
      end
  | String a (String "-" (String b s)) =>
      if Ascii.eqb b "]" then Some (or_class p (or_class (rune_is a) (rune_is "-")), s)
      else if Ascii.eqb b "\" || (byte_val b <? byte_val a) || (127 <? byte_val b) then None
      else class_items s (or_class p (range (byte_val a) (byte_val b)))
  | String a s => if 127 <? byte_val a then None else class_items s (or_class p (rune_is a))
  | EmptyString => None
  end.

Definition no_class (c : Z) : bool := false.

Definition parse_class (fold : bool) (s : string) : option ((Z → bool) * string) :=
  match s with
  | String "^" s => '(p, rest) ← class_items s no_class; Some (not_class (folded fold p), rest)
  | String "]" _ => None
  | _ => '(p, rest) ← class_items s no_class; Some (folded fold p, rest)
  end.

Fixpoint take_digits (s : string) (acc : string) : string * string :=
  match s with
  | String c s' => if is_digit_byte c then take_digits s' (acc ++ str1 c) else (acc, s)
  | EmptyString => (acc, EmptyString)
  end.

(** The repetition after an atom. *)
Definition quantify (a : atom) (s : string) : option (re * string) :=
  match s, a with
  | String "*" s, AClass p => Some (Many p, s)
  | String "+" s, AClass p => Some (AtLeast 1 p, s)
  | String "?" s, _ => Some (Opt (atom_re a), s)
  | String "{" s, AClass p =>
      let '(digits, s) := take_digits s "" in
      match Atoi digits, s with
      | Some n, String "}" s => if 1000 <? n then None else Some (Rep (Z.to_nat n) p, s)
      | Some n, String "," (String "}" s) => if 1000 <? n then None else Some (AtLeast (Z.to_nat n) p, s)
      | _, _ => None
      end
  | String "*" _, _ | String "+" _, _ | String "{" _, _ => None
  | _, _ => Some (atom_re a, s)
  end.

Definition is_quantifier (c : ascii) : bool := has_byte c "*+?{".

(** No second repetition, lazy or not. *)
Definition quantified (a : atom) (s : string) : option (re * string) :=
  '(r, rest) ← quantify a s;
  if match s, rest with
     | String c _, String d _ => is_quantifier c && is_quantifier d
     | _, _ => false
     end then None else Some (r, rest).

(** A pattern up to its end or a closing parenthesis, and the case flag after it. *)
Fixpoint parse_alt (fuel : nat) (fold : bool) (s : string) : option (re * string * bool) :=
  match fuel with
  | O => None
  | S fuel =>
      '(a, rest, fold) ← parse_cat fuel fold s;
      match rest with
      | String "|" rest => '(b, rest, fold) ← parse_alt fuel fold rest; Some (Alt a b, rest, fold)
      | _ => Some (a, rest, fold)
      end
  end
with parse_cat (fuel : nat) (fold : bool) (s : string) : option (re * string * bool) :=
  match fuel with
  | O => None
  | S fuel =>
      let cont a rest :=
        '(r, rest) ← quantified a rest;
        '(r', rest, fold) ← parse_cat fuel fold rest; Some (Cat r r', rest, fold) in
      match s with
      | EmptyString | String "|" _ | String ")" _ => Some (Eps, s, fold)
      | String "(" (String "?" (String "i" (String ")" rest))) => parse_cat fuel true rest
      | String "(" (String "?" _) => None
      | String "(" rest =>
          '(r, rest, _) ← parse_alt fuel fold rest;
          match rest with String ")" rest => cont (AGroup r) rest | _ => None end
      | String "[" rest => '(p, rest) ← parse_class fold rest; cont (AClass p) rest
      | String "\" (String c rest) =>
          match perl_class c with
          | Some p => cont (AClass (folded fold p)) rest
          | None => if is_punct c then cont (AClass (folded fold (rune_is c))) rest else None
          end
      | String c rest =>
          if has_byte c "\.^$*+?{" || (127 <? byte_val c) then None
          else cont (AClass (folded fold (rune_is c))) rest
      end
  end.

(** Each turn consumes a byte, or is the second of the two functions on the same input. *)
Definition re_parse (pattern : string) : option re :=
  match parse_alt (2 * String.length pattern + 3) false pattern with
  | Some (r, EmptyString, _) => Some r
  | _ => None
  end.

(** ** Equivalence *)

#[export] Instance re_equiv : Equiv re := λ r s,
  ∀ i k1 k2, (∀ x, k1 x = k2 x) → re_match r i k1 = re_match s i k2.

(** Classes that have the same runes. *)
#[export] Instance class_equiv : Equiv (Z → bool) := λ p q, ∀ c, p c = q c.

#[export] Instance class_equivalence : Equivalence (≡@{Z → bool}).
Proof. split; [by intros p c|by intros p q H c|intros p q r H H' c; by rewrite (H c)]. Qed.

Lemma match_many_ext p q i k1 k2 :
  p ≡ q → (∀ x, k1 x = k2 x) → match_many p i k1 = match_many q i k2.
Proof. intros Hp Hk. induction i as [|c i IH]; simpl; [apply Hk|]. by rewrite (Hp c.1), IH, Hk. Qed.

Lemma re_match_ext r i k1 k2 : (∀ x, k1 x = k2 x) → re_match r i k1 = re_match r i k2.
Proof.
  revert i k1 k2. induction r as [|p|p|a IHa b IHb|a IHa b IHb]; intros i k1 k2 Hk; simpl.
  - apply Hk.
  - destruct i as [|c i]; [done|]. by destruct (p c.1).
  - by apply match_many_ext.
  - apply IHa. intros x. by apply IHb.
  - by rewrite (IHa i k1 k2), (IHb i k1 k2).
Qed.

#[export] Instance re_equivalence : Equivalence (≡@{re}).
Proof.
  split.
  - intros r i k1 k2. apply re_match_ext.
  - intros r s H i k1 k2 Hk. symmetry. by apply H.
  - intros r s t H H' i k1 k2 Hk. rewrite (H i k1 k2 Hk). by apply H'.
Qed.

#[export] Instance Cat_proper : Proper ((≡) ==> (≡) ==> (≡)) Cat.
Proof. intros a a' Ha b b' Hb i k1 k2 Hk. simpl. apply Ha. intros x. by apply Hb. Qed.

#[export] Instance Alt_proper : Proper ((≡) ==> (≡) ==> (≡)) Alt.
Proof. intros a a' Ha b b' Hb i k1 k2 Hk. simpl. by rewrite (Ha i k1 k2), (Hb i k1 k2). Qed.

#[export] Instance Chr_proper : Proper ((≡) ==> (≡)) Chr.
Proof. intros p q Hp i k1 k2 Hk. simpl. destruct i as [|c i]; [done|]. rewrite (Hp c.1). by destruct (q c.1). Qed.

#[export] Instance Many_proper : Proper ((≡) ==> (≡)) Many.
Proof. intros p q Hp i k1 k2 Hk. by apply match_many_ext. Qed.

#[export] Instance Rep_proper n : Proper ((≡) ==> (≡)) (Rep n).
Proof. intros p q Hp. induction n as [|n IH]; simpl; [done|]. by rewrite IH, Hp. Qed.

#[export] Instance AtLeast_proper n : Proper ((≡) ==> (≡)) (AtLeast n).
Proof. intros p q Hp. unfold AtLeast. by rewrite Hp. Qed.

#[export] Instance Opt_proper : Proper ((≡) ==> (≡)) Opt.
Proof. intros r s H. unfold Opt. by rewrite H. Qed.

#[export] Instance fold_case_proper : Proper ((≡) ==> (≡)) fold_case.
Proof. intros p q H c. unfold fold_case. induction (orbit c) as [|d l IH]; simpl; [done|]. by rewrite (H d), IH. Qed.

#[export] Instance or_class_proper : Proper ((≡) ==> (≡) ==> (≡)) or_class.
Proof. intros p p' Hp q q' Hq c. unfold or_class. by rewrite (Hp c), (Hq c). Qed.

#[export] Instance not_class_proper : Proper ((≡) ==> (≡)) not_class.
Proof. intros p q H c. unfold not_class. by rewrite (H c). Qed.

Lemma Cat_assoc a b c : Cat (Cat a b) c ≡ Cat a (Cat b c).
Proof. intros i k1 k2 Hk. simpl. apply re_match_ext. intros x. apply re_match_ext. intros y. by apply re_match_ext. Qed.

Lemma Cat_Eps_l a : Cat Eps a ≡ a.
Proof. intros i k1 k2 Hk. simpl. by apply re_match_ext. Qed.

Lemma Cat_Eps_r a : Cat a Eps ≡ a.
Proof. intros i k1 k2 Hk. simpl. by apply re_match_ext. Qed.

(** *** What respects the equivalence *)

#[export] Instance re_find_proper : Proper ((≡) ==> eq ==> eq) re_find.
Proof.
  intros r s H i ? <-. induction i as [|c i IH]; cbn [re_find]; rewrite (H _ Some Some) by done; [done|].
  by rewrite IH.
Qed.

#[export] Instance FindString_proper : Proper ((≡) ==> eq ==> eq) FindString.
Proof. intros r s H t ? <-. unfold FindString. by rewrite (re_find_proper r s H _ _ eq_refl). Qed.

Lemma find_all_ext fuel r s i after : r ≡ s → find_all fuel r i after = find_all fuel s i after.
Proof.
  intros H. revert i after. induction fuel as [|fuel IH]; intros i after; simpl; [done|].
  rewrite (re_find_proper r s H i i eq_refl). destruct (re_find s i) as [[[|c m] rest]|]; [|by rewrite IH|done].
  destruct rest; [done|]. by rewrite IH.
Qed.

#[export] Instance FindAllString_proper : Proper ((≡) ==> eq ==> eq) FindAllString.
Proof. intros r s H t ? <-. unfold FindAllString. f_equal. by apply find_all_ext. Qed.

(** ** Classes *)

Lemma folded_space : fold_case re_space ≡ re_space.
Proof.
  intros c. unfold fold_case, orbit, is_upper, is_lower, range.
  repeat match goal with |- context [if ?b then _ else _] => destruct b eqn:? end; simpl; rewrite ?orb_false_r; try done;
    unfold re_space; lia.
Qed.

Lemma folded_not_space : fold_case (not_class re_space) ≡ not_class re_space.
Proof.
  intros c. unfold fold_case, orbit, is_upper, is_lower, range, not_class.
  repeat match goal with |- context [if ?b then _ else _] => destruct b eqn:? end; simpl; rewrite ?orb_false_r; try done;
    unfold re_space; lia.
Qed.
