(* ===== verification/CpConfig.v ===== *)
(** * internal/config/config.go of the control plane

    spf13/viper, which merges defaults, file and environment, is a parameter. *)
From S2P Require Import Prelude GoStd Domain Scheduler.

#[local] Open Scope string_scope.
#[local] Open Scope Z_scope.

Record ServerConfig := MkServerConfig {
  Srv_Host : string;
  Srv_Port : Z;
  Srv_TLSCertFile : string;
  Srv_TLSKeyFile : string;
  Srv_ReadTimeoutSec : Z;
  Srv_WriteTimeoutSec : Z;
}.

Record DatabaseConfig := MkDatabaseConfig {
  DB_DSN : string;
  DB_MaxOpenConns : Z;
  DB_MaxIdleConns : Z;
  DB_ConnTimeoutSec : Z;
}.

Record RedisConfig := MkRedisConfig {
  Rds_Addr : string;
  Rds_Password : string;
  Rds_DB : Z;
}.

Record SecurityConfig := MkSecurityConfig {
  Sec_ArgonMemory : Z;        (* uint32 *)
  Sec_ArgonIterations : Z;    (* uint32 *)
  Sec_ArgonParallelism : Z;   (* uint8 *)
  Sec_ArgonSaltLen : Z;
  Sec_ArgonKeyLen : Z;        (* uint32 *)
  Sec_HMACSecret : string;
}.

Record SchedulerConfig := MkSchedulerConfig {
  Sch_TickIntervalSec : Z;
  Sch_ReaperIntervalSec : Z;
  Sch_HeartbeatTTLSec : Z;
}.

Record DashboardConfig := MkDashboardConfig {
  Dash_SnapshotCacheTTLSec : Z;
  Dash_MaxSSEClients : Z;
}.

Record LoggingConfig := MkLoggingConfig {
  Log_Level : string;
  Log_Format : string;
}.

Record Config := MkConfig {
  Cfg_Server : ServerConfig;
  Cfg_Database : DatabaseConfig;
  Cfg_Redis : RedisConfig;
  Cfg_Security : SecurityConfig;
  Cfg_Scheduler : SchedulerConfig;
  Cfg_Dashboard : DashboardConfig;
  Cfg_Logging : LoggingConfig;
}.

(** The configuration that the SetDefault calls describe. *)
Definition default_config : Config :=
  MkConfig (MkServerConfig "0.0.0.0" 8080 "" "" 30 60) (MkDatabaseConfig "" 20 5 10)
    (MkRedisConfig "localhost:6379" "" 0) (MkSecurityConfig 65536 3 2 16 32 "") (MkSchedulerConfig 5 30 90)
    (MkDashboardConfig 10 500) (MkLoggingConfig "info" "json").

(** The requirements, each with its message, in the order of the source. *)
Definition requirements (cfg : Config) : list (bool * string) :=
  [(negb (String.eqb (DB_DSN (Cfg_Database cfg)) ""), "database.dsn is required");
   (negb (String.eqb (Sec_HMACSecret (Cfg_Security cfg)) ""), "security.hmac_secret is required");
   (negb ((Srv_Port (Cfg_Server cfg) <=? 0) || (65535 <? Srv_Port (Cfg_Server cfg))),
     "server.port must be between 1 and 65535");
   (negb (Sec_ArgonMemory (Cfg_Security cfg) <? 8192), "security.argon_memory must be at least 8192 KiB");
   (negb (Sec_ArgonIterations (Cfg_Security cfg) <? 1), "security.argon_iterations must be at least 1");
   (negb (Sch_HeartbeatTTLSec (Cfg_Scheduler cfg) <? 10),
     "scheduler.heartbeat_ttl_sec must be at least 10 seconds")].

Definition config_errors (reqs : list (bool * string)) : list string :=
  map snd (List.filter (λ r, negb (fst r)) reqs).

Definition bullets (errs : list string) : string :=
  "config validation failed:" ++ str1 chr_lf ++ "  - " ++ Join errs (str1 chr_lf ++ "  - ").

Definition Validate (cfg : Config) : result unit :=
  match config_errors (requirements cfg) with
  | [] => Ok tt
  | errs => Err (ErrMsg (bullets errs))
  end.

(** viper's defaults, config file and GRID_ environment variables, unmarshalled. *)
Class Viper (A : Type) := viper_Load : A → string → result A.

Definition Load `{Viper Config} (cfgFile : string) : result Config :=
  match viper_Load default_config cfgFile with
  | Err e => Err e
  | Ok cfg =>
      match Validate cfg with
      | Err e => Err e
      | Ok _ => Ok cfg
      end
  end.

(** zerolog.ParseLevel; [None] is an error. *)
Class LogLevels := { ParseLevel : string → option Z; InfoLevel : Z }.

(** ** Starting the background loops *)

(** [time.NewTicker]: panics, [None], unless the interval is positive. *)
Definition NewTicker (d : Z) : option Z := if d <=? 0 then None else Some d.

(** NewScheduler and Start, NewReaper and Start: the intervals of the two loops. *)
Definition Scheduler_Start (tickIntervalSec : Z) : option Z := NewTicker (i64 (tickIntervalSec * Second)).
Definition Reaper_Start (reaperIntervalSec : Z) : option Z := NewTicker (i64 (reaperIntervalSec * Second)).

Definition start_loops (cfg : Config) : option (Z * Z) :=
  match Scheduler_Start (Sch_TickIntervalSec (Cfg_Scheduler cfg)) with
  | None => None
  | Some tick =>
      match Reaper_Start (Sch_ReaperIntervalSec (Cfg_Scheduler cfg)) with
      | None => None
      | Some reap => Some (tick, reap)
      end
  end.

(** ** Facts *)

Lemma config_errors_nil reqs : config_errors reqs = [] ↔ Forall (λ r, fst r = true) reqs.
Proof.
  unfold config_errors. induction reqs as [|[b m] reqs IH]; simpl; [by split; [constructor|]|].
  rewrite Forall_cons. simpl. destruct b; simpl; [rewrite IH; tauto|]. by split; [|intros [? _]].
Qed.

Lemma Validate_ok cfg :
  Validate cfg = Ok tt ↔
  DB_DSN (Cfg_Database cfg) ≠ "" ∧ Sec_HMACSecret (Cfg_Security cfg) ≠ "" ∧
  1 ≤ Srv_Port (Cfg_Server cfg) ≤ 65535 ∧ 8192 ≤ Sec_ArgonMemory (Cfg_Security cfg) ∧
  1 ≤ Sec_ArgonIterations (Cfg_Security cfg) ∧ 10 ≤ Sch_HeartbeatTTLSec (Cfg_Scheduler cfg).
Proof.
  unfold Validate. pose proof (config_errors_nil (requirements cfg)) as H.
  assert (Forall (λ r, fst r = true) (requirements cfg) ↔
    DB_DSN (Cfg_Database cfg) ≠ "" ∧ Sec_HMACSecret (Cfg_Security cfg) ≠ "" ∧
    1 ≤ Srv_Port (Cfg_Server cfg) ≤ 65535 ∧ 8192 ≤ Sec_ArgonMemory (Cfg_Security cfg) ∧
    1 ≤ Sec_ArgonIterations (Cfg_Security cfg) ∧ 10 ≤ Sch_HeartbeatTTLSec (Cfg_Scheduler cfg)) as E.
  { unfold requirements. rewrite !Forall_cons, Forall_nil. simpl.
    rewrite !negb_true_iff, orb_false_iff, !Z.ltb_ge, !Z.leb_gt, !String.eqb_neq. split; intros; split_and!; try tauto; lia. }
  destruct (config_errors _); [tauto|]. split; [done|]. intros H'. apply E, H in H'. done.
Qed.

(** A configuration that loads satisfies every requirement; the defaults load once a
    database and an HMAC secret are given, and start both loops.  Validate misses the
    intervals: a configuration that loads panics at start exactly when one of the two
    intervals, as a 64-bit number of nanoseconds, is not positive. *)
Lemma Load_validates (V : Viper Config) cfgFile cfg :
  Load cfgFile = Ok cfg →
  (DB_DSN (Cfg_Database cfg) ≠ "" ∧ Sec_HMACSecret (Cfg_Security cfg) ≠ "" ∧
   1 ≤ Srv_Port (Cfg_Server cfg) ≤ 65535 ∧ 8192 ≤ Sec_ArgonMemory (Cfg_Security cfg) ∧
   1 ≤ Sec_ArgonIterations (Cfg_Security cfg) ∧ 10 ≤ Sch_HeartbeatTTLSec (Cfg_Scheduler cfg)) ∧
  (start_loops cfg = None ↔
   i64 (Sch_TickIntervalSec (Cfg_Scheduler cfg) * Second) ≤ 0 ∨
   i64 (Sch_ReaperIntervalSec (Cfg_Scheduler cfg) * Second) ≤ 0).
Proof.
  unfold Load. destruct (viper_Load _ _) as [c|]; [|done]. destruct (Validate c) as [[]|] eqn:E; [|done].
  intros [= ->]. split; [by apply Validate_ok|].
  unfold start_loops, Scheduler_Start, Reaper_Start, NewTicker.
  destruct (Z.leb_spec (i64 (Sch_TickIntervalSec (Cfg_Scheduler cfg) * Second)) 0); [tauto|].
  destruct (Z.leb_spec (i64 (Sch_ReaperIntervalSec (Cfg_Scheduler cfg) * Second)) 0); [tauto|].
  split; [done|lia].
Qed.
