(* ===== verification/ServerMain.v ===== *)
(** * cmd/server/main.go: the life of the control-plane process

    run opens PostgreSQL and Redis, starts the scheduler and the reaper, serves HTTP until a
    signal or a failure, and lets its deferred calls undo what has been done.  The goroutine
    of run, the two loops, the requests in flight and the goroutines that requests leave
    behind interleave: [proc_step] is one step of any of them.  The deferred calls are a
    stack in the state.  A signal that comes after signal.Notify waits in its channel for the
    select; one that comes before, or one that cannot be caught, ends the process without
    running anything more and is no step.  The connections that requests and the goroutines
    they leave behind hold are counted, since the deferred pg.Close waits for them; a pass of
    a loop returns its own before it ends, and the loops have ended when pg.Close is called. *)
From S2P Require Import Prelude GoStd Domain World RedisStore Http Scheduler Security CpConfig Router.
From S2P Require Import TaskHandler WorkerHandler KeyHandler OutputHandler AdminHandlers.

#[local] Open Scope string_scope.
#[local] Open Scope Z_scope.

(** ** What run makes of the configuration *)

(** Go's int32(x). *)
Definition i32 (z : Z) : Z := (z + 2 ^ 31) mod 2 ^ 32 - 2 ^ 31.

(** pgxpool.Config *)
Record PoolConfig := MkPoolConfig {
  PC_DSN : string;
  PC_MaxConns : Z;
  PC_MinConns : Z;
  PC_ConnectTimeout : Z;
}.

Definition pool_config (cfg : DatabaseConfig) : PoolConfig :=
  MkPoolConfig (DB_DSN cfg) (i32 (DB_MaxOpenConns cfg)) (i32 (DB_MaxIdleConns cfg)) (i64 (DB_ConnTimeoutSec cfg * Second)).

Definition argon_params (cfg : SecurityConfig) : ArgonParams :=
  MkArgonParams (Sec_ArgonMemory cfg) (Sec_ArgonIterations cfg) (Sec_ArgonParallelism cfg)
    (Z.to_nat (Sec_ArgonSaltLen cfg)) (Sec_ArgonKeyLen cfg).

Definition server_addr (cfg : ServerConfig) : string := Srv_Host cfg ++ ":" ++ Itoa (Srv_Port cfg).

(** http.Server *)
Record HTTPServer := MkHTTPServer {
  HS_Addr : string;
  HS_ReadTimeout : Z;
  HS_WriteTimeout : Z;
  HS_IdleTimeout : Z;
  HS_TLS13 : bool;                  (* TLSConfig with MinVersion 1.3 *)
}.

Definition http_server (cfg : ServerConfig) : HTTPServer :=
  MkHTTPServer (server_addr cfg) (i64 (Srv_ReadTimeoutSec cfg * Second)) (i64 (Srv_WriteTimeoutSec cfg * Second)) (120 * Second)
    (negb (String.eqb (Srv_TLSCertFile cfg) "") && negb (String.eqb (Srv_TLSKeyFile cfg) "")).

(** The files of ListenAndServeTLS; [None] is ListenAndServe. *)
Definition listen_tls (cfg : ServerConfig) : option (string * string) :=
  if negb (String.eqb (Srv_TLSCertFile cfg) "") then Some (Srv_TLSCertFile cfg, Srv_TLSKeyFile cfg) else None.

(** The dependencies of the router: both optional ones are there. *)
Definition router_deps (cfg : Config) : RouterDeps :=
  MkRouterDeps true true (argon_params (Cfg_Security cfg)) (Sch_HeartbeatTTLSec (Cfg_Scheduler cfg)) 300
    (Sec_HMACSecret (Cfg_Security cfg)).

(** The handler behind the server. *)
Section handler.
Context {R : Type} `{RD : Redis R} `{UT : UUIDText} `{A2 : Argon2} `{CH : Chi} `{HUB : DashboardHub R} `{TP : TimeParse} `{ET : ErrorText}.
Context `{JC : JSONDecode createTaskRequest} `{JU : JSONDecode updateTaskStateRequest} `{JR : JSONDecode registerWorkerRequest}.
Context `{JH : JSONDecode heartbeatRequest} `{JK : JSONDecode createAPIKeyRequest} `{JS : JSONDecode submitRequest}.
Context `{JV : JSONDecode reviewRequest} `{JO : JSONDecode createOrgRequest} `{JP : JSONDecode OrgPolicy}.

Definition server_handler (cfg : Config) : Handler R := NewRouter (router_deps cfg).
End handler.

(** ** Logging *)

Record CpLogger := MkCpLogger { CL_Level : Z; CL_Console : bool }.

Definition setupLogging `{LogLevels} (cfg : LoggingConfig) : CpLogger :=
  MkCpLogger (default InfoLevel (ParseLevel (Log_Level cfg))) (String.eqb (Log_Format cfg) "console").

(** ** The process *)

Inductive deferred :=
  | DCancel                (* cancel() *)
  | DClosePG               (* pg.Close(): no connection is given out any more *)
  | DWaitPG                (* and its wait until all that were are back *)
  | DCloseRedis            (* redis.Close() *)
  | DStopSched             (* sched.Stop(): the cancellation *)
  | DWaitSched             (* and its wg.Wait() *)
  | DStopReaper
  | DWaitReaper
  | DCancelShutdown.       (* shutdownCancel() *)

(** Where run is. *)
Inductive main_pc :=
  | PLoad
  | PParseDSN              (* pgstore.New: ParseConfig, NewWithConfig, Ping *)
  | PNewPool
  | PPingPG
  | PNewRedis
  | PPingRedis
  | PStartSched
  | PStartReaper
  | PListen                (* the router is built, the server not started *)
  | PSelect
  | PShutdown              (* before srv.Shutdown *)
  | PDrain                 (* in srv.Shutdown *)
  | PReturn (r : result unit)   (* run has returned, its deferred calls go on *)
  | PExit (code : Z)
  | PCrash.                (* a panic in a goroutine *)

Inductive pool_state := PoolNone | PoolOpen | PoolClosed.

#[export] Instance pool_state_eq_dec : EqDecision pool_state.
Proof. solve_decision. Defined.

(** The goroutine of the scheduler or of the reaper. *)
Inductive loop_pc := LNone | LStarted | LWaiting | LPassing | LExited.

#[export] Instance loop_pc_eq_dec : EqDecision loop_pc.
Proof. solve_decision. Defined.

Record loop := MkLoop { lp_pc : loop_pc; lp_cancelled : bool }.

Definition loop_live (l : loop) : bool := match lp_pc l with LStarted | LWaiting | LPassing => true | _ => false end.

Inductive http_state := HNone | HServing | HFailed | HClosed.

Record proc := MkProc {
  p_pc : main_pc;
  p_defers : list deferred;
  p_pool : pool_state;                     (* of the PostgreSQL store *)
  p_redis : pool_state;
  p_sched : loop;
  p_reaper : loop;
  p_http : http_state;
  p_requests : nat;                        (* handlers at work *)
  p_jobs : nat;                            (* goroutines that handlers have started *)
  p_conns : nat;                           (* connections of the pool that those two hold *)
  p_drain : option (option error);         (* what Shutdown has returned *)
}.

Definition proc_init : proc := MkProc PLoad [] PoolNone PoolNone (MkLoop LNone false) (MkLoop LNone false) HNone 0 0 0 None.

Definition set_pc (x : main_pc) (p : proc) : proc :=
  MkProc x (p_defers p) (p_pool p) (p_redis p) (p_sched p) (p_reaper p) (p_http p) (p_requests p) (p_jobs p) (p_conns p) (p_drain p).
Definition set_defers (x : list deferred) (p : proc) : proc :=
  MkProc (p_pc p) x (p_pool p) (p_redis p) (p_sched p) (p_reaper p) (p_http p) (p_requests p) (p_jobs p) (p_conns p) (p_drain p).
Definition push (x : deferred) (p : proc) : proc := set_defers (x :: p_defers p) p.
Definition set_pool (x : pool_state) (p : proc) : proc :=
  MkProc (p_pc p) (p_defers p) x (p_redis p) (p_sched p) (p_reaper p) (p_http p) (p_requests p) (p_jobs p) (p_conns p) (p_drain p).
Definition set_redis (x : pool_state) (p : proc) : proc :=
  MkProc (p_pc p) (p_defers p) (p_pool p) x (p_sched p) (p_reaper p) (p_http p) (p_requests p) (p_jobs p) (p_conns p) (p_drain p).
Definition set_sched (x : loop) (p : proc) : proc :=
  MkProc (p_pc p) (p_defers p) (p_pool p) (p_redis p) x (p_reaper p) (p_http p) (p_requests p) (p_jobs p) (p_conns p) (p_drain p).
Definition set_reaper (x : loop) (p : proc) : proc :=
  MkProc (p_pc p) (p_defers p) (p_pool p) (p_redis p) (p_sched p) x (p_http p) (p_requests p) (p_jobs p) (p_conns p) (p_drain p).
Definition set_http (x : http_state) (p : proc) : proc :=
  MkProc (p_pc p) (p_defers p) (p_pool p) (p_redis p) (p_sched p) (p_reaper p) x (p_requests p) (p_jobs p) (p_conns p) (p_drain p).
Definition set_requests (n j : nat) (p : proc) : proc :=
  MkProc (p_pc p) (p_defers p) (p_pool p) (p_redis p) (p_sched p) (p_reaper p) (p_http p) n j (p_conns p) (p_drain p).
Definition set_conns (n : nat) (p : proc) : proc :=
  MkProc (p_pc p) (p_defers p) (p_pool p) (p_redis p) (p_sched p) (p_reaper p) (p_http p) (p_requests p) (p_jobs p) n (p_drain p).
Definition set_drain (x : option error) (p : proc) : proc :=
  MkProc (p_pc p) (p_defers p) (p_pool p) (p_redis p) (p_sched p) (p_reaper p) (p_http p) (p_requests p) (p_jobs p) (p_conns p) (Some x).

Inductive which := TheScheduler | TheReaper.

Definition the_loop (l : which) (p : proc) : loop := match l with TheScheduler => p_sched p | TheReaper => p_reaper p end.
Definition set_loop (l : which) (x : loop) (p : proc) : proc := match l with TheScheduler => set_sched x p | TheReaper => set_reaper x p end.

Inductive event :=
  | EvMain (err : option error)          (* run goes on; the error of the call that it makes *)
  | EvSignal                             (* SIGTERM or SIGINT, at the select *)
  | EvServeReturns (closed : bool)       (* ListenAndServe: ErrServerClosed or another error *)
  | EvRequest
  | EvRequestEnds (jobs : nat)
  | EvJobEnds
  | EvConnTaken                          (* a handler or one of those goroutines gets a connection *)
  | EvConnReturned                       (* and gives it back: the end of its query or transaction *)
  | EvLoopRuns (l : which)               (* the goroutine of Start gets to its ticker *)
  | EvLoopTick (l : which)
  | EvLoopPassed (l : which)
  | EvLoopReturns (l : which).

Section process.
Context `{V : Viper Config}.
Variable cfgFile : string.               (* GRID_CONFIG_FILE *)

(** return fmt.Errorf("...: %w", err) *)
Definition fails (what : string) (p : proc) : proc := set_pc (PReturn (Err (ErrMsg what))) p.

(** The deferred calls, last first; then main.  pg.Close is pgxpool's: it refuses further
    acquisitions and blocks until every connection that has been acquired is back, and has
    no deadline. *)
Definition run_deferred (r : result unit) (p : proc) : option proc :=
  match p_defers p with
  | [] => Some (set_pc (PExit (if is_ok r then 0 else 1)) p)
  | DCancel :: ds =>
      Some (set_defers ds (set_sched (MkLoop (lp_pc (p_sched p)) true) (set_reaper (MkLoop (lp_pc (p_reaper p)) true) p)))
  | DClosePG :: ds => Some (set_defers (DWaitPG :: ds) (set_pool PoolClosed p))
  | DWaitPG :: ds => if (0 <? p_conns p)%nat then None else Some (set_defers ds p)
  | DCloseRedis :: ds => Some (set_defers ds (set_redis PoolClosed p))
  | DStopSched :: ds => Some (set_defers (DWaitSched :: ds) (set_sched (MkLoop (lp_pc (p_sched p)) true) p))
  | DWaitSched :: ds => if loop_live (p_sched p) then None else Some (set_defers ds p)
  | DStopReaper :: ds => Some (set_defers (DWaitReaper :: ds) (set_reaper (MkLoop (lp_pc (p_reaper p)) true) p))
  | DWaitReaper :: ds => if loop_live (p_reaper p) then None else Some (set_defers ds p)
  | DCancelShutdown :: ds => Some (set_defers ds p)
  end.

(** A step of pgstore.New; the pool that does not answer is closed. *)
Definition pg_New_step (err : option error) (p : proc) : option proc :=
  match p_pc p, err with
  | PParseDSN, Some _ => Some (fails "postgres: parse dsn" p)
  | PParseDSN, None => Some (set_pc PNewPool p)
  | PNewPool, Some _ => Some (fails "postgres: create pool" p)
  | PNewPool, None => Some (set_pc PPingPG (set_pool PoolOpen p))
  | PPingPG, Some _ => Some (fails "postgres: ping" (set_pool PoolClosed p))
  | PPingPG, None => Some (set_pc PNewRedis (push DClosePG p))
  | _, _ => None
  end.

(** A step of run. *)
Definition main_step (err : option error) (p : proc) : option proc :=
  match p_pc p, err with
  | PLoad, _ =>
      Some match Load cfgFile with
           | Err _ => fails "load config" p
           | Ok _ => set_pc PParseDSN (push DCancel p)
           end
  | PParseDSN, _ | PNewPool, _ | PPingPG, _ => pg_New_step err p
  | PNewRedis, _ => Some (set_pc PPingRedis (push DCloseRedis (set_redis PoolOpen p)))
  | PPingRedis, Some _ => Some (fails "redis: ping" p)
  | PPingRedis, None => Some (set_pc PStartSched p)
  | PStartSched, _ => Some (set_pc PStartReaper (push DStopSched (set_sched (MkLoop LStarted false) p)))
  | PStartReaper, _ => Some (set_pc PListen (push DStopReaper (set_reaper (MkLoop LStarted false) p)))
  | PListen, _ => Some (set_pc PSelect (set_http HServing p))
  | PSelect, _ => None
  | PShutdown, _ => Some (set_pc PDrain (push DCancelShutdown (set_http HClosed p)))
  | PDrain, None => if (p_requests p =? 0)%nat then Some (set_pc (PReturn (Ok tt)) (set_drain None p)) else None
  | PDrain, Some e => Some (set_pc (PReturn (Ok tt)) (set_drain (Some e) p))
  | PReturn r, _ => run_deferred r p
  | PExit _, _ | PCrash, _ => None
  end.

(** The interval of a loop's ticker. *)
Definition loop_interval (l : which) (cfg : Config) : option Z :=
  match l with
  | TheScheduler => Scheduler_Start (Sch_TickIntervalSec (Cfg_Scheduler cfg))
  | TheReaper => Reaper_Start (Sch_ReaperIntervalSec (Cfg_Scheduler cfg))
  end.

(** A step of one of the loops: select takes a tick even after the cancellation, when both
    are ready. *)
Definition loop_step (e : event) (l : which) (p : proc) : option proc :=
  let lp := the_loop l p in
  match e, lp_pc lp with
  | EvLoopRuns _, LStarted =>
      match Load cfgFile with
      | Ok cfg =>
          Some match loop_interval l cfg with
               | Some _ => set_loop l (MkLoop LWaiting (lp_cancelled lp)) p
               | None => set_pc PCrash p
               end
      | Err _ => None
      end
  | EvLoopTick _, LWaiting => Some (set_loop l (MkLoop LPassing (lp_cancelled lp)) p)
  | EvLoopPassed _, LPassing => Some (set_loop l (MkLoop LWaiting (lp_cancelled lp)) p)
  | EvLoopReturns _, LWaiting => if lp_cancelled lp then Some (set_loop l (MkLoop LExited true) p) else None
  | _, _ => None
  end.

Definition stopped (p : proc) : bool := match p_pc p with PExit _ | PCrash => true | _ => false end.
Definition accepting (p : proc) : bool := match p_http p with HServing | HFailed => true | _ => false end.

(** Whoever ends has given back its connections: with nobody left, none is out. *)
Definition all_back (p : proc) : option proc :=
  if (0 <? p_conns p)%nat && (p_requests p + p_jobs p =? 0)%nat then None else Some p.

Definition proc_step (e : event) (p : proc) : option proc :=
  if stopped p then None
  else match e with
       | EvMain err => main_step err p
       | EvSignal => match p_pc p with PSelect => Some (set_pc PShutdown p) | _ => None end
       | EvServeReturns closed =>
           match p_http p, p_pc p with
           | HServing, PSelect =>
               Some (if closed then set_pc PShutdown (set_http HFailed p) else fails "http server" (set_http HFailed p))
           | HServing, PShutdown => Some (set_http HFailed p)
           | _, _ => None
           end
       | EvRequest => if accepting p then Some (set_requests (S (p_requests p)) (p_jobs p) p) else None
       | EvRequestEnds jobs =>
           match p_requests p with
           | O => None
           | S n => all_back (set_requests n (jobs + p_jobs p) p)
           end
       | EvJobEnds =>
           match p_jobs p with O => None | S n => all_back (set_requests (p_requests p) n p) end
       | EvConnTaken =>
           if bool_decide (p_pool p = PoolOpen) && (0 <? p_requests p + p_jobs p)%nat
           then Some (set_conns (S (p_conns p)) p) else None
       | EvConnReturned => match p_conns p with O => None | S n => Some (set_conns n p) end
       | EvLoopRuns l | EvLoopTick l | EvLoopPassed l | EvLoopReturns l => loop_step e l p
       end.

Fixpoint proc_run (es : list event) (p : proc) : option proc :=
  match es with
  | [] => Some p
  | e :: es => match proc_step e p with Some p' => proc_run es p' | None => None end
  end.

Definition proc_reach (p : proc) : Prop := ∃ es, proc_run es proc_init = Some p.
End process.
