(* ===== verification/ServerLife.v ===== *)
(** * The life of the control-plane process: what is proved of cmd/server/main.go *)
From S2P Require Import Prelude GoStd CpConfig ServerMain.

#[local] Open Scope string_scope.
#[local] Open Scope Z_scope.

Section life.
Context `{V : Viper Config}.
Variable cfgFile : string.
#[local] Abbreviation proc_step := (proc_step cfgFile).
#[local] Abbreviation main_step := (main_step cfgFile).
#[local] Abbreviation loop_step := (loop_step cfgFile).
#[local] Abbreviation proc_run := (proc_run cfgFile).
#[local] Abbreviation proc_reach := (proc_reach cfgFile).

(** ** What is open when *)

Definition rank (d : deferred) : nat :=
  match d with
  | DCancel => 0 | DClosePG | DWaitPG => 1 | DCloseRedis => 2 | DStopSched | DWaitSched => 3 | DStopReaper | DWaitReaper => 4
  | DCancelShutdown => 5
  end.

(** The deferred calls are those of the first so many things that run sets up. *)
Definition in_order (ds : list deferred) : Prop := map rank ds = rev (seq 0 (length ds)).

Lemma in_order_cons d ds : in_order (d :: ds) ↔ rank d = length ds ∧ in_order ds.
Proof.
  unfold in_order. cbn [length map]. rewrite seq_S, rev_app_distr. simpl. split; [by intros [= -> ->]|by intros [-> ->]].
Qed.

(** How many there are where. *)
Definition depth (pc : main_pc) : option nat :=
  match pc with
  | PLoad => Some 0%nat
  | PParseDSN | PNewPool | PPingPG => Some 1%nat
  | PNewRedis => Some 2%nat
  | PPingRedis | PStartSched => Some 3%nat
  | PStartReaper => Some 4%nat
  | PListen | PSelect | PShutdown => Some 5%nat
  | PDrain => Some 6%nat
  | PReturn _ | PCrash => None
  | PExit _ => Some 0%nat
  end.

Definition serving_pc (pc : main_pc) : bool := match pc with PSelect | PShutdown | PDrain | PCrash => true | _ => false end.
Definition succeeded (pc : main_pc) : bool := match pc with PReturn (Ok _) => true | PExit c => c =? 0 | _ => false end.

(** In pg.Close. *)
Fixpoint closing (ds : list deferred) : bool :=
  match ds with [] => false | DWaitPG :: _ => true | _ :: ds => closing ds end.
Definition returning (pc : main_pc) : bool := match pc with PReturn _ => true | _ => false end.

Record proc_inv (p : proc) : Prop := {
  pi_order : in_order (p_defers p);
  pi_depth : ∀ n, depth (p_pc p) = Some n → length (p_defers p) = n;
  pi_loaded : (1 <= length (p_defers p))%nat → ∃ cfg, Load cfgFile = Ok cfg;
  pi_pool : p_pool p = PoolOpen ↔
    (2 <= length (p_defers p))%nat ∧ closing (p_defers p) = false ∨ p_pc p = PPingPG;
  pi_closing : closing (p_defers p) = true → (length (p_defers p) <= 2)%nat ∧ returning (p_pc p) = true;
  pi_conns : (0 < p_conns p)%nat → (0 < p_requests p + p_jobs p)%nat;
  pi_redis : p_redis p = PoolOpen ↔ (3 <= length (p_defers p))%nat;
  pi_sched : loop_live (p_sched p) = true → (4 <= length (p_defers p))%nat;
  pi_reaper : loop_live (p_reaper p) = true → (5 <= length (p_defers p))%nat;
  pi_serving : p_http p = HServing → p_pc p = PSelect ∨ p_pc p = PShutdown ∨ p_pc p = PCrash;
  pi_requests : (0 < p_requests p)%nat → serving_pc (p_pc p) = true ∨ p_http p = HFailed ∨ ∃ e, p_drain p = Some (Some e);
  pi_drain : succeeded (p_pc p) = true → p_drain p ≠ None;
  pi_crash : p_pc p = PCrash → (4 <= length (p_defers p))%nat ∧ ∃ cfg, Load cfgFile = Ok cfg ∧ start_loops cfg = None;
}.

Lemma proc_inv_init : proc_inv proc_init.
Proof. constructor; simpl; naive_solver lia. Qed.

(** The invariant, field by field, after a step. *)
Ltac forward :=
  repeat match goal with
  | H : in_order (_ :: _) |- _ => apply in_order_cons in H as [? ?]; cbn [rank] in *
  | H : ∀ n, Some _ = Some n → _ |- _ => specialize (H _ eq_refl)
  | H : _ ↔ _ |- _ => destruct H
  | H : _ ∧ _ |- _ => destruct H
  | H : ?A → _ |- _ =>
      lazymatch type of A with Prop => idtac end;
      let h := fresh in assert A as h by (first [lia|done|left; first [lia|done]|right; done]); specialize (H h); clear h
  end.

Ltac close_inv :=
  constructor; cbn in *; try (apply in_order_cons; split); cbn in *; try split; intros; cbn in *; forward;
  first [done|lia|solve [intuition (first [congruence|lia|eauto])]].

Lemma run_deferred_inv r p p' : proc_inv p → p_pc p = PReturn r → run_deferred r p = Some p' → proc_inv p'.
Proof.
  destruct p as [pc ds pool redis [sp sc] [rp rc] http reqs jobs conns drain]. intros [] Hr Hs. cbn in *. subst pc.
  unfold run_deferred in Hs. cbn in Hs. destruct ds as [|d ds].
  - injection Hs as <-. destruct r; close_inv.
  - destruct d; cbn in Hs; try (injection Hs as <-; solve [close_inv]).
    + destruct conns; try done; injection Hs as <-; close_inv.
    + destruct sp; try done; injection Hs as <-; close_inv.
    + destruct rp; try done; injection Hs as <-; close_inv.
Qed.

Lemma main_step_inv err p p' : proc_inv p → main_step err p = Some p' → proc_inv p'.
Proof.
  unfold main_step, pg_New_step. destruct (p_pc p) eqn:Hpc; intros I Hs; try done; try (by eapply run_deferred_inv).
  all: destruct p as [pc ds pool redis [sp sc] [rp rc] http reqs jobs conns drain]; destruct I; cbn in *; subst pc.
  all: assert (closing ds = false) as Hcl by (destruct (closing ds); [by destruct pi_closing0|done]);
    cbn in Hcl; rewrite ?Hcl in *.
  - injection Hs as <-. destruct (Load cfgFile) as [cfg|e] eqn:E; close_inv.
  - destruct err; injection Hs as <-; close_inv.
  - destruct err; injection Hs as <-; close_inv.
  - destruct err; injection Hs as <-; close_inv.
  - injection Hs as <-; close_inv.
  - destruct err; injection Hs as <-; close_inv.
  - injection Hs as <-; close_inv.
  - injection Hs as <-; close_inv.
  - injection Hs as <-; close_inv.
  - injection Hs as <-; close_inv.
  - destruct err as [e|]; [injection Hs as <-; close_inv|]. destruct (Nat.eqb_spec reqs 0); [|done]. injection Hs as <-. close_inv.
Qed.

Lemma set_loop_inv l x p :
  (loop_live x = true → loop_live (the_loop l p) = true) → proc_inv p → proc_inv (set_loop l x p).
Proof. intros Hx []. destruct l; constructor; cbn in *; auto. Qed.

Lemma crash_inv l cfg p :
  stopped p = false → loop_live (the_loop l p) = true → Load cfgFile = Ok cfg → loop_interval l cfg = None →
  proc_inv p → proc_inv (set_pc PCrash p).
Proof.
  intros Hst Hl HL Hi []. assert (4 <= length (p_defers p))%nat as H4.
  { destruct l; cbn in *; [auto|]. specialize (pi_reaper0 Hl). lia. }
  assert (closing (p_defers p) = false) as Hcl
    by (destruct (closing _); [destruct pi_closing0; [done|lia]|done]).
  rewrite Hcl in *. constructor; cbn; rewrite ?Hcl; try done; auto.
  - rewrite pi_pool0. split; [|by intros [?|?]; [left|done]]. left. split; [lia|done].
  - intros _. split; [done|]. exists cfg. split; [done|]. unfold start_loops. destruct l; cbn in Hi; rewrite Hi; [done|]. by case_match.
Qed.

Lemma loop_step_inv e l p p' : proc_inv p → stopped p = false → loop_step e l p = Some p' → proc_inv p'.
Proof.
  intros I Hst Hs. unfold loop_step in Hs. destruct e; try done; destruct (lp_pc (the_loop l p)) eqn:Hl; try done.
  - destruct (Load cfgFile) as [cfg|] eqn:HL; [|done]. injection Hs as <-. destruct (loop_interval l cfg) eqn:Hi.
    + apply set_loop_inv; [|done]. unfold loop_live. by rewrite Hl.
    + eapply crash_inv; try done. unfold loop_live. by rewrite Hl.
  - injection Hs as <-. apply set_loop_inv; [|done]. unfold loop_live. by rewrite Hl.
  - injection Hs as <-. apply set_loop_inv; [|done]. unfold loop_live. by rewrite Hl.
  - destruct (lp_cancelled _); [|done]. injection Hs as <-. by apply set_loop_inv.
Qed.

Lemma all_back_inv p p' :
  all_back p = Some p' → p' = p ∧ ((0 < p_conns p)%nat → (0 < p_requests p + p_jobs p)%nat).
Proof.
  unfold all_back. destruct (Nat.ltb_spec 0 (p_conns p)); [|intros [= ->]; split; [done|lia]].
  destruct (Nat.eqb_spec (p_requests p + p_jobs p) 0); [done|]. intros [= ->]. split; [done|lia].
Qed.

Lemma proc_step_inv e p p' : proc_inv p → proc_step e p = Some p' → proc_inv p'.
Proof.
  intros I. unfold proc_step. destruct (stopped p) eqn:Hst; [done|]. intros Hs. destruct e; try (by eapply loop_step_inv).
  - by eapply main_step_inv.
  - destruct (p_pc p) eqn:E; try done. injection Hs as <-. destruct I. rewrite E in *.
    constructor; cbn; try solve [done|auto|naive_solver].
  - destruct (p_http p) eqn:Eh; try done. destruct (p_pc p) eqn:E; try done; injection Hs as <-.
    + destruct I. rewrite E in *. destruct closed; constructor; cbn; try solve [done|auto|naive_solver].
    + destruct I. rewrite E in *. constructor; cbn; rewrite ?E; try solve [done|auto|naive_solver].
  - unfold accepting in Hs. destruct (p_http p) eqn:Eh; try done; injection Hs as <-; destruct I;
      constructor; cbn; auto; try lia.
    intros _. left. by destruct (pi_serving0 Eh) as [->|[->| ->]].
  - destruct (p_requests p) as [|n] eqn:E; [done|]. apply all_back_inv in Hs as [-> Hc]. destruct I; constructor; cbn; auto.
    intros _. apply pi_requests0. lia.
  - destruct (p_jobs p) as [|n] eqn:E; [done|]. apply all_back_inv in Hs as [-> Hc]. destruct I; by constructor.
  - case_bool_decide; [|done]. destruct (Nat.ltb_spec 0 (p_requests p + p_jobs p)); [|done]. injection Hs as <-.
    destruct I; by constructor.
  - destruct (p_conns p) as [|n] eqn:E; [done|]. injection Hs as <-. destruct I; constructor; cbn; auto.
    intros _. apply pi_conns0. lia.
Qed.

Lemma proc_reach_inv p : proc_reach p → proc_inv p.
Proof.
  intros [es He]. revert He. assert (proc_inv proc_init) as I by apply proc_inv_init. revert I. generalize proc_init.
  induction es as [|e es IH]; intros q I H; simpl in H; [by injection H as <-|].
  destruct (proc_step e q) as [q'|] eqn:E; [|done]. eapply IH; [|exact H]. by eapply proc_step_inv.
Qed.

Lemma stores_open p : proc_inv p → (3 <= length (p_defers p))%nat → p_pool p = PoolOpen ∧ p_redis p = PoolOpen.
Proof.
  intros I Hl. rewrite (pi_pool p I), (pi_redis p I). split; [|done]. left. split; [lia|].
  destruct (closing (p_defers p)) eqn:E; [|done]. apply (pi_closing p I) in E. lia.
Qed.

(** C31: The process holds what it uses and gives back what it holds: whatever fails and in
    whichever order its goroutines run, a pass of the scheduler or the reaper finds both
    stores open; so does a request, unless the server has failed or Shutdown has given up
    waiting for it; when the process exits, with a failure or not, both stores are closed and
    no loop is running; it exits with success only after Shutdown; and it panics only for
    a ticker interval that is not positive. *)
Theorem stores_outlive_users p :
  proc_reach p →
  (∀ l, lp_pc (the_loop l p) = LPassing → p_pool p = PoolOpen ∧ p_redis p = PoolOpen) ∧
  ((0 < p_requests p)%nat → p_pool p = PoolOpen ∧ p_redis p = PoolOpen ∨ p_http p = HFailed ∨ ∃ e, p_drain p = Some (Some e)) ∧
  (∀ code, p_pc p = PExit code →
     p_pool p ≠ PoolOpen ∧ p_redis p ≠ PoolOpen ∧ (∀ l, loop_live (the_loop l p) = false) ∧ (code = 0 → p_drain p ≠ None)) ∧
  (p_pc p = PCrash → ∃ cfg, Load cfgFile = Ok cfg ∧ start_loops cfg = None).
Proof.
  intros I%proc_reach_inv. pose proof (stores_open p I) as Hopen.
  destruct I as [Ho Hd Hlo Hp Hcl _ Hr Hs Hre Hse Hq Hdr Hc]. split_and!.
  - intros l Hl. apply Hopen.
    destruct l; cbn in Hl; unfold loop_live in *; rewrite Hl in *; [specialize (Hs eq_refl)|specialize (Hre eq_refl)]; lia.
  - intros Hn. destruct (Hq Hn) as [Hpc|?]; [|by right]. left.
    apply Hopen. destruct (p_pc p); try done; try (specialize (Hd _ eq_refl); lia). destruct (Hc eq_refl). lia.
  - intros code E. rewrite Hp, Hr, E in *. specialize (Hd _ eq_refl). split_and!; try lia.
    + by intros [[? _]|?]; [lia|].
    + intros [|]; cbn; apply not_true_is_false; [intros ?%Hs|intros ?%Hre]; lia.
    + intros ->. by apply Hdr.
  - intros E. by apply Hc.
Qed.

(** ** The end *)

Definition defer_weight (d : deferred) : nat := match d with DStopSched | DStopReaper | DClosePG => 2 | _ => 1 end.

(** An upper bound of the steps that run has left to do. *)
Definition pc_weight (pc : main_pc) : nat :=
  match pc with
  | PLoad => 21 | PParseDSN => 19 | PNewPool => 18 | PPingPG => 17 | PNewRedis => 14 | PPingRedis => 12
  | PStartSched => 11 | PStartReaper => 8 | PListen => 5 | PSelect | PShutdown => 4 | PDrain => 2
  | PReturn _ => 1 | PExit _ | PCrash => 0
  end.
Definition main_left (p : proc) : nat :=
  if stopped p then 0 else pc_weight (p_pc p) + sum_list_with defer_weight (p_defers p).

Definition is_main (e : event) : bool := match e with EvMain _ => true | _ => false end.

(** The steps that need nobody outside: run goes on, a goroutine that has started gets to
    its ticker, a pass ends, a cancelled loop returns. *)
Definition own (e : event) : bool :=
  match e with EvMain _ | EvLoopRuns _ | EvLoopPassed _ | EvLoopReturns _ => true | _ => false end.

(** run is past its select. *)
Definition stopping (p : proc) : bool :=
  match p_pc p with PShutdown | PDrain | PReturn _ | PExit _ | PCrash => true | _ => false end.

Lemma run_deferred_left r p p' :
  p_pc p = PReturn r → run_deferred r p = Some p' → (S (main_left p') <= main_left p)%nat ∧ stopping p' = true.
Proof.
  intros Hr. unfold run_deferred. destruct (p_defers p) as [|d ds] eqn:Ed.
  - intros [= <-]. unfold main_left, stopped, stopping. cbn. rewrite Hr. simpl. split; [lia|done].
  - destruct d; intros Hs; try (destruct (loop_live _); [done|]); try (destruct (0 <? p_conns p)%nat; [done|]); injection Hs as <-;
      unfold main_left, stopped, stopping; cbn; rewrite Hr, Ed; simpl; (split; [lia|done]).
Qed.

Lemma main_step_left err p p' :
  main_step err p = Some p' → (S (main_left p') <= main_left p)%nat ∧ (stopping p = true → stopping p' = true).
Proof.
  unfold main_step, pg_New_step. destruct (p_pc p) eqn:Hpc; intros Hs; try done.
  all: try (by destruct (run_deferred_left _ p p' Hpc Hs)).
  all: try (destruct err as [e|]); try (destruct (p_requests p =? 0)%nat; [|done]); injection Hs as <-;
    try (destruct (Load cfgFile) as [cfg|e']); unfold main_left, stopped, stopping; cbn; rewrite ?Hpc; cbn; (split; [lia|done]).
Qed.

Lemma main_left_loop l x p : main_left (set_loop l x p) = main_left p ∧ stopping (set_loop l x p) = stopping p.
Proof. by destruct l. Qed.

Lemma loop_step_left e l p p' :
  loop_step e l p = Some p' → (main_left p' <= main_left p)%nat ∧ (stopping p = true → stopping p' = true).
Proof.
  unfold loop_step. destruct e; try done; destruct (lp_pc _); try done; intros Hs;
    try (destruct (lp_cancelled _); [|done]); try (destruct (Load cfgFile) as [cfg|]; [|done]); injection Hs as <-;
    try (destruct (loop_interval _ _)); try (edestruct main_left_loop as [-> ->]; split; [lia|done]).
  split; [unfold main_left, stopped; cbn; lia|done].
Qed.

Lemma proc_step_left e p p' :
  proc_step e p = Some p' →
  (main_left p' + (if is_main e then 1 else 0) <= main_left p)%nat ∧ (stopping p = true → stopping p' = true).
Proof.
  unfold proc_step. destruct (stopped p) eqn:Hst; [done|]. intros Hs. destruct e; cbn [is_main]; rewrite ?Nat.add_0_r.
  - apply main_step_left in Hs as [? ?]. split; [lia|done].
  - destruct (p_pc p) eqn:Hpc; try done. injection Hs as <-. unfold main_left, stopped, stopping. cbn. rewrite Hpc. cbn. split; [lia|done].
  - destruct (p_http p); try done. destruct (p_pc p) eqn:Hpc; try done; try destruct closed; injection Hs as <-;
      unfold main_left, stopped, stopping; cbn; rewrite ?Hpc; cbn; (split; [lia|done]).
  - destruct (accepting p); [|done]. by injection Hs as <-.
  - destruct (p_requests p); [done|]. by apply all_back_inv in Hs as [-> _].
  - destruct (p_jobs p); [done|]. by apply all_back_inv in Hs as [-> _].
  - destruct (_ && _); [|done]. by injection Hs as <-.
  - destruct (p_conns p); [done|]. by injection Hs as <-.
  - by eapply loop_step_left.
  - by eapply loop_step_left.
  - by eapply loop_step_left.
  - by eapply loop_step_left.
Qed.

(** run waits only for a loop that it has cancelled. *)
Definition returned (pc : main_pc) : bool := match pc with PReturn _ | PExit _ | PCrash => true | _ => false end.
Definition wait_ok (p : proc) (d : deferred) : Prop :=
  match d with
  | DWaitSched => returned (p_pc p) = true ∧ lp_cancelled (p_sched p) = true
  | DWaitReaper => returned (p_pc p) = true ∧ lp_cancelled (p_reaper p) = true
  | _ => True
  end.
Definition waits_ok (p : proc) : Prop := Forall (wait_ok p) (p_defers p).

Lemma waits_mono p p' ds :
  Forall (wait_ok p) ds → (returned (p_pc p) = true → returned (p_pc p') = true) →
  (returned (p_pc p) = true → lp_cancelled (p_sched p) = true → lp_cancelled (p_sched p') = true) →
  (returned (p_pc p) = true → lp_cancelled (p_reaper p) = true → lp_cancelled (p_reaper p') = true) → Forall (wait_ok p') ds.
Proof. intros H ? ? ?. eapply Forall_impl; [exact H|]. intros [] ?; simpl in *; naive_solver. Qed.

Lemma run_deferred_waits r p p' : p_pc p = PReturn r → waits_ok p → run_deferred r p = Some p' → waits_ok p'.
Proof.
  unfold waits_ok, run_deferred. intros Hr H Hs. destruct (p_defers p) as [|d ds] eqn:Ed.
  - injection Hs as <-. cbn. by rewrite Ed.
  - apply Forall_cons in H as [_ H]. destruct d; try (destruct (loop_live _); [done|]); try (destruct (0 <? p_conns p)%nat; [done|]); injection Hs as <-;
      cbn; try (constructor; [cbn; by rewrite ?Hr|]); eapply waits_mono; try exact H; cbn; auto.
Qed.

Lemma main_step_waits err p p' : waits_ok p → main_step err p = Some p' → waits_ok p'.
Proof.
  unfold main_step, pg_New_step. intros H Hs. destruct (p_pc p) eqn:Hpc; try done; try (by eapply run_deferred_waits).
  all: try (destruct err as [e|]); try (destruct (p_requests p =? 0)%nat; [|done]); injection Hs as <-; unfold waits_ok in *;
    try (destruct (Load cfgFile) as [cfg|e']); cbn; try (constructor; [done|]); eapply waits_mono; try exact H; cbn; rewrite ?Hpc; done.
Qed.

Lemma proc_step_waits e p p' : waits_ok p → proc_step e p = Some p' → waits_ok p'.
Proof.
  unfold proc_step. intros H. destruct (stopped p) eqn:Hst; [done|]. intros Hs.
  assert (∀ l, loop_step e l p = Some p' → waits_ok p') as Hl.
  { clear Hs. intros l Hs. unfold loop_step in Hs. destruct e; try done; destruct (lp_pc _); try done;
      try (destruct (lp_cancelled _) eqn:Hc; [|done]); try (destruct (Load cfgFile) as [cfg|]; [|done]); injection Hs as <-;
      try (destruct (loop_interval _ _)); unfold waits_ok in *; try (destruct l); cbn; eapply waits_mono; try exact H; cbn; auto. }
  destruct e; try (by eapply Hl).
  - by eapply main_step_waits.
  - destruct (p_pc p) eqn:Hpc; try done. injection Hs as <-. eapply waits_mono; try exact H; cbn; rewrite ?Hpc; auto.
  - destruct (p_http p); try done. destruct (p_pc p) eqn:Hpc; try done; try destruct closed; injection Hs as <-;
      eapply waits_mono; try exact H; cbn; rewrite ?Hpc; auto.
  - destruct (accepting p); [|done]. by injection Hs as <-.
  - destruct (p_requests p); [done|]. by apply all_back_inv in Hs as [-> _].
  - destruct (p_jobs p); [done|]. by apply all_back_inv in Hs as [-> _].
  - destruct (_ && _); [|done]. by injection Hs as <-.
  - destruct (p_conns p); [done|]. by injection Hs as <-.
Qed.

(** ** Progress *)

Lemma proc_run_app es1 es2 p p1 : proc_run es1 p = Some p1 → proc_run (es1 ++ es2)%list p = proc_run es2 p1.
Proof. revert p. induction es1 as [|e es1 IH]; intros p; simpl; [by intros [= ->]|]. destruct (proc_step e p); [apply IH|done]. Qed.

(** A cancelled loop comes to an end, unless it panics. *)
Lemma loop_finishes l p cfg :
  stopped p = false → Load cfgFile = Ok cfg → loop_live (the_loop l p) = true → lp_cancelled (the_loop l p) = true →
  ∃ es p', Forall (λ e, own e = true) es ∧ (length es <= 2)%nat ∧ proc_run es p = Some p' ∧
    (p_pc p' = PCrash ∨ p' = set_loop l (MkLoop LExited true) p).
Proof.
  intros Hst HL Hlive Hc.
  assert (∀ q, stopped (set_loop l q p) = false) as Hq by (by destruct l).
  assert (∀ q1 q2, set_loop l q1 (set_loop l q2 p) = set_loop l q1 p) as Hss by (by destruct l).
  assert (∀ q, the_loop l (set_loop l q p) = q) as Ht by (by destruct l).
  unfold loop_live in Hlive. destruct (lp_pc (the_loop l p)) eqn:Hl; try done.
  - destruct (loop_interval l cfg) as [d|] eqn:Hi.
    + exists [EvLoopRuns l; EvLoopReturns l], (set_loop l (MkLoop LExited true) p). split; [by repeat constructor|]. split; [simpl; lia|].
      split; [|by right]. simpl. unfold proc_step at 1. rewrite Hst. unfold loop_step. rewrite Hl, HL, Hi, Hc.
      unfold proc_step. rewrite Hq. unfold loop_step. by rewrite Ht, Hss.
    + exists [EvLoopRuns l], (set_pc PCrash p). split; [by repeat constructor|]. split; [simpl; lia|].
      split; [|by left]. simpl. unfold proc_step. rewrite Hst. unfold loop_step. by rewrite Hl, HL, Hi.
  - exists [EvLoopReturns l], (set_loop l (MkLoop LExited true) p). split; [by repeat constructor|]. split; [simpl; lia|].
    split; [|by right]. simpl. unfold proc_step. rewrite Hst. unfold loop_step. by rewrite Hl, Hc.
  - exists [EvLoopPassed l; EvLoopReturns l], (set_loop l (MkLoop LExited true) p). split; [by repeat constructor|]. split; [simpl; lia|].
    split; [|by right]. simpl. unfold proc_step at 1. rewrite Hst. unfold loop_step. rewrite Hl, Hc.
    unfold proc_step. rewrite Hq. unfold loop_step. by rewrite Ht, Hss.
Qed.

Lemma main_step_run err p p' : stopped p = false → main_step err p = Some p' → proc_run [EvMain err] p = Some p'.
Proof. intros Hst Hs. simpl. unfold proc_step. by rewrite Hst, Hs. Qed.

(** run is in pg.Close, and a connection is out. *)
Definition close_waits (p : proc) : bool :=
  match p_pc p, p_defers p with PReturn _, DWaitPG :: _ => (0 <? p_conns p)%nat | _, _ => false end.

Lemma close_waits_true p : close_waits p = true →
  ∃ r ds, p_pc p = PReturn r ∧ p_defers p = DWaitPG :: ds ∧ (0 < p_conns p)%nat.
Proof.
  unfold close_waits. destruct (p_pc p) as [| | | | | | | | | | | |r|c|]; try done.
  destruct (p_defers p) as [|[] ds]; try done. intros H%Nat.ltb_lt. by exists r, ds.
Qed.

Lemma close_waits_intro r ds p :
  p_pc p = PReturn r → p_defers p = DWaitPG :: ds → (0 < p_conns p)%nat → close_waits p = true.
Proof. unfold close_waits. intros -> ->. apply Nat.ltb_lt. Qed.

(** What run can do next: a step of its own, wait for a loop, or wait in pg.Close. *)
Lemma main_next p :
  stopped p = false → p_pc p ≠ PSelect →
  (∃ err p', main_step err p = Some p') ∨
  (∃ r l ds, p_pc p = PReturn r ∧ loop_live (the_loop l p) = true ∧
     p_defers p = (match l with TheScheduler => DWaitSched | TheReaper => DWaitReaper end) :: ds) ∨
  close_waits p = true.
Proof.
  unfold main_step, pg_New_step, stopped, close_waits. intros Hst Hsel.
  destruct (p_pc p) as [| | | | | | | | | | | |r|c|] eqn:Hpc; try done; try (left; by exists None; eexists).
  - left. by exists (Some ErrUnavailable); eexists.
  - unfold run_deferred. destruct (p_defers p) as [|d ds] eqn:Ed; [left; by exists None; eexists|].
    destruct d; try (left; by exists None; eexists).
    + destruct (0 <? p_conns p)%nat; [by right; right|left; by exists None; eexists].
    + destruct (loop_live (p_sched p)) eqn:E; [|left; by exists None; eexists]. right. left. by exists r, TheScheduler, ds.
    + destruct (loop_live (p_reaper p)) eqn:E; [|left; by exists None; eexists]. right. left. by exists r, TheReaper, ds.
Qed.

(** In a state where run waits for nothing outside it moves on, after at most two steps of
    the loop that it waits for. *)
Lemma proc_moves_on p :
  proc_inv p → waits_ok p → stopped p = false → p_pc p ≠ PSelect → close_waits p = false →
  ∃ es p', Forall (λ e, own e = true) es ∧ (length es <= 3)%nat ∧ proc_run es p = Some p' ∧ (main_left p' < main_left p)%nat.
Proof.
  intros I W Hst Hsel Hcw.
  destruct (main_next p Hst Hsel) as [(err & p' & Hs)|[(r & l & ds & Hr & Hlive & Hd)|Hc]]; [| |congruence].
  - exists [EvMain err], p'. split; [by constructor|]. split; [simpl; lia|]. split; [by apply main_step_run|].
    apply main_step_left in Hs as [? _]. lia.
  - destruct (pi_loaded p I) as [cfg HL]; [rewrite Hd; simpl; lia|].
    assert (lp_cancelled (the_loop l p) = true) as Hc.
    { unfold waits_ok in W. rewrite Hd in W. apply Forall_cons in W as [W _]. by destruct l; destruct W. }
    destruct (loop_finishes l p cfg Hst HL Hlive Hc) as (es & p1 & Hes & Hlen & Hrun & Hp1).
    assert (0 < main_left p)%nat by (unfold main_left; rewrite Hst, Hr; simpl; lia).
    destruct Hp1 as [Hcr| ->].
    + exists es, p1. split_and!; [done|lia|done|]. unfold main_left at 1, stopped. by rewrite Hcr.
    + assert (∃ p2, main_step None (set_loop l (MkLoop LExited true) p) = Some p2) as [p2 Hs].
      { unfold main_step, pg_New_step, run_deferred. destruct l; cbn; rewrite Hr, Hd; cbn; by eexists. }
      exists (es ++ [EvMain None])%list, p2. split; [apply Forall_app; by split; [|constructor]|]. split; [rewrite length_app; simpl; lia|].
      split; [rewrite (proc_run_app _ _ _ _ Hrun); apply main_step_run; [by destruct l|done]|].
      apply main_step_left in Hs as [Hs _]. rewrite (proj1 (main_left_loop _ _ _)) in Hs. lia.
Qed.

Lemma proc_run_stopping es p p' :
  proc_run es p = Some p' → (main_left p' <= main_left p)%nat ∧ (stopping p = true → stopping p' = true).
Proof.
  revert p. induction es as [|e es IH]; intros p; simpl; [by intros [= ->]|]. destruct (proc_step e p) as [p1|] eqn:E; [|done].
  intros [H1 H2]%IH. apply proc_step_left in E as [H3 H4]. split; [lia|auto].
Qed.

Lemma proc_run_inv es p p' : proc_inv p → waits_ok p → proc_run es p = Some p' → proc_inv p' ∧ waits_ok p'.
Proof.
  revert p. induction es as [|e es IH]; intros p I W; simpl; [by intros [= <-]|]. destruct (proc_step e p) as [p1|] eqn:E; [|done].
  apply IH; [by eapply proc_step_inv|by eapply proc_step_waits].
Qed.

(** The steps that need nobody outside do not touch the connections of the others. *)
Lemma main_step_conns err p p' : main_step err p = Some p' → p_conns p' = p_conns p.
Proof.
  unfold main_step, pg_New_step, run_deferred. intros Hs. repeat case_match; simplify_eq; try done.
Qed.

Lemma loop_step_conns e l p p' : loop_step e l p = Some p' → p_conns p' = p_conns p.
Proof. unfold loop_step. intros Hs. repeat case_match; simplify_eq; by try destruct l. Qed.

Lemma own_conns es p p' : Forall (λ e, own e = true) es → proc_run es p = Some p' → p_conns p' = p_conns p.
Proof.
  intros H. revert p. induction H as [|e es He _ IH]; intros p; simpl; [by intros [= ->]|].
  destruct (proc_step e p) as [p1|] eqn:E; [|done]. intros ->%IH. unfold proc_step in E.
  destruct (stopped p); [done|]. destruct e; try done; first [by eapply main_step_conns|by eapply loop_step_conns].
Qed.

(** The same steps, and that a request or one of the goroutines left behind gives back a
    connection. *)
Definition helped (e : event) : bool := own e || match e with EvConnReturned => true | _ => false end.

(** How far a group of steps takes run: to its end, to its select, or, when nobody gives
    back connections, into the wait of pg.Close. *)
Definition settled (help : bool) (p : proc) : Prop :=
  stopped p = true ∨ p_pc p = PSelect ∨ help = false ∧ close_waits p = true.

Lemma settled_dec help p : settled help p ∨ ¬ settled help p.
Proof.
  unfold settled. destruct (stopped p); [by left; left|].
  destruct (p_pc p); try (by left; right; left); destruct help, (close_waits p);
    first [by left; right; right|right; naive_solver].
Qed.

Lemma proc_settles (help : bool) p :
  proc_inv p → waits_ok p →
  ∃ es p', Forall (λ e, (if help then helped e else own e) = true) es ∧
    (length es <= 3 * main_left p + (if help then p_conns p else 0))%nat ∧ proc_run es p = Some p' ∧ settled help p'.
Proof.
  remember (3 * main_left p + p_conns p)%nat as n eqn:En. revert p En.
  induction (lt_wf n) as [n _ IH]. intros p -> I W.
  destruct (settled_dec help p) as [Hs|Hs].
  { by exists [], p; split_and!; [|simpl; lia| |]. }
  destruct (stopped p) eqn:Hst; [by destruct Hs; left|].
  assert (p_pc p ≠ PSelect) as Hsel by (intros ?; by destruct Hs; right; left).
  destruct (close_waits p) eqn:Hcw.
  - destruct help; [|by destruct Hs; right; right]. destruct (close_waits_true p Hcw) as (r & ds & _ & _ & Hc).
    destruct (p_conns p) as [|c] eqn:Ec; [lia|]. set (p1 := set_conns c p).
    assert (proc_step EvConnReturned p = Some p1) as E by (unfold proc_step; by rewrite Hst, Ec).
    destruct (proc_run_inv [EvConnReturned] p p1 I W) as [I1 W1]; [simpl; by rewrite E|].
    assert (main_left p1 = main_left p) as Em by done.
    destruct (IH (3 * main_left p1 + p_conns p1)%nat ltac:(rewrite Em; simpl; lia) p1 eq_refl I1 W1) as (es & p' & Hes & Hlen & Hrun & Hend).
    exists (EvConnReturned :: es), p'. rewrite Em in Hlen. simpl in *.
    split_and!; [by constructor|lia|by rewrite E|done].
  - destruct (proc_moves_on p I W Hst Hsel Hcw) as (es & p1 & Hes & Hlen & Hrun & Hlt).
    destruct (proc_run_inv es p p1 I W Hrun) as [I1 W1]. pose proof (own_conns _ _ _ Hes Hrun) as Ec.
    destruct (IH (3 * main_left p1 + p_conns p1)%nat ltac:(lia) p1 eq_refl I1 W1) as (es2 & p2 & Hes2 & Hlen2 & Hrun2 & Hend).
    exists (es ++ es2)%list, p2. split_and!.
    + apply Forall_app. split; [|done]. eapply Forall_impl; [exact Hes|]. intros e He. cbv beta in *.
      unfold helped. by destruct help; rewrite He.
    + rewrite length_app. destruct help; lia.
    + by rewrite (proc_run_app _ _ _ _ Hrun).
    + done.
Qed.

(** While a connection is out, pg.Close ends in no way but by its return. *)
Lemma close_waits_stays e p p' :
  proc_inv p → close_waits p = true → proc_step e p = Some p' → e = EvConnReturned ∨ close_waits p' = true.
Proof.
  intros I (r & ds & Hr & Hd & Hc)%close_waits_true. unfold proc_step. destruct (stopped p) eqn:Hst; [done|].
  assert (∀ l, loop_live (the_loop l p) = false) as Hl.
  { intros l. apply not_true_is_false. intros H.
    destruct (pi_closing p I) as [H2 _]; [by rewrite Hd|].
    destruct l; [apply (pi_sched p I) in H|apply (pi_reaper p I) in H]; lia. }
  assert (∀ l, loop_step e l p = Some p' → False) as Hloop.
  { intros l. specialize (Hl l). unfold loop_step, loop_live in *. destruct e; try done; by destruct (lp_pc _). }
  intros Hs. destruct e; try (by destruct (Hloop _ Hs)).
  - unfold main_step, run_deferred in Hs. rewrite Hr, Hd in Hs. destruct (Nat.ltb_spec 0 (p_conns p)); [done|lia].
  - by rewrite Hr in Hs.
  - rewrite Hr in Hs. by destruct (p_http p).
  - destruct (accepting p); [|done]. injection Hs as <-. right. by apply (close_waits_intro r ds).
  - destruct (p_requests p); [done|]. apply all_back_inv in Hs as [-> _]. right. by apply (close_waits_intro r ds).
  - destruct (p_jobs p); [done|]. apply all_back_inv in Hs as [-> _]. right. by apply (close_waits_intro r ds).
  - destruct (_ && _); [|done]. injection Hs as <-. right. apply (close_waits_intro r ds); [done..|simpl; lia].
  - by left.
Qed.

(** C32: The process comes up and goes down without getting stuck, but for pg.Close.  run
    makes at most 21 steps in any execution.  From every state that can be reached, run, the
    loops it has cancelled and nobody else can bring it, in at most 63 steps, to its end, to
    its select (only if it is not past it yet, after a signal or a failure), or into
    pg.Close with a connection of the pool still out.  There it stays whatever else happens
    until that connection is given back: pgxpool's Close has no deadline, and what holds the
    connection is a goroutine that a request has left behind, or a request, which then the
    server's failure or the end of Shutdown's 30 seconds has abandoned.  If they give back
    their connections, run reaches its end, with one further step for each connection. *)
Theorem server_stops p :
  proc_reach p →
  (main_left p <= 21)%nat ∧
  (∀ e p', proc_step e p = Some p' → (main_left p' + (if is_main e then 1 else 0) <= main_left p)%nat) ∧
  (∃ es p', Forall (λ e, own e = true) es ∧ (length es <= 63)%nat ∧ proc_run es p = Some p' ∧
    (stopped p' = true ∨ stopping p = false ∧ p_pc p' = PSelect ∨ close_waits p' = true)) ∧
  (close_waits p = true →
    (∀ e p', proc_step e p = Some p' → e = EvConnReturned ∨ close_waits p' = true) ∧
    ((0 < p_jobs p)%nat ∨
     (0 < p_requests p)%nat ∧ (p_http p = HFailed ∨ ∃ e, p_drain p = Some (Some e)))) ∧
  (∃ es p', Forall (λ e, helped e = true) es ∧ (length es <= 63 + p_conns p)%nat ∧ proc_run es p = Some p' ∧
    (stopped p' = true ∨ stopping p = false ∧ p_pc p' = PSelect)).
Proof.
  intros [es0 H0]. assert (waits_ok proc_init) as W0 by constructor.
  destruct (proc_run_inv es0 _ p proc_inv_init W0 H0) as [I W].
  assert (main_left p <= 21)%nat as Hle by (destruct (proc_run_stopping _ _ _ H0) as [H _]; exact H).
  assert (∀ es p', proc_run es p = Some p' → p_pc p' = PSelect → stopping p = false) as Hns.
  { intros es p' Hrun Hsel. apply not_true_is_false. intros Hs.
    apply (proj2 (proc_run_stopping _ _ _ Hrun)) in Hs. unfold stopping in Hs. by rewrite Hsel in Hs. }
  split; [done|]. split; [by intros e p' [? _]%proc_step_left|]. split_and!.
  - destruct (proc_settles false p I W) as (es & p' & Hes & Hlen & Hrun & Hend). exists es, p'.
    split_and!; [done|lia|done|]. destruct Hend as [?|[?|[_ ?]]]; eauto.
  - intros Hcw. split; [by intros e p'; apply close_waits_stays|].
    destruct (close_waits_true p Hcw) as (r & ds & Hr & _ & Hc). apply (pi_conns p I) in Hc.
    destruct (decide (0 < p_jobs p)%nat) as [?|Hj]; [by left|right].
    assert (0 < p_requests p)%nat as Hq by lia. split; [done|].
    destruct (pi_requests p I Hq) as [Hs|?]; [|done]. by rewrite Hr in Hs.
  - destruct (proc_settles true p I W) as (es & p' & Hes & Hlen & Hrun & Hend). exists es, p'.
    split_and!; [done|lia|done|]. destruct Hend as [?|[?|[? _]]]; eauto; done.
Qed.
End life.
