(* ===== verification/Migrate.v ===== *)
(** * The migration runner (control-plane/cmd/migrate/main.go)

    [runMigrations] applies the .sql files of a directory, each in a transaction with the
    row of [schema_migrations] that records it.  The tables that the files create are an
    abstract [DB] and [exec_sql] is PostgreSQL executing the text of a file, which may
    refuse it; no file of migrations/ touches [schema_migrations] or ends its transaction.
    Each operation takes one entry of the fault schedule.  A killed process is a run whose
    remaining operations fail: a transaction that is not committed leaves nothing. *)
From S2P Require Import Prelude GoStd GoPath.

#[local] Open Scope string_scope.
#[local] Open Scope Z_scope.

(** What happens to one operation: it works, it fails without effect, it takes effect and
    its reply is lost, or (a query) it delivers [n] rows and stops. *)
Inductive fate := Works | Fails | Lost | Short (n : nat).

Section migrate.
Context {DB : Type} (exec_sql : string → DB → result DB).

(** The server: the tables of the migrations, and schema_migrations in the order of its
    serial id once it exists. *)
Record server := MkServer {
  s_tables : DB;
  s_migrations : option (list string);
  s_fates : list fate;
}.

Record filesystem := MkFS {
  fs_dir : string → option (list (string * bool));   (* os.ReadDir: name and IsDir *)
  fs_file : string → option string;                  (* os.ReadFile *)
}.

Definition next_fate : M server fate := λ s,
  match s_fates s with
  | [] => (Works, s)
  | f :: fs => (f, MkServer (s_tables s) (s_migrations s) fs)
  end.

Definition set_server (tables : DB) (migs : option (list string)) : M server unit := λ s,
  (tt, MkServer tables migs (s_fates s)).

(** An operation that changes the server: CREATE TABLE, COMMIT. *)
Definition effect (f : fate) (act : M server unit) : M server (result unit) :=
  match f with
  | Works => act;; mret (Ok tt)
  | Lost => act;; mret (Err ErrUnavailable)
  | _ => mret (Err ErrUnavailable)
  end.

Definition create_tracking : M server (result unit) :=
  f ← next_fate;
  s ← get;
  effect f (set_server (s_tables s) (Some (default [] (s_migrations s)))).

(** The applied file names.  rows.Err is not looked at after the loop, so rows that never
    arrive are rows that are not there. *)
Definition query_applied : M server (result (list string)) :=
  f ← next_fate;
  s ← get;
  mret (match s_migrations s, f with
        | Some rows, Works => Ok rows
        | Some rows, Short n => Ok (take n rows)
        | _, _ => Err ErrUnavailable
        end).

Definition reads {A} (v : option A) : M server (result A) :=
  f ← next_fate;
  mret (match f, v with Works, Some a => Ok a | _, _ => Err (ErrMsg "read") end).

(** os.ReadDir lists the names in order already; the program sorts them again. *)
Definition migration_files (entries : list (string * bool)) : list string :=
  merge_sort str_le (map fst (List.filter (λ e, negb (snd e) && HasSuffix (fst e) ".sql") entries)).

(** A statement in a transaction works on the transaction's copy. *)
Definition tx_exec (content : string) (tx : DB * list string) : M server (result (DB * list string)) :=
  f ← next_fate;
  mret (match f with
        | Works => match exec_sql content (fst tx) with Ok t => Ok (t, snd tx) | Err e => Err e end
        | _ => Err ErrUnavailable
        end).

(** filename is UNIQUE. *)
Definition tx_record (filename : string) (tx : DB * list string) : M server (result (DB * list string)) :=
  f ← next_fate;
  mret (match f with
        | Works => if decide (filename ∈ snd tx) then Err (ErrConstraint "schema_migrations_filename_key")
                   else Ok (fst tx, (snd tx ++ [filename])%list)
        | _ => Err ErrUnavailable
        end).

(** [x ←? m; k]: continue with the value, or return the error. *)
Definition or_return {A B} (m : M server (result A)) (k : A → M server (result B)) : M server (result B) :=
  r ← m; match r with Ok a => k a | Err e => mret (Err e) end.

(** One file: read it, and apply and record it in one transaction.  Rollback has no effect
    on the server, whether it is received or not. *)
Definition apply_file (fs : filesystem) (dir filename : string) : M server (result unit) :=
  or_return (reads (fs_file fs (path_Join [dir; filename]))) (λ content,
  or_return (reads (Some tt)) (λ _,                                  (* BeginTx *)
  s ← get;
  or_return (tx_exec content (s_tables s, default [] (s_migrations s))) (λ tx,
  or_return (tx_record filename tx) (λ tx,
  f ← next_fate;
  effect f (set_server (fst tx) (Some (snd tx))))))).

Fixpoint apply_pending (fs : filesystem) (dir : string) (applied files : list string) : M server (result unit) :=
  match files with
  | [] => mret (Ok tt)
  | filename :: files =>
      if decide (filename ∈ applied) then apply_pending fs dir applied files
      else or_return (apply_file fs dir filename) (λ _, apply_pending fs dir applied files)
  end.

Definition runMigrations (fs : filesystem) (dir : string) : M server (result unit) :=
  or_return create_tracking (λ _,
  or_return query_applied (λ applied,
  or_return (reads (fs_dir fs dir)) (λ entries,
  apply_pending fs dir applied (migration_files entries)))).

(** The exit code: log.Fatal is 1.  pgxpool.New and Ping are one operation each. *)
Definition main (getenv : string → string) (fs : filesystem) : M server Z :=
  if String.eqb (getenv "GRID_DATABASE_DSN") "" then mret 1
  else
    let dir := if String.eqb (getenv "MIGRATIONS_DIR") "" then "migrations" else getenv "MIGRATIONS_DIR" in
    r ← or_return (reads (Some tt)) (λ _, or_return (reads (Some tt)) (λ _, runMigrations fs dir));
    mret (if is_ok r then 0 else 1).

(** ** The reference: the files executed one after the other *)

Fixpoint exec_all (F : list (string * string)) (d : DB) : result DB :=
  match F with
  | [] => Ok d
  | (_, content) :: F => match exec_sql content d with Ok d => exec_all F d | Err e => Err e end
  end.

(** The directory holds exactly the files [F], with their contents. *)
Definition holds_files (fs : filesystem) (dir : string) (F : list (string * string)) : Prop :=
  ∃ entries, fs_dir fs dir = Some entries ∧ migration_files entries = map fst F ∧
    ∀ n c, (n, c) ∈ F → fs_file fs (path_Join [dir; n]) = Some c.

(** Some of the files, in order, have been applied and recorded, each once. *)
Definition applied_prefix (F : list (string * string)) (d0 : DB) (s : server) : Prop :=
  ∃ k, (k ≤ length F)%nat ∧ default [] (s_migrations s) = map fst (take k F) ∧
    exec_all (take k F) d0 = Ok (s_tables s).

Definition fresh (d0 : DB) : server := MkServer d0 None [].

(** Runs with their directories and fates, one after the other. *)
Definition run_once (r : filesystem * string * list fate) (s : server) : server :=
  let '(fs, dir, fates) := r in
  (runMigrations fs dir (MkServer (s_tables s) (s_migrations s) fates)).2.

Definition run_many (rs : list (filesystem * string * list fate)) (s : server) : server :=
  fold_left (λ s r, run_once r s) rs s.

(** ** Lemmas *)

Lemma exec_all_app F G d : exec_all (F ++ G) d = match exec_all F d with Ok d => exec_all G d | Err e => Err e end.
Proof. revert d. induction F as [|[n c] F IH]; intros d; simpl; [done|]. destruct (exec_sql c d); [apply IH|done]. Qed.

(** Files not directories whose name ends in .sql, in the order of their names. *)
Lemma migration_files_sorted entries : Sorted str_le (migration_files entries).
Proof. apply Sorted_merge_sort. intros a b. unfold str_le. destruct (String.leb_total a b); auto. Qed.

Lemma migration_files_elem entries n :
  n ∈ migration_files entries ↔ (n, false) ∈ entries ∧ HasSuffix n ".sql" = true.
Proof.
  unfold migration_files. rewrite merge_sort_Permutation, elem_of_bmap. split.
  - intros ([m b] & -> & [H [Hb Hs]%andb_prop]%elem_of_bfilter). simpl in *. by destruct b.
  - intros [H Hs]. exists (n, false). split; [done|]. apply elem_of_bfilter. split; [done|]. simpl. done.
Qed.

Section prefix.
Context (F : list (string * string)) (d0 : DB).
Hypothesis F_names : NoDup (map fst F).

(** The file at position [p] is recorded exactly when the prefix is longer. *)
Lemma recorded_lt k p n c :
  F !! p = Some (n, c) → n ∈ map fst (take k F) → (p < k)%nat.
Proof.
  intros Hp Hn. rewrite <-firstn_map in Hn. apply list_elem_of_lookup in Hn as [i Hi].
  apply lookup_take_Some in Hi as [Hi Hik].
  assert (map fst F !! p = Some n) as Hp' by (by rewrite list_lookup_fmap, Hp).
  by rewrite <-(NoDup_lookup _ _ _ _ F_names Hi Hp').
Qed.

Lemma recorded_in k p n c :
  F !! p = Some (n, c) → (p < k)%nat → n ∈ map fst (take k F).
Proof.
  intros Hp Hk. apply elem_of_bmap. exists (n, c). split; [done|].
  apply (list_elem_of_lookup_2 _ p). by rewrite lookup_take_lt.
Qed.

End prefix.

(** *** Triples over the tables and the record of migrations, whatever the fates *)

Definition assertion : Type := DB → list string → Prop.

Definition holds (P : assertion) (s : server) : Prop := P (s_tables s) (default [] (s_migrations s)).

Definition triple {A} (P : assertion) (m : M server A) (Q : A → assertion) : Prop :=
  ∀ s, holds P s → holds (Q (m s).1) (m s).2.

Lemma triple_bind {A B} P (m : M server A) R (k : A → M server B) Q :
  triple P m R → (∀ a, triple (R a) (k a) Q) → triple P (m ≫= k) Q.
Proof.
  intros Hm Hk s Hs. specialize (Hm s Hs). specialize (Hk (m s).1 (m s).2 Hm).
  unfold mbind, M_bind. by destruct (m s).
Qed.

Lemma triple_ret {A} (P : assertion) (a : A) (Q : A → assertion) :
  (∀ d l, P d l → Q a d l) → triple P (mret a) Q.
Proof. intros H s. apply H. Qed.

Lemma triple_conseq {A} (P' P : assertion) (m : M server A) (Q' Q : A → assertion) :
  (∀ d l, P d l → P' d l) → triple P' m Q' → (∀ a d l, Q' a d l → Q a d l) → triple P m Q.
Proof. intros HP Hm HQ s Hs. apply HQ, Hm, HP, Hs. Qed.

Lemma triple_next P : triple P next_fate (λ _, P).
Proof. intros [d l [|f fs]]; done. Qed.

Lemma triple_or_return {A B} P (m : M server (result A)) (R : A → assertion) (k : A → M server (result B))
    (Q : result B → assertion) :
  triple P m (λ r, match r with Ok a => R a | Err e => Q (Err e) end) →
  (∀ a, triple (R a) (k a) Q) → triple P (or_return m k) Q.
Proof. intros Hm Hk. eapply triple_bind; [done|]. intros [a|e]; [done|]. by apply triple_ret. Qed.

Lemma triple_reads {A} P (v : option A) (Q : result A → assertion) :
  (∀ a d l, v = Some a → P d l → Q (Ok a) d l) → (∀ e d l, P d l → Q (Err e) d l) → triple P (reads v) Q.
Proof.
  intros Hok Herr. eapply triple_bind; [apply triple_next|]. intros f. apply triple_ret. intros d l Hd.
  destruct f, v; auto.
Qed.

(** An effect is a step of the specification, or nothing happens and it is an error. *)
Lemma triple_effect P f d' l' (Q : result unit → assertion) :
  (∀ d l, P d l → Q (Ok tt) d' l') → (∀ e d l, P d l → Q (Err e) d' l') → (∀ e d l, P d l → Q (Err e) d l) →
  triple P (effect f (set_server d' (Some l'))) Q.
Proof. intros Hok Hlost Herr [d l fs] Hs. destruct f; simpl; (eapply Hok || eapply Hlost || eapply Herr); exact Hs. Qed.

(** Reading the state: the continuation runs on the values read. *)
Lemma triple_get {A} P (k : server → M server A) Q :
  (∀ s0, holds P s0 → triple (λ d l, d = s_tables s0 ∧ l = default [] (s_migrations s0)) (k s0) Q) → triple P (s ← get; k s) Q.
Proof. intros Hk s Hs. by apply (Hk s Hs s). Qed.

Lemma triple_exists {A X} (P : X → assertion) (m : M server A) Q :
  (∀ x, triple (P x) m Q) → triple (λ d l, ∃ x, P x d l) m Q.
Proof. intros H s [x Hs]. by apply (H x). Qed.

Lemma triple_pure {A} (φ : Prop) (P : assertion) (m : M server A) Q :
  (φ → triple P m Q) → triple (λ d l, φ ∧ P d l) m Q.
Proof. intros H s [Hφ Hs]. by apply H. Qed.

Section runs.
Context (F : list (string * string)) (d0 : DB).
Hypothesis F_names : NoDup (map fst F).

(** The invariant: the first [k] files are applied and recorded, [k] at least [p]. *)
Definition at_least (p : nat) : assertion := λ d l,
  ∃ k, (p ≤ k ≤ length F)%nat ∧ l = map fst (take k F) ∧ exec_all (take k F) d0 = Ok d.

Lemma apply_file_spec fs dir p j n c :
  F !! p = Some (n, c) → fs_file fs (path_Join [dir; n]) = Some c →
  triple (at_least (p `max` j)%nat) (apply_file fs dir n) (λ r, at_least (if is_ok r then S p `max` j else 0)%nat).
Proof.
  intros Hp Hc. set (q := (p `max` j)%nat). unfold apply_file. rewrite Hc.
  assert (∀ d l, at_least q d l → at_least 0 d l) as H0 by (intros d l (k & ? & ?); exists k; split; [lia|done]).
  apply triple_or_return with (R := λ content d l, content = c ∧ at_least q d l);
    [apply triple_reads; [by intros ? ? ? [= ->]|intros; by apply H0]|intros content].
  apply triple_or_return with (R := λ _ d l, content = c ∧ at_least q d l);
    [apply triple_reads; [done|intros ? ? ? [_ H]; by apply H0]|intros _].
  apply triple_get. intros [d m fs0] [-> Hpre]. simpl in *. set (l := default [] m) in *.
  eapply triple_or_return with (R := λ tx d1 l1, exec_sql c d = Ok (fst tx) ∧ snd tx = l ∧ d1 = d ∧ l1 = l).
  { eapply triple_bind; [apply triple_next|]. intros f. apply triple_ret. intros ? ? [-> ->].
    destruct f; try (by apply H0). simpl. destruct (exec_sql c d) eqn:E; simpl; [by split_and!|by apply H0]. }
  intros [d' l']. simpl.
  eapply triple_or_return with (R := λ tx d1 l1, exec_sql c d = Ok (fst tx) ∧ snd tx = app l [n] ∧ (n ∉ l) ∧ d1 = d ∧ l1 = l).
  { eapply triple_bind; [apply triple_next|]. intros f. apply triple_ret. intros ? ? (Hx & -> & -> & ->).
    destruct f; try (by apply H0). simpl. destruct (decide (n ∈ l)); simpl; [by apply H0|by split_and!]. }
  intros [d2 l2]. simpl. eapply triple_bind; [apply triple_next|]. intros f.
  assert (∀ d1 l1, exec_sql c d = Ok d2 ∧ l2 = (l ++ [n])%list ∧ (n ∉ l) ∧ d1 = d ∧ l1 = l → at_least (S p `max` j)%nat d2 l2) as Hnew.
  { intros d1 l1 (Hx & -> & Hn & -> & ->). destruct Hpre as (k & Hk & Hl & Hd). rewrite Hl in Hn |- *.
    assert (k = p) as ->.
    { destruct (decide (p < k)%nat) as [Hlt|]; [|lia]. destruct Hn. by eapply recorded_in. }
    exists (S p). apply lookup_lt_Some in Hp as Hlen. split; [lia|]. rewrite (take_S_r _ _ _ Hp), map_app, exec_all_app, Hd.
    split; [done|]. simpl. by rewrite Hx. }
  apply triple_effect; simpl; intros; [by eapply Hnew| |].
  - destruct (Hnew _ _ H) as (k & Hk & Hr). exists k. split; [lia|done].
  - destruct H as (_ & _ & _ & -> & ->). by apply H0.
Qed.

Lemma apply_pending_spec fs dir applied j rest p :
  (∀ n c, (n, c) ∈ rest → fs_file fs (path_Join [dir; n]) = Some c) →
  rest `prefix_of` drop p F → (∀ n, n ∈ applied → n ∈ map fst (take j F)) →
  triple (at_least (p `max` j)%nat) (apply_pending fs dir applied (map fst rest)) (λ _, at_least 0).
Proof.
  intros Hfs Hrest Hj. revert p Hrest. induction rest as [|[n c] rest IH]; intros p Hrest; simpl.
  - apply triple_ret. intros d l (k & Hk & H). exists k. split; [lia|done].
  - assert (F !! p = Some (n, c)) as Hp.
    { destruct Hrest as [F' E]. rewrite <-(Nat.add_0_r p), <-lookup_drop, E. done. }
    assert (rest `prefix_of` drop (S p) F) as Hrest'.
    { destruct Hrest as [F' E]. exists F'. by rewrite (drop_S _ _ _ Hp) in E; injection E. }
    specialize (IH ltac:(intros; apply Hfs; by right) _ Hrest'). destruct (decide _) as [Ha|_].
    + apply (recorded_lt F F_names _ _ _ _ Hp) in Hj; [|done]. replace (p `max` j)%nat with (S p `max` j)%nat by lia. done.
    + eapply triple_or_return with (R := λ _, at_least (S p `max` j)%nat); [|by intros _].
      eapply triple_conseq; [done|apply (apply_file_spec fs dir p j n c); [done|apply Hfs; by left]|].
      by intros [[]|e].
Qed.

Lemma runMigrations_spec fs dir F' :
  holds_files fs dir F' → F' `prefix_of` F → triple (at_least 0) (runMigrations fs dir) (λ _, at_least 0).
Proof.
  intros (entries & He & Hnames & Hfs) HF'. unfold runMigrations. rewrite He.
  apply triple_or_return with (R := λ _, at_least 0).
  { eapply triple_bind; [apply triple_next|]. intros f. apply triple_get. intros s0 H0.
    apply triple_effect; intros; destruct_and?; subst; exact H0. }
  intros _. apply triple_or_return with
    (R := λ applied d l, ∃ j, (∀ n, n ∈ applied → n ∈ map fst (take j F)) ∧ at_least j d l).
  { eapply triple_bind; [apply triple_next|]. intros f. apply triple_get. intros s0 (k & Hk & Hm & Hd).
    apply triple_ret. intros ? ? [-> ->].
    assert (∀ rows, s_migrations s0 = Some rows → at_least k (s_tables s0) rows ∧ rows = map fst (take k F)) as Hr.
    { intros rows E. rewrite E in Hm. simpl in Hm. split; [|done]. exists k. split; [lia|done]. }
    destruct (s_migrations s0) as [rows|] eqn:E; simpl; [|by exists k].
    destruct (Hr _ eq_refl) as [Hat Hrows]. destruct f; try (by exists k); exists k; (split; [|done]); intros m Hin.
    - by rewrite <-Hrows.
    - rewrite <-Hrows. eapply list_elem_of_lookup in Hin as [i Hi]. apply lookup_take_Some in Hi as [Hi _].
      by eapply list_elem_of_lookup_2. }
  intros applied. apply triple_exists. intros j. apply triple_pure. intros Hj.
  apply triple_or_return with (R := λ e d l, e = entries ∧ at_least j d l).
  { apply triple_reads; [by intros ? ? ? [= ->]|]. intros e d l (k & Hk & H). exists k. split; [lia|done]. }
  intros e. apply triple_pure. intros ->. rewrite Hnames. by apply (apply_pending_spec fs dir applied j F' 0).
Qed.

(** Without faults everything that is pending is applied. *)
Lemma apply_file_ok fs dir n c d l d' :
  fs_file fs (path_Join [dir; n]) = Some c → exec_sql c d = Ok d' → n ∉ l →
  apply_file fs dir n (MkServer d (Some l) []) = (Ok tt, MkServer d' (Some (l ++ [n])%list) []).
Proof.
  intros Hc Hx Hn. unfold apply_file, reads, tx_exec, tx_record, or_return, effect, set_server, get, mbind, M_bind, mret, M_ret.
  rewrite Hc. simpl. rewrite Hx. simpl. by rewrite decide_False by done.
Qed.

Lemma apply_pending_ok fs dir k rest p d dF :
  (∀ n c, (n, c) ∈ F → fs_file fs (path_Join [dir; n]) = Some c) →
  drop p F = rest → exec_all (drop (p `max` k)%nat F) d = Ok dF →
  apply_pending fs dir (map fst (take k F)) (map fst rest) (MkServer d (Some (map fst (take (p `max` k)%nat F))) []) =
  (Ok tt, MkServer dF (Some (map fst F)) []).
Proof.
  intros Hfs. revert p d. induction rest as [|[n c] rest IH]; intros p d Hp Hx; simpl.
  - assert (length F ≤ p)%nat as Hlen by (pose proof (length_drop F p) as E; rewrite Hp in E; simpl in E; lia).
    rewrite drop_ge in Hx by lia. rewrite take_ge by lia. by injection Hx as ->.
  - assert (F !! p = Some (n, c)) as Hpn by (by rewrite <-(Nat.add_0_r p), <-lookup_drop, Hp).
    assert (drop (S p) F = rest) as Hrest by (rewrite (drop_S _ _ _ Hpn) in Hp; by injection Hp).
    destruct (decide _) as [Ha|Ha].
    + apply (recorded_lt F F_names _ _ _ _ Hpn) in Ha. specialize (IH (S p) d Hrest).
      replace (S p `max` k)%nat with (p `max` k)%nat in IH by lia. auto.
    + assert (k ≤ p)%nat as Hkp by (destruct (decide (p < k)%nat) as [Hlt|]; [|lia]; destruct Ha; by eapply recorded_in).
      replace (p `max` k)%nat with p in * by lia. rewrite Hp in Hx. simpl in Hx.
      destruct (exec_sql c d) as [d'|] eqn:E; [|done]. unfold or_return, mbind, M_bind.
      rewrite (apply_file_ok fs dir n c d _ d'); [|by apply Hfs; eapply list_elem_of_lookup_2|done|].
      * rewrite <-IH with (p := S p) (d := d'); [|done|by replace (S p `max` k)%nat with (S p) by lia; rewrite Hrest].
        replace (S p `max` k)%nat with (S p) by lia. by rewrite (take_S_r _ _ _ Hpn), map_app.
      * intros Hin. apply (recorded_lt F F_names _ _ _ _ Hpn) in Hin. lia.
Qed.

Lemma runMigrations_ok fs dir d m dF :
  holds_files fs dir F → at_least 0 d (default [] m) → exec_all F d0 = Ok dF →
  runMigrations fs dir (MkServer d m []) = (Ok tt, MkServer dF (Some (map fst F)) []).
Proof.
  intros (entries & He & Hnames & Hfs) (k & Hk & Hm & Hd) HF.
  unfold runMigrations, create_tracking, query_applied, reads, or_return, effect, set_server, get, next_fate, mbind, M_bind, mret, M_ret.
  simpl. rewrite He, Hnames, Hm. simpl. apply (apply_pending_ok fs dir k F 0); [done..|]. simpl.
  rewrite <-(take_drop k F), exec_all_app, Hd in HF. done.
Qed.

End runs.

(** C26: Migrations are applied exactly once and in order, however they are interrupted: take
    any sequence of runs, each with its own directory holding the first files of the history
    [F] (an older or a newer release) and its own failures (lost replies to COMMIT, a
    truncated list of applied files and a killed process included).  Afterwards the recorded
    names are those of a first part of [F], each once, and the tables are what executing that
    part once from the start gives; and one undisturbed run then leaves the same server as a
    single undisturbed run on the fresh database. *)
Theorem migrations_resume F d0 dF rs fs dir :
  NoDup (map fst F) → exec_all F d0 = Ok dF → holds_files fs dir F →
  Forall (λ r : filesystem * string * list fate, ∃ F', holds_files r.1.1 r.1.2 F' ∧ F' `prefix_of` F) rs →
  applied_prefix F d0 (run_many rs (fresh d0)) ∧
  (runMigrations fs dir (MkServer d0 None [])).2 = MkServer dF (Some (map fst F)) [] ∧
  run_once (fs, dir, []) (run_many rs (fresh d0)) = MkServer dF (Some (map fst F)) [].
Proof.
  intros HN HF Hfs Hrs. set (s := run_many rs (fresh d0)).
  assert (∀ s0, holds (at_least F d0 0) s0 → holds (at_least F d0 0) (run_many rs s0)) as Hrun.
  { induction Hrs as [|[[fs' dir'] fates] rs (F' & HF1 & HF2) _ IH]; intros s0 H0; [done|]. apply IH.
    unfold run_once. by apply (runMigrations_spec F d0 HN fs' dir' F'). }
  assert (at_least F d0 0 d0 []) as H0 by (exists 0%nat; split; [lia|done]).
  destruct (Hrun (fresh d0) H0) as (k & Hk & Hs).
  split_and!; [by exists k; split; [lia|]|by rewrite (runMigrations_ok F d0 HN _ _ _ _ dF)|].
  unfold run_once. rewrite (runMigrations_ok F d0 HN _ _ _ _ dF); [done..|by exists k|done].
Qed.

End migrate.

(** ** A concrete history: two files, an older release, and a lost reply to COMMIT *)

Definition demo_exec (content : string) (d : list string) : result (list string) := Ok (d ++ [content])%list.

Definition demo_history : list (string * string) := [("001_orgs.sql", "create orgs"); ("002_tasks.sql", "create tasks")].

Definition demo_release (n : nat) : filesystem :=
  MkFS (λ _, Some (rev (("notes.txt", false) :: ("old.sql", true) :: map (λ f, (fst f, false)) (take n demo_history))))
       (λ path, if String.eqb path "migrations/001_orgs.sql" then Some "create orgs"
                else if String.eqb path "migrations/002_tasks.sql" then Some "create tasks" else None).

Lemma demo_release_holds n : (n ≤ 2)%nat → holds_files (demo_release n) "migrations" (take n demo_history).
Proof.
  intros Hn. eexists. split; [reflexivity|]. split; [destruct n as [|[|[]]]; [reflexivity..|lia]|].
  intros m c H. destruct n as [|[|[|]]]; [by apply elem_of_nil in H|..|lia];
    repeat (apply elem_of_cons in H as [[= -> ->]|H]; [reflexivity|]); by apply elem_of_nil in H.
Defined.

Lemma migrations_resume_witness :
  let rs := [(demo_release 1, "migrations", [Works; Works; Works; Works; Works; Works; Works; Lost]);
             (demo_release 2, "migrations", [Works; Short 0])] in
  applied_prefix demo_exec demo_history [] (run_many demo_exec rs (fresh [])) ∧
  (runMigrations demo_exec (demo_release 2) "migrations" (MkServer [] None [])).2 =
    MkServer ["create orgs"; "create tasks"] (Some (map fst demo_history)) [] ∧
  run_once demo_exec (demo_release 2, "migrations", []) (run_many demo_exec rs (fresh [])) =
    MkServer ["create orgs"; "create tasks"] (Some (map fst demo_history)) [].
Proof.
  apply (migrations_resume demo_exec demo_history []).
  - repeat constructor; set_solver.
  - reflexivity.
  - apply (demo_release_holds 2). lia.
  - constructor; [exists (take 1 demo_history); split; [apply (demo_release_holds 1); lia|by eexists [_]]|].
    constructor; [exists demo_history; split; [apply (demo_release_holds 2); lia|done]|constructor].
Defined.
