(* ===== verification/WConfig.v ===== *)
(** * grid-worker/internal/config: the worker's configuration

    schema.go and the validation of config.go.  Floats are IEEE doubles. *)
From S2P Require Import Prelude GoStd Float64 Domain CpConfig.
From Stdlib Require Import SpecFloat.

#[local] Open Scope string_scope.
#[local] Open Scope Z_scope.

Record WServerConfig := MkWServerConfig {
  WSrv_URL : string;
  WSrv_APIKey : string;
  WSrv_WorkerID : string;
  WSrv_HeartbeatSec : Z;
  WSrv_PollTimeoutSec : Z;
  WSrv_TLSSkipVerify : bool;
  WSrv_RetryMax : Z;
}.

Record WorkspaceConfig := MkWorkspaceConfig {
  Ws_BasePath : string;
  Ws_DiskQuotaGB : spec_float;
  Ws_MaxJobs : Z;
  Ws_CleanupAfter : bool;
}.

Record WSecurityConfig := MkWSecurityConfig {
  WSec_HMACSecret : string;
  WSec_ScanEnabled : bool;
  WSec_RulesetPath : string;
  WSec_ScanConcurrency : Z;
}.

Record ExecutionConfig := MkExecutionConfig {
  Exec_TimeoutSec : Z;
  Exec_MaxCPUPercent : spec_float;
  Exec_MaxRAMMB : Z;
  Exec_Agents : list string;
}.

(** TimeWindowConfig has the fields of the control plane's TimeWindow. *)
Definition TimeWindowConfig : Type := TimeWindow.

Record PolicyConfig := MkPolicyConfig {
  Pol_Mode : string;
  Pol_Windows : list TimeWindowConfig;
}.

Record WLoggingConfig := MkWLoggingConfig {
  WLog_Level : string;
  WLog_Format : string;
  WLog_File : string;
}.

Record WConfig := MkWConfig {
  W_Server : WServerConfig;
  W_Workspace : WorkspaceConfig;
  W_Security : WSecurityConfig;
  W_Execution : ExecutionConfig;
  W_Policy : PolicyConfig;
  W_Logging : WLoggingConfig;
}.

(** The one field the daemon assigns. *)
Definition set_mode (mode : string) (cfg : WConfig) : WConfig :=
  MkWConfig (W_Server cfg) (W_Workspace cfg) (W_Security cfg) (W_Execution cfg)
    (MkPolicyConfig mode (Pol_Windows (W_Policy cfg))) (W_Logging cfg).

Definition mode_of (cfg : WConfig) : string := Pol_Mode (W_Policy cfg).

(** setDefaults; the workspace directory is the platform's. *)
Definition setDefaults (workspaceDir : string) : WConfig :=
  MkWConfig (MkWServerConfig "" "" "" 30 30 false 3)
    (MkWorkspaceConfig workspaceDir (spec_of_int 10) 1 true)
    (MkWSecurityConfig "" true "" 4)
    (MkExecutionConfig 3600 (spec_of_int 80) 2048 [])
    (MkPolicyConfig "auto" []) (MkWLoggingConfig "info" "json" "").

(** The Quote of %q is left to the caller. *)
Definition worker_requirements (quote : string → string) (cfg : WConfig) : list (bool * string) :=
  let mode := mode_of cfg in
  let format := WLog_Format (W_Logging cfg) in
  [(negb (String.eqb (WSrv_URL (W_Server cfg)) ""), "server.url is required");
   (negb (String.eqb (WSrv_APIKey (W_Server cfg)) ""), "server.api_key is required");
   (negb (String.eqb (WSec_HMACSecret (W_Security cfg)) ""), "security.hmac_secret is required");
   (negb (str_len (WSec_HMACSecret (W_Security cfg)) <? 32), "security.hmac_secret must be at least 32 characters");
   (negb (negb (String.eqb mode "auto") && negb (String.eqb mode "manual") && negb (String.eqb mode "paused")),
     "policy.mode must be one of auto|manual|paused, got " ++ quote mode);
   (negb (negb (String.eqb format "json") && negb (String.eqb format "text")),
     "logging.format must be json or text, got " ++ quote format)].

Definition Validate (quote : string → string) (cfg : WConfig) : result unit :=
  match config_errors (worker_requirements quote cfg) with
  | [] => Ok tt
  | errs => Err (ErrMsg (bullets errs))
  end.

Lemma worker_Validate_mode quote cfg :
  Validate quote cfg = Ok tt →
  (mode_of cfg = "auto" ∨ mode_of cfg = "manual" ∨ mode_of cfg = "paused") ∧
  32 ≤ str_len (WSec_HMACSecret (W_Security cfg)).
Proof.
  unfold Validate. destruct (config_errors _) eqn:E; [|done]. intros _.
  apply config_errors_nil in E. unfold worker_requirements in E.
  rewrite !Forall_cons in E. simpl in E.
  destruct E as (_ & _ & _ & Hs & Hm & _). split.
  - rewrite negb_true_iff, !andb_false_iff, !negb_false_iff, !String.eqb_eq in Hm. tauto.
  - rewrite negb_true_iff, Z.ltb_ge in Hs. done.
Qed.
