(* ===== verification/Policy.v ===== *)
(** * grid-worker/internal/policy: the policy engine and the approval store

    The engine reads the configuration it was built with; [now] is the time that time.Now
    returns.  [Quote] is the quoting of %q in messages. *)
From S2P Require Import Prelude GoStd Domain Scheduler CpConfig WConfig.

#[local] Open Scope string_scope.
#[local] Open Scope Z_scope.

(** controlplane.TaskAssignment *)
Record TaskAssignment := MkAssignment {
  TA_TaskID : string;
  TA_Title : string;
  TA_Description : string;
  TA_TaskType : string;
  TA_AIAgent : string;
  TA_Options : gmap string string;
  TA_RepoURL : string;
  TA_Branch : string;
  TA_TimeoutSec : Z;
}.

(** ** engine.go *)

Record Decision := MkDecision { Allow : bool; Reason : string }.

Class Quoting := Quote : string → string.

Section engine.
Context `{TZ : TimeZones} `{QT : Quoting}.

Definition policy_inWindow (t : Z) (window : TimeWindowConfig) : bool :=
  let loc :=
    if String.eqb (TW_Timezone window) "" then Some (λ _ : Z, 0) else LoadLocation (TW_Timezone window) in
  match loc with
  | None => false
  | Some offset =>
      let local := t + offset t in
      let weekday := weekday_of local in
      let hour := hour_of local in
      let days := elems (TW_DayOfWeek window) in
      if (0 <? Z.of_nat (length days)) && negb (existsb (λ d, d =? weekday) days) then false
      else
        let startH := TW_StartHour window in
        let endH := TW_EndHour window in
        if startH <=? endH then (startH <=? hour) && (hour <? endH)
        else (startH <=? hour) || (hour <? endH)
  end.

Definition policy_IsInWindow (cfg : WConfig) (now : Z) : bool :=
  match Pol_Windows (W_Policy cfg) with
  | [] => true
  | ws => existsb (policy_inWindow now) ws
  end.

Definition Evaluate (cfg : WConfig) (now : Z) (task : TaskAssignment) : Decision :=
  let mode := mode_of cfg in
  if String.eqb mode "paused" then MkDecision false "worker is in paused mode"
  else
    let agents := Exec_Agents (W_Execution cfg) in
    if (0 <? Z.of_nat (length agents)) && negb (existsb (λ a, String.eqb a (TA_AIAgent task)) agents)
    then MkDecision false ("agent " ++ Quote (TA_AIAgent task) ++ " is not in permitted agents list")
    else if String.eqb mode "manual"
    then MkDecision false "worker is in manual approval mode — use 'grid-worker approve <task-id>'"
    else if String.eqb mode "auto" && (0 <? Z.of_nat (length (Pol_Windows (W_Policy cfg)))) &&
            negb (policy_IsInWindow cfg now)
    then MkDecision false "current time is outside all configured execution windows"
    else MkDecision true "policy allows task execution".

(** For a validated mode the engine allows a task exactly when the mode is auto, the
    task's agent is listed (or no agent is), and the time is in one of the windows (or
    there is none); and each window is read as the control plane reads it, except that a
    window whose time zone is unknown to the host never opens on the worker. *)
Lemma Evaluate_allows cfg now task :
  mode_of cfg ∈ ["auto"; "manual"; "paused"] →
  (Allow (Evaluate cfg now task) = true ↔
   mode_of cfg = "auto" ∧
   (Exec_Agents (W_Execution cfg) = [] ∨ TA_AIAgent task ∈ Exec_Agents (W_Execution cfg)) ∧
   (Pol_Windows (W_Policy cfg) = [] ∨
    ∃ win, win ∈ Pol_Windows (W_Policy cfg) ∧
      (TW_Timezone win = "" ∨ is_Some (LoadLocation (TW_Timezone win))) ∧ inWindow now win = true)).
Proof.
  intros Hm.
  assert (∀ win, policy_inWindow now win = true ↔
    (TW_Timezone win = "" ∨ is_Some (LoadLocation (TW_Timezone win))) ∧ inWindow now win = true) as Hwin.
  { intros win. unfold policy_inWindow, inWindow, containsInt.
    destruct (String.eqb_spec (TW_Timezone win) "") as [->|Hne]; [split; [auto|by intros [_ ?]]|].
    destruct (LoadLocation (TW_Timezone win)); [split; [eauto|by intros [_ ?]]|].
    split; [done|]. by intros [[?|[? ?]] _]. }
  assert (∀ a l, existsb (λ x, String.eqb x a) l = true ↔ a ∈ l) as Hag.
  { intros a l. rewrite existsb_exists. setoid_rewrite <-list_elem_of_In. setoid_rewrite String.eqb_eq.
    split; [by intros (? & ? & ->)|eauto]. }
  assert (policy_IsInWindow cfg now = true ↔ Pol_Windows (W_Policy cfg) = [] ∨
    ∃ win, win ∈ Pol_Windows (W_Policy cfg) ∧ policy_inWindow now win = true) as Hany.
  { unfold policy_IsInWindow. destruct (Pol_Windows (W_Policy cfg)) as [|w0 ws]; [by split; [left|]|].
    rewrite existsb_exists. setoid_rewrite <-list_elem_of_In. split; [eauto|by intros [?|?]]. }
  setoid_rewrite <-Hwin. rewrite <-Hany, <-Hag. clear Hwin Hag Hany. unfold Evaluate.
  rewrite !elem_of_cons in Hm. destruct Hm as [->|[->|[->|[]%elem_of_nil]]]; simpl.
  - destruct (Exec_Agents (W_Execution cfg)) as [|a0 l]; simpl.
    + unfold policy_IsInWindow. destruct (Pol_Windows (W_Policy cfg)) as [|w0 ws]; simpl; [by split; auto|].
      destruct (policy_inWindow now w0 || _); simpl; split; auto; by intros (_ & _ & ?).
    + destruct (_ || _) eqn:E; simpl; [|split; [done|]; by intros (_ & [?|?] & _)].
      unfold policy_IsInWindow. destruct (Pol_Windows (W_Policy cfg)) as [|w0 ws]; simpl; [by split; auto|].
      destruct (policy_inWindow now w0 || _); simpl; split; auto; by intros (_ & _ & ?).
  - destruct (_ && _); simpl; split; [done|by intros [? _]|done|by intros [? _]].
  - split; [done|]. by intros [? _].
Qed.
End engine.

(** ** approval.go *)

Definition defaultApprovalTTL : Z := 30 * Minute.

Record Approval := MkApproval {
  Appr_TaskID : string;
  Appr_RequestedAt : Z;
  Appr_ExpiresAt : Z;
}.

(** The map from ids to booleans only ever holds true: it is the set of its keys. *)
Record ApprovalStore := MkApprovals {
  ap_pending : gmap string Approval;
  ap_approved : gset string;
}.

Definition NewApprovalStore : ApprovalStore := MkApprovals ∅ ∅.

Definition Request (now : Z) (taskID : string) (s : ApprovalStore) : Approval * ApprovalStore :=
  match ap_pending s !! taskID with
  | Some existing => (existing, s)
  | None =>
      let approval := MkApproval taskID now (now + defaultApprovalTTL) in
      (approval, MkApprovals (<[taskID := approval]> (ap_pending s)) (ap_approved s))
  end.

Definition Approve (now : Z) (taskID : string) (s : ApprovalStore) : bool * ApprovalStore :=
  match ap_pending s !! taskID with
  | None => (false, s)
  | Some approval =>
      if Appr_ExpiresAt approval <? now
      then (false, MkApprovals (delete taskID (ap_pending s)) (ap_approved s))
      else (true, MkApprovals (delete taskID (ap_pending s)) ({[taskID]} ∪ ap_approved s))
  end.

Definition Deny (taskID : string) (s : ApprovalStore) : bool * ApprovalStore :=
  match ap_pending s !! taskID with
  | None => (false, s)
  | Some _ => (true, MkApprovals (delete taskID (ap_pending s)) (ap_approved s ∖ {[taskID]}))
  end.

Definition IsApproved (taskID : string) (s : ApprovalStore) : bool := bool_decide (taskID ∈ ap_approved s).

Definition ConsumeApproval (taskID : string) (s : ApprovalStore) : ApprovalStore :=
  MkApprovals (ap_pending s) (ap_approved s ∖ {[taskID]}).

(** In the order of the map, which Go leaves open. *)
Definition PendingList (now : Z) (s : ApprovalStore) : list Approval :=
  List.filter (λ a, now <? Appr_ExpiresAt a) (map snd (map_to_list (ap_pending s))).

Definition PurgeExpired (now : Z) (s : ApprovalStore) : ApprovalStore :=
  MkApprovals (filter (λ ia, (Appr_ExpiresAt ia.2 <? now) = false) (ap_pending s)) (ap_approved s).

(** *** Histories *)

Inductive approval_op :=
  | OpRequest (taskID : string)
  | OpApprove (taskID : string)
  | OpDeny (taskID : string)
  | OpConsume (taskID : string)
  | OpPurge.

Definition approval_apply (s : ApprovalStore) (x : Z * approval_op) : ApprovalStore :=
  match x.2 with
  | OpRequest id => (Request x.1 id s).2
  | OpApprove id => (Approve x.1 id s).2
  | OpDeny id => (Deny id s).2
  | OpConsume id => ConsumeApproval id s
  | OpPurge => PurgeExpired x.1 s
  end.

Definition approval_run (h : list (Z * approval_op)) : ApprovalStore := foldl approval_apply NewApprovalStore h.

(** What the history says of a pending request and of an approval. *)
Definition was_requested (h : list (Z * approval_op)) (id : string) (t : Z) : Prop := (t, OpRequest id) ∈ h.

Definition was_approved (h : list (Z * approval_op)) (id : string) : Prop :=
  ∃ h1 t h2 t0, h = (h1 ++ (t, OpApprove id) :: h2)%list ∧ was_requested h1 id t0 ∧
    t ≤ t0 + defaultApprovalTTL ∧ ∀ t', (t', OpConsume id) ∉ h2.

Lemma was_approved_snoc h id x : was_approved h id → x.2 ≠ OpConsume id → was_approved (h ++ [x]) id.
Proof.
  intros (h1 & t & h2 & t0 & -> & Hr & Ht & Hc) Hx. exists h1, t, (h2 ++ [x])%list, t0.
  rewrite <-app_assoc. split_and!; try done. intros t' [Hin|Hin%list_elem_of_singleton]%elem_of_app; [by eapply Hc|].
  by subst x.
Qed.

(** What Consume and Deny remove was not approved. *)
Lemma approval_run_inv h :
  (∀ id a, ap_pending (approval_run h) !! id = Some a →
     Appr_ExpiresAt a = Appr_RequestedAt a + defaultApprovalTTL ∧ was_requested h id (Appr_RequestedAt a)) ∧
  (∀ id, id ∈ ap_approved (approval_run h) → was_approved h id).
Proof.
  induction h as [|[t op] h [IHp IHa]] using rev_ind.
  { split; [by intros id a|]. intros id. simpl. set_solver. }
  unfold approval_run in *. rewrite foldl_app. simpl. set (s := foldl _ _ h) in *.
  assert (∀ id t0, was_requested h id t0 → was_requested (h ++ [(t, op)]) id t0) as Hmono.
  { intros id t0 Hr. apply elem_of_app. by left. }
  assert (∀ id a, ap_pending s !! id = Some a →
    Appr_ExpiresAt a = Appr_RequestedAt a + defaultApprovalTTL ∧
    was_requested (h ++ [(t, op)]) id (Appr_RequestedAt a)) as IHp'.
  { intros id a Ha. destruct (IHp id a Ha). auto. }
  destruct op as [id|id|id|id|]; unfold approval_apply; simpl.
  - unfold Request. destruct (ap_pending s !! id) as [a0|] eqn:E; simpl.
    + split; [done|]. intros id' Hin. apply was_approved_snoc; [by apply IHa|done].
    + split; [|intros id' Hin; apply was_approved_snoc; [by apply IHa|done]].
      intros id' a [[<- <-]|[_ H]]%lookup_insert_Some; [|auto]. simpl. split; [done|].
      apply elem_of_app. right. by left.
  - unfold Approve. destruct (ap_pending s !! id) as [a0|] eqn:E; simpl.
    2: { split; [done|]. intros id' Hin. apply was_approved_snoc; [by apply IHa|done]. }
    destruct (Z.ltb_spec (Appr_ExpiresAt a0) t); simpl;
      (split; [intros id' a [_ H']%lookup_delete_Some; auto|]).
    + intros id' Hin. apply was_approved_snoc; [by apply IHa|done].
    + intros id' [->%elem_of_singleton|Hin]%elem_of_union; [|apply was_approved_snoc; [by apply IHa|done]].
      destruct (IHp id a0 E) as [Hx Hr]. exists h, t, [], (Appr_RequestedAt a0). split_and!; try done; [lia|].
      intros t'. apply not_elem_of_nil.
  - unfold Deny. destruct (ap_pending s !! id) as [a0|] eqn:E; simpl.
    + split; [intros id' a [_ H']%lookup_delete_Some; auto|].
      intros id' [Hin _]%elem_of_difference. apply was_approved_snoc; [by apply IHa|done].
    + split; [done|]. intros id' Hin. apply was_approved_snoc; [by apply IHa|done].
  - split; [done|]. intros id' [Hin Hne%not_elem_of_singleton]%elem_of_difference.
    apply was_approved_snoc; [by apply IHa|]. simpl. congruence.
  - split; [|intros id' Hin; apply was_approved_snoc; [by apply IHa|done]].
    intros id' a [H' _]%map_lookup_filter_Some. auto.
Qed.

(** C38: After any sequence of operations on a new approval store, a task that counts as
    approved was approved by an Approve at most 30 minutes after a Request for it, and no
    ConsumeApproval of it came since: nothing is approved unasked, and a consumed approval
    does not come back. *)
Theorem approval_sound h id :
  IsApproved id (approval_run h) = true →
  ∃ h1 t h2 t0, h = (h1 ++ (t, OpApprove id) :: h2)%list ∧ (t0, OpRequest id) ∈ h1 ∧
    t ≤ t0 + 30 * Minute ∧ ∀ t', (t', OpConsume id) ∉ h2.
Proof. intros H%bool_decide_eq_true. by apply approval_run_inv in H. Qed.
