(* ===== verification/Daemon.v ===== *)
(** * grid-worker/internal/daemon: the lifecycle machine and the daemon

    The daemon's goroutines share the lifecycle state, the task channel, the approval store
    and the configuration objects.  [dstep] interleaves them: the main loop, the goroutine
    of a task in execution, the handlers of control commands, the heartbeat callback and the
    signal handler.  A step is one access to shared state.

    Configurations are shared by reference: the policy engine keeps the object it was built
    with, the daemon's own pointer moves to a new object on SIGHUP, and the pause and resume
    commands write the mode through the daemon's pointer. *)
From S2P Require Import Prelude GoStd Domain Scheduler CpConfig WConfig Policy.

#[local] Open Scope string_scope.
#[local] Open Scope Z_scope.

(** ** lifecycle.go *)

Definition StateInit : string := "INIT".
Definition StatePreflight : string := "PREFLIGHT".
Definition StateIdle : string := "IDLE".
Definition StateExecuting : string := "EXECUTING".
Definition StatePaused : string := "PAUSED".
Definition StateShutdown : string := "SHUTDOWN".

Definition allowedTransitions : list (string * list string) :=
  [(StateInit, [StatePreflight]);
   (StatePreflight, [StateIdle; StateShutdown]);
   (StateIdle, [StateExecuting; StatePaused; StateShutdown]);
   (StateExecuting, [StateIdle; StateShutdown]);
   (StatePaused, [StateIdle; StateShutdown]);
   (StateShutdown, [])].

Definition allowed_from (from : string) : list string :=
  match List.find (λ e, String.eqb (fst e) from) allowedTransitions with
  | Some (_, l) => l
  | None => []
  end.

Definition Transition (from to cur : string) : result unit * string :=
  if negb (String.eqb cur from)
  then (Err (ErrMsg ("FSM transition failed: expected current state " ++ from ++ ", got " ++ cur)), cur)
  else if String.eqb to StateShutdown then (Ok tt, to)
  else if existsb (λ s, String.eqb s to) (allowed_from from) then (Ok tt, to)
  else (Err (ErrMsg ("FSM transition " ++ from ++ " → " ++ to ++ " is not allowed")), cur).

(** ** daemon.go and handlers.go *)

(** Where the main goroutine is: in run, in handleTask, or in shutdown. *)
Inductive main_pc :=
  | PRun                               (* run has been started *)
  | PPreflight                         (* the preflight checks run *)
  | PLoop                              (* the select of the main loop *)
  | PCheck (task : TaskAssignment)     (* handleTask: about to read the state *)
  | PEval (task : TaskAssignment)      (* ... to ask the policy engine *)
  | PDenied (task : TaskAssignment)    (* ... denied: to look for an approval *)
  | PConsume (task : TaskAssignment)   (* ... approved: to consume the approval *)
  | PTrans (task : TaskAssignment)     (* ... to move to EXECUTING *)
  | PStart (task : TaskAssignment)     (* ... to start the goroutine of the task *)
  | PShutdown                          (* shutdown: about to read the state *)
  | PFinal (current : string)          (* ... to move it to SHUTDOWN *)
  | PEnded.

(** The goroutine of a task: executing, or about to move back to IDLE. *)
Inductive exec_pc :=
  | EExecute (task : TaskAssignment)
  | ELeave.

(** A control command that is about to make its transition, or to assign the mode. *)
Inductive ctl_pc :=
  | CPauseMove | CPauseMode
  | CResumeMove | CResumeMode.

Record daemon := MkDaemon {
  d_heap : list WConfig;               (* the configuration objects, oldest first *)
  d_cfg : nat;                         (* the daemon's pointer; the engine's is 0 *)
  d_state : string;                    (* the FSM *)
  d_main : main_pc;
  d_exec : list exec_pc;
  d_ctl : list ctl_pc;
  d_task : option TaskAssignment;      (* taskChannel, of capacity 1 *)
  d_executing : bool;
  d_approval : ApprovalStore;
  d_done : bool;                       (* the context is cancelled *)
  d_serving : bool;                    (* control server and heartbeat loop are running *)
}.

(** New and Start: [None] when the configuration is refused. *)
Definition daemon_New (quote : string → string) (cfg : WConfig) : result daemon :=
  match WConfig.Validate quote cfg with
  | Err e => Err e
  | Ok _ => Ok (MkDaemon [cfg] 0 StateInit PRun [] [] None false NewApprovalStore false false)
  end.

Definition set_main (pc : main_pc) (d : daemon) : daemon :=
  MkDaemon (d_heap d) (d_cfg d) (d_state d) pc (d_exec d) (d_ctl d) (d_task d) (d_executing d)
    (d_approval d) (d_done d) (d_serving d).
Definition set_state (s : string) (d : daemon) : daemon :=
  MkDaemon (d_heap d) (d_cfg d) s (d_main d) (d_exec d) (d_ctl d) (d_task d) (d_executing d)
    (d_approval d) (d_done d) (d_serving d).
Definition set_exec (executing : bool) (l : list exec_pc) (d : daemon) : daemon :=
  MkDaemon (d_heap d) (d_cfg d) (d_state d) (d_main d) l (d_ctl d) (d_task d) executing
    (d_approval d) (d_done d) (d_serving d).
Definition set_ctl (l : list ctl_pc) (d : daemon) : daemon :=
  MkDaemon (d_heap d) (d_cfg d) (d_state d) (d_main d) (d_exec d) l (d_task d) (d_executing d)
    (d_approval d) (d_done d) (d_serving d).
Definition set_task (t : option TaskAssignment) (d : daemon) : daemon :=
  MkDaemon (d_heap d) (d_cfg d) (d_state d) (d_main d) (d_exec d) (d_ctl d) t (d_executing d)
    (d_approval d) (d_done d) (d_serving d).
Definition set_approval (a : ApprovalStore) (d : daemon) : daemon :=
  MkDaemon (d_heap d) (d_cfg d) (d_state d) (d_main d) (d_exec d) (d_ctl d) (d_task d) (d_executing d)
    a (d_done d) (d_serving d).
Definition set_heap (heap : list WConfig) (ptr : nat) (d : daemon) : daemon :=
  MkDaemon heap ptr (d_state d) (d_main d) (d_exec d) (d_ctl d) (d_task d) (d_executing d)
    (d_approval d) (d_done d) (d_serving d).
Definition set_done (d : daemon) : daemon :=
  MkDaemon (d_heap d) (d_cfg d) (d_state d) (d_main d) (d_exec d) (d_ctl d) (d_task d) (d_executing d)
    (d_approval d) true (d_serving d).
Definition set_serving (d : daemon) : daemon :=
  MkDaemon (d_heap d) (d_cfg d) (d_state d) (d_main d) (d_exec d) (d_ctl d) (d_task d) (d_executing d)
    (d_approval d) (d_done d) true.

(** A transition of the shared machine, and whether it succeeded. *)
Definition move (from to : string) (d : daemon) : bool * daemon :=
  let '(r, s) := Transition from to (d_state d) in (is_ok r, set_state s d).

Definition engine_cfg (d : daemon) : option WConfig := d_heap d !! 0%nat.
Definition daemon_cfg (d : daemon) : option WConfig := d_heap d !! d_cfg d.

(** [d.cfg.Policy.Mode = mode] *)
Definition write_mode (mode : string) (d : daemon) : daemon :=
  set_heap (alter (set_mode mode) (d_cfg d) (d_heap d)) (d_cfg d) d.

Definition onTaskAssigned (task : TaskAssignment) (d : daemon) : daemon :=
  match d_task d with
  | None => set_task (Some task) d
  | Some _ => d
  end.

(** onConfigReload, when config.Load returns a configuration: it is not validated. *)
Definition onConfigReload (cfg : WConfig) (d : daemon) : daemon :=
  set_heap (d_heap d ++ [cfg]) (length (d_heap d)) d.

(** handleApproveCmd, for the task id of its payload. *)
Definition handleApproveCmd `{QT : Quoting} (now : Z) (taskID : string) (d : daemon) : result unit * daemon :=
  if String.eqb taskID "" then (Err (ErrMsg "task_id is required"), d)
  else
    let '(ok, a) := Approve now taskID (d_approval d) in
    (if ok then Ok tt else Err (ErrMsg ("task " ++ Quote taskID ++ " not found in pending approvals")), set_approval a d).

(** What an observer of the daemon sees. *)
Inductive dlabel :=
  | LQuiet
  | LStart (task : TaskAssignment)       (* the goroutine of a task is started *)
  | LResumed                             (* a resume command has assigned the mode *)
  | LApprove (r : result unit).          (* the answer to an approve command *)

Section steps.
Context `{TZ : TimeZones} `{QT : Quoting}.

(** handleTask, at the points where it reads or writes shared state. *)
Definition handle_step (now : Z) (d : daemon) : option (dlabel * daemon) :=
  match d_main d with
  | PCheck task =>
      Some (LQuiet, set_main (if String.eqb (d_state d) StateIdle then PEval task else PLoop) d)
  | PEval task =>
      match engine_cfg d with
      | Some cfg => Some (LQuiet, set_main (if Allow (Evaluate cfg now task) then PTrans task else PDenied task) d)
      | None => None
      end
  | PDenied task =>
      match daemon_cfg d with
      | Some cfg =>
          Some (LQuiet, set_main (if String.eqb (mode_of cfg) "manual" && IsApproved (TA_TaskID task) (d_approval d)
                                  then PConsume task else PLoop) d)
      | None => None
      end
  | PConsume task =>
      Some (LQuiet, set_main (PTrans task) (set_approval (ConsumeApproval (TA_TaskID task) (d_approval d)) d))
  | PTrans task =>
      let '(ok, d) := move StateIdle StateExecuting d in
      Some (LQuiet, set_main (if ok then PStart task else PLoop) d)
  | PStart task => Some (LStart task, set_main PLoop (set_exec true (EExecute task :: d_exec d) d))
  | _ => None
  end.

(** One step; [None] is the end of the process (a fatal log entry). *)
Inductive dstep : dlabel → daemon → option daemon → Prop :=
  (* run *)
  | d_run_preflight d ok d' :
      d_main d = PRun → move StateInit StatePreflight d = (ok, d') →
      dstep LQuiet d (if ok then Some (set_main PPreflight d') else None)
  | d_run_failed d :
      d_main d = PPreflight → dstep LQuiet d None
  | d_run_passed d ok d' :
      d_main d = PPreflight → move StatePreflight StateIdle d = (ok, d') →
      dstep LQuiet d (if ok then Some (set_main PLoop (set_serving d')) else None)
  | d_receive d task :
      d_main d = PLoop → d_task d = Some task → dstep LQuiet d (Some (set_main (PCheck task) (set_task None d)))
  | d_handle now d l d' :
      handle_step now d = Some (l, d') → dstep l d (Some d')
  | d_cancelled d :
      d_main d = PLoop → d_done d = true → dstep LQuiet d (Some (set_main PShutdown d))
  | d_shutdown d :
      d_main d = PShutdown →
      dstep LQuiet d (Some (set_main (if String.eqb (d_state d) StateShutdown then PEnded else PFinal (d_state d)) d))
  | d_final d current :
      d_main d = PFinal current → dstep LQuiet d (Some (set_main PEnded (move current StateShutdown d).2))
  (* the goroutine of a task *)
  | d_exec_done d l1 task l2 :
      d_exec d = (l1 ++ EExecute task :: l2)%list →
      dstep LQuiet d (Some (set_exec false (l1 ++ ELeave :: l2) d))
  | d_exec_leave d l1 l2 :
      d_exec d = (l1 ++ ELeave :: l2)%list →
      dstep LQuiet d (Some (move StateExecuting StateIdle (set_exec (d_executing d) (l1 ++ l2) d)).2)
  (* heartbeat *)
  | d_assigned d task :
      d_serving d = true → dstep LQuiet d (Some (onTaskAssigned task d))
  | d_unauthorized d :
      d_serving d = true → dstep LQuiet d None
  (* signals and the service manager *)
  | d_signal d : dstep LQuiet d (Some (set_done d))
  | d_reload d cfg : dstep LQuiet d (Some (onConfigReload cfg d))
  (* control commands: status and revoke change nothing *)
  | d_pause_check d :
      d_serving d = true → d_state d = StateIdle → dstep LQuiet d (Some (set_ctl (CPauseMove :: d_ctl d) d))
  | d_pause_move d l1 l2 ok d' :
      d_ctl d = (l1 ++ CPauseMove :: l2)%list → move StateIdle StatePaused d = (ok, d') →
      dstep LQuiet d (Some (set_ctl (if ok then l1 ++ CPauseMode :: l2 else l1 ++ l2) d'))
  | d_pause_mode d l1 l2 :
      d_ctl d = (l1 ++ CPauseMode :: l2)%list →
      dstep LQuiet d (Some (set_ctl (l1 ++ l2) (write_mode "paused" d)))
  | d_resume_check d :
      d_serving d = true → d_state d = StatePaused → dstep LQuiet d (Some (set_ctl (CResumeMove :: d_ctl d) d))
  | d_resume_move d l1 l2 ok d' :
      d_ctl d = (l1 ++ CResumeMove :: l2)%list → move StatePaused StateIdle d = (ok, d') →
      dstep LQuiet d (Some (set_ctl (if ok then l1 ++ CResumeMode :: l2 else l1 ++ l2) d'))
  | d_resume_mode d l1 l2 :
      d_ctl d = (l1 ++ CResumeMode :: l2)%list →
      dstep LResumed d (Some (set_ctl (l1 ++ l2) (write_mode "auto" d)))
  | d_approve d now taskID r d' :
      d_serving d = true → handleApproveCmd now taskID d = (r, d') → dstep (LApprove r) d (Some d').

(** Runs, with what the observer sees. *)
Inductive drun : daemon → list dlabel → daemon → Prop :=
  | drun_nil d : drun d [] d
  | drun_step d tr d1 l d2 : drun d tr d1 → dstep l d1 (Some d2) → drun d (tr ++ [l]) d2.
End steps.
