(* ===== verification/DaemonFacts.v ===== *)
(** * Facts about the daemon: one task at a time, and manual mode *)
From S2P Require Import Prelude GoStd Domain Scheduler CpConfig WConfig Policy Daemon.

#[local] Open Scope string_scope.
#[local] Open Scope Z_scope.

(** An edge of the lifecycle diagram. *)
Definition edge (from to : string) : Prop := to ∈ allowed_from from.

Lemma Transition_spec from to cur r s :
  Transition from to cur = (r, s) →
  (r = Ok tt ∧ cur = from ∧ s = to ∧ (to = StateShutdown ∨ edge from to)) ∨ (is_ok r = false ∧ s = cur).
Proof.
  unfold Transition. destruct (String.eqb_spec cur from) as [->|]; simpl; [|intros [= <- <-]; by right].
  destruct (String.eqb_spec to StateShutdown) as [->|]; [intros [= <- <-]; left; auto|].
  destruct (existsb _ _) eqn:E; intros [= <- <-]; [left|by right].
  split_and!; try done. right. apply existsb_exists in E as (x & Hx & ->%String.eqb_eq).
  by apply list_elem_of_In.
Qed.

Lemma move_spec from to d ok d' :
  move from to d = (ok, d') →
  (ok = true ∧ d_state d = from ∧ d' = set_state to d ∧ (to = StateShutdown ∨ edge from to)) ∨ (ok = false ∧ d' = d).
Proof.
  unfold move. destruct (Transition _ _ _) as [r s] eqn:E. intros [= <- <-].
  apply Transition_spec in E as [(-> & <- & -> & H)|[-> ->]]; [left; auto|right; by destruct d].
Qed.

Section facts.
Context `{TZ : TimeZones} `{QT : Quoting}.

(** ** One task at a time *)

Definition late (pc : main_pc) : bool := match pc with PRun | PPreflight => false | _ => true end.

Definition starting (pc : main_pc) : nat := match pc with PStart _ => 1 | _ => 0 end.
Definition busy (d : daemon) : nat := (starting (d_main d) + length (d_exec d))%nat.

Definition live_state (s : string) : Prop := s = StateIdle ∨ s = StateExecuting ∨ s = StatePaused.

Record dinv (d : daemon) : Prop := {
  di_run : d_main d = PRun → d_state d = StateInit;
  di_preflight : d_main d = PPreflight → d_state d = StatePreflight;
  di_early : late (d_main d) = false → d_serving d = false ∧ d_exec d = [] ∧ d_ctl d = [];
  di_late : late (d_main d) = true → live_state (d_state d) ∨ d_state d = StateShutdown ∧ d_main d = PEnded;
  di_final c : d_main d = PFinal c → live_state c;
  di_busy : d_state d = StateExecuting ∧ busy d = 1%nat ∨
            d_state d = StateShutdown ∧ (busy d ≤ 1)%nat ∨
            d_state d ≠ StateExecuting ∧ busy d = 0%nat;
}.

Lemma dinv_init quote cfg d : daemon_New quote cfg = Ok d → dinv d.
Proof.
  unfold daemon_New. destruct (WConfig.Validate _ _); [|done]. intros [= <-].
  constructor; simpl; try done. right; right. done.
Qed.

Lemma dinv_same d d' :
  d_main d' = d_main d → d_state d' = d_state d → d_serving d' = d_serving d → length (d_exec d') = length (d_exec d) →
  (d_ctl d' = [] ∨ d_ctl d ≠ []) → dinv d → dinv d'.
Proof.
  intros Hm Hs Hv He Hc []. constructor; unfold busy; rewrite ?Hm, ?Hs, ?Hv, ?He; try done.
  intros H. destruct (di_early0 H) as (? & Hx & Hy). split_and!; [done| |].
  - apply length_zero_iff_nil. by rewrite He, Hx.
  - by destruct Hc.
Qed.

(** The main goroutine moves on, outside PStart and with the state as it is. *)
Lemma dinv_main pc d :
  late pc = true → late (d_main d) = true → d_main d ≠ PEnded → starting pc = starting (d_main d) →
  (∀ c, pc = PFinal c → live_state c) → dinv d → dinv (set_main pc d).
Proof.
  intros Hpc Hl Hne Hst Hf []. constructor; simpl; try (by intros ->); try done.
  - intros H. by rewrite Hpc in H.
  - intros _. destruct (di_late0 Hl) as [?|[_ ?]]; [by left|done].
  - unfold busy in *. simpl. by rewrite Hst.
Qed.

Lemma handle_step_dinv now d l d' : dinv d → handle_step now d = Some (l, d') → dinv d'.
Proof.
  intros Hinv. unfold handle_step. destruct (d_main d) as [| | |t|t|t|t|t|t| |c|] eqn:Em; try done.
  - intros [= <- <-]. case_match; apply dinv_main; rewrite ?Em; done.
  - destruct (engine_cfg d); [|done]. intros [= <- <-]. case_match; apply dinv_main; rewrite ?Em; done.
  - destruct (daemon_cfg d); [|done]. intros [= <- <-]. case_match; apply dinv_main; rewrite ?Em; done.
  - intros [= <- <-]. apply dinv_main; simpl; rewrite ?Em; try done. eapply dinv_same; [..|exact Hinv]; simpl; try done.
    destruct (d_ctl d); [by left|by right].
  - destruct (move _ _ _) as [ok d1] eqn:Emv. intros [= <- <-].
    apply move_spec in Emv as [(-> & Hs & -> & _)|[-> ->]].
    + destruct Hinv. constructor; simpl; try done.
      * intros _. left. right. by left.
      * left. split; [done|]. unfold busy in *. simpl. rewrite Em in di_busy0. simpl in *.
        rewrite Hs in di_busy0. destruct di_busy0 as [[? _]|[[? _]|[_ ->]]]; [discriminate..|done].
    + apply dinv_main; rewrite ?Em; done.
  - intros [= <- <-]. destruct Hinv. constructor; simpl; try done.
    + intros _. destruct di_late0 as [?|[_ ?]]; [by rewrite Em|by left|congruence].
    + unfold busy in *. rewrite Em in di_busy0. simpl in *. done.
Qed.

Lemma live_not_shutdown s : live_state s → s ≠ StateShutdown.
Proof. by intros [->|[->| ->]]. Qed.

(** A transition made by a goroutine other than the main one. *)
Lemma dinv_other_move to d :
  late (d_main d) = true → live_state to → to ≠ StateExecuting → busy d = 0%nat → d_state d ≠ StateShutdown →
  dinv d → dinv (set_state to d).
Proof.
  intros Hl Hto Hne Hb Hsd []. constructor; simpl; try done.
  - intros E. by rewrite E in Hl.
  - intros E. by rewrite E in Hl.
  - intros _. by left.
  - right; right. done.
Qed.

Lemma serving_late d : dinv d → d_serving d = true → late (d_main d) = true.
Proof. intros [] H. destruct (late _); [done|]. by destruct di_early0 as [? _]; [|congruence]. Qed.

Lemma ctl_late d : dinv d → d_ctl d ≠ [] → late (d_main d) = true.
Proof. intros [] H. destruct (late _); [done|]. by destruct di_early0 as (_ & _ & ?); [|congruence]. Qed.

Lemma exec_late d : dinv d → d_exec d ≠ [] → late (d_main d) = true.
Proof. intros [] H. destruct (late _); [done|]. by destruct di_early0 as (_ & ? & _); [|congruence]. Qed.

Lemma dinv_ctl l d : (l = [] ∨ late (d_main d) = true) → dinv d → dinv (set_ctl l d).
Proof.
  intros Hl []. constructor; try done. simpl. intros H. destruct (di_early0 H) as (? & ? & _).
  split_and!; try done. destruct Hl as [?|Hl]; [done|congruence].
Qed.

Lemma idle_not_busy d : dinv d → d_state d ≠ StateExecuting → d_state d ≠ StateShutdown → busy d = 0%nat.
Proof. intros [] H1 H2. destruct di_busy0 as [[? _]|[[? _]|[_ ?]]]; done. Qed.

Lemma app_mid_ne {A} (l1 l2 : list A) x l : l = (l1 ++ x :: l2)%list → l ≠ [].
Proof. intros ->. by destruct l1. Qed.

(** The goroutine of a task goes back to IDLE, or finds the daemon shut down. *)
Lemma dinv_exec_leave d l1 l2 :
  dinv d → d_exec d = (l1 ++ ELeave :: l2)%list →
  dinv (move StateExecuting StateIdle (set_exec (d_executing d) (l1 ++ l2) d)).2.
Proof.
  intros Hinv He. pose proof (exec_late d Hinv (app_mid_ne _ _ _ _ He)) as Hl.
  assert (S (length (l1 ++ l2)) = length (d_exec d)) as Hlen by (rewrite He, !length_app; simpl; lia).
  unfold move. cbn [d_state set_exec].
  destruct (Transition StateExecuting StateIdle (d_state d)) as [r s] eqn:E. simpl.
  destruct Hinv. destruct di_busy0 as [[Hst Hb]|[[Hst Hb]|[_ Hb]]]; unfold busy in Hb; [| |lia];
    rewrite Hst in E; vm_compute in E; injection E as <- <-.
  + constructor; simpl; try done; try (intros E'; rewrite E' in Hl; discriminate).
    * intros _. left. by left.
    * right; right. unfold busy. simpl. split; [done|lia].
  + constructor; simpl; try done; try (intros E'; rewrite E' in Hl; discriminate).
    * intros _. change "SHUTDOWN" with StateShutdown. rewrite <-Hst at 1. destruct (di_late0 Hl) as [?|[_ ?]]; auto.
    * right; left. split; [done|]. unfold busy. simpl. lia.
Qed.

(** The last move of the main goroutine. *)
Lemma dinv_final d c :
  dinv d → d_main d = PFinal c → dinv (set_main PEnded (move c StateShutdown d).2).
Proof.
  intros Hinv Em. destruct (move c _ d) as [ok d1] eqn:Emv. simpl. apply move_spec in Emv as [(-> & Hst & -> & _)|[-> ->]].
  + destruct Hinv. constructor; simpl; try done; [intros _; by right|].
    right; left. split; [done|]. unfold busy in *. rewrite Em in di_busy0. simpl in *.
    destruct di_busy0 as [[_ ->]|[[_ ?]|[_ ->]]]; lia.
  + apply dinv_main; rewrite ?Em; done.
Qed.

Lemma dstep_main_dinv d d' l :
  dinv d → dstep l d (Some d') → dinv d'.
Proof.
  intros Hinv Hs. inversion Hs as [? ok d1 Em Emv|? Em|? ok d1 Em Emv|? task Em Et|now ? ? ? Hh|? Em Hd|? Em|? c Em
    |? l1 t l2 He|? l1 l2 He|? t Hv|? Hv|?|? cfg|? Hv Hst|? l1 l2 ok d1 Hc Emv|? l1 l2 Hc|? Hv Hst
    |? l1 l2 ok d1 Hc Emv|? l1 l2 Hc|? now id r d1 Hv Ha]; subst.
  - apply move_spec in Emv as [(-> & Hst & -> & _)|[-> ->]]; [|done]. simplify_eq. destruct Hinv.
    constructor; simpl; try done.
    + intros _. apply di_early0. by rewrite Em.
    + right; right. split; [done|]. unfold busy in *. rewrite Em in di_busy0. simpl in *.
      rewrite Hst in di_busy0. by destruct di_busy0 as [[? _]|[[? _]|[_ ?]]].
  - apply move_spec in Emv as [(-> & Hst & -> & _)|[-> ->]].
    + destruct Hinv. destruct di_early0 as (_ & Hx & _); [by rewrite Em|].
      simplify_eq. constructor; simpl; try done; [intros _; left; by left|]. right; right. unfold busy. simpl. by rewrite Hx.
    + done.
  - apply dinv_main; simpl; rewrite ?Em; try done. eapply dinv_same; [..|exact Hinv]; simpl; try done.
    destruct (d_ctl d); [by left|by right].
  - by eapply handle_step_dinv.
  - apply dinv_main; rewrite ?Em; done.
  - case_match eqn:E.
    + apply String.eqb_eq in E. destruct Hinv. destruct (di_late0) as [?|[_ ?]]; [by rewrite Em| |congruence].
      by apply live_not_shutdown in E.
    + apply dinv_main; rewrite ?Em; try done. intros c [= <-]. destruct Hinv.
      destruct (di_late0) as [?|[_ ?]]; [by rewrite Em|done|congruence].
  - by apply dinv_final.
  - eapply dinv_same; [..|exact Hinv]; simpl; try done.
    + rewrite He, !length_app. done.
    + destruct (d_ctl d); [by left|by right].
  - by eapply dinv_exec_leave.
  - unfold onTaskAssigned. destruct (d_task d); [done|]. eapply dinv_same; [..|exact Hinv]; try done.
    simpl. destruct (d_ctl d); [by left|by right].
  - eapply dinv_same; [..|exact Hinv]; try done. simpl. destruct (d_ctl d); [by left|by right].
  - eapply dinv_same; [..|exact Hinv]; try done. simpl. destruct (d_ctl d); [by left|by right].
  - apply dinv_ctl; [|done]. right. by apply serving_late.
  - pose proof (ctl_late d Hinv (app_mid_ne _ _ _ _ Hc)) as Hl.
    apply move_spec in Emv as [(-> & Hst & -> & _)|[-> ->]]; apply dinv_ctl; try (by right); [|done].
    apply dinv_other_move; try done; [by right; right| |by rewrite Hst].
    apply idle_not_busy; [done|by rewrite Hst..].
  - pose proof (ctl_late d Hinv (app_mid_ne _ _ _ _ Hc)) as Hl. apply dinv_ctl; [by right|].
    eapply dinv_same; [..|exact Hinv]; try done. right. by eapply app_mid_ne.
  - apply dinv_ctl; [|done]. right. by apply serving_late.
  - pose proof (ctl_late d Hinv (app_mid_ne _ _ _ _ Hc)) as Hl.
    apply move_spec in Emv as [(-> & Hst & -> & _)|[-> ->]]; apply dinv_ctl; try (by right); [|done].
    apply dinv_other_move; try done; [by left| |by rewrite Hst].
    apply idle_not_busy; [done|by rewrite Hst..].
  - pose proof (ctl_late d Hinv (app_mid_ne _ _ _ _ Hc)) as Hl. apply dinv_ctl; [by right|].
    eapply dinv_same; [..|exact Hinv]; try done. right. by eapply app_mid_ne.
  - unfold handleApproveCmd in Ha. destruct (String.eqb id ""); [by simplify_eq|].
    destruct (Approve _ _ _). simplify_eq. eapply dinv_same; [..|exact Hinv]; try done.
    simpl. destruct (d_ctl d); [by left|by right].
Qed.

Lemma drun_dinv d tr d' : dinv d → drun d tr d' → dinv d'.
Proof. intros Hi Hr. induction Hr as [|d tr d1 l d2 Hr IH Hs]; [done|]. eapply dstep_main_dinv; [by apply IH|done]. Qed.

Lemma shutdown_edge s : live_state s → edge s StateShutdown.
Proof. intros [->|[->| ->]]; unfold edge; vm_compute allowed_from; set_solver. Qed.

Lemma move_edge from to d ok d' :
  move from to d = (ok, d') → (to = StateShutdown → live_state from) →
  d_state d' = d_state d ∨ edge (d_state d) (d_state d').
Proof.
  intros [(_ & <- & -> & H)|[_ ->]]%move_spec Hs; [right|by left]. simpl.
  destruct H as [->|?]; [|done]. by apply shutdown_edge, Hs.
Qed.

Lemma dstep_edge d l d' :
  dinv d → dstep l d (Some d') → d_state d' = d_state d ∨ edge (d_state d) (d_state d').
Proof.
  intros Hinv Hs. inversion Hs as [? ok d1 Em Emv|? Em|? ok d1 Em Emv|? task Em Et|now ? ? ? Hh|? Em Hd|? Em|? c Em
    |? l1 t l2 He|? l1 l2 He|? t Hv|? Hv|?|? cfg|? Hv Hst|? l1 l2 ok d1 Hc Emv|? l1 l2 Hc|? Hv Hst
    |? l1 l2 ok d1 Hc Emv|? l1 l2 Hc|? now id r d1 Hv Ha]; subst; try (by left).
  - destruct ok; simplify_eq. by apply (move_edge _ _ _ _ _ Emv).
  - destruct ok; simplify_eq. by apply (move_edge _ _ _ _ _ Emv).
  - unfold handle_step in Hh. destruct (d_main d); try done; simplify_eq; try (by left).
    + destruct (engine_cfg d); simplify_eq; by left.
    + destruct (daemon_cfg d); simplify_eq; by left.
    + destruct (move _ _ _) as [ok d1] eqn:Emv. simplify_eq. by apply (move_edge _ _ _ _ _ Emv).
  - destruct (move _ _ _) as [ok d1] eqn:Emv. simpl. apply (move_edge _ _ _ _ _ Emv). intros _.
    by apply (di_final _ Hinv).
  - destruct (move _ _ _) as [ok d1] eqn:Emv. simpl. by apply (move_edge _ _ _ _ _ Emv).
  - unfold onTaskAssigned. destruct (d_task d); by left.
  - by apply (move_edge _ _ _ _ _ Emv).
  - by apply (move_edge _ _ _ _ _ Emv).
  - unfold handleApproveCmd in Ha. destruct (String.eqb id ""); [simplify_eq; by left|].
    destruct (Approve _ _ _). simplify_eq. by left.
Qed.

(** C10: In every state the daemon reaches, however its goroutines, control commands, signals
    and heartbeats interleave: at most one task executes; one does only in the lifecycle
    state EXECUTING (or after shutdown), never in IDLE or PAUSED; and each step leaves the
    lifecycle state alone or follows an edge of allowedTransitions. *)
Theorem daemon_one_task quote cfg d0 tr d :
  daemon_New quote cfg = Ok d0 → drun d0 tr d →
  (length (d_exec d) <= 1)%nat ∧
  (d_exec d ≠ [] → d_state d = StateExecuting ∨ d_state d = StateShutdown) ∧
  (∀ l d', dstep l d (Some d') → d_state d' = d_state d ∨ edge (d_state d) (d_state d')).
Proof.
  intros Hn%dinv_init Hr. pose proof (drun_dinv _ _ _ Hn Hr) as Hinv. split_and!.
  - destruct (di_busy d Hinv) as [[_ H]|[[_ H]|[_ H]]]; unfold busy in H; lia.
  - intros Hne. destruct (di_busy d Hinv) as [[? _]|[[? _]|[_ H]]]; [auto..|].
    unfold busy in H. by destruct (d_exec d); [|simpl in H; lia].
  - intros l d'. by apply dstep_edge.
Qed.

(** ** Approvals and manual mode *)

Lemma dstep_no_approvals d l d' :
  d_approval d = NewApprovalStore → dstep l d (Some d') →
  d_approval d' = NewApprovalStore ∧ ∀ r, l = LApprove r → is_ok r = false.
Proof.
  intros Ha Hs. inversion Hs as [? ok d1 Em Emv|? Em|? ok d1 Em Emv|? task Em Et|now ? ? ? Hh|? Em Hd|? Em|? c Em
    |? l1 t l2 He|? l1 l2 He|? t Hv|? Hv|?|? cfg|? Hv Hst|? l1 l2 ok d1 Hc Emv|? l1 l2 Hc|? Hv Hst
    |? l1 l2 ok d1 Hc Emv|? l1 l2 Hc|? now id r d1 Hv Hap]; subst; try (split; [done|by intros ? [=]]).
  - destruct ok; simplify_eq. apply move_spec in Emv as [(_ & _ & -> & _)|[? _]]; done.
  - destruct ok; simplify_eq. apply move_spec in Emv as [(_ & _ & -> & _)|[? _]]; done.
  - unfold handle_step in Hh. destruct (d_main d); try done; simplify_eq; try (split; [done|by intros ? [=]]).
    + destruct (engine_cfg d); simplify_eq; done.
    + destruct (daemon_cfg d); simplify_eq; done.
    + simpl. rewrite Ha. split; [|done]. unfold ConsumeApproval, NewApprovalStore. simpl. f_equal.
      apply set_eq. intros x. rewrite elem_of_difference. by split; [intros [? _]|intros ?%elem_of_empty].
    + destruct (move _ _ _) as [ok d1] eqn:Emv. simplify_eq.
      apply move_spec in Emv as [(_ & _ & -> & _)|[_ ->]]; done.
  - destruct (move _ _ _) as [ok d1] eqn:Emv. simpl. apply move_spec in Emv as [(_ & _ & -> & _)|[_ ->]]; done.
  - destruct (move _ _ _) as [ok d1] eqn:Emv. simpl. apply move_spec in Emv as [(_ & _ & -> & _)|[_ ->]]; done.
  - unfold onTaskAssigned. destruct (d_task d); done.
  - apply move_spec in Emv as [(_ & _ & -> & _)|[_ ->]]; done.
  - apply move_spec in Emv as [(_ & _ & -> & _)|[_ ->]]; done.
  - unfold handleApproveCmd in Hap. destruct (String.eqb id ""); [simplify_eq; split; [done|by intros ? [= <-]]|].
    rewrite Ha in Hap. unfold Approve in Hap. simpl in Hap. injection Hap as <- <-.
    split; [done|by intros ? [= <-]].
Qed.

(** The engine refuses everything, and the main goroutine is not past the policy. *)
Record manual_inv (d : daemon) : Prop := {
  mi_store : d_approval d = NewApprovalStore;
  mi_mode : ∃ c, engine_cfg d = Some c ∧ (mode_of c = "manual" ∨ mode_of c = "paused");
  mi_main : match d_main d with PConsume _ | PTrans _ | PStart _ => False | _ => True end;
}.

Lemma manual_denies cfg now task :
  mode_of cfg = "manual" ∨ mode_of cfg = "paused" → Allow (Evaluate cfg now task) = false.
Proof. unfold Evaluate. intros [->| ->]; simpl; [|done]. by destruct (_ && _). Qed.

Lemma manual_inv_step d l d' :
  manual_inv d → dstep l d (Some d') → l ≠ LResumed → manual_inv d' ∧ ∀ task, l ≠ LStart task.
Proof.
  intros [Ha (c & Hc & Hmode) Hm] Hs Hl. pose proof (dstep_no_approvals _ _ _ Ha Hs) as [Ha' _].
  inversion Hs as [? ok d1 Em Emv|? Em|? ok d1 Em Emv|? task Em Et|now ? ? ? Hh|? Em Hd|? Em|? pc Em
    |? l1 t l2 He|? l1 l2 He|? t Hv|? Hv|?|? cfg|? Hv Hst|? l1 l2 ok d1 Hctl Emv|? l1 l2 Hctl|? Hv Hst
    |? l1 l2 ok d1 Hctl Emv|? l1 l2 Hctl|? now id r d1 Hv Hap]; subst;
    try (split; [|done]); try (by constructor; [|exists c|]).
  - destruct ok; simplify_eq. apply move_spec in Emv as [(_ & _ & -> & _)|[? _]]; [|done].
    by constructor; [|exists c|].
  - destruct ok; simplify_eq. apply move_spec in Emv as [(_ & _ & -> & _)|[? _]]; [|done].
    by constructor; [|exists c|].
  - unfold handle_step in Hh. destruct (d_main d) eqn:Em; try done.
    + simplify_eq. split; [|done]. constructor; [done|by exists c|]. simpl. by case_match.
    + rewrite Hc in Hh. simplify_eq. split; [|done]. constructor; [done|by exists c|]. simpl.
      by rewrite manual_denies.
    + destruct (daemon_cfg d); simplify_eq. split; [|done]. constructor; [done|by exists c|]. simpl.
      rewrite Ha. unfold IsApproved, NewApprovalStore. simpl. rewrite bool_decide_eq_false_2 by set_solver.
      by rewrite andb_false_r.
  - constructor; [done|by exists c|]. simpl. by case_match.
  - destruct (move _ _ _) as [ok d1] eqn:Emv. simpl in *.
    apply move_spec in Emv as [(_ & _ & -> & _)|[_ ->]]; by constructor; [|exists c|].
  - destruct (move _ _ _) as [ok d1] eqn:Emv. simpl in *.
    apply move_spec in Emv as [(_ & _ & -> & _)|[_ ->]]; by constructor; [|exists c|].
  - unfold onTaskAssigned in *. destruct (d_task d); by constructor; [|exists c|].
  - constructor; [done| |done]. exists c. split; [|done]. unfold engine_cfg in *. simpl.
    rewrite lookup_app_l; [done|]. by eapply lookup_lt_Some.
  - apply move_spec in Emv as [(_ & _ & -> & _)|[_ ->]]; by constructor; [|exists c|].
  - constructor; [done| |done]. unfold engine_cfg in *. simpl. rewrite list_lookup_alter.
    case_decide as E; [rewrite E|]; rewrite Hc; [|by exists c]. eexists. split; [done|]. by right.
  - apply move_spec in Emv as [(_ & _ & -> & _)|[_ ->]]; by constructor; [|exists c|].
  - unfold handleApproveCmd in Hap. destruct (String.eqb id ""); [by simplify_eq; constructor; [|exists c|]|].
    destruct (Approve _ _ _). simplify_eq. by constructor; [|exists c|].
Qed.

(** C39: Approvals are out of reach: nothing in the daemon ever requests one, so every approve
    command is answered with an error; and a daemon started in manual mode starts no task
    at all, unless a resume command has been carried out (after which the mode is auto). *)
Theorem manual_mode quote cfg d0 tr d :
  daemon_New quote cfg = Ok d0 → drun d0 tr d →
  (∀ r, LApprove r ∈ tr → is_ok r = false) ∧
  (mode_of cfg = "manual" → LResumed ∉ tr → ∀ task, LStart task ∉ tr).
Proof.
  unfold daemon_New. destruct (WConfig.Validate _ _); [|done]. intros [= <-] Hr.
  assert (d_approval d = NewApprovalStore ∧ (∀ r, LApprove r ∈ tr → is_ok r = false) ∧
    (mode_of cfg = "manual" → LResumed ∉ tr → manual_inv d ∧ ∀ task, LStart task ∉ tr)) as (_ & ? & H).
  { remember (MkDaemon [cfg] 0 StateInit PRun [] [] None false NewApprovalStore false false) as d0 eqn:E0.
    induction Hr as [d|d tr d1 l d2 Hr IH Hs]; subst.
    - split; [done|]. split; [by intros r ?%elem_of_nil|]. intros Hm _. split; [|intros task; apply not_elem_of_nil].
      constructor; [done| |done]. exists cfg. auto.
    - destruct IH as (Ha & Hap & Hman); [done|]. destruct (dstep_no_approvals _ _ _ Ha Hs) as [Ha' Hl].
      split; [done|]. split.
      + intros r [?|E%list_elem_of_singleton]%elem_of_app; [auto|]. by apply Hl.
      + intros Hm Hnr. destruct Hman as [Hinv Hst]; [done|set_solver|].
        destruct (manual_inv_step _ _ _ Hinv Hs) as [? Hns]; [set_solver|]. split; [done|].
        intros task [?|E%list_elem_of_singleton]%elem_of_app; [by eapply Hst|by eapply Hns]. }
  split; [done|]. intros Hm Hnr. by apply H.
Qed.
(** ** Two runs *)

(** The daemon in its loop. *)
Definition looping (cfg : WConfig) : daemon :=
  MkDaemon [cfg] 0 StateIdle PLoop [] [] None false NewApprovalStore false true.

Lemma run_to_loop cfg :
  drun (MkDaemon [cfg] 0 StateInit PRun [] [] None false NewApprovalStore false false) [LQuiet; LQuiet] (looping cfg).
Proof.
  eapply (drun_step _ [LQuiet]); [eapply (drun_step _ []); [apply drun_nil|]|].
  - exact (d_run_preflight (MkDaemon [cfg] 0 StateInit PRun [] [] None false NewApprovalStore false false)
      true _ eq_refl eq_refl).
  - exact (d_run_passed (MkDaemon [cfg] 0 StatePreflight PPreflight [] [] None false NewApprovalStore false false)
      true _ eq_refl eq_refl).
Qed.

(** One more step of a run, the states computed. *)
Ltac run_more H s :=
  let H' := fresh "Hrun" in
  pose proof (drun_step _ _ _ _ _ H s) as H'; cbn in H'; clear H; rename H' into H.

(** Pause and resume switch the mode, whatever it was, to auto. *)
Lemma run_pause_resume cfg d0 tr :
  drun d0 tr (looping cfg) → ∃ tr', drun d0 tr' (looping (set_mode "auto" (set_mode "paused" cfg))).
Proof.
  intros H. unfold looping in *.
  run_more H (d_pause_check (looping cfg) eq_refl eq_refl).
  match type of H with drun _ _ ?d => run_more H (d_pause_move d [] [] true _ eq_refl eq_refl) end.
  match type of H with drun _ _ ?d => run_more H (d_pause_mode d [] [] eq_refl) end.
  match type of H with drun _ _ ?d => run_more H (d_resume_check d eq_refl eq_refl) end.
  match type of H with drun _ _ ?d => run_more H (d_resume_move d [] [] true _ eq_refl eq_refl) end.
  match type of H with drun _ _ ?d => run_more H (d_resume_mode d [] [] eq_refl) end.
  by eexists.
Qed.

(** The resume command drops manual mode: a daemon in manual mode with a free agent list
    and no windows, once paused and resumed, executes any task it is assigned, with no
    approval of it. *)
Lemma resume_leaves_manual quote cfg d0 task :
  daemon_New quote cfg = Ok d0 → mode_of cfg = "manual" →
  Exec_Agents (W_Execution cfg) = [] → Pol_Windows (W_Policy cfg) = [] →
  ∃ tr d, drun d0 tr d ∧ LStart task ∈ tr ∧ d_approval d = NewApprovalStore.
Proof.
  unfold daemon_New. destruct (WConfig.Validate _ _); [|done]. intros [= <-] _ Hag Hwin.
  destruct (run_pause_resume cfg _ _ (run_to_loop cfg)) as [tr H]. unfold looping in H.
  run_more H (d_assigned (looping (set_mode "auto" (set_mode "paused" cfg))) task eq_refl).
  match type of H with drun _ _ ?d => run_more H (d_receive d task eq_refl eq_refl) end.
  match type of H with drun _ _ ?d => run_more H (d_handle 0 d _ _ eq_refl) end.
  match type of H with drun _ _ ?d => run_more H (d_handle 0 d _ _ eq_refl) end.
  assert (Allow (Evaluate (set_mode "auto" (set_mode "paused" cfg)) 0 task) = true) as E.
  { unfold Evaluate. simpl. by rewrite Hag, Hwin. }
  cbn in E. rewrite ?E in H.
  match type of H with drun _ _ ?d => run_more H (d_handle 0 d _ _ eq_refl) end.
  match type of H with drun _ _ ?d => run_more H (d_handle 0 d _ _ eq_refl) end.
  eexists _, _. split; [exact H|]. split; [|done]. apply elem_of_app. right. by left.
Qed.

(** Shutdown can miss its transition: a pause command that gets in between the read of
    the state and the transition leaves a daemon whose main loop has ended in state
    PAUSED, and never in SHUTDOWN. *)
Lemma shutdown_race quote cfg d0 :
  daemon_New quote cfg = Ok d0 →
  ∃ tr d, drun d0 tr d ∧ d_main d = PEnded ∧ d_state d = StatePaused.
Proof.
  unfold daemon_New. destruct (WConfig.Validate _ _); [|done]. intros [= <-].
  pose proof (run_to_loop cfg) as H. unfold looping in H.
  match type of H with drun _ _ ?d => run_more H (d_signal d) end.
  match type of H with drun _ _ ?d => run_more H (d_cancelled d eq_refl eq_refl) end.
  match type of H with drun _ _ ?d => run_more H (d_pause_check d eq_refl eq_refl) end.
  match type of H with drun _ _ ?d => run_more H (d_shutdown d eq_refl) end.
  match type of H with drun _ _ ?d => run_more H (d_pause_move d [] [] true _ eq_refl eq_refl) end.
  match type of H with drun _ _ ?d => run_more H (d_final d _ eq_refl) end.
  eexists _, _. split; [exact H|]. done.
Qed.
End facts.
