(* ===== verification/WScanner.v ===== *)
(** * grid-worker/internal/scanner: the worker's secret scanner

    The ruleset is the built-in one or one of the caller's; Ruleset.v loads rulesets.
    A directory is the list of its files, as filepath.WalkDir meets them, with their paths
    relative to it. *)
From S2P Require Import Prelude GoStd Regexp GoPath.
From Stdlib Require Import Ascii.

#[local] Open Scope string_scope.
#[local] Open Scope Z_scope.

(** ** Data *)

Record Finding := MkFinding {
  F_RuleID : string;
  F_RuleName : string;
  F_Severity : string;
  F_FilePath : string;
  F_Line : Z;
  F_Match : string;
}.

Record Rule := MkRule {
  Rule_ID : string;
  Rule_Name : string;
  Rule_Pattern : re;
  Rule_Severity : string;
  Rule_Scope : string;
}.

Record Ruleset := MkRuleset {
  RS_Version : string;
  RS_Rules : list Rule;
  Excl_Paths : list string;
  Excl_Patterns : list string;
}.

(** ** ruleset.go *)

(** [(?i)AKIA[0-9A-Z]{16}] *)
Definition sec_001 : re := Cat (LitFold "AKIA") (Rep 16 (fold_case (or_class is_digit is_upper))).
(** [ghp_[0-9a-zA-Z]{36}] *)
Definition sec_002 : re := Cat (Lit "ghp_") (Rep 36 (or_class is_digit (or_class is_lower is_upper))).
(** [-----BEGIN (RSA |EC |OPENSSH )?PRIVATE KEY-----] *)
Definition sec_003 : re :=
  Cat (Lit "-----BEGIN ") (Cat (Opt (Alt (Lit "RSA ") (Alt (Lit "EC ") (Lit "OPENSSH ")))) (Lit "PRIVATE KEY-----")).
(** [(?i)password\s*[:=]\s*\S{8,}], and the same for secret *)
Definition assignment (name : string) : re :=
  Cat (LitFold name) (Cat (Many re_space) (Cat (Chr (one_of ":=")) (Cat (Many re_space)
    (AtLeast 8 (not_class re_space))))).
(** [(?i)bearer\s+[a-zA-Z0-9._\-]{20,}] *)
Definition sec_006 : re :=
  Cat (LitFold "bearer") (Cat (AtLeast 1 re_space)
    (AtLeast 20 (fold_case (or_class is_lower (or_class is_upper (or_class is_digit (one_of "._-"))))))).

Definition hardcodedRuleset : Ruleset :=
  MkRuleset "1"
    [MkRule "SEC-001" "AWS Access Key ID" sec_001 "critical" "all";
     MkRule "SEC-002" "GitHub Personal Access Token" sec_002 "critical" "all";
     MkRule "SEC-003" "Private Key PEM" sec_003 "critical" "all";
     MkRule "SEC-004" "Generic Password Assignment" (assignment "password") "high" "all";
     MkRule "SEC-005" "Generic Secret Assignment" (assignment "secret") "high" "all";
     MkRule "SEC-006" "Bearer Token" sec_006 "medium" "diff_only"]
    ["**/*.md"; "**/testdata/**"; "**/*_test.go"]
    ["EXAMPLE_KEY_PLACEHOLDER"; "YOUR_KEY_HERE"].

(** ** scanner.go *)

Definition redact (s : string) : string :=
  if (String.length s <=? 4)%nat then "***" else str_take 4 s ++ "***".

Definition path_matches (pattern path : string) : bool :=
  match Match pattern path with Some b => b | None => false end.

Definition isExcludedPath (rs : Ruleset) (path : string) : bool :=
  existsb (λ pattern, path_matches pattern path || path_matches pattern (Base path)) (Excl_Paths rs).

Definition isExcludedPattern (rs : Ruleset) (line : string) : bool :=
  existsb (Contains line) (Excl_Patterns rs).

(** One rule on one line. *)
Definition apply_rule (filePath : string) (line : Z) (text : string) (rule : Rule) : list Finding :=
  let m := FindString (Rule_Pattern rule) text in
  if String.eqb m "" then []
  else [MkFinding (Rule_ID rule) (Rule_Name rule) (Rule_Severity rule) filePath line (redact m)].

(** The loop over the lines for one rule; [lineNum] counts from 0. *)
Fixpoint scan_lines (rs : Ruleset) (rule : Rule) (filePath : string) (lineNum : Z) (lines : list string) :
    list Finding :=
  match lines with
  | [] => []
  | line :: rest =>
      ((if isExcludedPattern rs line then [] else apply_rule filePath (lineNum + 1) line rule) ++
       scan_lines rs rule filePath (lineNum + 1) rest)%list
  end.

Definition ScanText (rs : Ruleset) (text filePath : string) : list Finding :=
  if isExcludedPath rs filePath then []
  else List.flat_map (λ rule, scan_lines rs rule filePath 0 (Split text chr_lf)) (RS_Rules rs).

(** A file of the directory: its relative path, its size if Info succeeds, and its content
    if it can be read. *)
Record dir_file := MkDirFile {
  df_path : string;
  df_size : option Z;
  df_content : option string;
}.

Definition collected (f : dir_file) : bool :=
  match df_size f with Some n => negb (10 * 1024 * 1024 <? n) | None => true end.

Definition scan_file (rs : Ruleset) (f : dir_file) : list Finding :=
  if isExcludedPath rs (df_path f) then []
  else match df_content f with
       | None => []
       | Some data => ScanText rs data (df_path f)
       end.

(** The findings of a scan that is not cancelled, in the order of the walk; the goroutines
    deliver them in any order. *)
Definition ScanDirectory (rs : Ruleset) (files : list dir_file) : list Finding :=
  List.flat_map (scan_file rs) (List.filter collected files).

(** *** Patches *)

(** [strings.IndexAny(rest, chars)]: the part before the first of the bytes. *)
Fixpoint until_any (chars s : string) : string :=
  match s with
  | EmptyString => ""
  | String c s => if has_byte c chars then "" else String c (until_any chars s)
  end.

Fixpoint read_digits (n : Z) (s : string) : Z :=
  match s with
  | EmptyString => n
  | String c s => match digit_val c with Some d => read_digits (i64 (n * 10 + d)) s | None => n end
  end.

Definition parseDiffLineNum (line : string) : Z :=
  match Cut line "+" with
  | None => 0
  | Some (_, rest) =>
      let n := read_digits 0 (until_any ", @" rest) in
      if 0 <? n then i64 (n - 1) else 0
  end.

(** bufio.Scanner over lines: a line of 64 KiB or more, with its line feed, stops it. *)
Definition drop_cr (line : string) : string :=
  match str_rev line with
  | String c rest => if Ascii.eqb c chr_cr then str_rev rest else line
  | EmptyString => line
  end.

Fixpoint bufio_lines (lines : list string) : list string :=
  match lines with
  | [] => []
  | line :: rest =>
      if (65535 <? str_len line) || (String.eqb line "" && match rest with [] => true | _ => false end)
      then []
      else drop_cr line :: bufio_lines rest
  end.

(** The loop over the lines of the patch; [ctx] tells, for each line read, whether the
    context is done. *)
Fixpoint scan_patch (rs : Ruleset) (ctx : list bool) (lines : list string) (currentFile : string) (lineNum : Z) :
    list Finding * bool :=
  match lines with
  | [] => ([], false)
  | line :: rest =>
      let '(done, ctx) := match ctx with [] => (false, []) | b :: ctx => (b, ctx) end in
      if done then ([], true)
      else if HasPrefix line "+++ b/" then scan_patch rs ctx rest (TrimPrefix line "+++ b/") 0
      else if HasPrefix line "@@" then scan_patch rs ctx rest currentFile (parseDiffLineNum line)
      else if negb (HasPrefix line "+") || HasPrefix line "+++" then
        scan_patch rs ctx rest currentFile (if negb (HasPrefix line "-") then lineNum + 1 else lineNum)
      else
        let lineNum := lineNum + 1 in
        let content := str_drop 1 line in
        let found :=
          if isExcludedPath rs currentFile || isExcludedPattern rs content then []
          else List.flat_map (apply_rule currentFile lineNum content)
                 (List.filter (λ rule, negb (String.eqb (Rule_Scope rule) "workspace_only")) (RS_Rules rs)) in
        let '(more, err) := scan_patch rs ctx rest currentFile lineNum in
        ((found ++ more)%list, err)
  end.

(** The findings, and whether the scan was cut short by the context. *)
Definition ScanPatch (rs : Ruleset) (ctx : list bool) (patch : string) : list Finding * bool :=
  scan_patch rs ctx (bufio_lines (Split patch chr_lf)) "" 0.

(** ** Examples *)

Example excluded_paths :
  map (isExcludedPath hardcodedRuleset)
    ["docs/readme.md"; "readme.md"; "a/b/c.md"; "pkg/x_test.go"; "a/testdata/b"; "main.go"] =
  [true; false; false; true; true; false].
Proof. vm_compute. reflexivity. Qed.

Example diff_line_num :
  map parseDiffLineNum ["@@ -1,2 +10,5 @@"; "@@ -0,0 +1 @@ func"; "@@ x @@"; "@@ -1 +0,0 @@"] = [9; 0; 0; 0].
Proof. vm_compute. reflexivity. Qed.
