(* ===== verification/WScannerFacts.v ===== *)
(** * What the worker's scanner finds in a unified diff

    [diff_lines] renders a structured diff as git does: the extended header of each file, the
    two file names (/dev/null for none), the hunks with or without line counts, and the
    markers of a missing newline at the end of a file.  [diff_findings] says what the
    scanner reports of its added lines, and under which numbers. *)
From S2P Require Import Prelude GoStd Regexp GoPath WScanner.
From Stdlib Require Import Ascii.

#[local] Open Scope string_scope.
#[local] Open Scope Z_scope.

Inductive hline :=
  | HKeep (s : string)
  | HDel (s : string)
  | HAdd (s : string)
  | HNoNewline.                 (* the line before has no newline at its end *)

(** The first line and the number of lines, left out when it is one. *)
Definition range : Type := Z * option Z.

Record hunk := MkHunk {
  hk_old : range;
  hk_new : range;
  hk_section : string;          (* what git prints after the second @@ *)
  hk_lines : list hline;
}.

Record file_diff := MkFileDiff {
  fd_header : list string;      (* diff --git, index, modes, renames *)
  fd_names : option (option string * option string);   (* old and new; None is /dev/null *)
  fd_hunks : list hunk;
}.

(** ** Rendering *)

Definition hline_text (l : hline) : string :=
  match l with
  | HKeep s => " " ++ s
  | HDel s => "-" ++ s
  | HAdd s => "+" ++ s
  | HNoNewline => "\ No newline at end of file"
  end.

Definition range_text (r : range) : string :=
  Itoa r.1 ++ match r.2 with Some n => "," ++ Itoa n | None => "" end.

Definition hunk_header (h : hunk) : string :=
  "@@ -" ++ range_text (hk_old h) ++ " " ++ String "+" (range_text (hk_new h) ++ " @@" ++ hk_section h).

Definition hunk_text (h : hunk) : list string := hunk_header h :: map hline_text (hk_lines h).

Definition name_text (prefix : string) (name : option string) : string :=
  match name with Some p => prefix ++ p | None => "/dev/null" end.

Definition names_text (names : option (option string * option string)) : list string :=
  match names with
  | Some (old, new) => ["--- " ++ name_text "a/" old; "+++ " ++ name_text "b/" new]
  | None => []
  end.

Definition file_text (f : file_diff) : list string :=
  (fd_header f ++ names_text (fd_names f) ++ List.flat_map hunk_text (fd_hunks f))%list.

Definition diff_lines (d : list file_diff) : list string := List.flat_map file_text d.

Definition diff_text (d : list file_diff) : string := Join (diff_lines d ++ [""]) (str1 chr_lf).

(** ** What is in it *)

(** The findings of one added line. *)
Definition added_findings (rs : Ruleset) (path : string) (n : Z) (s : string) : list Finding :=
  if isExcludedPath rs path || isExcludedPattern rs s then []
  else List.flat_map (apply_rule path n s)
         (List.filter (λ rule, negb (String.eqb (Rule_Scope rule) "workspace_only")) (RS_Rules rs)).

(** [n] is the number of the next line of the new file, [k] the number of markers of a
    missing newline seen in the hunk: the scanner takes each for a line of the new file.
    An added line that begins with two plus signs looks like a file name to it. *)
Fixpoint lines_findings (rs : Ruleset) (path : string) (n k : Z) (ls : list hline) : list Finding :=
  match ls with
  | [] => []
  | HKeep _ :: ls => lines_findings rs path (n + 1) k ls
  | HDel _ :: ls => lines_findings rs path n k ls
  | HNoNewline :: ls => lines_findings rs path n (k + 1) ls
  | HAdd s :: ls =>
      ((if HasPrefix s "++" then [] else added_findings rs path (n + k) s) ++
       lines_findings rs path (n + 1) k ls)%list
  end.

(** The name of the new file. *)
Definition new_path (f : file_diff) : string :=
  match fd_names f with Some (_, Some p) => p | _ => "" end.

Definition file_findings (rs : Ruleset) (f : file_diff) : list Finding :=
  List.flat_map (λ h, lines_findings rs (new_path f) (hk_new h).1 0 (hk_lines h)) (fd_hunks f).

Definition diff_findings (rs : Ruleset) (d : list file_diff) : list Finding := List.flat_map (file_findings rs) d.

(** What it should report: the added lines with their numbers in the new file, and the
    findings of each. *)
Fixpoint added_at (n : Z) (ls : list hline) : list (Z * string) :=
  match ls with
  | [] => []
  | HKeep _ :: ls => added_at (n + 1) ls
  | HDel _ :: ls | HNoNewline :: ls => added_at n ls
  | HAdd s :: ls => (n, s) :: added_at (n + 1) ls
  end.

Definition true_findings (rs : Ruleset) (d : list file_diff) : list Finding :=
  List.flat_map (λ f, List.flat_map (λ h,
    List.flat_map (λ x, added_findings rs (new_path f) x.1 x.2) (added_at (hk_new h).1 (hk_lines h))) (fd_hunks f)) d.

(** A line that the scanner reads as it should. *)
Definition plain_hline (l : hline) : Prop :=
  match l with HNoNewline => False | HAdd s => HasPrefix s "++" = false | _ => True end.

(** ** Well-formed diffs *)

(** A line that bufio.Scanner delivers as it is. *)
Definition short_line (s : string) : Prop :=
  has_byte chr_lf s = false ∧ str_len s ≤ 65535 ∧ drop_cr s = s.

Definition range_ok (r : range) : Prop :=
  0 ≤ r.1 < 2 ^ 62 ∧ match r.2 with Some n => 0 ≤ n < 2 ^ 62 | None => True end.

(** No added line is taken for the name of a file. *)
Definition hline_ok (l : hline) : Prop :=
  match l with HAdd s => HasPrefix s "++ b/" = false | _ => True end.

Definition is_del (l : hline) : bool := match l with HDel _ | HNoNewline => true | _ => false end.

(** A hunk that leaves no line of the new file starts at its line 0. *)
Definition hunk_ok (h : hunk) : Prop :=
  range_ok (hk_old h) ∧ range_ok (hk_new h) ∧ Forall hline_ok (hk_lines h) ∧
  (1 ≤ (hk_new h).1 ∨ forallb is_del (hk_lines h) = true).

Definition header_line_ok (s : string) : Prop := HasPrefix s "+" = false ∧ HasPrefix s "@@" = false.

(** A deleted file only loses lines; a file without names (renamed, binary) has no hunks. *)
Definition file_ok (f : file_diff) : Prop :=
  Forall header_line_ok (fd_header f) ∧ Forall hunk_ok (fd_hunks f) ∧
  match fd_names f with
  | None => fd_hunks f = []
  | Some (_, None) => Forall (λ h, forallb is_del (hk_lines h) = true) (fd_hunks f)
  | Some (_, Some _) => True
  end.

Definition diff_ok (d : list file_diff) : Prop :=
  Forall short_line (diff_lines d) ∧ Forall file_ok d.

(** ** Hunk headers *)

Lemma read_digits_value n s t :
  str_all is_digit_byte s = true → 0 ≤ n → dec_value n s < 2 ^ 63 →
  read_digits n (s ++ t) = read_digits (dec_value n s) t.
Proof.
  revert n. induction s as [|c s IH]; intros n; simpl; [done|]. intros [Hc Hs]%andb_prop Hn Hv.
  unfold is_digit_byte in Hc. unfold digit_val. cbv zeta. rewrite Hc.
  assert (0 ≤ byte_val c - 48) by lia. pose proof (dec_value_ge (n * 10 + (byte_val c - 48)) s Hs).
  rewrite i64_id by (unfold in_i64; lia). apply IH; [done|lia|done].
Qed.

Lemma digit_not_end c : is_digit_byte c = true → has_byte c ", @" = false.
Proof. by destruct c as [[] [] [] [] [] [] [] []]. Qed.

Lemma until_any_digits s c t :
  str_all is_digit_byte s = true → has_byte c ", @" = true → until_any ", @" (s ++ String c t) = s.
Proof.
  intros Hs Hc. revert Hs. induction s as [|d s IH].
  - intros _. cbn [until_any String.append]. by rewrite Hc.
  - cbn [str_all until_any String.append]. intros [Hd Hs]%andb_prop. by rewrite digit_not_end, IH.
Qed.

Lemma Cut_none_app a b c : has_byte c a = false → Cut (a ++ String c b) c = Some (a, b).
Proof.
  induction a as [|d a IH]; simpl; [by rewrite Ascii.eqb_refl|].
  intros [Hd Ha]%orb_false_elim. by rewrite Hd, IH.
Qed.

Lemma digits_no_byte c s : is_digit_byte c = false → str_all is_digit_byte s = true → has_byte c s = false.
Proof.
  intros Hc. induction s as [|d s IH]; simpl; [done|]. intros [Hd Hs]%andb_prop. rewrite IH by done.
  destruct (Ascii.eqb_spec d c) as [->|]; [congruence|done].
Qed.

Lemma range_text_no_plus r : range_ok r → has_byte "+" (range_text r) = false.
Proof.
  intros [H1 H2]. destruct (Itoa_digits r.1) as [Hd _]; [lia|]. unfold range_text.
  rewrite has_byte_app, (digits_no_byte "+" _ eq_refl Hd). destruct r.2 as [n|]; [|done].
  destruct (Itoa_digits n) as [Hn _]; [lia|]. by rewrite has_byte_app, (digits_no_byte "+" _ eq_refl Hn).
Qed.

Lemma range_text_start r t : range_ok r → until_any ", @" (range_text r ++ String " " t) = Itoa r.1.
Proof.
  intros [H1 H2]. destruct (Itoa_digits r.1) as [Hd _]; [lia|]. unfold range_text.
  destruct r.2 as [n|].
  - rewrite str_app_assoc. change ("," ++ Itoa n) with (String "," (Itoa n)). by apply until_any_digits.
  - rewrite str_app_nil_r. by apply until_any_digits.
Qed.

Lemma hunk_header_line h :
  hunk_ok h → parseDiffLineNum (hunk_header h) = if 0 <? (hk_new h).1 then (hk_new h).1 - 1 else 0.
Proof.
  intros (Ho & Hn & _). unfold parseDiffLineNum, hunk_header.
  set (pre := "@@ -" ++ range_text (hk_old h) ++ " "). set (post := range_text (hk_new h) ++ " @@" ++ hk_section h).
  replace ("@@ -" ++ range_text (hk_old h) ++ " " ++ String "+" post)
    with (pre ++ String "+" post) by (unfold pre; by rewrite !str_app_assoc).
  rewrite Cut_none_app by (unfold pre; by rewrite !has_byte_app, range_text_no_plus).
  unfold post. change (" @@" ++ ?x) with (String " " ("@@" ++ x)). rewrite range_text_start by done.
  destruct Hn as [Hn _]. destruct (Itoa_digits (hk_new h).1) as [Hd Hv]; [lia|].
  rewrite <-(str_app_nil_r (Itoa (hk_new h).1)). rewrite read_digits_value by (done || lia).
  rewrite Hv. simpl. destruct (Z.ltb_spec 0 (hk_new h).1); [|done]. apply i64_id. unfold in_i64. lia.
Qed.

(** ** The scan of rendered lines *)

Definition cons_findings (l : list Finding) (r : list Finding * bool) : list Finding * bool :=
  ((l ++ r.1)%list, r.2).

Lemma cons_findings_app l1 l2 r : cons_findings l1 (cons_findings l2 r) = cons_findings (l1 ++ l2) r.
Proof. unfold cons_findings. simpl. by rewrite app_assoc. Qed.

Lemma cons_findings_nil r : cons_findings [] r = r.
Proof. by destruct r. Qed.

Lemma scan_hline rs l rest file n :
  hline_ok l →
  scan_patch rs [] (hline_text l :: rest) file n =
  match l with
  | HKeep _ | HNoNewline => scan_patch rs [] rest file (n + 1)
  | HDel _ => scan_patch rs [] rest file n
  | HAdd s => cons_findings (if HasPrefix s "++" then [] else added_findings rs file (n + 1) s)
                (scan_patch rs [] rest file (n + 1))
  end.
Proof.
  destruct l as [s|s|s|]; intros Hs; [done..| |done]. unfold hline_text. change ("+" ++ s) with (String "+" s).
  cbn [scan_patch]. change (str_drop 1 (String "+" s)) with s.
  change (HasPrefix (String "+" s) "+") with (HasPrefix s ""). change (HasPrefix s "") with true.
  change (HasPrefix (String "+" s) "@@") with false.
  change (HasPrefix (String "+" s) "+++") with (HasPrefix s "++").
  change (HasPrefix (String "+" s) "+++ b/") with (HasPrefix s "++ b/"). cbn [hline_ok] in Hs. rewrite Hs.
  simpl negb. cbv iota. destruct (HasPrefix s "++"); cbn [orb].
  { change (HasPrefix (String "+" s) "-") with false. by rewrite cons_findings_nil. }
  unfold cons_findings, added_findings. by destruct (scan_patch rs [] rest file (n + 1)) as [more err].
Qed.

(** The scanner's counter is behind the next line by one, and ahead by the markers. *)
Lemma scan_hlines rs ls rest file n k :
  Forall hline_ok ls →
  ∃ n', scan_patch rs [] (map hline_text ls ++ rest)%list file (n - 1 + k) =
        cons_findings (lines_findings rs file n k ls) (scan_patch rs [] rest file n').
Proof.
  revert n k. induction ls as [|l ls IH]; intros n k Hls; simpl app.
  { eexists. by rewrite cons_findings_nil. }
  apply Forall_cons in Hls as [Hl Hls]. rewrite scan_hline by done. destruct l as [s|s|s|]; cbn [lines_findings].
  - replace (n - 1 + k + 1) with (n + 1 - 1 + k) by lia. by apply IH.
  - by apply IH.
  - replace (n - 1 + k + 1) with (n + 1 - 1 + k) by lia. destruct (IH (n + 1) k Hls) as [n' ->]. exists n'.
    rewrite cons_findings_app. by replace (n + 1 - 1 + k) with (n + k) by lia.
  - replace (n - 1 + k + 1) with (n - 1 + (k + 1)) by lia. by apply IH.
Qed.

(** Lines that are only deleted give nothing, wherever they are. *)
Lemma lines_findings_del rs path n k ls : forallb is_del ls = true → lines_findings rs path n k ls = [].
Proof.
  revert n k. induction ls as [|[s|s|s|] ls IH]; intros n k; cbn; try done; intros H; by apply IH.
Qed.

(** The hunks of a file; those of a deleted one may be scanned under another name. *)
Lemma scan_hunks rs hs rest file path n :
  Forall hunk_ok hs → (file = path ∨ Forall (λ h, forallb is_del (hk_lines h) = true) hs) →
  ∃ n', scan_patch rs [] (List.flat_map hunk_text hs ++ rest)%list file n =
        cons_findings (List.flat_map (λ h, lines_findings rs path (hk_new h).1 0 (hk_lines h)) hs)
          (scan_patch rs [] rest file n').
Proof.
  revert n. induction hs as [|h hs IH]; intros n Hhs Hp; simpl app.
  { exists n. by rewrite cons_findings_nil. }
  apply Forall_cons in Hhs as [Hh Hhs].
  assert (file = path ∨ Forall (λ h, forallb is_del (hk_lines h) = true) hs) as Hp'
    by (destruct Hp as [|[_ ?]%Forall_cons]; auto).
  rewrite <-app_assoc. simpl. fold (hunk_header h).
  change (scan_patch rs [] (hunk_header h :: ?l) file n) with (scan_patch rs [] l file (parseDiffLineNum (hunk_header h))).
  set (m := parseDiffLineNum (hunk_header h)).
  assert (∃ n1, scan_patch rs [] (map hline_text (hk_lines h) ++ List.flat_map hunk_text hs ++ rest)%list file m =
    cons_findings (lines_findings rs path (hk_new h).1 0 (hk_lines h))
      (scan_patch rs [] (List.flat_map hunk_text hs ++ rest) file n1)) as [n1 ->].
  { assert (Forall hline_ok (hk_lines h)) as Hl by apply Hh.
    destruct (scan_hlines rs (hk_lines h) (List.flat_map hunk_text hs ++ rest) file (m + 1) 0 Hl) as [n1 E].
    replace (m + 1 - 1 + 0) with m in E by lia. exists n1. rewrite E. f_equal.
    destruct (forallb is_del (hk_lines h)) eqn:Ed; [by rewrite !lines_findings_del|].
    destruct Hp as [->|Hp]; [|apply Forall_cons in Hp as [? _]; congruence].
    destruct Hh as (Ho & Hr & _ & [Hn|?]); [|congruence].
    unfold m. rewrite hunk_header_line by (split_and!; auto). f_equal. destruct (Z.ltb_spec 0 (hk_new h).1); lia. }
  destruct (IH n1 Hhs Hp') as [n2 ->]. exists n2. by rewrite cons_findings_app.
Qed.

Lemma scan_header rs ls rest file n :
  Forall header_line_ok ls → ∃ n', scan_patch rs [] (ls ++ rest)%list file n = scan_patch rs [] rest file n'.
Proof.
  revert n. induction ls as [|l ls IH]; intros n Hls; [by exists n|].
  apply Forall_cons in Hls as [[H1 H2] Hls]. cbn [app scan_patch]. rewrite H1, H2. cbn [negb orb].
  assert (HasPrefix l "+++ b/" = false) as ->.
  { destruct (HasPrefix l "+++ b/") eqn:E; [|done]. by apply HasPrefix_spec in E as [r ->]. }
  by apply IH.
Qed.

Lemma scan_file_text rs f rest file n :
  file_ok f →
  ∃ file' n', scan_patch rs [] (file_text f ++ rest)%list file n =
        cons_findings (file_findings rs f) (scan_patch rs [] rest file' n').
Proof.
  intros (Hh & Hk & Hn). unfold file_text, file_findings, new_path. rewrite <-!app_assoc.
  destruct (scan_header rs (fd_header f) (names_text (fd_names f) ++ List.flat_map hunk_text (fd_hunks f) ++ rest) file n Hh) as [n1 ->].
  destruct (fd_names f) as [[old [path|]]|]; cbn [names_text name_text app].
  - change (scan_patch rs [] (?a :: ?b :: ?l) file n1) with (scan_patch rs [] l path 0).
    destruct (scan_hunks rs (fd_hunks f) rest path path 0 Hk (or_introl eq_refl)) as [n' ->]. by exists path, n'.
  - change (scan_patch rs [] (?a :: ?b :: ?l) file n1) with (scan_patch rs [] l file (n1 + 1)).
    destruct (scan_hunks rs (fd_hunks f) rest file "" (n1 + 1) Hk (or_intror Hn)) as [n' ->]. by exists file, n'.
  - rewrite Hn. exists file, n1. by rewrite cons_findings_nil.
Qed.

Lemma scan_files rs d rest file n :
  Forall file_ok d →
  ∃ file' n', scan_patch rs [] (diff_lines d ++ rest)%list file n =
        cons_findings (diff_findings rs d) (scan_patch rs [] rest file' n').
Proof.
  revert file n. induction d as [|f d IH]; intros file n Hd.
  { exists file, n. simpl. by rewrite cons_findings_nil. }
  apply Forall_cons in Hd as [Hf Hd]. change (diff_lines (f :: d)) with (file_text f ++ diff_lines d)%list.
  rewrite <-app_assoc. destruct (scan_file_text rs f (diff_lines d ++ rest) file n Hf) as (file1 & n1 & ->).
  destruct (IH file1 n1 Hd) as (file' & n' & ->). exists file', n'. by rewrite cons_findings_app.
Qed.

Lemma bufio_lines_short ls : Forall short_line ls → bufio_lines (ls ++ [""]) = ls.
Proof.
  induction ls as [|l ls IH]; [done|]. intros [(_ & Hl & Hcr) Hls]%Forall_cons. simpl.
  destruct (Z.ltb_spec 65535 (str_len l)); [lia|]. simpl.
  assert (match (ls ++ [""])%list with [] => true | _ => false end = false) as -> by (by destruct ls).
  rewrite andb_false_r, Hcr. f_equal. by apply IH.
Qed.

Lemma lines_findings_plain rs path n ls :
  Forall plain_hline ls →
  lines_findings rs path n 0 ls = List.flat_map (λ x, added_findings rs path x.1 x.2) (added_at n ls).
Proof.
  intros H. revert n. induction H as [|[s|s|s|] ls Hl _ IH]; intros n; [done|apply IH|apply IH| |done].
  cbn [lines_findings added_at List.flat_map fst snd]. unfold plain_hline in Hl. by rewrite Hl, Z.add_0_r, IH.
Qed.

Lemma diff_findings_plain rs d :
  Forall (λ f, Forall (λ h, Forall plain_hline (hk_lines h)) (fd_hunks f)) d → diff_findings rs d = true_findings rs d.
Proof.
  unfold diff_findings, true_findings, file_findings. induction 1 as [|f d Hf _ IH]; [done|]. simpl. rewrite IH. f_equal.
  clear IH d. induction Hf as [|h hs Hh _ IH]; [done|]. simpl. by rewrite IH, lines_findings_plain.
Qed.

