(* ===== verification/Logs.v ===== *)
(** * The logs command of the worker (grid-worker/internal/cli/logs.go)

    [tailFile] prints the end of the log file and [follow_poll] what has been added since the
    last poll.  The file is its bytes; a panic of the program is [None]. *)
From S2P Require Import Prelude GoStd GoPath WConfig WScanner WScannerFacts.
From Stdlib Require Import Ascii.

#[local] Open Scope string_scope.
#[local] Open Scope Z_scope.

(** ** The end of the file *)

Definition maxScan : Z := 1048576.

(** The loop over the bytes from the last one down, [i] of them left; it stops once it has
    more than [n] line feeds. *)
Fixpoint newline_offsets (buf : string) (n : Z) (i : nat) (offsets : list Z) : list Z :=
  match i with
  | O => offsets
  | S i =>
      if match String.get i buf with Some c => Ascii.eqb c chr_lf | None => false end then
        let offsets := (offsets ++ [Z.of_nat i])%list in
        if n <? Z.of_nat (length offsets) then offsets else newline_offsets buf n i offsets
      else newline_offsets buf n i offsets
  end.

(** An index into a slice: [None] is the panic. *)
Definition index (l : list Z) (i : Z) : option Z :=
  if i <? 0 then None else l !! Z.to_nat i.

Definition tail_start (buf : string) (n : Z) : option Z :=
  let offsets := newline_offsets buf n (String.length buf) [] in
  if n <=? Z.of_nat (length offsets) then o ← index offsets (n - 1); Some (o + 1) else Some 0.

(** [content] is the file when it is read, [totalSize] its size before.  The seek from the end
    fails when the file has become shorter; reading nothing at all is io.EOF. *)
Definition tailFile (content : string) (totalSize n : Z) : option (result string) :=
  if totalSize =? 0 then Some (Ok "")
  else
    let scanSize := Z.min totalSize maxScan in
    let buf := if str_len content <? scanSize then content
               else str_drop (Z.to_nat (str_len content - scanSize)) content in
    if str_len buf =? 0 then Some (Err (ErrMsg "EOF"))
    else start ← tail_start buf n; Some (Ok (str_drop (Z.to_nat start) buf)).

(** ** Following the file *)

Definition println_all (lines : list string) : string :=
  String.concat "" (map (λ l, l ++ str1 chr_lf) lines).

(** How far bufio.Scanner has read when it ends: to the end of the file, or one full buffer
    past the start of a line that does not fit. *)
Fixpoint scan_consumed (lines : list string) : Z :=
  match lines with
  | [] => 0
  | [line] => if 65535 <? str_len line then 65536 else str_len line
  | line :: rest => if 65535 <? str_len line then 65536 else str_len line + 1 + scan_consumed rest
  end.

(** One turn of the loop, with the file as it is then: what is printed and the new offset. *)
Definition follow_poll (content : string) (offset : Z) : string * Z :=
  if offset <? str_len content then
    let lines := Split (str_drop (Z.to_nat offset) content) chr_lf in
    (println_all (bufio_lines lines), offset + scan_consumed lines)
  else ("", offset).

Fixpoint follow (contents : list string) (offset : Z) : string * Z :=
  match contents with
  | [] => ("", offset)
  | content :: rest =>
      let '(out, offset) := follow_poll content offset in
      let '(out', offset) := follow rest offset in (out ++ out', offset)
  end.

(** The file that is shown. *)
Definition log_path (logDir : string) (cfg : option WConfig) : string :=
  match cfg with
  | Some cfg => if String.eqb (WLog_File (W_Logging cfg)) "" then path_Join [logDir; "grid-worker.log"]
                else WLog_File (W_Logging cfg)
  | None => path_Join [logDir; "grid-worker.log"]
  end.

(** [open path] is the file's bytes; [later] are its contents at the polls that happen before
    the user interrupts the command.  The result is what has been printed. *)
Definition runLogs (logDir : string) (cfg : option WConfig) (open : string → result string)
    (quote : string → string) (later : list string) (follows : bool) (lines : Z) : option (result string) :=
  let logFile := log_path logDir cfg in
  match open logFile with
  | Err ErrNotFound => Some (Err (ErrMsg ("log file not found at " ++ quote logFile ++ " (is the daemon running?)")))
  | Err e => Some (Err e)
  | Ok content =>
      r ← tailFile content (str_len content) lines;
      match r with
      | Err e => Some (Err e)
      | Ok out => Some (Ok (if follows then out ++ fst (follow later (str_len content)) else out))
      end
  end.

(** ** The reference: the last [n] of the pieces between line feeds *)

Definition lastn {A} (n : nat) (l : list A) : list A := drop (length l - n) l.

Definition last_lines (n : nat) (s : string) : string := Join (lastn n (Split s chr_lf)) (str1 chr_lf).

(** ** Lemmas *)

Lemma lastn_app {A} (l k : list A) n : length k = n → lastn n (l ++ k) = k.
Proof. intros H. unfold lastn. rewrite length_app. replace (length l + length k - n)%nat with (length l) by lia. apply drop_app_length. Qed.

Lemma lastn_all {A} (l : list A) n : (length l ≤ n)%nat → lastn n l = l.
Proof. intros H. unfold lastn. by replace (length l - n)%nat with 0%nat by lia. Qed.

Lemma Join_Split s c : Join (Split s c) (str1 c) = s.
Proof.
  induction s as [|d s IH]; simpl; [done|]. destruct (Ascii.eqb_spec d c) as [->|].
  - pose proof (Split_ne s c). destruct (Split s c) eqn:E; [done|]. simpl in *. by rewrite IH.
  - pose proof (Split_ne s c). destruct (Split s c) as [|x [|y l]]; simpl in *; [done|by rewrite <-IH..].
Qed.

Lemma str_drop_get i s c : String.get i s = Some c → str_drop i s = String c (str_drop (S i) s).
Proof. revert s. induction i as [|i IH]; intros [|d s]; simpl; [done|by intros [= ->]|done|apply IH]. Qed.

Lemma get_lt i s : (i < String.length s)%nat → ∃ c, String.get i s = Some c.
Proof. revert s. induction i as [|i IH]; intros [|d s]; simpl; [lia|eauto|lia|]. intros H. apply IH. lia. Qed.

Lemma str_drop_all s : str_drop (String.length s) s = "".
Proof. by induction s. Qed.

Lemma str_drop_app a b : str_drop (String.length a) (a ++ b) = b.
Proof. by induction a. Qed.

Lemma str_drop_len a b : str_drop (Z.to_nat (str_len a)) (a ++ b) = b.
Proof. unfold str_len. rewrite Nat2Z.id. apply str_drop_app. Qed.

Lemma str_len_app a b : str_len (a ++ b) = str_len a + str_len b.
Proof. unfold str_len. rewrite length_str_app. lia. Qed.

(** *** The line feeds of a string *)

Fixpoint lf_count (s : string) : nat :=
  match s with EmptyString => 0 | String c s => (if Ascii.eqb c chr_lf then 1 else 0) + lf_count s end.

Lemma length_Split s : length (Split s chr_lf) = S (lf_count s).
Proof.
  induction s as [|d s IH]; simpl; [done|]. destruct (Ascii.eqb_spec d chr_lf); simpl; [by rewrite IH|].
  pose proof (Split_ne s chr_lf). destruct (Split s chr_lf); [done|]. done.
Qed.

(** [p] is a line feed with exactly [j] line feeds after it. *)
Definition lf_at (buf : string) (j : nat) (p : Z) : Prop :=
  0 ≤ p ∧ String.get (Z.to_nat p) buf = Some chr_lf ∧ lf_count (str_drop (S (Z.to_nat p)) buf) = j.

Lemma newline_offsets_spec buf n i acc :
  (i ≤ String.length buf)%nat → lf_count (str_drop i buf) = length acc →
  (∀ j p, acc !! j = Some p → lf_at buf j p) →
  let r := newline_offsets buf n i acc in
  (∀ j p, r !! j = Some p → lf_at buf j p) ∧ (length r = lf_count buf ∨ n < Z.of_nat (length r)).
Proof.
  revert acc. induction i as [|i IH]; intros acc Hi Hc Hacc; simpl.
  - split; [done|left]. by rewrite <-Hc.
  - destruct (get_lt i buf Hi) as [c Hg]. rewrite Hg. pose proof (str_drop_get _ _ _ Hg) as Hd.
    destruct (Ascii.eqb_spec c chr_lf) as [->|Hne].
    + assert (∀ j p, (acc ++ [Z.of_nat i])%list !! j = Some p → lf_at buf j p) as Hacc'.
      { intros j p [H|[H1 H2]]%lookup_app_Some; [auto|]. apply list_lookup_singleton_Some in H2 as [H2 <-].
        split; [lia|]. rewrite Nat2Z.id. split; [done|]. rewrite Hc. lia. }
      destruct (Z.ltb_spec n (Z.of_nat (length (acc ++ [Z.of_nat i])))); [by split; [|right]|].
      apply IH; [lia| |done]. rewrite Hd, length_app. cbn [lf_count length]. rewrite Ascii.eqb_refl. lia.
    + apply IH; [lia| |done]. rewrite Hd. cbn [lf_count]. destruct (Ascii.eqb_spec c chr_lf); [done|]. by rewrite Hc.
Qed.

Lemma lf_at_suffix buf j p : lf_at buf j p → str_drop (Z.to_nat (p + 1)) buf = last_lines (S j) buf.
Proof.
  intros (Hp & Hg & Hj). rewrite Z2Nat.inj_add by lia. replace (Z.to_nat p + Z.to_nat 1)%nat with (S (Z.to_nat p)) by lia.
  set (t := str_drop (S (Z.to_nat p)) buf) in *.
  assert (buf = str_take (Z.to_nat p) buf ++ String chr_lf t) as E.
  { rewrite <-(str_take_drop (Z.to_nat p) buf) at 1. by rewrite (str_drop_get _ _ _ Hg). }
  rewrite E. unfold last_lines. rewrite Split_app, lastn_app by (by rewrite length_Split, Hj). by rewrite Join_Split.
Qed.

Lemma last_lines_all n s : (lf_count s < n)%nat → last_lines n s = s.
Proof. intros H. unfold last_lines. rewrite lastn_all by (rewrite length_Split; lia). apply Join_Split. Qed.

Lemma tail_start_spec buf n :
  1 ≤ n → ∃ s, tail_start buf n = Some s ∧ str_drop (Z.to_nat s) buf = last_lines (Z.to_nat n) buf.
Proof.
  intros Hn. unfold tail_start.
  destruct (newline_offsets_spec buf n (String.length buf) []) as [Hr Hlen]; [done|by rewrite str_drop_all|done|].
  set (r := newline_offsets _ _ _ _) in *. destruct (Z.leb_spec n (Z.of_nat (length r))) as [H|H].
  - unfold index. destruct (Z.ltb_spec (n - 1) 0); [lia|].
    destruct (lookup_lt_is_Some_2 r (Z.to_nat (n - 1))) as [p Hp]; [lia|]. rewrite Hp. simpl. eexists. split; [done|].
    rewrite (lf_at_suffix _ _ _ (Hr _ _ Hp)). f_equal. lia.
  - eexists. split; [done|]. simpl. rewrite last_lines_all; [done|]. lia.
Qed.

Lemma tail_start_panic buf n : n ≤ 0 → tail_start buf n = None.
Proof.
  intros Hn. unfold tail_start. destruct (Z.leb_spec n (Z.of_nat (length (newline_offsets buf n (String.length buf) [])))); [|lia].
  unfold index. destruct (Z.ltb_spec (n - 1) 0); [done|lia].
Qed.

(** *** Printed lines *)

Lemma println_all_cons l ls : println_all (l :: ls) = l ++ String chr_lf (println_all ls).
Proof. unfold println_all. simpl. destruct ls; simpl; [by rewrite ?str_app_nil_r|]. by rewrite !str_app_assoc. Qed.

Lemma Split_println ls : Forall short_line ls → Split (println_all ls) chr_lf = (ls ++ [""])%list.
Proof.
  induction ls as [|l ls IH]; [done|]. intros [[Hl _] Hls]%Forall_cons.
  by rewrite println_all_cons, Split_app, (Split_none l) by done; rewrite IH.
Qed.

Lemma scan_consumed_println ls : Forall short_line ls → scan_consumed (ls ++ [""]) = str_len (println_all ls).
Proof.
  induction ls as [|l ls IH]; [done|]. intros [(_ & Hl & _) Hls]%Forall_cons. rewrite println_all_cons.
  assert (scan_consumed ((l :: ls) ++ [""]) = str_len l + 1 + scan_consumed (ls ++ [""])) as ->.
  { simpl. destruct (Z.ltb_spec 65535 (str_len l)); [lia|]. by destruct ls. }
  rewrite IH by done. rewrite str_len_app. unfold str_len. simpl. lia.
Qed.

(** The contents of the file at each poll, when whole lines are appended in between. *)
Fixpoint snapshots (content : string) (added : list (list string)) : list string :=
  match added with
  | [] => []
  | ls :: added => (content ++ println_all ls) :: snapshots (content ++ println_all ls) added
  end.

Lemma follow_poll_appended content ls :
  Forall short_line ls →
  follow_poll (content ++ println_all ls) (str_len content) =
    (println_all ls, str_len (content ++ println_all ls)).
Proof.
  intros Hls. unfold follow_poll. rewrite str_len_app. destruct ls as [|l ls].
  - destruct (Z.ltb_spec (str_len content) (str_len content + str_len (println_all []))) as [H|_]; [|by rewrite Z.add_0_r].
    unfold str_len, println_all in H. simpl in H. lia.
  - destruct (Z.ltb_spec (str_len content) (str_len content + str_len (println_all (l :: ls)))) as [_|H].
    + rewrite str_drop_len, Split_println by done. cbv zeta. by rewrite bufio_lines_short, scan_consumed_println.
    + rewrite println_all_cons, str_len_app in H. unfold str_len in H. simpl in H. lia.
Qed.

(** Following prints exactly what is appended, when each poll finds whole lines of less than
    64 KiB. *)
Lemma follow_prints content added :
  Forall (Forall short_line) added →
  follow (snapshots content added) (str_len content) =
    (String.concat "" (map println_all added), str_len (content ++ String.concat "" (map println_all added))).
Proof.
  intros H. revert content. induction H as [|ls added Hls _ IH]; intros content; [simpl; by rewrite str_app_nil_r|].
  cbn [follow snapshots]. rewrite follow_poll_appended, IH by done.
  assert (println_all ls ++ String.concat "" (map println_all added) = String.concat "" (map println_all (ls :: added))) as E.
  { simpl. destruct (map println_all added); simpl; [by rewrite str_app_nil_r|done]. }
  rewrite str_app_assoc, E. done.
Qed.

Lemma str_drop_ge n s : (String.length s ≤ n)%nat → str_drop n s = "".
Proof. revert s. induction n as [|n IH]; intros [|c s]; simpl; [done|lia|done|]. intros. apply IH. lia. Qed.

Lemma length_str_drop n s : String.length (str_drop n s) = (String.length s - n)%nat.
Proof. revert s. induction n as [|n IH]; intros [|c s]; simpl; auto. Qed.

(** A file that ends with a line feed: one of the [n] lines is the empty one after it. *)
Lemma last_lines_newline n body :
  (1 ≤ n)%nat → last_lines (S n) (body ++ str1 chr_lf) = last_lines n body ++ str1 chr_lf.
Proof.
  intros Hn. unfold last_lines. change (str1 chr_lf) with (String chr_lf "") at 1. rewrite Split_app.
  unfold lastn. rewrite length_app. cbn [Split length]. rewrite Nat.add_1_r, Nat.sub_succ.
  assert (length (Split body chr_lf) - n < length (Split body chr_lf))%nat as H.
  { pose proof (length_Split body). lia. }
  rewrite drop_app_le by lia. rewrite Join_app; [|intros E; apply (f_equal length) in E; rewrite length_drop in E; simpl in E; lia|done].
  done.
Qed.

(** The bytes that are searched: the last MiB. *)
Definition log_window (content : string) : string := str_drop (Z.to_nat (str_len content - maxScan)) content.

Lemma tailFile_window content n : content ≠ "" →
  tailFile content (str_len content) n =
  (start ← tail_start (log_window content) n; Some (Ok (str_drop (Z.to_nat start) (log_window content)))).
Proof.
  intros Hne. assert (0 < str_len content) as Hpos by (unfold str_len; destruct content; simpl; [done|lia]).
  unfold tailFile. destruct (Z.eqb_spec (str_len content) 0); [lia|].
  destruct (Z.ltb_spec (str_len content) (Z.min (str_len content) maxScan)); [lia|].
  replace (str_drop (Z.to_nat (str_len content - Z.min (str_len content) maxScan)) content) with (log_window content)
    by (unfold log_window; f_equal; lia).
  destruct (Z.eqb_spec (str_len (log_window content)) 0) as [E|]; [|done].
  unfold log_window, str_len, maxScan in *. rewrite length_str_drop in E. lia.
Qed.

Lemma tailFile_lines content n : 1 ≤ n →
  tailFile content (str_len content) n = Some (Ok (last_lines (Z.to_nat n) (log_window content))).
Proof.
  intros Hn. destruct (decide (content = "")) as [->|Hne].
  - rewrite last_lines_all by (simpl; lia). done.
  - rewrite tailFile_window by done. destruct (tail_start_spec (log_window content) n Hn) as (s & -> & Hs).
    cbn [mbind option_bind]. by rewrite Hs.
Qed.

(** What the command prints in each mode: the end of the file, and with --follow what is
    appended afterwards too. *)
Definition logs_shown (follows : bool) (n : Z) (content : string) (added : list (list string)) : string :=
  last_lines (Z.to_nat n) (log_window content) ++
  (if follows then String.concat "" (map println_all added) else "").

(** C27: The logs command prints the last lines of the log.  For n of at least 1 and a log
    that can be read, the output without --follow (the default) is, whatever is appended
    afterwards, the last n of the pieces between the line feeds of the last MiB of the file
    (the reference definition splits and joins, the code walks backwards over byte offsets):
    a suffix of the file of at most one MiB, nothing for an empty log.  With --follow it is
    the same followed by exactly the whole lines (of less than 64 KiB) appended between the
    polls.  When the file ends with a line feed the last of the n pieces is the empty one
    after it, so n - 1 full lines are shown.  In both modes an n of zero or less panics on
    any log that is not empty, and a log that does not exist is an error, with nothing
    printed. *)
Theorem runLogs_shows logDir cfg open quote follows n added :
  (follows = true → Forall (Forall short_line) added) →
  (∀ content, open (log_path logDir cfg) = Ok content →
    let run := runLogs logDir cfg open quote (snapshots content added) follows n in
    let shown := last_lines (Z.to_nat n) (log_window content) in
    (1 ≤ n → run = Some (Ok (logs_shown follows n content added))) ∧
    (1 ≤ n → (∃ before, content = before ++ shown) ∧ str_len shown ≤ maxScan) ∧
    (∀ body, 2 ≤ n → log_window content = body ++ str1 chr_lf →
      shown = last_lines (Z.to_nat n - 1) body ++ str1 chr_lf) ∧
    (n ≤ 0 → content ≠ "" → run = None)) ∧
  (open (log_path logDir cfg) = Err ErrNotFound → ∀ later,
    runLogs logDir cfg open quote later follows n =
    Some (Err (ErrMsg ("log file not found at " ++ quote (log_path logDir cfg) ++
                       " (is the daemon running?)")))).
Proof.
  intros Hadd. split; [|by unfold runLogs; intros ->]. intros content Ho. cbv zeta. split_and!.
  - intros Hn. unfold runLogs, logs_shown. rewrite Ho, tailFile_lines by done. cbn [mbind option_bind].
    destruct follows; [by rewrite follow_prints by auto|by rewrite str_app_nil_r].
  - intros Hn. destruct (tail_start_spec (log_window content) n Hn) as (s & _ & <-). split.
    + exists (str_take (Z.to_nat (str_len content - maxScan)) content ++ str_take (Z.to_nat s) (log_window content)).
      rewrite str_app_assoc, (str_take_drop (Z.to_nat s) (log_window content)). unfold log_window.
      by rewrite str_take_drop.
    + unfold str_len. rewrite length_str_drop. unfold log_window, str_len, maxScan. rewrite length_str_drop. lia.
  - intros body Hn ->. replace (Z.to_nat n) with (S (Z.to_nat n - 1)) at 1 by lia. apply last_lines_newline. lia.
  - intros Hn Hne. unfold runLogs. by rewrite Ho, tailFile_window, tail_start_panic by done.
Qed.

Definition demo_log : string := "a" ++ str1 chr_lf ++ "b" ++ str1 chr_lf ++ "c" ++ str1 chr_lf.

(** Two lines are asked for, one is shown, and two more that arrive later. *)
Example logs_sample :
  runLogs "/home/u/.grid-worker/logs" None (λ _, Ok demo_log) id (snapshots demo_log [["d"; "e"]]) true 2 =
  Some (Ok ("c" ++ str1 chr_lf ++ "d" ++ str1 chr_lf ++ "e" ++ str1 chr_lf)).
Proof. reflexivity. Qed.

Lemma runLogs_shows_witness :
  (∀ follows, runLogs "/home/u/.grid-worker/logs" None (λ _, Ok demo_log) id (snapshots demo_log [["d"; "e"]]) follows 2 =
    Some (Ok ("c" ++ str1 chr_lf ++ (if follows then println_all ["d"; "e"] else "")))) ∧
  runLogs "/home/u/.grid-worker/logs" None (λ _, Ok demo_log) id [] false 0 = None.
Proof.
  split.
  - intros follows. apply (runLogs_shows "/home/u/.grid-worker/logs" None (λ _, Ok demo_log) id follows 2 [["d"; "e"]]);
      [|reflexivity|lia]. intros _. constructor; [|constructor]. repeat constructor; vm_compute; congruence.
  - apply (proj1 (runLogs_shows "/home/u/.grid-worker/logs" None (λ _, Ok demo_log) id false 0 []
      ltac:(discriminate)) demo_log); [reflexivity|lia|discriminate].
Defined.

(** A poll in the middle of a line prints it as two; a truncated file is not followed. *)
Example follow_splits_lines :
  follow ["ab"; "abcd" ++ str1 chr_lf; "x"] 0 = ("ab" ++ str1 chr_lf ++ "cd" ++ str1 chr_lf, 5).
Proof. reflexivity. Qed.
