(* ===== verification/Patterns.v ===== *)
(** * The secret patterns as they are written in the source

    Security.v and WScanner.v give the secret patterns as expressions.  Here are the texts
    in the source files, parsed by RegexpSyntax.v, with the proof that each expression is
    equivalent to its text. *)
From S2P Require Import Prelude GoStd Regexp RegexpSyntax Security WScanner.
From Stdlib Require Import Ascii.

#[local] Open Scope string_scope.
#[local] Open Scope Z_scope.

(** The pattern has the syntax tree [r], up to equivalence. *)
Definition denotes (pattern : string) (r : re) : Prop := ∃ r', re_parse pattern = Some r' ∧ r' ≡ r.

(** ** Automation: parse, drop the units, and compare piece by piece *)

Ltac class_equal :=
  let c := fresh "c" in
  intros c;
  unfold alnum, quote_class, folded, rune_is, fold_case, or_class, not_class, no_class, range, is_upper, is_lower, is_digit, re_space, one_of, orbit,
    is_upper, is_lower, range;
  cbn [one_of];
  repeat match goal with
  | |- context [byte_val ?a] => let v := eval vm_compute in (byte_val a) in change (byte_val a) with v
  end;
  repeat match goal with |- context [if ?b then _ else _] => destruct b eqn:? end;
  cbn [existsb]; rewrite ?orb_false_r, ?orb_false_l; try reflexivity; lia.

Ltac parse_pattern :=
  eexists; split;
  [cbv -[Rep AtLeast Opt fold_case or_class one_of range re_space not_class no_class rune_is]; reflexivity|].

Ltac re_equal :=
  repeat match goal with
  | |- Cat _ _ ≡ Cat _ _ => apply Cat_proper
  | |- Alt _ _ ≡ Alt _ _ => apply Alt_proper
  | |- Opt _ ≡ Opt _ => apply Opt_proper
  | |- Rep _ _ ≡ Rep _ _ => apply Rep_proper
  | |- AtLeast _ _ ≡ AtLeast _ _ => apply AtLeast_proper
  | |- Chr _ ≡ Chr _ => apply Chr_proper
  | |- Many _ ≡ Many _ => apply Many_proper
  | |- Eps ≡ Eps => reflexivity
  end.

Ltac pattern_denotes r :=
  parse_pattern; unfold r, opt_sep, opt_quote, eq_or_colon; cbn [Lit LitFold]; rewrite ?Cat_assoc, ?Cat_Eps_l, ?Cat_Eps_r; re_equal; try class_equal.

(** ** grid-worker/internal/scanner/ruleset.go *)

Record ruleSpec := MkRuleSpec {
  spec_id : string;
  spec_name : string;
  spec_pattern : string;
  spec_severity : string;
  spec_scope : string;
}.

Definition hardcoded_specs : list ruleSpec :=
  [MkRuleSpec "SEC-001" "AWS Access Key ID" "(?i)AKIA[0-9A-Z]{16}" "critical" "all";
   MkRuleSpec "SEC-002" "GitHub Personal Access Token" "ghp_[0-9a-zA-Z]{36}" "critical" "all";
   MkRuleSpec "SEC-003" "Private Key PEM" "-----BEGIN (RSA |EC |OPENSSH )?PRIVATE KEY-----" "critical" "all";
   MkRuleSpec "SEC-004" "Generic Password Assignment" "(?i)password\s*[:=]\s*\S{8,}" "high" "all";
   MkRuleSpec "SEC-005" "Generic Secret Assignment" "(?i)secret\s*[:=]\s*\S{8,}" "high" "all";
   MkRuleSpec "SEC-006" "Bearer Token" "(?i)bearer\s+[a-zA-Z0-9._\-]{20,}" "medium" "diff_only"].

(** The loop of hardcodedRuleset: a pattern that does not compile is left out. *)
Definition compile_spec (s : ruleSpec) : option Rule :=
  r ← re_parse (spec_pattern s);
  Some (MkRule (spec_id s) (spec_name s) r (spec_severity s) (spec_scope s)).

Definition compiled_ruleset : Ruleset :=
  MkRuleset "1" (omap compile_spec hardcoded_specs)
    ["**/*.md"; "**/testdata/**"; "**/*_test.go"] ["EXAMPLE_KEY_PLACEHOLDER"; "YOUR_KEY_HERE"].

(** ** control-plane/internal/security/secretscan.go *)

(** The two quote characters, in a class. *)
Definition quotes : string := str1 chr_quote ++ "'".

Definition builtin_specs : list ruleSpec :=
  [MkRuleSpec "aws_access_key" "AWS Access Key ID" "(?i)(AKIA|ASIA|AROA)[A-Z0-9]{16}" SeverityCritical ScopeAll;
   MkRuleSpec "aws_secret_key" "AWS Secret Access Key"
     ("(?i)aws[_\-\s]?secret[_\-\s]?access[_\-\s]?key[\s]*[=:][" ++ quotes ++ "]?\s*([A-Za-z0-9/+]{40})")
     SeverityCritical ScopeAll;
   MkRuleSpec "github_token" "GitHub Personal Access Token" "(ghp_[A-Za-z0-9]{36}|github_pat_[A-Za-z0-9_]{82})"
     SeverityCritical ScopeAll;
   MkRuleSpec "private_key_pem" "Private Key PEM Header" "-----BEGIN (RSA |EC |DSA |OPENSSH )?PRIVATE KEY-----"
     SeverityCritical ScopeAll;
   MkRuleSpec "generic_password" "Generic Password Assignment"
     ("(?i)password\s*[=:]\s*[" ++ quotes ++ "]?[^\s" ++ quotes ++ "]{8,}[" ++ quotes ++ "]?") SeverityHigh ScopePayload;
   MkRuleSpec "generic_api_key" "Generic API Key Assignment"
     ("(?i)(api[_\-]?key|apikey|api[_\-]?secret)\s*[=:]\s*[" ++ quotes ++ "]?[A-Za-z0-9\-_]{16,}[" ++ quotes ++ "]?")
     SeverityHigh ScopeAll;
   MkRuleSpec "stripe_secret_key" "Stripe Secret Key" "sk_(live|test)_[A-Za-z0-9]{24,}" SeverityCritical ScopeAll].

(** regexp.MustCompile panics, [None], on a pattern that does not compile. *)
Definition must_compile (s : ruleSpec) : option Pattern :=
  r ← re_parse (spec_pattern s);
  Some (MkPattern (spec_id s) (spec_name s) r (spec_severity s) (spec_scope s)).

Definition compiled_patterns : option (list Pattern) := mapM must_compile builtin_specs.

(** ** Every pattern *)

Lemma denotes_001 : denotes "(?i)AKIA[0-9A-Z]{16}" sec_001.
Proof. pattern_denotes sec_001. Qed.
Lemma denotes_002 : denotes "ghp_[0-9a-zA-Z]{36}" sec_002.
Proof. pattern_denotes sec_002. Qed.
Lemma denotes_003 : denotes "-----BEGIN (RSA |EC |OPENSSH )?PRIVATE KEY-----" sec_003.
Proof. pattern_denotes sec_003. Qed.
Lemma denotes_004 : denotes "(?i)password\s*[:=]\s*\S{8,}" (assignment "password").
Proof. pattern_denotes assignment. Qed.
Lemma denotes_005 : denotes "(?i)secret\s*[:=]\s*\S{8,}" (assignment "secret").
Proof. pattern_denotes assignment. Qed.
Lemma denotes_006 : denotes "(?i)bearer\s+[a-zA-Z0-9._\-]{20,}" sec_006.
Proof. pattern_denotes sec_006. Qed.

Lemma denotes_aws_access : denotes "(?i)(AKIA|ASIA|AROA)[A-Z0-9]{16}" re_aws_access_key.
Proof. pattern_denotes re_aws_access_key. Qed.
Lemma denotes_aws_secret : denotes
  ("(?i)aws[_\-\s]?secret[_\-\s]?access[_\-\s]?key[\s]*[=:][" ++ quotes ++ "]?\s*([A-Za-z0-9/+]{40})") re_aws_secret_key.
Proof. pattern_denotes re_aws_secret_key. Qed.
Lemma denotes_github : denotes "(ghp_[A-Za-z0-9]{36}|github_pat_[A-Za-z0-9_]{82})" re_github_token.
Proof. pattern_denotes re_github_token. Qed.
Lemma denotes_pem : denotes "-----BEGIN (RSA |EC |DSA |OPENSSH )?PRIVATE KEY-----" re_private_key_pem.
Proof. pattern_denotes re_private_key_pem. Qed.
Lemma denotes_password : denotes
  ("(?i)password\s*[=:]\s*[" ++ quotes ++ "]?[^\s" ++ quotes ++ "]{8,}[" ++ quotes ++ "]?") re_generic_password.
Proof. pattern_denotes re_generic_password. Qed.
Lemma denotes_api_key : denotes
  ("(?i)(api[_\-]?key|apikey|api[_\-]?secret)\s*[=:]\s*[" ++ quotes ++ "]?[A-Za-z0-9\-_]{16,}[" ++ quotes ++ "]?")
  re_generic_api_key.
Proof. pattern_denotes re_generic_api_key. Qed.
Lemma denotes_stripe : denotes "sk_(live|test)_[A-Za-z0-9]{24,}" re_stripe_secret_key.
Proof. pattern_denotes re_stripe_secret_key. Qed.

(** ** Equivalent rules find the same *)

#[export] Instance rule_equiv : Equiv Rule := λ r s,
  Rule_ID r = Rule_ID s ∧ Rule_Name r = Rule_Name s ∧ Rule_Pattern r ≡ Rule_Pattern s ∧
  Rule_Severity r = Rule_Severity s ∧ Rule_Scope r = Rule_Scope s.

#[export] Instance pattern_equiv : Equiv Pattern := λ p q,
  Pat_ID p = Pat_ID q ∧ Pat_Name p = Pat_Name q ∧ Pat_Regex p ≡ Pat_Regex q ∧
  Pat_Severity p = Pat_Severity q ∧ Pat_Scope p = Pat_Scope q.

#[export] Instance ruleset_equiv : Equiv Ruleset := λ r s,
  RS_Version r = RS_Version s ∧ RS_Rules r ≡ RS_Rules s ∧ Excl_Paths r = Excl_Paths s ∧ Excl_Patterns r = Excl_Patterns s.

#[export] Instance rule_equivalence : Equivalence (≡@{Rule}).
Proof.
  split.
  - intros r. by repeat split.
  - intros r s (? & ? & ? & ? & ?). by split_and!.
  - intros r s t (? & ? & H & ? & ?) (? & ? & H' & ? & ?). split_and!; [congruence..|by etrans|congruence|congruence].
Qed.

#[export] Instance ruleset_equiv_refl : Reflexive (≡@{Ruleset}).
Proof. intros rs. by split_and!. Qed.

Lemma flat_map_equiv {A B} `{Equiv A} (f g : A → list B) l k :
  (∀ x y, x ≡ y → f x = g y) → l ≡ k → List.flat_map f l = List.flat_map g k.
Proof. intros Hfg. induction 1 as [|x y l k Hxy _ IH]; simpl; [done|]. by rewrite (Hfg x y), IH. Qed.

Lemma filter_equiv {A} `{Equiv A} (p : A → bool) l k :
  (∀ x y, x ≡ y → p x = p y) → l ≡ k → List.filter p l ≡ List.filter p k.
Proof. intros Hp. induction 1 as [|x y l k Hxy _ IH]; simpl; [constructor|]. rewrite (Hp x y) by done. destruct (p y); [by constructor|done]. Qed.

#[export] Instance scan_pattern_proper : Proper (eq ==> (≡) ==> eq) scan_pattern.
Proof.
  intros t ? <- p q (Hi & Hn & Hr & Hs & _). unfold scan_pattern. rewrite Hi, Hn, Hs.
  by rewrite (FindAllString_proper _ _ Hr t t eq_refl).
Qed.

#[export] Instance apply_rule_proper : Proper (eq ==> eq ==> eq ==> (≡) ==> eq) apply_rule.
Proof.
  intros f ? <- n ? <- t ? <- r s (Hi & Hn & Hr & Hs & _). unfold apply_rule. rewrite Hi, Hn, Hs.
  by rewrite (FindString_proper _ _ Hr t t eq_refl).
Qed.

Section rulesets.
Context (rs rs' : Ruleset).
Hypothesis rs_equiv : rs ≡ rs'.

Lemma isExcludedPath_equiv path : isExcludedPath rs path = isExcludedPath rs' path.
Proof. destruct rs_equiv as (_ & _ & H & _). unfold isExcludedPath. by rewrite H. Qed.

Lemma isExcludedPattern_equiv line : isExcludedPattern rs line = isExcludedPattern rs' line.
Proof. destruct rs_equiv as (_ & _ & _ & H). unfold isExcludedPattern. by rewrite H. Qed.

Lemma scan_lines_equiv r s file n lines :
  r ≡ s → scan_lines rs r file n lines = scan_lines rs' s file n lines.
Proof.
  intros Hr. revert n. induction lines as [|l lines IH]; intros n; simpl; [done|].
  by rewrite isExcludedPattern_equiv, IH, (apply_rule_proper _ _ eq_refl _ _ eq_refl _ _ eq_refl _ _ Hr).
Qed.

Lemma WScanText_equiv text file : WScanner.ScanText rs text file = WScanner.ScanText rs' text file.
Proof.
  unfold WScanner.ScanText. rewrite isExcludedPath_equiv. destruct (isExcludedPath rs' file); [done|].
  apply flat_map_equiv; [|apply rs_equiv]. intros r s H. by apply scan_lines_equiv.
Qed.

Lemma ScanDirectory_equiv files : ScanDirectory rs files = ScanDirectory rs' files.
Proof.
  unfold ScanDirectory. apply flat_map_ext. intros f. unfold scan_file. rewrite isExcludedPath_equiv.
  destruct (isExcludedPath rs' (df_path f)); [done|]. destruct (df_content f); [apply WScanText_equiv|done].
Qed.

Lemma scan_patch_equiv ctx lines file n : scan_patch rs ctx lines file n = scan_patch rs' ctx lines file n.
Proof.
  revert ctx file n. induction lines as [|l lines IH]; intros ctx file n; [done|]. cbn [scan_patch].
  destruct (match ctx with [] => _ | b :: ctx => _ end) as [done ctx']. destruct done; [reflexivity|].
  destruct (HasPrefix l "+++ b/"); [apply IH|]. destruct (HasPrefix l "@@"); [apply IH|].
  destruct (_ || _); [apply IH|]. rewrite IH, isExcludedPath_equiv, isExcludedPattern_equiv.
  rewrite (flat_map_equiv (apply_rule file (n + 1) (str_drop 1 l)) (apply_rule file (n + 1) (str_drop 1 l)) _
    (List.filter (λ rule, negb (String.eqb (Rule_Scope rule) "workspace_only")) (RS_Rules rs'))); [done| |].
  - intros r s. by apply apply_rule_proper.
  - apply filter_equiv; [|apply rs_equiv]. intros r s (_ & _ & _ & _ & ->). done.
Qed.

Lemma ScanPatch_equiv ctx patch : ScanPatch rs ctx patch = ScanPatch rs' ctx patch.
Proof. apply scan_patch_equiv. Qed.
End rulesets.

(** *** The lists in the source compile to the lists of the model *)

Lemma compile_spec_equiv id name text sev scope r :
  denotes text r → ∃ rule, compile_spec (MkRuleSpec id name text sev scope) = Some rule ∧ rule ≡ MkRule id name r sev scope.
Proof. intros (r' & E & H). unfold compile_spec. simpl. rewrite E. eexists. split; [done|]. by repeat split. Qed.

Lemma must_compile_equiv id name text sev scope r :
  denotes text r → ∃ p, must_compile (MkRuleSpec id name text sev scope) = Some p ∧ p ≡ MkPattern id name r sev scope.
Proof. intros (r' & E & H). unfold must_compile. simpl. rewrite E. eexists. split; [done|]. by repeat split. Qed.

Lemma omap_equiv {A B} `{Equiv B} (f : A → option B) l k :
  Forall2 (λ x y, ∃ z, f x = Some z ∧ z ≡ y) l k → omap f l ≡ k.
Proof.
  induction 1 as [|x y l k (z & E & Hz) _ IH]; [constructor|]. change (omap f (x :: l)) with
    (match f x with Some b => b :: omap f l | None => omap f l end). rewrite E. by constructor.
Qed.

Lemma mapM_equiv {A B} `{Equiv B} (f : A → option B) l k :
  Forall2 (λ x y, ∃ z, f x = Some z ∧ z ≡ y) l k → ∃ ps, mapM f l = Some ps ∧ ps ≡ k.
Proof.
  induction 1 as [|x y l k (z & E & Hz) _ (ps & Hps & IH)]; [exists []; split; [done|constructor]|].
  exists (z :: ps). split; [|by constructor]. apply mapM_Some. apply mapM_Some in Hps. by constructor.
Qed.

Lemma compiled_ruleset_equiv : compiled_ruleset ≡ hardcodedRuleset.
Proof.
  split_and!; [done| |done|done]. apply omap_equiv.
  repeat constructor; apply compile_spec_equiv;
    auto using denotes_001, denotes_002, denotes_003, denotes_004, denotes_005, denotes_006.
Qed.

Lemma compiled_patterns_equiv : ∃ ps, compiled_patterns = Some ps ∧ ps ≡ BuiltinPatterns.
Proof.
  apply mapM_equiv. repeat constructor; apply must_compile_equiv;
    auto using denotes_aws_access, denotes_aws_secret, denotes_github, denotes_pem, denotes_password, denotes_api_key,
      denotes_stripe.
Qed.

(** C28: The secret patterns are the ones in the source: the pattern texts of both programs
    parse (MustCompile does not panic and no hardcoded rule is dropped), and on every text,
    directory and patch the scanners built from the parsed texts report exactly what the
    scanners of Security.v and WScanner.v report, about which the other theorems speak. *)
Theorem patterns_from_source :
  (∃ ps, compiled_patterns = Some ps ∧
     ∀ text, Security.ScanText (Some ps) text = Security.ScanText NewDefaultScanner text) ∧
  (length (RS_Rules compiled_ruleset) = 6%nat) ∧
  (∀ text file, WScanner.ScanText compiled_ruleset text file = WScanner.ScanText hardcodedRuleset text file) ∧
  (∀ files, ScanDirectory compiled_ruleset files = ScanDirectory hardcodedRuleset files) ∧
  (∀ ctx patch, ScanPatch compiled_ruleset ctx patch = ScanPatch hardcodedRuleset ctx patch).
Proof.
  pose proof compiled_ruleset_equiv as Hrs. split_and!.
  - destruct compiled_patterns_equiv as (ps & E & H). exists ps. split; [done|]. intros text. unfold NewDefaultScanner, Security.ScanText. f_equal.
    apply flat_map_equiv; [|done]. intros p q Hpq. by apply scan_pattern_proper.
  - destruct Hrs as (_ & H & _). exact (length_proper _ _ H).
  - intros. by apply WScanText_equiv.
  - intros. by apply ScanDirectory_equiv.
  - intros. by apply ScanPatch_equiv.
Qed.
