(* ===== verification/GoJson.v ===== *)
(** * encoding/json, encoding, and encoding/base64

    [json_Marshal] prints a value the way json.Marshal does: object members in the order
    given (struct fields in order; the keys of a map are given sorted), strings with HTML
    characters escaped and invalid UTF-8 replaced.  [JSONUnmarshal] is a decoder;
    JsonParse.v and JsonDecode.v define those of the program. *)
From S2P Require Import Prelude GoStd Regexp.
From Stdlib Require Import Ascii.

#[local] Open Scope string_scope.
#[local] Open Scope Z_scope.
#[local] Set Warnings "-register-all".

Inductive jdoc :=
  | DNull
  | DBool (b : bool)
  | DInt (z : Z)
  | DNum (text : string)            (* a number printed by the caller *)
  | DStr (s : string)
  | DArr (l : list jdoc)
  | DObj (l : list (string * jdoc)).

(** ** Strings *)

Definition u_escape (n : Z) : string :=
  String chr_backslash (String "u" (String (hex_char (n / 4096)) (String (hex_char (n / 256 mod 16))
    (String (hex_char (n / 16 mod 16)) (str1 (hex_char (n mod 16))))))).

Definition ascii_escape (n : Z) : string :=
  if (n =? 34) || (n =? 92) then String chr_backslash (str1 (byte_of n))
  else if n =? 8 then String chr_backslash "b"
  else if n =? 9 then String chr_backslash "t"
  else if n =? 10 then String chr_backslash "n"
  else if n =? 12 then String chr_backslash "f"
  else if n =? 13 then String chr_backslash "r"
  else if (n <? 32) || (n =? 60) || (n =? 62) || (n =? 38) then u_escape n
  else str1 (byte_of n).

Definition rune_escape (r : rune) : string :=
  let '(n, bytes) := r in
  if n <? 128 then ascii_escape n
  else if (n =? RuneError) && (String.length bytes =? 1)%nat then u_escape RuneError
  else if (n =? 8232) || (n =? 8233) then u_escape n
  else bytes.

Definition json_string (s : string) : string :=
  String chr_quote (String.concat "" (map rune_escape (decode_runes s)) ++ str1 chr_quote).

(** ** Values *)

Fixpoint json_Marshal (v : jdoc) : string :=
  match v with
  | DNull => "null"
  | DBool b => if b then "true" else "false"
  | DInt z => Itoa z
  | DNum text => text
  | DStr s => json_string s
  | DArr l => "[" ++ Join (map json_Marshal l) "," ++ "]"
  | DObj l => "{" ++ Join (map (λ kv, json_string (fst kv) ++ ":" ++ json_Marshal (snd kv)) l) "," ++ "}"
  end.

(** json.Unmarshal into a variable of type [A]: its value or the error message. *)
Class JSONUnmarshal (A : Type) := json_Unmarshal : string → A + string.

(** A member with omitempty. *)
Definition omit_empty (name s : string) : list (string * jdoc) :=
  if String.eqb s "" then [] else [(name, DStr s)].

(** ** base64.StdEncoding, the encoding of a byte slice *)

Definition b64_char (n : Z) : ascii :=
  if n <? 26 then byte_of (65 + n)
  else if n <? 52 then byte_of (71 + n)
  else if n <? 62 then byte_of (n - 4)
  else if n =? 62 then "+" else "/".

Fixpoint StdEncode (s : string) : string :=
  match s with
  | String a (String b (String c s')) =>
      let n := 65536 * byte_val a + 256 * byte_val b + byte_val c in
      String (b64_char (n / 262144)) (String (b64_char (n / 4096 mod 64))
        (String (b64_char (n / 64 mod 64)) (String (b64_char (n mod 64)) (StdEncode s'))))
  | String a (String b EmptyString) =>
      let n := 65536 * byte_val a + 256 * byte_val b in
      String (b64_char (n / 262144)) (String (b64_char (n / 4096 mod 64)) (String (b64_char (n / 64 mod 64)) "="))
  | String a EmptyString =>
      let n := 65536 * byte_val a in
      String (b64_char (n / 262144)) (String (b64_char (n / 4096 mod 64)) "==")
  | EmptyString => EmptyString
  end.

(** The keys of a map are printed in order. *)
Definition key_le {A} (a b : string * A) : Prop := str_le (fst a) (fst b).
#[export] Instance key_le_dec {A} : RelDecision (key_le (A := A)) := λ a b, decide (str_le (fst a) (fst b)).

Definition sort_keys {A} (l : list (string * A)) : list (string * A) := merge_sort key_le l.

Example json_sample :
  json_Marshal (DObj [("state", DStr "a<b"); ("n", DArr [DInt (-3); DNull; DBool true]); ("c", DStr (StdEncode "abcd"))]) =
  "{" ++ json_string "state" ++ ":" ++ String chr_quote ("a\u003cb" ++ str1 chr_quote) ++ "," ++ json_string "n" ++
  ":[-3,null,true]," ++ json_string "c" ++ ":" ++ json_string "YWJjZA==" ++ "}".
Proof. vm_compute. reflexivity. Qed.
