(* ===== verification/JsonParse.v ===== *)
(** * encoding/json: reading a document

    [json_parse] reads a JSON document the way the scanner and the literal store of
    encoding/json do: white space, escapes with surrogate pairs, invalid UTF-8 replaced by
    U+FFFD.  A number keeps its text.  [json_roundtrip] is the round trip with the printer of
    GoJson.v.  The limit of 10000 on the nesting of a document is not modelled. *)
From S2P Require Import Prelude GoStd Regexp GoJson.
From Stdlib Require Import Ascii.

#[local] Open Scope string_scope.
#[local] Open Scope Z_scope.

Definition runes : Type := list rune.

(** ** UTF-8 encoding *)

Definition is_surrogate (n : Z) : bool := (55296 <=? n) && (n <? 57344).

(** utf8.AppendRune *)
Definition encode_rune (n : Z) : string :=
  let n := if is_surrogate n || (n <? 0) || (1114111 <? n) then RuneError else n in
  if n <? 128 then str1 (byte_of n)
  else if n <? 2048 then String (byte_of (192 + n / 64)) (str1 (byte_of (128 + n mod 64)))
  else if n <? 65536 then
    String (byte_of (224 + n / 4096)) (String (byte_of (128 + n / 64 mod 64)) (str1 (byte_of (128 + n mod 64))))
  else
    String (byte_of (240 + n / 262144)) (String (byte_of (128 + n / 4096 mod 64))
      (String (byte_of (128 + n / 64 mod 64)) (str1 (byte_of (128 + n mod 64))))).

(** A rune of the input as the decoder stores it. *)
Definition stored (r : rune) : string :=
  let '(n, bytes) := r in
  if (n =? RuneError) && (String.length bytes =? 1)%nat then encode_rune RuneError else bytes.

(** ** Tokens *)

Definition is_ws (n : Z) : bool := (n =? 32) || (n =? 9) || (n =? 10) || (n =? 13).

Fixpoint skip_ws (s : runes) : runes :=
  match s with
  | (n, _) :: rest => if is_ws n then skip_ws rest else s
  | [] => []
  end.

(** The rune [n]. *)
Definition starts (n : Z) (s : runes) : option runes :=
  match s with
  | (m, _) :: rest => if m =? n then Some rest else None
  | [] => None
  end.

(** The ASCII text [lit]. *)
Fixpoint expect (lit : string) (s : runes) : option runes :=
  match lit, s with
  | EmptyString, _ => Some s
  | String c lit, (n, _) :: s => if n =? byte_val c then expect lit s else None
  | String _ _, [] => None
  end.

Definition hex_digit (n : Z) : option Z :=
  if (48 <=? n) && (n <=? 57) then Some (n - 48)
  else if (97 <=? n) && (n <=? 102) then Some (n - 87)
  else if (65 <=? n) && (n <=? 70) then Some (n - 55)
  else None.

Definition hex4 (a b c d : Z) : option Z :=
  a ← hex_digit a; b ← hex_digit b; c ← hex_digit c; d ← hex_digit d;
  Some (4096 * a + 256 * b + 16 * c + d).

(** The byte that a backslash and a letter stand for. *)
Definition unescape (n : Z) : option Z :=
  if (n =? 34) || (n =? 92) || (n =? 47) then Some n
  else if n =? 98 then Some 8 else if n =? 102 then Some 12 else if n =? 110 then Some 10
  else if n =? 114 then Some 13 else if n =? 116 then Some 9
  else None.

(** utf16.DecodeRune of a pair that is one. *)
Definition surrogate_pair (hi lo : Z) : option Z :=
  if (55296 <=? hi) && (hi <? 56320) && (56320 <=? lo) && (lo <? 57344)
  then Some (65536 + (hi - 55296) * 1024 + (lo - 56320)) else None.

Definition prepend (a : string) (r : option (string * runes)) : option (string * runes) :=
  match r with Some (b, rest) => Some (a ++ b, rest) | None => None end.

(** A string after its opening quote. *)
Fixpoint parse_str (s : runes) : option (string * runes) :=
  match s with
  | [] => None
  | (n, bytes) :: s =>
      if n =? 34 then Some ("", s)
      else if n =? 92 then
        match s with
        | [] => None
        | (e, _) :: s =>
            if e =? 117 then
              match s with
              | (a, _) :: (b, _) :: (c, _) :: (d, _) :: s =>
                  match hex4 a b c d with
                  | None => None
                  | Some u =>
                      match s with
                      | (b1, _) :: (b2, _) :: (a', _) :: (b', _) :: (c', _) :: (d', _) :: s' =>
                          match (if is_surrogate u && (b1 =? 92) && (b2 =? 117)
                                 then u' ← hex4 a' b' c' d'; surrogate_pair u u' else None) with
                          | Some cp => prepend (encode_rune cp) (parse_str s')
                          | None => prepend (encode_rune u) (parse_str s)
                          end
                      | _ => prepend (encode_rune u) (parse_str s)
                      end
                  end
              | _ => None
              end
            else match unescape e with Some b => prepend (str1 (byte_of b)) (parse_str s) | None => None end
        end
      else if n <? 32 then None
      else prepend (stored (n, bytes)) (parse_str s)
  end.

(** *** Numbers *)

Fixpoint take_digits (s : runes) : string * runes :=
  match s with
  | (n, _) :: rest =>
      if (48 <=? n) && (n <=? 57) then let '(ds, rest) := take_digits rest in (String (byte_of n) ds, rest)
      else ("", s)
  | [] => ("", [])
  end.

(** At least one digit. *)
Definition digits1 (s : runes) : option (string * runes) :=
  let '(ds, rest) := take_digits s in if String.eqb ds "" then None else Some (ds, rest).

Definition number_int (s : runes) : option (string * runes) :=
  match starts 48 s with Some rest => Some ("0", rest) | None => digits1 s end.

Definition number_frac (s : runes) : option (string * runes) :=
  match starts 46 s with Some rest => prepend "." (digits1 rest) | None => Some ("", s) end.

Definition number_exp (s : runes) : option (string * runes) :=
  match s with
  | (e, _) :: rest =>
      if (e =? 101) || (e =? 69) then
        prepend (str1 (byte_of e))
          match rest with
          | (sign, _) :: rest' =>
              if (sign =? 43) || (sign =? 45) then prepend (str1 (byte_of sign)) (digits1 rest') else digits1 rest
          | [] => None
          end
      else Some ("", s)
  | [] => Some ("", s)
  end.

Definition parse_num (s : runes) : option (string * runes) :=
  let '(sign, s) := match starts 45 s with Some s => ("-", s) | None => ("", s) end in
  '(i, s) ← number_int s;
  '(f, s) ← number_frac s;
  '(e, s) ← number_exp s;
  Some (sign ++ i ++ f ++ e, s).

(** ** Values *)

(** The key of a member, with its colon. *)
Definition parse_key (s : runes) : option (string * runes) :=
  rest ← starts 34 (skip_ws s);
  '(k, rest) ← parse_str rest;
  rest ← starts 58 (skip_ws rest);
  Some (k, rest).

Definition starts_num (n : Z) : bool := (n =? 45) || ((48 <=? n) && (n <=? 57)).

Fixpoint parse_value (fuel : nat) (s : runes) : option (jdoc * runes) :=
  match fuel with
  | O => None
  | S fuel =>
      match skip_ws s with
      | [] => None
      | ((n, _) :: rest) as s =>
          if n =? 34 then '(t, rest) ← parse_str rest; Some (DStr t, rest)
          else if n =? 123 then
            match starts 125 (skip_ws rest) with
            | Some rest => Some (DObj [], rest)
            | None => '(l, rest) ← parse_members fuel rest; Some (DObj l, rest)
            end
          else if n =? 91 then
            match starts 93 (skip_ws rest) with
            | Some rest => Some (DArr [], rest)
            | None => '(l, rest) ← parse_elems fuel rest; Some (DArr l, rest)
            end
          else if n =? 116 then rest ← expect "true" s; Some (DBool true, rest)
          else if n =? 102 then rest ← expect "false" s; Some (DBool false, rest)
          else if n =? 110 then rest ← expect "null" s; Some (DNull, rest)
          else if starts_num n then '(t, rest) ← parse_num s; Some (DNum t, rest)
          else None
      end
  end
with parse_elems (fuel : nat) (s : runes) : option (list jdoc * runes) :=
  match fuel with
  | O => None
  | S fuel =>
      '(v, rest) ← parse_value fuel s;
      match starts 44 (skip_ws rest) with
      | Some rest => '(l, rest) ← parse_elems fuel rest; Some (v :: l, rest)
      | None => rest ← starts 93 (skip_ws rest); Some ([v], rest)
      end
  end
with parse_members (fuel : nat) (s : runes) : option (list (string * jdoc) * runes) :=
  match fuel with
  | O => None
  | S fuel =>
      '(k, rest) ← parse_key s;
      '(v, rest) ← parse_value fuel rest;
      match starts 44 (skip_ws rest) with
      | Some rest => '(l, rest) ← parse_members fuel rest; Some ((k, v) :: l, rest)
      | None => rest ← starts 125 (skip_ws rest); Some ([(k, v)], rest)
      end
  end.

(** The first value of the input and what follows it: json.Decoder.  Two calls consume a rune. *)
Definition json_first (text : string) : option (jdoc * runes) :=
  let s := decode_runes text in parse_value (2 * length s + 2) s.

(** A whole document: json.Unmarshal. *)
Definition json_parse (text : string) : option jdoc :=
  '(v, rest) ← json_first text;
  match skip_ws rest with [] => Some v | _ => None end.

Example json_parse_sample :
  let q := str1 chr_quote in
  json_parse (" {" ++ q ++ "a\u0041\ud83d\ude00" ++ q ++ " : [1, -2.5e3,true] ,
    " ++ q ++ q ++ ":null}") =
  Some (DObj [("aA" ++ encode_rune 128512, DArr [DNum "1"; DNum "-2.5e3"; DBool true]); ("", DNull)]) ∧
  map json_parse ["01"; "1."; "[1,]"; "nul"; "1 2"; ""; "-"] = [None; None; None; None; None; None; None].
Proof. vm_compute. auto. Qed.

(** ** Closed strings: decoding does not look past their end *)

Definition closed (a : string) : Prop := ∀ t, decode_runes (a ++ t) = (decode_runes a ++ decode_runes t)%list.

Lemma closed_nil : closed "".
Proof. intros t. done. Qed.

Lemma closed_app a b : closed a → closed b → closed (a ++ b).
Proof. intros Ha Hb t. by rewrite str_app_assoc, Ha, Hb, Ha, app_assoc. Qed.

Lemma decode_ascii c t : byte_val c < 128 → decode_runes (String c t) = (byte_val c, str1 c) :: decode_runes t.
Proof.
  intros H. unfold decode_runes. simpl. unfold decode_rune. destruct (second_range _).
  destruct (Z.ltb_spec (byte_val c) 128); [|lia]. done.
Qed.

Lemma closed_ascii a : str_all (λ c, byte_val c <? 128) a = true → closed a.
Proof.
  induction a as [|c a IH]; simpl; [intros _; apply closed_nil|]. intros [Hc Ha]%andb_prop t. simpl.
  rewrite !decode_ascii, IH by (done || lia). done.
Qed.

(** The bytes of a rune that is not an error decode to it, whatever follows. *)
Definition rune_ok (r : rune) : Prop := ∀ t, decode_runes (r.2 ++ t) = r :: decode_runes t.
Definition rune_bad (r : rune) : Prop := r.1 = RuneError ∧ String.length r.2 = 1%nat.

Lemma decode_rune_take a s t :
  let '(cp, w) := decode_rune a s in
  (cp = RuneError ∧ w = 1%nat) ∨ decode_rune a (str_take (w - 1) s ++ t) = (cp, w).
Proof.
  unfold decode_rune. destruct (second_range (byte_val a)) as [lo hi].
  destruct (byte_val a <? 128) eqn:E0; [by right; simpl|].
  destruct ((194 <=? byte_val a) && (byte_val a <=? 223)) eqn:E1.
  { destruct s as [|c1 s]; [by left|]. destruct (is_cont 128 191 c1) eqn:E; [right; simpl; by rewrite E|by left]. }
  destruct ((224 <=? byte_val a) && (byte_val a <=? 239)) eqn:E2.
  { destruct s as [|c1 [|c2 s]]; [by left..|]. destruct (is_cont lo hi c1 && is_cont 128 191 c2) eqn:E; [right; simpl; by rewrite E|by left]. }
  destruct ((240 <=? byte_val a) && (byte_val a <=? 244)) eqn:E3; [|by left].
  destruct s as [|c1 [|c2 [|c3 s]]]; [by left..|].
  destruct (is_cont lo hi c1 && is_cont 128 191 c2 && is_cont 128 191 c3) eqn:E; [right; simpl; by rewrite E|by left].
Qed.

Lemma decode_from_skip x t : decode_from (String.length x) (x ++ t) = decode_runes t.
Proof. induction x as [|c x IH]; [done|]. apply IH. Qed.

Lemma str_take_all n s : String.length s = n → str_take n s = s.
Proof. revert n. induction s as [|c s IH]; intros [|n]; simpl; [done..|]. intros [= H]. by rewrite IH. Qed.

Lemma decode_runes_ok s : Forall (λ r, rune_bad r ∨ rune_ok r) (decode_runes s).
Proof.
  assert (∀ k n s, (String.length s ≤ k)%nat → Forall (λ r, rune_bad r ∨ rune_ok r) (decode_from n s)) as H;
    [|by apply (H (String.length s))]. clear s.
  induction k as [|k IH]; intros n [|a s] Hk; simpl in *; try (constructor; fail); [lia|].
  destruct n as [|n]; [|apply IH; lia].
  pose proof (decode_rune_width a s) as Hw. pose proof (λ t, decode_rune_take a s t) as Ht.
  destruct (decode_rune a s) as [cp w]. simpl in Hw. constructor; [|apply IH; lia].
  destruct w as [|w]; [lia|]. simpl in *. rewrite Nat.sub_0_r in *.
  assert (String.length (str_take w s) = w) as Hlen by (apply str_take_length; lia).
  destruct (decide (cp = RuneError ∧ w = 0%nat)) as [[-> ->]|Hne].
  { left. by split. }
  right. intros t. unfold decode_runes. cbn [snd String.append decode_from].
  destruct (Ht t) as [[? [= ->]]|E]; [by destruct Hne|]. rewrite E. simpl. rewrite Nat.sub_0_r.
  rewrite str_take_app_le, str_take_all by (rewrite Hlen; lia). f_equal. rewrite <-Hlen at 1. apply decode_from_skip.
Qed.

(** ** Runes and their encoding *)

Lemma byte_of_val c : byte_of (byte_val c) = c.
Proof. by destruct c as [[] [] [] [] [] [] [] []]. Qed.

Lemma byte_val_bounds c : 0 ≤ byte_val c < 256.
Proof. unfold byte_val. pose proof (N_ascii_bounded c). lia. Qed.

Ltac not_special := repeat match goal with |- context [if ?x then _ else _] => destruct x eqn:?; [lia|] end.

Lemma encode_1 n : 0 ≤ n < 128 → encode_rune n = str1 (byte_of n).
Proof.
  intros H. unfold encode_rune, is_surrogate. destruct (_ || _ || _) eqn:E; [lia|]. destruct (Z.ltb_spec n 128); [done|lia].
Qed.

Lemma encode_2 p q : 2 ≤ p < 32 → 0 ≤ q < 64 → encode_rune (64 * p + q) = String (byte_of (192 + p)) (str1 (byte_of (128 + q))).
Proof.
  intros Hp Hq. unfold encode_rune, is_surrogate. destruct (_ || _ || _) eqn:E; [lia|].
  destruct (Z.ltb_spec (64 * p + q) 128); [lia|]. destruct (Z.ltb_spec (64 * p + q) 2048); [|lia].
  rewrite <-(Z.div_unique_pos (64 * p + q) 64 p q), <-(Z.mod_unique_pos (64 * p + q) 64 p q) by lia. done.
Qed.

Lemma encode_3 p q r :
  0 ≤ p < 16 → 0 ≤ q < 64 → 0 ≤ r < 64 → 2048 ≤ 4096 * p + 64 * q + r →
  is_surrogate (4096 * p + 64 * q + r) = false →
  encode_rune (4096 * p + 64 * q + r) = String (byte_of (224 + p)) (String (byte_of (128 + q)) (str1 (byte_of (128 + r)))).
Proof.
  intros Hp Hq Hr Hn Hs. unfold encode_rune. rewrite Hs. set (n := 4096 * p + 64 * q + r) in *.
  destruct (_ || _ || _) eqn:E; [lia|]. destruct (Z.ltb_spec n 128); [lia|]. destruct (Z.ltb_spec n 2048); [lia|].
  destruct (Z.ltb_spec n 65536); [|lia].
  rewrite <-(Z.div_unique_pos n 4096 p (64 * q + r)), <-(Z.div_unique_pos n 64 (64 * p + q) r),
    <-(Z.mod_unique_pos (64 * p + q) 64 p q), <-(Z.mod_unique_pos n 64 (64 * p + q) r) by lia. done.
Qed.

Lemma encode_4 p q r u :
  0 ≤ p < 8 → 0 ≤ q < 64 → 0 ≤ r < 64 → 0 ≤ u < 64 → 65536 ≤ 262144 * p + 4096 * q + 64 * r + u < 1114112 →
  encode_rune (262144 * p + 4096 * q + 64 * r + u) =
    String (byte_of (240 + p)) (String (byte_of (128 + q)) (String (byte_of (128 + r)) (str1 (byte_of (128 + u))))).
Proof.
  intros Hp Hq Hr Hu Hn. unfold encode_rune, is_surrogate. set (n := 262144 * p + 4096 * q + 64 * r + u) in *.
  destruct (_ || _ || _) eqn:E; [lia|]. destruct (Z.ltb_spec n 128); [lia|]. destruct (Z.ltb_spec n 2048); [lia|].
  destruct (Z.ltb_spec n 65536); [lia|].
  rewrite <-(Z.div_unique_pos n 262144 p (4096 * q + 64 * r + u)), <-(Z.div_unique_pos n 4096 (64 * p + q) (64 * r + u)),
    <-(Z.div_unique_pos n 64 (4096 * p + 64 * q + r) u), <-(Z.mod_unique_pos (64 * p + q) 64 p q),
    <-(Z.mod_unique_pos (4096 * p + 64 * q + r) 64 (64 * p + q) r),
    <-(Z.mod_unique_pos n 64 (4096 * p + 64 * q + r) u) by lia. done.
Qed.

Lemma is_cont_byte lo hi c : is_cont lo hi c = true → lo ≤ byte_val c ≤ hi.
Proof. unfold is_cont. lia. Qed.

(** The second byte is a continuation byte, in a range that depends on the first. *)
Lemma second_range_spec b lo hi :
  second_range b = (lo, hi) →
  128 ≤ lo ∧ hi ≤ 191 ∧ (b = 224 → lo = 160) ∧ (b = 237 → hi = 159) ∧ (b = 240 → lo = 144) ∧ (b = 244 → hi = 143).
Proof. unfold second_range. repeat case_match; intros [= <- <-]; lia. Qed.

(** A rune that decodes is encoded back to its bytes. *)
Lemma encode_decode a s :
  let '(cp, w) := decode_rune a s in
  (cp = RuneError ∧ w = 1%nat) ∨ (0 ≤ cp ∧ encode_rune cp = str_take w (String a s)).
Proof.
  unfold decode_rune. pose proof (byte_val_bounds a) as Ha. pose proof (byte_of_val a) as Eb.
  destruct (second_range (byte_val a)) as [lo hi] eqn:Er. apply second_range_spec in Er as (Hlo & Hhi & H224 & H237 & H240 & H244).
  set (b := byte_val a) in *.
  destruct (Z.ltb_spec b 128) as [H|H]; [right; split; [lia|]; rewrite encode_1 by lia; simpl; by rewrite Eb|].
  destruct ((194 <=? b) && (b <=? 223)) eqn:E1.
  { destruct s as [|c1 s]; [by left|]. destruct (is_cont 128 191 c1) eqn:E; [right|by left].
    apply is_cont_byte in E. split; [lia|]. rewrite encode_2 by lia.
    replace (192 + (b - 192)) with b by lia. replace (128 + (byte_val c1 - 128)) with (byte_val c1) by lia.
    by rewrite Eb, byte_of_val. }
  destruct ((224 <=? b) && (b <=? 239)) eqn:E2.
  { destruct s as [|c1 [|c2 s]]; [by left..|]. destruct (is_cont lo hi c1 && is_cont 128 191 c2) eqn:E; [right|by left].
    apply andb_prop in E as [H1%is_cont_byte H2%is_cont_byte]. split; [lia|].
    rewrite encode_3; [|lia..|unfold is_surrogate; lia].
    replace (224 + (b - 224)) with b by lia. replace (128 + (byte_val c1 - 128)) with (byte_val c1) by lia.
    replace (128 + (byte_val c2 - 128)) with (byte_val c2) by lia. by rewrite Eb, !byte_of_val. }
  destruct ((240 <=? b) && (b <=? 244)) eqn:E3; [|by left].
  destruct s as [|c1 [|c2 [|c3 s]]]; [by left..|].
  destruct (is_cont lo hi c1 && is_cont 128 191 c2 && is_cont 128 191 c3) eqn:E; [right|by left].
  apply andb_prop in E as [[H1%is_cont_byte H2%is_cont_byte]%andb_prop H3%is_cont_byte]. split; [lia|].
  rewrite encode_4 by lia.
  replace (240 + (b - 240)) with b by lia. replace (128 + (byte_val c1 - 128)) with (byte_val c1) by lia.
  replace (128 + (byte_val c2 - 128)) with (byte_val c2) by lia. replace (128 + (byte_val c3 - 128)) with (byte_val c3) by lia.
  by rewrite Eb, !byte_of_val.
Qed.

(** What the decoder stores for a rune is its encoding. *)
Definition rune_encoded (r : rune) : Prop := 0 ≤ r.1 ∧ stored r = encode_rune r.1.

Lemma decode_runes_encoded s : Forall rune_encoded (decode_runes s).
Proof.
  assert (∀ k n s, (String.length s ≤ k)%nat → Forall rune_encoded (decode_from n s)) as H;
    [|by apply (H (String.length s))]. clear s.
  induction k as [|k IH]; intros n [|a s] Hk; simpl in *; try (constructor; fail); [lia|].
  destruct n as [|n]; [|apply IH; lia].
  pose proof (encode_decode a s) as He. destruct (decode_rune a s) as [cp w]. constructor; [|apply IH; lia].
  unfold rune_encoded, stored. simpl fst. destruct He as [[-> ->]|[H0 He]]; [by split|]. split; [done|].
  rewrite He. destruct (Z.eqb_spec cp RuneError) as [->|]; [|done].
  destruct (String.length (str_take w (String a s)) =? 1)%nat eqn:E; [|done]. simpl. rewrite <-He. done.
Qed.

(** ** Strings *)

Lemma hex_digit_char d : 0 ≤ d < 16 → hex_digit (byte_val (hex_char d)) = Some d ∧ byte_val (hex_char d) < 128.
Proof.
  intros H. unfold hex_char. destruct (Z.ltb_spec d 10); rewrite byte_val_of by lia; unfold hex_digit; (split; [|lia]).
  - destruct ((48 <=? 48 + d) && (48 + d <=? 57)) eqn:E; [f_equal; lia|lia].
  - destruct ((48 <=? 87 + d) && (87 + d <=? 57)) eqn:E; [lia|].
    destruct ((97 <=? 87 + d) && (87 + d <=? 102)) eqn:E'; [f_equal; lia|lia].
Qed.

(** A \u escape of a code point that is no surrogate. *)
Lemma parse_u_escape n t :
  0 ≤ n < 65536 → is_surrogate n = false →
  parse_str (decode_runes (u_escape n ++ t)) = prepend (encode_rune n) (parse_str (decode_runes t)).
Proof.
  intros Hn Hs. unfold u_escape. cbn [String.append str1].
  destruct (hex_digit_char (n / 4096)) as [E1 L1]; [split; [apply Z.div_pos; lia|apply Z.div_lt_upper_bound; lia]|].
  destruct (hex_digit_char (n / 256 mod 16)) as [E2 L2]; [apply Z.mod_pos_bound; lia|].
  destruct (hex_digit_char (n / 16 mod 16)) as [E3 L3]; [apply Z.mod_pos_bound; lia|].
  destruct (hex_digit_char (n mod 16)) as [E4 L4]; [apply Z.mod_pos_bound; lia|].
  rewrite !decode_ascii by (done || vm_compute; reflexivity).
  change (byte_val chr_backslash) with 92. change (byte_val "u") with 117. cbn [parse_str Z.eqb Pos.eqb].
  assert (hex4 (byte_val (hex_char (n / 4096))) (byte_val (hex_char (n / 256 mod 16)))
    (byte_val (hex_char (n / 16 mod 16))) (byte_val (hex_char (n mod 16))) = Some n) as ->.
  { unfold hex4. rewrite E1, E2, E3, E4. cbn [mbind option_bind]. f_equal.
    assert (n / 256 = n / 16 / 16) as -> by (by rewrite Z.div_div by lia).
    assert (n / 4096 = n / 16 / 16 / 16) as -> by (by rewrite !Z.div_div by lia).
    pose proof (Z.div_mod n 16). pose proof (Z.div_mod (n / 16) 16). pose proof (Z.div_mod (n / 16 / 16) 16). lia. }
  rewrite Hs. cbn [andb].
  destruct (decode_runes t) as [|[] [|[] [|[] [|[] [|[] [|[] ]]]]]]; reflexivity.
Qed.

Lemma prepend_str a b (r : option (string * runes)) : prepend (a ++ b) r = prepend a (prepend b r).
Proof. destruct r as [[c rest]|]; [|done]. simpl. by rewrite str_app_assoc. Qed.

(** A rune that is stored as it is. *)
Lemma parse_plain r s :
  r.1 ≠ 34 → r.1 ≠ 92 → 32 ≤ r.1 → parse_str (r :: s) = prepend (stored r) (parse_str s).
Proof.
  destruct r as [n b]. simpl fst. intros H1 H2 H3. cbn [parse_str].
  destruct (Z.eqb_spec n 34); [lia|]. destruct (Z.eqb_spec n 92); [lia|]. destruct (Z.ltb_spec n 32); [lia|]. done.
Qed.

Lemma parse_ascii_escape n t :
  0 ≤ n < 128 → parse_str (decode_runes (ascii_escape n ++ t)) = prepend (encode_rune n) (parse_str (decode_runes t)).
Proof.
  intros Hn. rewrite encode_1 by lia. unfold ascii_escape.
  assert (∀ c b, byte_val c < 128 → byte_val c ≠ 117 → unescape (byte_val c) = Some b →
    parse_str (decode_runes (String chr_backslash (str1 c) ++ t)) = prepend (str1 (byte_of b)) (parse_str (decode_runes t))) as Hesc.
  { intros c b Hc H117 Hu. cbn [String.append str1]. rewrite !decode_ascii by (done || vm_compute; reflexivity).
    change (byte_val chr_backslash) with 92. cbn [parse_str Z.eqb Pos.eqb].
    destruct (Z.eqb_spec (byte_val c) 117); [done|]. by rewrite Hu. }
  destruct ((n =? 34) || (n =? 92)) eqn:E1.
  { apply Hesc; rewrite byte_val_of by lia; [lia|lia|]. unfold unescape. by destruct (n =? 34), (n =? 92). }
  destruct (Z.eqb_spec n 8) as [->|]; [by apply Hesc|]. destruct (Z.eqb_spec n 9) as [->|]; [by apply Hesc|].
  destruct (Z.eqb_spec n 10) as [->|]; [by apply Hesc|]. destruct (Z.eqb_spec n 12) as [->|]; [by apply Hesc|].
  destruct (Z.eqb_spec n 13) as [->|]; [by apply Hesc|].
  destruct ((n <? 32) || (n =? 60) || (n =? 62) || (n =? 38)) eqn:E2.
  { rewrite parse_u_escape by (lia || unfold is_surrogate; lia). by rewrite encode_1. }
  cbn [String.append str1]. rewrite decode_ascii by (rewrite byte_val_of; lia). rewrite byte_val_of by lia.
  rewrite parse_plain by (simpl; lia). unfold stored. destruct (Z.eqb_spec n RuneError) as [->|]; [unfold RuneError in Hn; lia|]. done.
Qed.

(** The escape of a decoded rune is read back as the rune. *)
Lemma parse_rune_escape r t :
  rune_bad r ∨ rune_ok r → rune_encoded r →
  parse_str (decode_runes (rune_escape r ++ t)) = prepend (stored r) (parse_str (decode_runes t)).
Proof.
  destruct r as [n b]. intros Hr [H0 He]. simpl in H0. unfold rune_escape. rewrite He. cbn [fst].
  destruct (Z.ltb_spec n 128); [by apply parse_ascii_escape|].
  destruct ((n =? RuneError) && (String.length b =? 1)%nat) eqn:E.
  { apply andb_prop in E as [E _]. apply Z.eqb_eq in E as ->. by apply parse_u_escape. }
  destruct ((n =? 8232) || (n =? 8233)) eqn:E'; [apply parse_u_escape; [lia|unfold is_surrogate; lia]|].
  destruct Hr as [[H1 H2]|Hok]; [simpl in H1, H2; subst; rewrite H2 in E; done|]. specialize (Hok t). simpl in Hok.
  rewrite Hok, parse_plain by (simpl; lia). by rewrite He.
Qed.

(** The string that encoding and decoding leave: invalid bytes replaced. *)
Definition to_valid (s : string) : string := String.concat "" (map stored (decode_runes s)).

Lemma concat_cons x l : String.concat "" (x :: l) = x ++ String.concat "" l.
Proof. destruct l; simpl; [by rewrite str_app_nil_r|done]. Qed.

Lemma parse_json_string s t : parse_str (decode_runes (String.concat "" (map rune_escape (decode_runes s)) ++ String chr_quote t)) =
  Some (to_valid s, decode_runes t).
Proof.
  unfold to_valid. pose proof (decode_runes_ok s) as Hok. pose proof (decode_runes_encoded s) as He.
  induction (decode_runes s) as [|r rs IH].
  - cbn [map String.concat String.append]. by rewrite decode_ascii.
  - apply Forall_cons in Hok as [Hr Hok]. apply Forall_cons in He as [Hr' He]. cbn [map]. rewrite !concat_cons, str_app_assoc.
    rewrite parse_rune_escape by done. by rewrite IH.
Qed.

Lemma starts_quote s t : starts 34 (decode_runes (json_string s ++ t)) =
  Some (decode_runes (String.concat "" (map rune_escape (decode_runes s)) ++ String chr_quote t)).
Proof. unfold json_string. cbn [String.append]. rewrite decode_ascii by done. cbn [starts]. by rewrite str_app_assoc. Qed.

(** Valid UTF-8 comes back as it was. *)
Definition valid_utf8 (s : string) : Prop := Forall (λ r, ¬ rune_bad r) (decode_runes s).

Lemma to_valid_id s : valid_utf8 s → to_valid s = s.
Proof.
  intros H. unfold to_valid. rewrite <-(decode_runes_bytes s) at 2.
  induction H as [|[n b] rs Hr _ IH]; [done|]. cbn [map rune_bytes]. rewrite concat_cons, IH. f_equal. unfold stored.
  destruct ((n =? RuneError) && (String.length b =? 1)%nat) eqn:E; [|done]. destruct Hr.
  apply andb_prop in E as [E1%Z.eqb_eq E2%Nat.eqb_eq]. by split.
Qed.

(** ** Numbers *)

(** A value ends before a separator, a closing bracket or white space, or at the end. *)
Definition stops (s : runes) : Prop := match s with [] => True | (n, _) :: _ => n = 44 ∨ n = 93 ∨ n = 125 ∨ n = 32 ∨ n = 9 ∨ n = 10 ∨ n = 13 end.

Lemma starts_app n (s X : runes) : 45 ≤ n → n ≠ 93 → n ≠ 125 → stops X →
  starts n (s ++ X)%list = match starts n s with Some r => Some (r ++ X)%list | None => None end.
Proof.
  intros H1 H2 H3 HX. destruct s as [|[m b] s]; simpl.
  - destruct X as [|[m b] X]; [done|]. simpl in *. destruct (Z.eqb_spec m n); [lia|done].
  - by destruct (m =? n).
Qed.

Lemma take_digits_app (s X : runes) : stops X →
  take_digits (s ++ X)%list = ((take_digits s).1, ((take_digits s).2 ++ X)%list).
Proof.
  intros HX. induction s as [|[m b] s IH]; simpl.
  - destruct X as [|[m b] X]; [done|]. simpl in *. destruct ((48 <=? m) && (m <=? 57)) eqn:E; [lia|done].
  - rewrite IH. destruct ((48 <=? m) && (m <=? 57)); [|done]. by destruct (take_digits s).
Qed.

(** What a token reader returns does not depend on what follows the token. *)
Definition extends (p : runes → option (string * runes)) : Prop := ∀ s X t r,
  stops X → p s = Some (t, r) → p (s ++ X)%list = Some (t, (r ++ X)%list).

Lemma digits1_extends : extends digits1.
Proof.
  intros s X t r HX. unfold digits1. rewrite take_digits_app by done. destruct (take_digits s) as [ds rest]. simpl.
  destruct (String.eqb ds ""); [done|]. by intros [= <- <-].
Qed.

Lemma number_int_extends : extends number_int.
Proof.
  intros s X t r HX. unfold number_int. rewrite starts_app by done. destruct (starts 48 s); [by intros [= <- <-]|].
  by apply digits1_extends.
Qed.

Lemma prepend_extends a p : extends p → extends (λ s, prepend a (p s)).
Proof.
  intros Hp s X t r HX. unfold prepend. destruct (p s) as [[b rest]|] eqn:E; [|done]. intros [= <- <-].
  by rewrite (Hp s X b rest).
Qed.

Lemma number_frac_extends : extends number_frac.
Proof.
  intros s X t r HX. unfold number_frac. rewrite starts_app by done. destruct (starts 46 s); [|by intros [= <- <-]].
  by apply (prepend_extends "." _ digits1_extends).
Qed.

Lemma number_exp_extends : extends number_exp.
Proof.
  intros s X t r HX. destruct s as [|[e b] s]; cbn [app].
  - intros [= <- <-]. destruct X as [|[m b] X]; [done|]. simpl in *. destruct ((m =? 101) || (m =? 69)) eqn:E; [lia|done].
  - unfold number_exp. destruct ((e =? 101) || (e =? 69)); [|by intros [= <- <-]].
    destruct s as [|[sign b'] s]; [done|]. cbn [app].
    destruct ((sign =? 43) || (sign =? 45)).
    + by apply (prepend_extends (str1 (byte_of e)) _ (prepend_extends (str1 (byte_of sign)) _ digits1_extends)).
    + by apply (prepend_extends (str1 (byte_of e)) _ digits1_extends ((sign, b') :: s)).
Qed.

Lemma parse_num_extends : extends parse_num.
Proof.
  intros s X t r HX. unfold parse_num. rewrite starts_app by done.
  destruct (starts 45 s) as [s0|]; [set (s1 := s0)|set (s1 := s)];
    (destruct (number_int s1) as [[i s2]|] eqn:Ei; [|done]; cbn [mbind option_bind];
     destruct (number_frac s2) as [[f s3]|] eqn:Ef; [|done]; cbn [mbind option_bind];
     destruct (number_exp s3) as [[e s4]|] eqn:Ee; [|done]; cbn [mbind option_bind]; intros [= <- <-];
     subst s1; rewrite (number_int_extends _ _ _ _ HX Ei); cbn [mbind option_bind];
     rewrite (number_frac_extends _ _ _ _ HX Ef); cbn [mbind option_bind];
     by rewrite (number_exp_extends _ _ _ _ HX Ee)).
Qed.

(** The text of a number. *)
Definition num_text (t : string) : bool :=
  str_all (λ c, byte_val c <? 128) t &&
  match decode_runes t with (n, _) :: _ => starts_num n | [] => false end &&
  match parse_num (decode_runes t) with Some (t', []) => String.eqb t t' | _ => false end.

Lemma num_text_parse t s :
  num_text t = true → stops (decode_runes s) →
  ∃ n b rest, decode_runes (t ++ s) = (n, b) :: rest ∧ starts_num n = true ∧
    parse_num (decode_runes (t ++ s)) = Some (t, decode_runes s).
Proof.
  unfold num_text. intros [[Ha%closed_ascii Hn]%andb_prop Hp]%andb_prop Hs. rewrite Ha.
  destruct (parse_num (decode_runes t)) as [[t' [|]]|] eqn:E; [|done..]. apply String.eqb_eq in Hp as <-.
  rewrite (parse_num_extends _ _ _ _ Hs E). destruct (decode_runes t) as [|[n b] rest]; [done|]. by exists n, b, (rest ++ decode_runes s)%list.
Qed.

(** *** Integers *)

Lemma take_digits_all ds : str_all is_digit_byte ds = true → take_digits (decode_runes ds) = (ds, []).
Proof.
  induction ds as [|c ds IH]; [done|]. simpl. intros [Hc Hds]%andb_prop. unfold is_digit_byte in Hc.
  rewrite decode_ascii by lia. simpl. rewrite Hc, IH by done. by rewrite byte_of_val.
Qed.

Lemma digits_ascii ds : str_all is_digit_byte ds = true → str_all (λ c, byte_val c <? 128) ds = true.
Proof. induction ds as [|c ds IH]; [done|]. simpl. unfold is_digit_byte at 1. intros [Hc Hds]%andb_prop. rewrite IH by done. lia. Qed.

(** The first digit of a positive number is not zero. *)
Lemma itoa_digits_first fuel n acc :
  0 < n < 10 ^ Z.of_nat fuel → ∃ c ds, itoa_digits fuel n acc = String c ds ∧ byte_val c ≠ 48.
Proof.
  revert n acc. induction fuel as [|fuel IH]; intros n acc Hn; [simpl in Hn; lia|]. simpl.
  rewrite Nat2Z.inj_succ, Z.pow_succ_r in Hn by lia. pose proof (Z.div_mod n 10). pose proof (Z.mod_pos_bound n 10).
  destruct (Z.eqb_spec (n / 10) 0) as [E|E].
  - eexists _, _. split; [done|]. rewrite byte_val_of by lia. lia.
  - apply IH. split; [pose proof (Z.div_pos n 10); lia|]. apply Z.div_lt_upper_bound; lia.
Qed.

Lemma parse_digits_text c ds :
  str_all is_digit_byte (String c ds) = true → byte_val c ≠ 48 ∨ ds = "" →
  number_int (decode_runes (String c ds)) = Some (String c ds, []).
Proof.
  intros Hd Hz. unfold number_int. pose proof (take_digits_all _ Hd) as Ht.
  assert (byte_val c < 128) as Hc by (simpl in Hd; unfold is_digit_byte in Hd; lia).
  rewrite decode_ascii in Ht |- * by done. cbn [starts].
  destruct (Z.eqb_spec (byte_val c) 48) as [E|E].
  - destruct Hz as [|Hz]; [done|]. subst ds. rewrite <-(byte_of_val c), E. done.
  - unfold digits1. by rewrite Ht.
Qed.

Lemma parse_num_int s i : number_int s = Some (i, []) → starts 45 s = None → parse_num s = Some (i, []).
Proof. intros H Hs. unfold parse_num. rewrite Hs, H. cbn. by rewrite str_app_nil_r. Qed.

Lemma parse_num_neg s i : number_int s = Some (i, []) → parse_num ((byte_val "-", str1 "-") :: s) = Some ("-" ++ i, []).
Proof. intros H. unfold parse_num. cbn [starts]. change (byte_val "-" =? 45) with true. cbn iota. rewrite H. cbn. by rewrite str_app_nil_r. Qed.

Lemma num_text_Itoa z : in_i64 z → num_text (Itoa z) = true.
Proof.
  intros Hz. unfold in_i64 in Hz.
  assert (∀ n, 0 < n < 10 ^ 20 → ∃ c ds, itoa_digits 20 n "" = String c ds ∧ byte_val c ≠ 48 ∧
    str_all is_digit_byte (String c ds) = true) as Hpos.
  { intros n Hn. destruct (itoa_digits_first 20 n "") as (c & ds & E & Hc); [lia|]. exists c, ds. split_and!; [done..|].
    destruct (itoa_digits_spec 20 n "") as (ds' & E' & Hd & _); [lia|lia|]. rewrite str_app_nil_r in E'. by rewrite <-E, E'. }
  destruct (decide (z = 0)) as [->|Hne]; [reflexivity|].
  unfold num_text, Itoa. destruct (Z.ltb_spec z 0).
  - destruct (Hpos (- z)) as (c & ds & -> & Hc & Hd); [lia|]. rewrite decode_ascii by done.
    assert (str_all (λ a, byte_val a <? 128) (String "-" (String c ds)) = true) as ->.
    { change (true && str_all (λ a, byte_val a <? 128) (String c ds) = true). by rewrite (digits_ascii _ Hd). }
    rewrite (parse_num_neg _ _ (parse_digits_text c ds Hd (or_introl Hc))). by rewrite String.eqb_refl.
  - destruct (Hpos z) as (c & ds & -> & Hc & Hd); [lia|]. rewrite (digits_ascii _ Hd).
    assert (48 ≤ byte_val c ≤ 57) as Hb by (simpl in Hd; unfold is_digit_byte in Hd; lia).
    pose proof (parse_digits_text c ds Hd (or_introl Hc)) as Hp. rewrite decode_ascii in Hp |- * by lia.
    rewrite (parse_num_int _ _ Hp) by (simpl; destruct (Z.eqb_spec (byte_val c) 45); [lia|done]).
    rewrite String.eqb_refl. unfold starts_num. lia.
Qed.

(** ** Documents *)

Section jdoc_ind.
Context (P : jdoc → Prop).
Hypothesis (Hnull : P DNull) (Hbool : ∀ b, P (DBool b)) (Hint : ∀ z, P (DInt z)) (Hnum : ∀ t, P (DNum t))
  (Hstr : ∀ s, P (DStr s)) (Harr : ∀ l, Forall P l → P (DArr l))
  (Hobj : ∀ l : list (string * jdoc), Forall (λ kv, P kv.2) l → P (DObj l)).

(** Induction that reaches the members of arrays and objects. *)
Fixpoint jdoc_ind' (v : jdoc) : P v :=
  match v with
  | DNull => Hnull
  | DBool b => Hbool b
  | DInt z => Hint z
  | DNum t => Hnum t
  | DStr s => Hstr s
  | DArr l => Harr l ((fix go l := match l return Forall P l with
                                   | [] => Forall_nil_2 _
                                   | v :: l => Forall_cons_2 _ v l (jdoc_ind' v) (go l) end) l)
  | DObj l => Hobj l ((fix go l := match l return Forall (λ kv : string * jdoc, P kv.2) l with
                                   | [] => Forall_nil_2 _
                                   | kv :: l => Forall_cons_2 _ kv l (jdoc_ind' kv.2) (go l) end) l)
  end.
End jdoc_ind.

(** A document that json.Marshal prints as JSON: integers of 64 bits, and numbers whose text
    is one. *)
Fixpoint jdoc_ok (v : jdoc) : Prop :=
  match v with
  | DInt z => in_i64 z
  | DNum t => num_text t = true
  | DArr l => fold_right (λ v P, jdoc_ok v ∧ P) True l
  | DObj l => fold_right (λ kv P, jdoc_ok kv.2 ∧ P) True l
  | _ => True
  end.

(** The document that is read back: numbers by their text, strings as valid UTF-8. *)
Fixpoint jdoc_read (v : jdoc) : jdoc :=
  match v with
  | DInt z => DNum (Itoa z)
  | DStr s => DStr (to_valid s)
  | DArr l => DArr (map jdoc_read l)
  | DObj l => DObj (map (λ kv, (to_valid kv.1, jdoc_read kv.2)) l)
  | v => v
  end.

(** The first rune of a value. *)
Lemma first_rune v t :
  jdoc_ok v → stops (decode_runes t) → ∃ n b s, decode_runes (json_Marshal v ++ t) = (n, b) :: s ∧
    is_ws n = false ∧ n ≠ 93 ∧ n ≠ 125.
Proof.
  intros Hv Ht.
  assert (∀ c a, byte_val c < 128 → is_ws (byte_val c) = false → byte_val c ≠ 93 → byte_val c ≠ 125 →
    ∃ n b s, decode_runes (String c a ++ t) = (n, b) :: s ∧ is_ws n = false ∧ n ≠ 93 ∧ n ≠ 125) as Hc.
  { intros c a H1 H2 H3 H4. cbn [String.append]. rewrite decode_ascii by done. eauto 10. }
  assert (∀ x, num_text x = true → ∃ n b s, decode_runes (x ++ t) = (n, b) :: s ∧ is_ws n = false ∧ n ≠ 93 ∧ n ≠ 125) as Hn.
  { intros x Hx. destruct (num_text_parse x t Hx Ht) as (n & b & s & E & Hs & _). exists n, b, s.
    unfold starts_num in Hs. unfold is_ws. split; [done|]. lia. }
  destruct v as [|[]|z|x|s|l|l]; cbn [json_Marshal]; try (apply Hc; done).
  - by apply Hn, num_text_Itoa.
  - by apply Hn.
Qed.

Lemma json_not_empty v : jdoc_ok v → String.eqb (json_Marshal v) "" = false.
Proof.
  intros Hv. apply String.eqb_neq. intros E. destruct (first_rune v "" Hv I) as (n & b & s & E' & _). by rewrite E in E'.
Qed.

Lemma skip_ws_first s n b rest : s = (n, b) :: rest → is_ws n = false → skip_ws s = s.
Proof. intros -> H. simpl. by rewrite H. Qed.

(** Reading the text of [v], with any fuel that the input allows. *)
Definition reads (v : jdoc) : Prop := ∀ t fuel,
  jdoc_ok v → stops (decode_runes t) → (2 * length (decode_runes (json_Marshal v ++ t)) < fuel)%nat →
  parse_value fuel (decode_runes (json_Marshal v ++ t)) = Some (jdoc_read v, decode_runes t).

Lemma reads_num x fuel t :
  num_text x = true → stops (decode_runes t) → (0 < fuel)%nat →
  parse_value fuel (decode_runes (x ++ t)) = Some (DNum x, decode_runes t).
Proof.
  intros Hx Ht Hf. destruct (num_text_parse x t Hx Ht) as (n & b & s & E & Hs & Hp). destruct fuel as [|fuel]; [lia|].
  rewrite E in Hp |- *. cbn [parse_value].
  rewrite (skip_ws_first _ n b s eq_refl) by (unfold starts_num in Hs; unfold is_ws; lia).
  cbn iota beta. pose proof Hs as Hs'. unfold starts_num in Hs'.
  repeat (match goal with |- context [n =? ?m] => destruct (Z.eqb_spec n m); [lia|] end). rewrite Hs.
  match goal with |- context [parse_num ?q] => change (parse_num q) with (parse_num ((n, b) :: s)) end. by rewrite Hp.
Qed.

Lemma append_comma (x : string) l t :
  l ≠ [] → Join (x :: l) "," ++ t = x ++ String "," (Join l "," ++ t).
Proof. destruct l as [|y l]; [done|]. intros _. cbn [Join]. by rewrite !str_app_assoc. Qed.

Lemma stops_sep c t : byte_val c = 44 ∨ byte_val c = 93 ∨ byte_val c = 125 → stops (decode_runes (String c t)).
Proof. intros H. rewrite decode_ascii by lia. simpl. lia. Qed.

Lemma skip_sep c t :
  byte_val c = 44 ∨ byte_val c = 93 ∨ byte_val c = 125 →
  skip_ws (decode_runes (String c t)) = (byte_val c, str1 c) :: decode_runes t.
Proof. intros H. rewrite decode_ascii by lia. simpl. unfold is_ws. destruct (_ || _) eqn:E; [lia|done]. Qed.

Lemma length_decode_cons c t : byte_val c < 128 → length (decode_runes (String c t)) = S (length (decode_runes t)).
Proof. intros H. by rewrite decode_ascii. Qed.

(** *** The text of a document is closed *)

Lemma closed_rune_escape r : rune_bad r ∨ rune_ok r → 0 ≤ r.1 → closed (rune_escape r).
Proof.
  destruct r as [n b]. simpl fst. intros Hr H0. unfold rune_escape.
  assert (∀ u, 0 ≤ u < 65536 → closed (u_escape u)) as Hu.
  { intros u Hu. apply closed_ascii. unfold u_escape. cbn [str_all str1].
    rewrite !(proj2 (Z.ltb_lt _ _)); [done|..|done|done]; apply hex_digit_char; first
      [apply Z.mod_pos_bound; lia|split; [apply Z.div_pos; lia|apply Z.div_lt_upper_bound; lia]]. }
  destruct (Z.ltb_spec n 128).
  { unfold ascii_escape. assert (∀ c, byte_val c < 128 → closed (String chr_backslash (str1 c))) as Hb.
    { intros c Hc. apply closed_ascii. cbn [str_all str1]. rewrite (proj2 (Z.ltb_lt _ _) Hc). done. }
    assert (byte_val (byte_of n) < 128) by (rewrite byte_val_of; lia).
    repeat case_match; first [by apply Hb|apply Hu; lia|idtac]. apply closed_ascii. cbn [str_all str1].
    by rewrite (proj2 (Z.ltb_lt _ _)). }
  destruct (_ && _) eqn:E; [by apply Hu|]. destruct (_ || _) eqn:E'; [apply Hu; lia|].
  destruct Hr as [[H1 H2]|Hok].
  { simpl in H1, H2. subst. rewrite H2 in E. done. }
  intros t. pose proof (Hok "") as H2. pose proof (Hok t) as H3. simpl in H2, H3. rewrite str_app_nil_r in H2. by rewrite H2, H3.
Qed.

Lemma closed_json_string s : closed (json_string s).
Proof.
  unfold json_string. apply (closed_app (str1 chr_quote)); [by apply closed_ascii|].
  apply closed_app; [|by apply closed_ascii].
  pose proof (decode_runes_ok s) as Hok. pose proof (decode_runes_encoded s) as He.
  induction (decode_runes s) as [|r rs IH]; [apply closed_nil|].
  apply Forall_cons in Hok as [Hr Hok]. apply Forall_cons in He as [[H0 _] He]. cbn [map]. rewrite concat_cons.
  apply closed_app; [by apply closed_rune_escape|by apply IH].
Qed.

Lemma closed_Join l : Forall closed l → closed (Join l ",").
Proof.
  induction 1 as [|x l Hx Hl IH]; [apply closed_nil|]. destruct l as [|y l]; [done|].
  change (Join (x :: y :: l) ",") with (x ++ "," ++ Join (y :: l) ","). apply closed_app; [done|].
  apply closed_app; [by apply closed_ascii|done].
Qed.

Lemma jdoc_ok_arr l : jdoc_ok (DArr l) ↔ Forall jdoc_ok l.
Proof. simpl. induction l as [|v l IH]; simpl; [done|]. rewrite Forall_cons. by rewrite IH. Qed.

Lemma jdoc_ok_obj l : jdoc_ok (DObj l) ↔ Forall (λ kv, jdoc_ok kv.2) l.
Proof. simpl. induction l as [|v l IH]; simpl; [done|]. rewrite Forall_cons. by rewrite IH. Qed.

Lemma num_text_closed x : num_text x = true → closed x.
Proof. unfold num_text. intros [[H _]%andb_prop _]%andb_prop. by apply closed_ascii. Qed.

Definition member_text (kv : string * jdoc) : string := json_string kv.1 ++ ":" ++ json_Marshal kv.2.

Lemma closed_json v : jdoc_ok v → closed (json_Marshal v).
Proof.
  induction v as [|[]|z|x|s|l IH|l IH] using jdoc_ind'; intros Hv; try (by apply closed_ascii).
  - by apply num_text_closed, num_text_Itoa.
  - by apply num_text_closed.
  - apply closed_json_string.
  - apply jdoc_ok_arr in Hv. cbn [json_Marshal]. apply closed_app; [by apply closed_ascii|]. apply closed_app; [|by apply closed_ascii].
    apply closed_Join, Forall_map. eapply Forall_impl; [apply Forall_and; split; [exact IH|exact Hv]|]. intros v [H1 H2]. auto.
  - apply jdoc_ok_obj in Hv. cbn [json_Marshal]. apply closed_app; [by apply closed_ascii|]. apply closed_app; [|by apply closed_ascii].
    apply closed_Join, Forall_map. eapply Forall_impl; [apply Forall_and; split; [exact IH|exact Hv]|]. intros [k v] [H1 H2].
    apply closed_app; [apply closed_json_string|]. apply closed_app; [by apply closed_ascii|]. auto.
Qed.

Lemma json_nonempty v t : jdoc_ok v → stops (decode_runes t) →
  (length (decode_runes t) < length (decode_runes (json_Marshal v ++ t)))%nat.
Proof.
  intros Hv Ht. destruct (first_rune v "" Hv I) as (n & b & s & E & _). rewrite str_app_nil_r in E.
  rewrite (closed_json v Hv t), length_app, E. simpl. lia.
Qed.

(** *** Reading arrays and objects *)

Lemma parse_elems_ok l t fuel :
  l ≠ [] → Forall (λ v, jdoc_ok v ∧ reads v) l →
  (2 * length (decode_runes (Join (map json_Marshal l) "," ++ String "]" t)) + 1 < fuel)%nat →
  parse_elems fuel (decode_runes (Join (map json_Marshal l) "," ++ String "]" t)) = Some (map jdoc_read l, decode_runes t).
Proof.
  revert fuel. induction l as [|v l IH]; intros fuel Hne Hl Hf; [done|]. apply Forall_cons in Hl as [[Hv Hr] Hl].
  destruct fuel as [|fuel]; [lia|]. cbn [map parse_elems] in *. destruct l as [|v' l].
  - cbn [Join map] in *. rewrite (Hr _ fuel) by (done || (apply stops_sep; auto) || lia). cbn [mbind option_bind].
    rewrite skip_sep by auto. done.
  - set (rest := v' :: l) in *. rewrite append_comma in Hf |- * by done.
    assert (stops (decode_runes (String "," (Join (map json_Marshal rest) "," ++ String "]" t)))) as Hs by (apply stops_sep; auto).
    pose proof (json_nonempty v _ Hv Hs) as Hlen. rewrite (length_decode_cons ",") in Hlen by done.
    rewrite (Hr _ fuel) by (done || lia). cbn [mbind option_bind]. rewrite skip_sep by auto. cbn [starts Z.eqb].
    change (byte_val "," =? 44) with true. cbn iota. rewrite IH by (done || lia). done.
Qed.

Lemma skip_quote k t : skip_ws (decode_runes (json_string k ++ t)) = decode_runes (json_string k ++ t).
Proof. unfold json_string. cbn [String.append]. by rewrite decode_ascii. Qed.

Lemma skip_colon t : starts 58 (skip_ws (decode_runes (String ":" t))) = Some (decode_runes t).
Proof. by rewrite decode_ascii. Qed.

Lemma length_after_string k t : (length (decode_runes t) < length (decode_runes (json_string k ++ t)))%nat.
Proof. rewrite (closed_json_string k t), length_app. unfold json_string. rewrite length_decode_cons by done. lia. Qed.

Lemma parse_key_ok k t : parse_key (decode_runes (json_string k ++ ":" ++ t)) = Some (to_valid k, decode_runes t).
Proof.
  unfold parse_key. rewrite skip_quote, starts_quote. cbn [mbind option_bind]. rewrite parse_json_string.
  cbn [mbind option_bind String.append]. by rewrite skip_colon.
Qed.

Lemma parse_members_ok l t fuel :
  l ≠ [] → Forall (λ kv : string * jdoc, jdoc_ok kv.2 ∧ reads kv.2) l →
  (2 * length (decode_runes (Join (map member_text l) "," ++ String "}" t)) + 1 < fuel)%nat →
  parse_members fuel (decode_runes (Join (map member_text l) "," ++ String "}" t)) =
    Some (map (λ kv, (to_valid kv.1, jdoc_read kv.2)) l, decode_runes t).
Proof.
  revert fuel. induction l as [|[k v] l IH]; intros fuel Hne Hl Hf; [done|]. apply Forall_cons in Hl as [[Hv Hr] Hl].
  destruct fuel as [|fuel]; [lia|]. cbn [map parse_members fst snd] in *. destruct l as [|kv l].
  - cbn [Join map] in *. unfold member_text in *. cbn [fst snd] in *. rewrite !str_app_assoc in Hf |- *.
    pose proof (length_after_string k (":" ++ json_Marshal v ++ String "}" t)) as Hk.
    cbn [String.append] in Hk, Hf. rewrite (length_decode_cons ":") in Hk by done.
    rewrite parse_key_ok. cbn [mbind option_bind].
    rewrite (Hr _ fuel) by (done || (apply stops_sep; auto) || lia). cbn [mbind option_bind]. by rewrite skip_sep by auto.
  - set (rest := kv :: l) in *. rewrite append_comma in Hf |- * by done. unfold member_text at 1 in Hf.
    unfold member_text at 1. cbn [fst snd] in *. rewrite !str_app_assoc in Hf |- *.
    set (more := String "," (Join (map member_text rest) "," ++ String "}" t)) in *.
    assert (stops (decode_runes more)) as Hs by (apply stops_sep; auto).
    pose proof (length_after_string k (":" ++ json_Marshal v ++ more)) as Hk.
    cbn [String.append] in Hk, Hf. rewrite (length_decode_cons ":") in Hk by done.
    pose proof (json_nonempty v _ Hv Hs) as Hlen. unfold more in Hlen at 1. rewrite (length_decode_cons ",") in Hlen by done.
    rewrite parse_key_ok. cbn [mbind option_bind]. rewrite (Hr _ fuel) by (done || lia). cbn [mbind option_bind].
    unfold more. rewrite skip_sep by auto. cbn [starts].
    change (byte_val "," =? 44) with true. cbn iota. rewrite IH by (done || lia). done.
Qed.

(** The text after an opening bracket begins with the first element or the first key. *)
Lemma elems_open v l t :
  jdoc_ok v → starts 93 (skip_ws (decode_runes (Join (map json_Marshal (v :: l)) "," ++ String "]" t))) = None.
Proof.
  intros Hv. assert (∃ t', Join (map json_Marshal (v :: l)) "," ++ String "]" t = json_Marshal v ++ t' ∧
    stops (decode_runes t')) as (t' & -> & Hs).
  { destruct l as [|v' l]; [exists (String "]" t); split; [done|apply stops_sep; auto]|].
    exists (String "," (Join (map json_Marshal (v' :: l)) "," ++ String "]" t)).
    split; [by apply (append_comma (json_Marshal v) (map json_Marshal (v' :: l)))|apply stops_sep; auto]. }
  destruct (first_rune v t' Hv Hs) as (n & b & s & E & Hw & H93 & _). rewrite E. simpl. rewrite Hw. simpl.
  by destruct (Z.eqb_spec n 93).
Qed.

Lemma members_open kv l t :
  starts 125 (skip_ws (decode_runes (Join (map member_text (kv :: l)) "," ++ String "}" t))) = None.
Proof.
  assert (∃ t', Join (map member_text (kv :: l)) "," ++ String "}" t = json_string kv.1 ++ t') as (t' & ->).
  { destruct l as [|kv' l]; [eexists; cbn [Join map]; unfold member_text; by rewrite !str_app_assoc|].
    eexists. rewrite (append_comma (member_text kv) (map member_text (kv' :: l))) by done. unfold member_text at 1.
    by rewrite !str_app_assoc. }
  rewrite skip_quote. unfold json_string. cbn [String.append]. by rewrite decode_ascii.
Qed.

Lemma parse_value_arr fuel t :
  parse_value (S fuel) (decode_runes (String "[" t)) =
  match starts 93 (skip_ws (decode_runes t)) with
  | Some rest => Some (DArr [], rest)
  | None => '(l, rest) ← parse_elems fuel (decode_runes t); Some (DArr l, rest)
  end.
Proof. by rewrite decode_ascii. Qed.

Lemma parse_value_obj fuel t :
  parse_value (S fuel) (decode_runes (String "{" t)) =
  match starts 125 (skip_ws (decode_runes t)) with
  | Some rest => Some (DObj [], rest)
  | None => '(l, rest) ← parse_members fuel (decode_runes t); Some (DObj l, rest)
  end.
Proof. by rewrite decode_ascii. Qed.

Lemma parse_value_str fuel s t :
  parse_value (S fuel) (decode_runes (json_string s ++ t)) = Some (DStr (to_valid s), decode_runes t).
Proof.
  cbn [parse_value]. rewrite skip_quote. pose proof (starts_quote s t) as Hq.
  destruct (decode_runes (json_string s ++ t)) as [|[n b] rest]; [done|]. simpl in Hq.
  destruct (Z.eqb_spec n 34); [|done]. injection Hq as ->. by rewrite parse_json_string.
Qed.

Lemma all_read v : reads v.
Proof.
  induction v as [|[]|z|x|s|l IH|l IH] using jdoc_ind'; intros t fuel Hv Ht Hf;
    try (apply reads_num; [by try apply num_text_Itoa|done|lia]);
    (destruct fuel as [|fuel]; [lia|]).
  1-3: cbn [json_Marshal String.append parse_value]; rewrite !decode_ascii by done; reflexivity.
  - apply parse_value_str.
  - apply jdoc_ok_arr in Hv. cbn [json_Marshal] in *.
    change (("[" ++ ?a ++ "]") ++ t) with (String "[" ((a ++ "]") ++ t)) in *. rewrite str_app_assoc in *.
    rewrite length_decode_cons in Hf by done. rewrite parse_value_arr.
    destruct l as [|v l]; [cbn [map Join String.append]; rewrite decode_ascii by done; reflexivity|]. cbn [String.append].
    rewrite elems_open by (by apply Forall_cons in Hv as [? _]).
    rewrite parse_elems_ok; [done|done| |cbn [String.append] in Hf; lia].
    apply Forall_and. by split.
  - apply jdoc_ok_obj in Hv. cbn [json_Marshal] in *.
    change (("{" ++ ?a ++ "}") ++ t) with (String "{" ((a ++ "}") ++ t)) in *. rewrite str_app_assoc in *.
    rewrite length_decode_cons in Hf by done. rewrite parse_value_obj.
    destruct l as [|kv l]; [cbn [map Join String.append]; rewrite decode_ascii by done; reflexivity|]. cbn [String.append].
    change (map _ (kv :: l)) with (map member_text (kv :: l)) in *.
    rewrite members_open, parse_members_ok; [done|done| |cbn [String.append] in Hf; lia].
    apply Forall_and. by split.
Qed.

(** json.Marshal and the decoder are a round trip: whatever document is printed (any
    nesting; any bytes in its strings and keys, control characters, HTML characters, line
    separators and invalid UTF-8 included; any 64-bit integer; any number text), and
    whatever separator or text after it follows, the decoder reads exactly that document
    back, stops where it ends, and has no other reading; strings of valid UTF-8 come back
    byte for byte. *)
Lemma json_roundtrip v t :
  jdoc_ok v → stops (decode_runes t) →
  json_first (json_Marshal v ++ t) = Some (jdoc_read v, decode_runes t) ∧
  (skip_ws (decode_runes t) = [] → json_parse (json_Marshal v ++ t) = Some (jdoc_read v)) ∧
  (∀ s, valid_utf8 s → jdoc_read (DStr s) = DStr s).
Proof.
  intros Hv Ht. split_and!.
  - apply all_read; [done|done|lia].
  - intros Hw. unfold json_parse, json_first. rewrite all_read by (done || lia). cbn [mbind option_bind]. by rewrite Hw.
  - intros s Hs. simpl. by rewrite to_valid_id.
Qed.

(** The round trip at a document with escapes and invalid UTF-8. *)
Example json_roundtrip_sample :
  let v := DObj [("a<b", DArr [DInt (-3); DNull; DBool true; DStr (String "255" "x")]); ("", DObj [])] in
  json_first (json_Marshal v ++ ",") = Some (jdoc_read v, [(44, ",")]).
Proof.
  apply (json_roundtrip (DObj [("a<b", DArr [DInt (-3); DNull; DBool true; DStr (String "255" "x")]); ("", DObj [])]) ",");
    [|by left]. simpl. unfold in_i64. split_and!; try done; lia.
Qed.
