(* ===== verification/JsonDecode.v ===== *)
(** * encoding/json: decoding into Go values

    The rules by which encoding/json stores a document in a Go variable: null leaves a plain
    value alone and resets pointers, slices and maps; a member goes to the field with its
    name, or failing that to the field whose name folds to the same letters; a member that
    occurs twice is stored twice, into what the first left; a value of the wrong type is
    remembered as the error and decoding goes on; an error of a type's own UnmarshalJSON ends
    it.  The texts of errors and the value of a number are parameters.  (A slice that is
    decoded a third time in one object may see elements of the first in its spare capacity:
    not modelled.) *)
From S2P Require Import Prelude GoStd Regexp Domain Http GoJson JsonParse.
From Stdlib Require Import Ascii SpecFloat.

#[local] Open Scope string_scope.
#[local] Open Scope Z_scope.

(** ** Outcomes *)

(** The text of the error for a target type and an input. *)
Class JSONErrorText := json_error : string → string → string.
(** strconv.ParseFloat on 64 bits; [None] is its error. *)
Class ParseFloat64 := parse_float : string → option spec_float.

Inductive outcome :=
  | DecOk
  | DecType      (* an UnmarshalTypeError: decoding has gone on *)
  | DecStop.     (* decoding has ended *)

Definition outcome_and (a b : outcome) : outcome :=
  match a, b with
  | DecStop, _ => DecStop
  | DecType, DecOk => DecType
  | _, b => b
  end.

(** Storing a document in a variable that holds a value. *)
Definition decoder (A : Type) : Type := jdoc → A → A * outcome.

(** ** Scalars *)

Definition dec_string : decoder string := λ v s,
  match v with
  | DStr t => (t, DecOk)
  | DNull => (s, DecOk)
  | _ => (s, DecType)
  end.

Definition dec_bool : decoder bool := λ v b,
  match v with
  | DBool b => (b, DecOk)
  | DNull => (b, DecOk)
  | _ => (b, DecType)
  end.

(** int and int64: no fraction, no exponent, 64 bits. *)
Definition dec_int : decoder Z := λ v z,
  match v with
  | DNum t => match Atoi t with Some n => (n, DecOk) | None => (z, DecType) end
  | DNull => (z, DecOk)
  | _ => (z, DecType)
  end.

(** ** Composites *)

Definition dec_ptr {A} (zero : A) (d : decoder A) : decoder (option A) := λ v p,
  match v with
  | DNull => (None, DecOk)
  | _ => let '(a, o) := d v (default zero p) in (Some a, o)
  end.

(** The elements from the first on; [cur] are the elements the slice has. *)
Fixpoint dec_elems {A} (zero : A) (d : decoder A) (l : list jdoc) (cur : list A) : list A * outcome :=
  match l with
  | [] => ([], DecOk)
  | v :: l =>
      let '(a, o) := d v (default zero (head cur)) in
      match o with
      | DecStop => (a :: tail cur, DecStop)
      | _ => let '(rest, o') := dec_elems zero d l (tail cur) in (a :: rest, outcome_and o o')
      end
  end.

Definition dec_slice {A} (zero : A) (d : decoder A) : decoder (slice A) := λ v cur,
  match v with
  | DNull => (None, DecOk)
  | DArr l => let '(l, o) := dec_elems zero d l (elems cur) in (Some l, o)
  | _ => (cur, DecType)
  end.

Fixpoint dec_entries {A} (zero : A) (d : decoder A) (l : list (string * jdoc)) (m : gmap string A) : gmap string A * outcome :=
  match l with
  | [] => (m, DecOk)
  | (k, v) :: l =>
      let '(a, o) := d v zero in
      match o with
      | DecStop => (m, DecStop)
      | _ => let '(m, o') := dec_entries zero d l (<[k := a]> m) in (m, outcome_and o o')
      end
  end.

(** A map: a nil map is [None]. *)
Definition dec_map {A} (zero : A) (d : decoder A) : decoder (option (gmap string A)) := λ v m,
  match v with
  | DNull => (None, DecOk)
  | DObj l => let '(m, o) := dec_entries zero d l (default ∅ m) in (Some m, o)
  | _ => (m, DecType)
  end.

(** *** Structs *)

(** foldName: ASCII letters in upper case; of the other letters only two fold to ASCII. *)
Definition fold_rune (n : Z) : Z :=
  if (97 <=? n) && (n <=? 122) then n - 32
  else if n =? 383 then 83
  else if n =? 8490 then 75
  else n.
Definition fold_name (s : string) : list Z := map (λ r : rune, fold_rune r.1) (decode_runes s).

(** The field of a member: the names are ASCII. *)
Definition find_field {F} (fields : list (string * F)) (k : string) : option F :=
  match List.find (λ f, String.eqb (fst f) k) fields with
  | Some f => Some (snd f)
  | None =>
      match List.find (λ f, bool_decide (fold_name (fst f) = fold_name k)) fields with
      | Some f => Some (snd f)
      | None => None
      end
  end.

(** A field of a struct [A], which takes values of type [X]. *)
Definition setter (X A : Type) : Type := X → A → A * outcome.

Definition field {X A B} (get : A → B) (put : B → A → A) (d : X → B → B * outcome) : setter X A :=
  λ x a, let '(b, o) := d x (get a) in (put b a, o).

Fixpoint dec_members {X A} (fields : list (string * setter X A)) (l : list (string * X)) (a : A) : A * outcome :=
  match l with
  | [] => (a, DecOk)
  | (k, x) :: l =>
      match find_field fields k with
      | None => dec_members fields l a
      | Some set =>
          let '(a, o) := set x a in
          match o with
          | DecStop => (a, DecStop)
          | _ => let '(a, o') := dec_members fields l a in (a, outcome_and o o')
          end
      end
  end.

Definition dec_struct {A} (fields : list (string * setter jdoc A)) : decoder A := λ v a,
  match v with
  | DNull => (a, DecOk)
  | DObj l => dec_members fields l a
  | _ => (a, DecType)
  end.

(** *** Members with their text

    A json.RawMessage and a type with its own UnmarshalJSON take the text of the member. *)

Fixpoint raw_members (fuel : nat) (s : runes) : list (string * (string * jdoc)) :=
  match fuel with
  | O => []
  | S fuel =>
      match parse_key s with
      | None => []
      | Some (k, rest) =>
          let start := skip_ws rest in
          match parse_value fuel start with
          | None => []
          | Some (v, rest) =>
              (k, (rune_bytes (take (length start - length rest) start), v)) ::
                match starts 44 (skip_ws rest) with Some more => raw_members fuel more | None => [] end
          end
      end
  end.

(** The members of the object that a text begins with. *)
Definition raw_object (text : string) : list (string * (string * jdoc)) :=
  let s := decode_runes text in
  match skip_ws s with
  | [] => []
  | _ :: rest =>
      match starts 125 (skip_ws rest) with
      | Some _ => []
      | None => raw_members (2 * length s + 1) rest
      end
  end.

Definition dec_raw_struct {A} (fields : list (string * setter (string * jdoc) A)) (text : string) : decoder A := λ v a,
  match v with
  | DNull => (a, DecOk)
  | DObj _ => dec_members fields (raw_object text) a
  | _ => (a, DecType)
  end.

(** A plain field, and a json.RawMessage. *)
Definition plain {B} (d : decoder B) : (string * jdoc) → B → B * outcome := λ x, d (snd x).
Definition dec_raw : (string * jdoc) → string → string * outcome := λ x _, (fst x, DecOk).

Section values.
Context `{JE : JSONErrorText} `{PF : ParseFloat64}.

Definition dec_float : decoder spec_float := λ v f,
  match v with
  | DNum t => match parse_float t with Some f => (f, DecOk) | None => (f, DecType) end
  | DNull => (f, DecOk)
  | _ => (f, DecType)
  end.

(** *** any *)

(** [m[k] = v] for a map kept as the list of its entries. *)
Fixpoint entry_set {A} (k : string) (a : A) (l : list (string * A)) : list (string * A) :=
  match l with
  | [] => [(k, a)]
  | (k', b) :: l => if String.eqb k k' then (k, a) :: l else (k', b) :: entry_set k a l
  end.

Definition entries_of {A} (l : list (string * A)) : list (string * A) :=
  foldl (λ m kv, entry_set (fst kv) (snd kv) m) [] l.

Fixpoint any_value (v : jdoc) : json :=
  match v with
  | DNull => JNull
  | DBool b => JBool b
  | DInt z => default JNull (JNum <$> parse_float (Itoa z))
  | DNum t => default JNull (JNum <$> parse_float t)
  | DStr s => JStr s
  | DArr l => JArr (map any_value l)
  | DObj l => JObj (entries_of (map (λ kv, (fst kv, any_value (snd kv))) l))
  end.

(** Is every number in range? *)
Fixpoint any_ok (v : jdoc) : bool :=
  match v with
  | DInt z => bool_decide (is_Some (parse_float (Itoa z)))
  | DNum t => bool_decide (is_Some (parse_float t))
  | DArr l => forallb any_ok l
  | DObj l => forallb (λ kv, any_ok (snd kv)) l
  | _ => true
  end.

Definition dec_any : decoder json := λ v _, (any_value v, if any_ok v then DecOk else DecType).

(** ** Entry points *)

Definition outcome_error (target text : string) (o : outcome) : option string :=
  match o with DecOk => None | _ => Some (json_error target text) end.

(** [json.NewDecoder(r).Decode(&v)]; the decoder is also given the text. *)
Definition json_decoder {A} (target : string) (zero : A) (d : string → decoder A) : JSONDecode A := λ text,
  match json_first text with
  | None => (zero, Some (json_error target text))
  | Some (v, _) => let '(a, o) := d text v zero in (a, outcome_error target text o)
  end.

(** [json.Unmarshal(data, &v)]: the value, or the error. *)
Definition json_unmarshal {A} (target : string) (zero : A) (d : string → decoder A) : JSONUnmarshal A := λ text,
  match json_parse text with
  | None => inr (json_error target text)
  | Some v => let '(a, o) := d text v zero in
              match outcome_error target text o with None => inl a | Some e => inr e end
  end.
End values.

(** ** Facts *)

Lemma rune_bytes_closed a t : closed a →
  rune_bytes (take (length (decode_runes (a ++ t)) - length (decode_runes t)) (decode_runes (a ++ t))) = a.
Proof.
  intros Ha. rewrite (Ha t), length_app. replace (_ + _ - _)%nat with (length (decode_runes a)) by lia.
  rewrite take_app_length. apply decode_runes_bytes.
Qed.

Definition read_member (kv : string * jdoc) : string * (string * jdoc) :=
  (to_valid kv.1, (json_Marshal kv.2, jdoc_read kv.2)).

Lemma raw_members_ok l t fuel :
  l ≠ [] → Forall (λ kv : string * jdoc, jdoc_ok kv.2) l →
  (2 * length (decode_runes (Join (map member_text l) "," ++ String "}" t)) + 1 < fuel)%nat →
  raw_members fuel (decode_runes (Join (map member_text l) "," ++ String "}" t)) = map read_member l.
Proof.
  revert fuel. induction l as [|[k v] l IH]; intros fuel Hne Hl Hf; [done|]. apply Forall_cons in Hl as [Hv Hl].
  destruct fuel as [|fuel]; [lia|]. cbn [map raw_members fst snd] in *.
  assert (∃ more, Join (map member_text ((k, v) :: l)) "," ++ String "}" t = json_string k ++ ":" ++ json_Marshal v ++ more ∧
    stops (decode_runes more) ∧
    match starts 44 (skip_ws (decode_runes more)) with Some m => raw_members fuel m | None => [] end = map read_member l)
    as (more & E & Hs & Hm).
  { unfold member_text at 1. destruct l as [|kv l].
    - exists (String "}" t). cbn [Join map fst snd]. rewrite !str_app_assoc. split; [done|]. split; [apply stops_sep; auto|].
      by rewrite skip_sep by auto.
    - set (rest := kv :: l) in *. exists (String "," (Join (map member_text rest) "," ++ String "}" t)).
      cbn [map fst snd]. rewrite append_comma by done. rewrite !str_app_assoc. split; [done|]. split; [apply stops_sep; auto|].
      rewrite skip_sep by auto. cbn [starts]. change (byte_val "," =? 44) with true. cbn iota. apply IH; [done..|].
      cbn [map] in Hf. rewrite append_comma in Hf by done.
      pose proof (length_after_string k (":" ++ json_Marshal v ++ String "," (Join (map member_text rest) "," ++ String "}" t))) as Hk.
      unfold member_text at 1 in Hf. cbn [fst snd] in Hf. rewrite !str_app_assoc in Hf. cbn [String.append] in Hk, Hf.
      rewrite (length_decode_cons ":") in Hk by done.
      assert (stops (decode_runes (String "," (Join (map member_text rest) "," ++ String "}" t)))) as Hs by (apply stops_sep; auto).
      pose proof (json_nonempty v _ Hv Hs) as Hlen. rewrite (length_decode_cons ",") in Hlen by done. lia. }
  cbn [map fst snd] in E. rewrite E in Hf |- *. rewrite parse_key_ok.
  destruct (first_rune v more Hv Hs) as (n & b & s & E1 & Hw & _).
  assert (skip_ws (decode_runes (json_Marshal v ++ more)) = decode_runes (json_Marshal v ++ more)) as Ew
    by (rewrite E1; by eapply skip_ws_first).
  pose proof (length_after_string k (":" ++ json_Marshal v ++ more)) as Hk.
  cbn [String.append] in Hk, Hf. rewrite (length_decode_cons ":") in Hk by done.
  cbv zeta. rewrite Ew. rewrite all_read by (done || lia). rewrite rune_bytes_closed by (by apply closed_json).
  by rewrite Hm.
Qed.

Lemma raw_object_ok l : jdoc_ok (DObj l) → raw_object (json_Marshal (DObj l)) = map read_member l.
Proof.
  intros Hl%jdoc_ok_obj. unfold raw_object. cbn [json_Marshal].
  change (Join (map _ l)) with (Join (map member_text l)). cbn [String.append]. rewrite decode_ascii by done. cbn [skip_ws].
  change (is_ws (byte_val "{")) with false. cbn iota. destruct l as [|kv l].
  - cbn [map Join String.append]. by rewrite decode_ascii.
  - rewrite members_open. apply raw_members_ok; [done..|simpl; lia].
Qed.

(** Decoding what was printed. *)
Section printed.
Context `{JE : JSONErrorText}.

Lemma json_decoder_printed {A} target (zero : A) d v :
  jdoc_ok v →
  json_decoder target zero d (json_Marshal v) =
    let '(a, o) := d (json_Marshal v) (jdoc_read v) zero in (a, outcome_error target (json_Marshal v) o).
Proof.
  intros Hv. unfold json_decoder. rewrite <-(str_app_nil_r (json_Marshal v)) at 1.
  by destruct (json_roundtrip v "" Hv I) as (-> & _).
Qed.

(** White space may follow. *)
Lemma json_unmarshal_printed {A} target (zero a : A) d v t :
  jdoc_ok v → skip_ws (decode_runes t) = [] → d (json_Marshal v ++ t) (jdoc_read v) zero = (a, DecOk) →
  json_unmarshal target zero d (json_Marshal v ++ t) = inl a.
Proof.
  intros Hv Ht Hd. unfold json_unmarshal. assert (stops (decode_runes t)) as Hs.
  { destruct (decode_runes t) as [|[n b] s]; [done|]. simpl in *. destruct (is_ws n) eqn:E; [|done]. unfold is_ws in E. lia. }
  destruct (json_roundtrip v t Hv Hs) as (_ & -> & _); [|done]. by rewrite Hd.
Qed.

(** An object, with the text of its members. *)
Lemma json_unmarshal_raw {A} target (zero a : A) fields l :
  jdoc_ok (DObj l) → dec_members fields (map read_member l) zero = (a, DecOk) →
  json_unmarshal target zero (dec_raw_struct fields) (json_Marshal (DObj l)) = inl a.
Proof.
  intros Hl Hd. rewrite <-(str_app_nil_r (json_Marshal _)). apply json_unmarshal_printed; [done|done|].
  rewrite str_app_nil_r. unfold dec_raw_struct. cbn [jdoc_read]. by rewrite raw_object_ok.
Qed.
End printed.

Lemma to_valid_ascii s : str_all (λ c, byte_val c <? 128) s = true → to_valid s = s.
Proof.
  intros Hs. unfold to_valid. induction s as [|c s IH]; [done|]. cbn [str_all] in Hs. apply andb_prop in Hs as [Hc Hs].
  rewrite decode_ascii by lia. cbn [map]. rewrite concat_cons, IH by done. unfold stored.
  destruct (Z.eqb_spec (byte_val c) RuneError) as [E|_]; [unfold RuneError in E; lia|done].
Qed.

(** The names of members are ASCII literals. *)
Ltac literals := repeat match goal with
  | |- context [to_valid (String ?c ?s)] =>
      let t := eval vm_compute in (to_valid (String c s)) in change (to_valid (String c s)) with t
  end.

(** ** Members one by one *)

Section members.
Context {X A : Type} (fields : list (string * setter X A)).
Implicit Types (l : list (string * X)) (a b : A).

Lemma dec_member_known k x l a b s :
  find_field fields k = Some s → s x a = (b, DecOk) → dec_members fields ((k, x) :: l) a = dec_members fields l b.
Proof. intros Hf Hs. cbn [dec_members]. rewrite Hf, Hs. by destruct (dec_members fields l b) as [c []]. Qed.

Lemma dec_member_unknown k x l a : find_field fields k = None → dec_members fields ((k, x) :: l) a = dec_members fields l a.
Proof. intros Hf. cbn [dec_members]. by rewrite Hf. Qed.
End members.

(** Compute the fields of the value stored so far. *)
Ltac tidy_members :=
  try match goal with
  | |- context [dec_members ?fs ?l ?a] => let b := eval cbn in a in progress change (dec_members fs l a) with (dec_members fs l b)
  end.

(** Store the members of a literal object one after the other. *)
Ltac store_member :=
  first
    [ erewrite dec_member_known by (first [reflexivity | vm_compute; reflexivity])
    | rewrite dec_member_unknown by (vm_compute; reflexivity) ];
  tidy_members.

(** The setter of a field, applied. *)
Ltac open_field := unfold field, plain; cbn [fst snd].

Lemma dec_ptr_ok {A} (zero : A) (d : decoder A) v a :
  v ≠ DNull → d v zero = (a, DecOk) → dec_ptr zero d v None = (Some a, DecOk).
Proof. intros Hv Hd. unfold dec_ptr. cbn [default from_option]. rewrite Hd. by destruct v. Qed.

Lemma dec_elems_ok {A B} (zero : A) (d : decoder A) (f : B → jdoc) (g : B → A) l :
  (∀ x, x ∈ l → d (f x) zero = (g x, DecOk)) → dec_elems zero d (map f l) [] = (map g l, DecOk).
Proof.
  induction l as [|x l IH]; intros Hd; [done|]. cbn [map dec_elems head default tail]. rewrite Hd by left.
  rewrite IH; [done|]. intros y Hy. apply Hd. by right.
Qed.

Lemma dec_entries_ok {A B} (zero : A) (d : decoder A) (key : B → string) (f : B → jdoc) (g : B → A) l m :
  (∀ x, x ∈ l → d (f x) zero = (g x, DecOk)) →
  dec_entries zero d (map (λ x, (key x, f x)) l) m = (foldl (λ m x, <[key x := g x]> m) m l, DecOk).
Proof.
  revert m. induction l as [|x l IH]; intros m Hd; [done|]. cbn [map dec_entries foldl]. rewrite Hd by left.
  rewrite IH; [done|]. intros y Hy. apply Hd. by right.
Qed.

Lemma foldl_insert_map {A} (m : gmap string A) l :
  l ≡ₚ map_to_list m → foldl (λ m kv, <[fst kv := snd kv]> m) ∅ l = m.
Proof.
  intros Hl. assert (NoDup l.*1) as Hn by (rewrite Hl; apply NoDup_fst_map_to_list).
  assert (∀ m0, (∀ k, k ∈ l.*1 → m0 !! k = None) → foldl (λ m kv, <[fst kv := snd kv]> m) m0 l = (list_to_map l : gmap string A) ∪ m0) as E.
  { clear Hl. induction l as [|[k v] l IH]; intros m0 Hm; [by rewrite list_to_map_nil, (left_id_L ∅ (∪))|].
    apply NoDup_cons in Hn as [Hk Hn]. cbn [foldl fst snd]. rewrite IH; [|done|].
    - rewrite list_to_map_cons. rewrite <-insert_union_r; [by rewrite insert_union_l|]. by apply not_elem_of_list_to_map_1.
    - intros k' Hk'. rewrite lookup_insert_ne; [|by intros ->]. apply Hm. by right. }
  rewrite E by (intros; apply lookup_empty). rewrite (right_id_L ∅ (∪)).
  rewrite (list_to_map_proper _ _ Hn Hl). apply list_to_map_to_list.
Qed.

(** ** Valid UTF-8 *)

Lemma valid_closed s : valid_utf8 s → closed s.
Proof.
  intros Hv. rewrite <-(decode_runes_bytes s). pose proof (decode_runes_ok s) as Hok. unfold valid_utf8 in Hv.
  induction (decode_runes s) as [|[n b] rs IH]; [apply closed_nil|].
  apply Forall_cons in Hv as [Hn Hv]. apply Forall_cons in Hok as [Hr Hok]. cbn [rune_bytes].
  apply closed_app; [|by apply IH]. destruct Hr as [Hr|Hr]; [done|].
  unfold rune_ok in Hr. cbn [snd] in Hr. intros t. rewrite (Hr t). pose proof (Hr "") as E.
  rewrite str_app_nil_r in E. by rewrite E.
Qed.

Lemma valid_app a b : valid_utf8 a → valid_utf8 b → valid_utf8 (a ++ b).
Proof. intros Ha Hb. unfold valid_utf8. rewrite (valid_closed a Ha b). by apply Forall_app. Qed.

Lemma valid_ascii s : str_all (λ c, byte_val c <? 128) s = true → valid_utf8 s.
Proof.
  induction s as [|c s IH]; [by constructor|]. cbn [str_all]. intros [Hc Hs]%andb_prop. unfold valid_utf8.
  rewrite decode_ascii by lia. constructor; [|by apply IH]. intros [E _]. simpl in E. unfold RuneError in E. lia.
Qed.

(** ** Objects decoded into a map[string]any *)

Section maps.
Context `{JE : JSONErrorText} `{PF : ParseFloat64}.

(** A map[string]any as a value: the nil map is null. *)
Definition map_value (m : option (gmap string json)) : json :=
  match m with
  | None => JNull
  | Some m => JObj (sort_keys (map_to_list m))
  end.

(** json.Unmarshal into a map[string]any. *)
Definition unmarshal_map : JSONUnmarshal (option (gmap string json)) :=
  json_unmarshal "map[string]interface {}" None (λ _, dec_map JNull dec_any).

Definition object_value (l : list (string * jdoc)) : gmap string json :=
  foldl (λ m kv, <[to_valid (fst kv) := any_value (jdoc_read (snd kv))]> m) ∅ l.

Lemma unmarshal_map_object l :
  Forall (λ kv : string * jdoc, jdoc_ok kv.2 ∧ any_ok (jdoc_read kv.2) = true) l →
  unmarshal_map (json_Marshal (DObj l)) = inl (Some (object_value l)).
Proof.
  intros Hl. unfold unmarshal_map. rewrite <-(str_app_nil_r (json_Marshal _)). apply json_unmarshal_printed; [|done|].
  - apply jdoc_ok_obj. eapply Forall_impl; [exact Hl|]. by intros ? [].
  - cbn [jdoc_read]. unfold dec_map. cbn [default from_option].
    rewrite (dec_entries_ok _ _ (λ kv, to_valid kv.1) (λ kv, jdoc_read kv.2) (λ kv, any_value (jdoc_read kv.2))); [done|].
    intros kv Hin. rewrite Forall_forall in Hl. destruct (Hl kv Hin) as [_ Ho]. unfold dec_any. by rewrite Ho.
Qed.

Lemma unmarshal_map_null : unmarshal_map (json_Marshal DNull) = inl None.
Proof.
  unfold unmarshal_map. rewrite <-(str_app_nil_r (json_Marshal _)). by apply json_unmarshal_printed.
Qed.

Lemma unmarshal_map_other v :
  jdoc_ok v → v ≠ DNull → (∀ l, v ≠ DObj l) → ∃ e, unmarshal_map (json_Marshal v) = inr e.
Proof.
  intros Hv Hn Ho. unfold unmarshal_map, json_unmarshal. rewrite <-(str_app_nil_r (json_Marshal v)).
  destruct (json_roundtrip v "" Hv I) as (_ & -> & _); [|done].
  destruct v as [|b|z|t|s|l|l]; try done; try (by eexists). by destruct (Ho l).
Qed.
End maps.
