(* ===== verification/GoTab.v ===== *)
(** * Package text/tabwriter, as the worker's commands use it

    NewWriter(os.Stdout, 0, 0, 2, ' ', 0): cells end with a tab, lines with a line feed, and a
    column is a run of lines that have the cell.  Vertical tabs, form feeds and the escape
    byte 0xff, which package tabwriter gives a meaning of their own, are left out: the
    texts of the program have none. *)
From S2P Require Import Prelude GoStd Regexp GoJson JsonParse.
From Stdlib Require Import Ascii.

#[local] Open Scope string_scope.
#[local] Open Scope Z_scope.

Definition chr_space : ascii := " ".

(** utf8.RuneCountInString *)
Definition rune_count (s : string) : nat := length (decode_runes s).

Fixpoint repeat_byte (c : ascii) (n : nat) : string :=
  match n with O => "" | S n => String c (repeat_byte c n) end.

Definition padding : nat := 2.

Definition cells (line : string) : list string := Split line chr_tab.

(** The cell number [c] of the line ends with a tab. *)
Definition has_column (c : nat) (line : list string) : bool := (c <? length line - 1)%nat.

(** The widest cell of column [c] in the run of lines that starts here. *)
Fixpoint run_width (c : nat) (lines : list (list string)) : nat :=
  match lines with
  | [] => 0
  | line :: lines => if has_column c line then Nat.max (rune_count (nth c line "")) (run_width c lines) else 0
  end.

(** The width of column [c] in [line]; [before] are the lines above it, the nearest first. *)
Definition column_width (c : nat) (before : list (list string)) (line : list string) (after : list (list string)) : nat :=
  (Nat.max (run_width c (line :: after)) (run_width c before) + padding)%nat.

Fixpoint format_cells (width : nat → nat) (c : nat) (line : list string) : string :=
  match line with
  | [] => ""
  | [cell] => cell
  | cell :: rest => cell ++ repeat_byte chr_space (width c - rune_count cell) ++ format_cells width (S c) rest
  end.

Fixpoint format_lines (before lines : list (list string)) : list string :=
  match lines with
  | [] => []
  | line :: after => format_cells (λ c, column_width c before line after) 0 line :: format_lines (line :: before) after
  end.

(** What Flush has written of [text]. *)
Definition tab_format (text : string) : string :=
  Join (format_lines [] (map cells (Split text chr_lf))) (str1 chr_lf).

(** ** Tables *)

(** A row as fmt.Fprintf writes it: cells with tabs between, and a line feed. *)
Definition row_text (row : list string) : string := Join row (str1 chr_tab) ++ str1 chr_lf.
Definition table_text (rows : list (list string)) : string := String.concat "" (map row_text rows).

Fixpoint free_of (c : ascii) (s : string) : bool :=
  match s with EmptyString => true | String d s => negb (Ascii.eqb d c) && free_of c s end.
Definition clean_cell (s : string) : bool := free_of chr_tab s && free_of chr_lf s.

(** The widest cell of column [c] of the whole table. *)
Definition widest (c : nat) (rows : list (list string)) : nat :=
  foldr (λ row, Nat.max (rune_count (nth c row ""))) 0%nat rows.

(** What the table is to look like. *)
Definition aligned (rows : list (list string)) : string :=
  String.concat "" (map (λ row, format_cells (λ c, widest c rows + padding)%nat 0 row ++ str1 chr_lf) rows).

(** *** Lemmas *)

Lemma Split_free s c : free_of c s = true → Split s c = [s].
Proof.
  induction s as [|d s IH]; [done|]. cbn [free_of Split]. intros [Hd Hs]%andb_prop. rewrite negb_true_iff in Hd.
  rewrite Hd, IH by done. done.
Qed.

Lemma Split_next s c t : free_of c s = true → Split (s ++ String c t) c = s :: Split t c.
Proof.
  induction s as [|d s IH]; cbn [free_of String.append Split].
  - intros _. by rewrite Ascii.eqb_refl.
  - intros [Hd Hs]%andb_prop. rewrite negb_true_iff in Hd. rewrite Hd, IH by done. done.
Qed.

Lemma Split_row row c : row ≠ [] → Forall (λ s, free_of c s = true) row → Split (Join row (str1 c)) c = row.
Proof.
  intros Hne. induction row as [|s row IH]; [done|]. intros [Hs Hr]%Forall_cons. destruct row as [|s2 row]; [by apply Split_free|].
  change (Join (s :: s2 :: row) (str1 c)) with (s ++ String c (Join (s2 :: row) (str1 c))). rewrite Split_next by done. by rewrite IH.
Qed.

Lemma free_of_app c s t : free_of c (s ++ t) = free_of c s && free_of c t.
Proof. induction s as [|d s IH]; [done|]. cbn [free_of String.append]. by rewrite IH, andb_assoc. Qed.

Lemma free_of_Join c d row : c ≠ d → Forall (λ s, free_of c s = true) row → free_of c (Join row (str1 d)) = true.
Proof.
  intros Hcd. induction row as [|s row IH]; [done|]. intros [Hs Hr]%Forall_cons. destruct row as [|s2 row]; [done|].
  change (Join (s :: s2 :: row) (str1 d)) with (s ++ String d (Join (s2 :: row) (str1 d))).
  rewrite free_of_app, Hs. cbn [free_of]. rewrite IH by done. destruct (Ascii.eqb_spec d c) as [->|]; [done|done].
Qed.

Lemma table_lines rows :
  Forall (λ row, row ≠ [] ∧ Forall (λ s, clean_cell s = true) row) rows →
  map cells (Split (table_text rows) chr_lf) = (rows ++ [[""]])%list.
Proof.
  induction 1 as [|row rows [Hne Hc] _ IH]; [done|].
  assert (Forall (λ s, free_of chr_tab s = true) row ∧ Forall (λ s, free_of chr_lf s = true) row) as [Ht Hl].
  { split; (eapply Forall_impl; [exact Hc|]); intros s [? ?]%andb_prop; done. }
  assert (table_text (row :: rows) = Join row (str1 chr_tab) ++ String chr_lf (table_text rows)) as ->.
  { unfold table_text. cbn [map]. rewrite concat_cons. unfold row_text at 1. by rewrite str_app_assoc. }
  rewrite Split_next by (by apply free_of_Join). cbn [map app]. rewrite IH. f_equal. unfold cells. by apply Split_row.
Qed.

Lemma run_width_table c k rows last :
  (c < k)%nat → Forall (λ row, length row = S k) rows → (length last <= 1)%nat → run_width c (rows ++ [last])%list = widest c rows.
Proof.
  intros Hc Hr Hl. induction Hr as [|row rows Hrow _ IH]; cbn [app run_width widest foldr].
  - unfold has_column. destruct (Nat.ltb_spec c (length last - 1)); [lia|done].
  - unfold has_column at 1. rewrite Hrow. destruct (Nat.ltb_spec c (S k - 1)); [|lia]. by rewrite IH.
Qed.

Lemma run_width_rev c k rows :
  (c < k)%nat → Forall (λ row, length row = S k) rows → run_width c rows = widest c rows.
Proof.
  intros Hc. induction 1 as [|row rows Hrow _ IH]; [done|]. cbn [run_width widest foldr]. unfold has_column. rewrite Hrow.
  destruct (Nat.ltb_spec c (S k - 1)); [|lia]. by rewrite IH.
Qed.

Lemma widest_app c l1 l2 : widest c (l1 ++ l2) = Nat.max (widest c l1) (widest c l2).
Proof. unfold widest. induction l1 as [|row l1 IH]; [done|]. cbn [app foldr]. rewrite IH. lia. Qed.

Lemma widest_rev c l : widest c (rev l) = widest c l.
Proof.
  induction l as [|row l IH]; [done|]. cbn [rev]. rewrite widest_app, IH. unfold widest. simpl. lia.
Qed.

Lemma format_cells_ext f g c line k :
  length line = S k → (∀ j, (j < c + k)%nat → f j = g j) → format_cells f c line = format_cells g c line.
Proof.
  revert c k. induction line as [|cell line IH]; intros c k; [done|]. intros [= Hl] H. destruct line as [|cell2 line]; [done|].
  destruct k as [|k]; [done|]. change (format_cells f c (cell :: cell2 :: line)) with
    (cell ++ repeat_byte chr_space (f c - rune_count cell) ++ format_cells f (S c) (cell2 :: line)).
  rewrite (IH (S c) k Hl) by (intros; apply H; lia). rewrite (H c) by lia. done.
Qed.

Lemma format_lines_table k before rows last :
  Forall (λ row, length row = S k) before → Forall (λ row, length row = S k) rows → (length last <= 1)%nat →
  format_lines before (rows ++ [last]) =
    (map (format_cells (λ c, widest c (rev before ++ rows) + padding) 0) rows ++ [default "" (head last)])%list%nat.
Proof.
  intros Hb Hr Hl. revert before Hb. induction Hr as [|row rows Hrow Hr IH]; intros before Hb.
  - cbn [app format_lines map]. destruct last as [|x [|y l]]; simpl in Hl; [done|done|lia].
  - cbn [app format_lines map]. f_equal.
    + apply (format_cells_ext _ _ _ _ k Hrow). intros c Hc. unfold column_width.
      rewrite app_comm_cons, (run_width_table c k) by (done || by constructor). rewrite (run_width_rev c k) by done.
      rewrite widest_app, widest_rev. f_equal. apply Nat.max_comm.
    + rewrite IH by (by constructor). f_equal. apply map_ext_in. intros row' Hin.
      rewrite Forall_forall in Hr. apply (format_cells_ext _ _ _ _ k); [apply Hr; by apply list_elem_of_In|].
      intros c _. cbn [rev]. by rewrite <-app_assoc.
Qed.

Lemma Join_lf l s : Join (l ++ [s]) (str1 chr_lf) = String.concat "" (map (λ x, x ++ str1 chr_lf) l) ++ s.
Proof.
  induction l as [|x l IH]; [by destruct s|]. cbn [app]. assert (∃ y l', (l ++ [s])%list = y :: l') as (y & l' & E).
  { destruct l as [|y l]; [by exists s, []|]. by eexists _, _. }
  rewrite E. change (Join (x :: y :: l') (str1 chr_lf)) with (x ++ String chr_lf (Join (y :: l') (str1 chr_lf))). rewrite <-E, IH.
  cbn [map]. rewrite concat_cons, !str_app_assoc. done.
Qed.

(** Rows of as many clean cells each come out in columns that are as wide as the widest of
    their cells and two more. *)
Lemma tab_table k rows :
  Forall (λ row, length row = S k ∧ Forall (λ s, clean_cell s = true) row) rows → tab_format (table_text rows) = aligned rows.
Proof.
  intros H. unfold tab_format, aligned. rewrite table_lines.
  - rewrite (format_lines_table k); [|constructor|by eapply Forall_impl; [exact H|intros ? []]|simpl; lia].
    rewrite Join_lf, str_app_nil_r, map_map. done.
  - eapply Forall_impl; [exact H|]. intros row [Hl Hc]. split; [by destruct row|done].
Qed.
