(* ===== verification/Projector.v ===== *)
(** * internal/dashboard/projector.go: from Redis Streams to the hub

    PublishEvent adds a message to the stream of an org unit; a Projector reads the stream
    as the only consumer of a group and hands every message to the hub.  Redis is a
    parameter: [st_todo] is what the group has not been given yet, [None] before it exists.
    The process that runs the projector may die at any point and be started again, and an
    answer of Redis may be lost on the way. *)
From S2P Require Import Prelude GoStd Domain Hub GoJson JsonParse JsonDecode RedisStore.

#[local] Open Scope string_scope.
#[local] Open Scope Z_scope.

Definition streamKeyPrefix : string := "dashboard:events:".
Definition consumerGroup : string := "sse-projector".

(** redis.XMessage *)
Record XMessage := MkXMessage {
  msg_ID : string;
  msg_Values : gmap string string;
}.

(** redis.XAddArgs *)
Record XAddArgs := MkXAddArgs {
  XA_Stream : string;
  XA_MaxLen : Z;
  XA_Approx : bool;
  XA_Values : gmap string string;
}.

(** ** Messages *)

Section messages.
Context `{UT : UUIDText} `{JE : JSONErrorText} `{PF : ParseFloat64}.

Definition stream_key (orgID : uuid) : string := streamKeyPrefix ++ uuid_String orgID.

(** The event that is broadcast to the org unit. *)
Definition processMessage (msg : XMessage) : Event :=
  let eventType := default "" (msg_Values msg !! "type") in
  let dataStr := default "" (msg_Values msg !! "data") in
  let data :=
    if negb (String.eqb dataStr "") then
      match unmarshal_map dataStr with
      | inl m => map_value m
      | inr _ => JStr dataStr
      end
    else JNull in
  MkEvent (msg_ID msg) eventType data.

(** What PublishEvent adds to the stream; [data] is the value, or why it cannot be encoded. *)
Definition PublishEvent (orgID : uuid) (eventType : string) (data : jdoc + string) : XAddArgs + string :=
  match data with
  | inr e => inr e
  | inl v => inl (MkXAddArgs (stream_key orgID) 1000 true (<["type" := eventType]> {["data" := json_Marshal v]}))
  end.

End messages.

(** ** The stream *)

Class Streams (S : Type) := {
  st_XGroupCreateMkStream : string → string → string → S → S;
  st_XReadGroup : string → string → string → Z → S → list XMessage * S;    (* ">", at most so many *)
  st_XAck : string → string → string → S → S;
  st_XAdd : XAddArgs → string → S → S;                                     (* with the id that Redis gives *)
  st_todo : string → string → S → option (list XMessage);
}.

(** The documented behaviour of the commands on one stream and group. *)
Class StreamsLaws (S : Type) `{Streams S} := {
  todo_create key g s :      (* "$": nothing of what is there already *)
    st_todo key g (st_XGroupCreateMkStream key g "$" s) = Some (default [] (st_todo key g s));
  todo_read key g c n s l :
    st_todo key g s = Some l →
    ∃ k, (k <= Z.to_nat n)%nat ∧ (st_XReadGroup key g c n s).1 = take k l ∧
      st_todo key g (st_XReadGroup key g c n s).2 = Some (drop k l);
  todo_read_none key g c n s :
    st_todo key g s = None → (st_XReadGroup key g c n s).1 = [] ∧ st_todo key g (st_XReadGroup key g c n s).2 = None;
  todo_ack key g id s : st_todo key g (st_XAck key g id s) = st_todo key g s;
  todo_add g args id s :     (* trimming forgets the oldest *)
    ∃ k, st_todo (XA_Stream args) g (st_XAdd args id s) =
      (λ l, drop k (l ++ [MkXMessage id (XA_Values args)])%list) <$> st_todo (XA_Stream args) g s;
  todo_add_ne key g args id s : key ≠ XA_Stream args → st_todo key g (st_XAdd args id s) = st_todo key g s;
}.

(** ** Run, step by step *)

(** Where the projector is; [None] is a process that does not run. *)
Inductive proj_pc :=
  | PStart                                   (* before the group is created *)
  | PTop                                     (* at the head of the loop *)
  | PHandle (msgs : list XMessage)           (* messages of the answer left to process *)
  | PAck (m : XMessage) (rest : list XMessage)
  | PReturned.                               (* the context has ended *)

Section run.
Context {S : Type} `{ST : Streams S} `{UT : UUIDText} `{JE : JSONErrorText} `{PF : ParseFloat64}.
Variable orgID : uuid.

Record proj_state := MkProj {
  pj_redis : S;
  pj_proc : option proj_pc;
  pj_log : list Event;                       (* handed to Hub.Broadcast, oldest first *)
  pj_published : list XMessage;              (* ever added to the stream *)
}.

Definition consumerName : string := "projector-" ++ uuid_String orgID.
Definition proj_read (s : S) : list XMessage * S := st_XReadGroup (stream_key orgID) consumerGroup consumerName 10 s.

Inductive proj_step : proj_state → proj_state → Prop :=
  | pj_publish s pc log pub ty data args id :
      PublishEvent orgID ty data = inl args →
      proj_step (MkProj s pc log pub) (MkProj (st_XAdd args id s) pc log (pub ++ [MkXMessage id (XA_Values args)]))
  | pj_start s log pub :
      proj_step (MkProj s None log pub) (MkProj s (Some PStart) log pub)
  | pj_create s log pub :
      proj_step (MkProj s (Some PStart) log pub)
        (MkProj (st_XGroupCreateMkStream (stream_key orgID) consumerGroup "$" s) (Some PTop) log pub)
  | pj_create_failed s log pub :               (* its error is dropped *)
      proj_step (MkProj s (Some PStart) log pub) (MkProj s (Some PTop) log pub)
  | pj_done s log pub :
      proj_step (MkProj s (Some PTop) log pub) (MkProj s (Some PReturned) log pub)
  | pj_read s log pub :
      proj_step (MkProj s (Some PTop) log pub) (MkProj (proj_read s).2 (Some (PHandle (proj_read s).1)) log pub)
  | pj_read_failed s log pub :                 (* before Redis has seen the command *)
      proj_step (MkProj s (Some PTop) log pub) (MkProj s (Some PTop) log pub)
  | pj_read_lost s log pub :                   (* Redis has answered, the answer is lost *)
      proj_step (MkProj s (Some PTop) log pub) (MkProj (proj_read s).2 (Some PTop) log pub)
  | pj_handle s m rest log pub :
      proj_step (MkProj s (Some (PHandle (m :: rest))) log pub)
        (MkProj s (Some (PAck m rest)) (log ++ [processMessage m]) pub)
  | pj_ack s m rest log pub :
      proj_step (MkProj s (Some (PAck m rest)) log pub)
        (MkProj (st_XAck (stream_key orgID) consumerGroup (msg_ID m) s) (Some (PHandle rest)) log pub)
  | pj_ack_failed s m rest log pub :
      proj_step (MkProj s (Some (PAck m rest)) log pub) (MkProj s (Some (PHandle rest)) log pub)
  | pj_next s log pub :
      proj_step (MkProj s (Some (PHandle [])) log pub) (MkProj s (Some PTop) log pub)
  | pj_crash s pc log pub :
      proj_step (MkProj s (Some pc) log pub) (MkProj s None log pub).

Definition proj_steps : proj_state → proj_state → Prop := rtc proj_step.

(** ** Facts *)

(** The messages in the hands of the process. *)
Definition held (pc : option proj_pc) : list XMessage :=
  match pc with Some (PHandle msgs) => msgs | Some (PAck _ rest) => rest | _ => [] end.

Definition todo (s : S) : list XMessage := default [] (st_todo (stream_key orgID) consumerGroup s).

Context `{SL : !StreamsLaws S}.

Lemma todo_proj_read s : ∃ k, (k <= 10)%nat ∧ (proj_read s).1 = take k (todo s) ∧ todo (proj_read s).2 = drop k (todo s).
Proof.
  unfold proj_read, todo. destruct (st_todo (stream_key orgID) consumerGroup s) as [l|] eqn:E.
  - destruct (todo_read _ _ consumerName 10 _ _ E) as (k & Hk & -> & ->). by exists k.
  - destruct (todo_read_none _ _ consumerName 10 _ E) as [-> ->]. exists 0%nat. split; [lia|done].
Qed.

Lemma todo_publish args id s : XA_Stream args = stream_key orgID →
  todo (st_XAdd args id s) `sublist_of` (todo s ++ [MkXMessage id (XA_Values args)])%list.
Proof.
  intros Ha. unfold todo. rewrite <-Ha. destruct (todo_add consumerGroup args id s) as [k ->].
  destruct (st_todo _ _ s) as [l|]; [apply sublist_drop|apply sublist_nil_l].
Qed.

(** A step loses messages, and hands others on in order; it duplicates none. *)
Lemma proj_step_flow s s' :
  proj_step s s' → ∃ out new, pj_log s' = (pj_log s ++ map processMessage out)%list ∧
    pj_published s' = (pj_published s ++ new)%list ∧
    (out ++ held (pj_proc s') ++ todo (pj_redis s'))%list `sublist_of` (held (pj_proc s) ++ todo (pj_redis s) ++ new)%list.
Proof.
  intros H. inversion H; subst; cbn [pj_log pj_published pj_proc pj_redis held].
  - eexists [], [_]. rewrite app_nil_r. split; [done|]. split; [reflexivity|]. rewrite app_nil_l. apply sublist_app; [reflexivity|]. apply todo_publish.
    destruct data; [|done]. by injection H0 as <-.
  - exists [], []. by rewrite !app_nil_r.
  - exists [], []. rewrite !app_nil_r. split; [done|]. split; [done|]. unfold todo. by rewrite todo_create.
  - exists [], []. by rewrite !app_nil_r.
  - exists [], []. by rewrite !app_nil_r.
  - exists [], []. rewrite !app_nil_r. split; [done|]. split; [done|]. destruct (todo_proj_read s0) as (k & _ & -> & ->). by rewrite take_drop.
  - exists [], []. by rewrite !app_nil_r.
  - exists [], []. rewrite !app_nil_r. split; [done|]. split; [done|]. destruct (todo_proj_read s0) as (k & _ & _ & ->). apply sublist_drop.
  - exists [m], []. rewrite !app_nil_r. done.
  - exists [], []. rewrite !app_nil_r. split; [done|]. split; [done|]. unfold todo. by rewrite todo_ack.
  - exists [], []. by rewrite !app_nil_r.
  - exists [], []. by rewrite !app_nil_r.
  - exists [], []. rewrite !app_nil_r. split; [done|]. split; [done|]. apply sublist_inserts_l. done.
Qed.

Lemma proj_steps_flow s s' :
  proj_steps s s' → ∃ out new, pj_log s' = (pj_log s ++ map processMessage out)%list ∧
    pj_published s' = (pj_published s ++ new)%list ∧
    (out ++ held (pj_proc s') ++ todo (pj_redis s'))%list `sublist_of` (held (pj_proc s) ++ todo (pj_redis s) ++ new)%list.
Proof.
  induction 1 as [s|s s1 s' Hs _ (out & new & Hl & Hp & Hf)]; [exists [], []; by rewrite !app_nil_r|].
  destruct (proj_step_flow s s1 Hs) as (out1 & new1 & Hl1 & Hp1 & Hf1). exists (out1 ++ out)%list, (new1 ++ new)%list.
  split; [by rewrite Hl, Hl1, map_app, app_assoc|]. split; [by rewrite Hp, Hp1, app_assoc|].
  rewrite <-app_assoc. etransitivity; [apply sublist_app; [reflexivity|exact Hf]|].
  rewrite !app_assoc. rewrite <-(app_assoc out1). rewrite <-(app_assoc (held _)). apply sublist_app; [exact Hf1|done].
Qed.

Lemma log_ids l : map Ev_ID (map processMessage l) = map msg_ID l.
Proof. rewrite map_map. by apply map_ext. Qed.

Lemma sublist_fmap {A B} (f : A → B) l1 l2 : l1 `sublist_of` l2 → map f l1 `sublist_of` map f l2.
Proof. induction 1; by constructor. Qed.

(** A stream and group that nobody has used yet. *)
Definition proj_init (s : S) : proj_state := MkProj s None [] [].

(** C33: Whatever is published, however often the projector dies and is started again, and
    whichever answers of Redis are lost, the hub is handed each message at most once and in
    the order of the stream.  The price: messages that the projector has read and not yet
    handed on when it dies are lost, because it never reads its pending messages again. *)
Theorem projector_at_most_once s0 s :
  st_todo (stream_key orgID) consumerGroup s0 = None → proj_steps (proj_init s0) s →
  (∃ l, pj_log s = map processMessage l ∧ l `sublist_of` pj_published s) ∧
  (∀ pc s2, pj_proc s = Some pc → proj_steps (MkProj (pj_redis s) None (pj_log s) (pj_published s)) s2 →
     NoDup (map msg_ID (pj_published s2)) → ∀ m, m ∈ held (Some pc) → msg_ID m ∉ map Ev_ID (pj_log s2)).
Proof.
  intros H0 Hs. destruct (proj_steps_flow _ _ Hs) as (out & new & Hl & Hp & Hf). cbn [proj_init pj_log pj_published pj_proc pj_redis held app] in *.
  unfold todo at 2 in Hf. rewrite H0 in Hf. cbn [default from_option app] in Hf. split.
  - exists out. split; [done|]. rewrite Hp. etransitivity; [|exact Hf]. apply sublist_inserts_r. reflexivity.
  - intros pc s2 Hpc H2 Hn m Hm. destruct (proj_steps_flow _ _ H2) as (out2 & new2 & Hl2 & Hp2 & Hf2).
    cbn [pj_log pj_published pj_proc pj_redis held app] in *. rewrite Hl2, Hl, Hp2, Hp, Hpc in *.
    assert ((out ++ held (Some pc) ++ out2)%list `sublist_of` (new ++ new2)%list) as Hall.
    { transitivity (out ++ held (Some pc) ++ todo (pj_redis s) ++ new2)%list.
      - do 2 (apply sublist_app; [reflexivity|]). etransitivity; [|exact Hf2]. apply sublist_inserts_r. reflexivity.
      - rewrite !app_assoc. apply sublist_app; [|reflexivity]. by rewrite <-app_assoc. }
    apply (sublist_fmap msg_ID) in Hall. assert (NoDup (map msg_ID (out ++ held (Some pc) ++ out2))) as Hd.
    { eapply sublist_NoDup; [exact Hn|exact Hall]. }
    rewrite <-map_app, log_ids, map_app. rewrite !map_app in Hd. apply NoDup_app in Hd as (_ & H1 & (_ & H3 & _)%NoDup_app).
    assert (msg_ID m ∈ map msg_ID (held (Some pc))) as Hi by (apply elem_of_bmap; eauto).
    intros [Ho|Ho]%elem_of_app; [|by apply (H3 _ Hi)]. apply (H1 _ Ho), elem_of_app. by left.
Qed.
End run.

(** ** From PublishEvent to the hub *)

Section roundtrip.
Context `{UT : UUIDText} `{JE : JSONErrorText} `{PF : ParseFloat64}.

(** What is published arrives with its type and id; its data arrives as it is meant only
    when it is a JSON object (keys and strings as valid UTF-8, the numbers in range) or
    null.  Every other value, a list, a number or a text, arrives as the text of its own
    encoding. *)
Lemma publish_arrives orgID ty v id args :
  PublishEvent orgID ty (inl v) = inl args → jdoc_ok v → any_ok (jdoc_read v) = true →
  Ev_Type (processMessage (MkXMessage id (XA_Values args))) = ty ∧
  Ev_ID (processMessage (MkXMessage id (XA_Values args))) = id ∧
  Ev_Data (processMessage (MkXMessage id (XA_Values args))) =
    match v with
    | DObj l => map_value (Some (object_value l))
    | DNull => JNull
    | _ => JStr (json_Marshal v)
    end.
Proof.
  intros [= <-] Hv Ho. unfold processMessage. cbn [msg_ID msg_Values XA_Values Ev_Type Ev_ID Ev_Data].
  rewrite lookup_insert_eq, lookup_insert_ne, lookup_singleton_eq by done. cbn [default from_option].
  split; [done|]. split; [done|]. unfold Datatypes.id. rewrite json_not_empty by done. cbn [negb].
  destruct v as [|b|z|t|s|l|l]; try (edestruct unmarshal_map_other as [e ->]; [exact Hv|done|done|reflexivity]).
  - by rewrite unmarshal_map_null.
  - rewrite unmarshal_map_object; [done|]. apply jdoc_ok_obj in Hv. rewrite Forall_forall in Hv |- *. intros kv Hin.
    split; [by apply Hv|]. cbn [jdoc_read any_ok] in Ho. rewrite forallb_forall in Ho.
    apply (Ho (to_valid kv.1, jdoc_read kv.2)). apply list_elem_of_In, elem_of_bmap. by exists kv.
Qed.
End roundtrip.
