(* ===== verification/WProg.v ===== *)
(** * Programs of the worker: calls to the outside world

    The worker's I/O is a sequence of calls (an HTTP exchange, a file operation, a child
    process, a wait), each with an answer that the program reads.  [prog] is a program over
    such calls; an [oracle] answers a call from the calls made before it, so a theorem for
    all oracles is one for all behaviours of the network, the disk and the agents.  [run]
    returns the result and the calls in order. *)
From S2P Require Import Prelude GoStd WScanner.

#[local] Open Scope string_scope.
#[local] Open Scope Z_scope.

(** ** Calls *)

Record wire_request := MkWire {
  WR_Method : string;
  WR_URL : string;
  WR_Headers : list (string * string);
  WR_Body : string;
}.

(** A response: the status, the Date header, and the body if it can be read. *)
Record wire_response := MkReply {
  WP_Status : Z;
  WP_Date : string;
  WP_Body : result string;
}.

(** A finished child process. *)
Record process_result := MkProcess {
  PR_ExitCode : Z;
  PR_Stdout : string;
  PR_Stderr : string;
}.

(** The answer of go-git to a clone. *)
Inductive clone_answer :=
  | Cloned
  | AlreadyExists              (* git.ErrRepositoryAlreadyExists *)
  | CloneFailed (msg : string).

(** service.Config of kardianos/service, and what is asked of the service manager. *)
Inductive option_value := OText (s : string) | OBool (b : bool).

Record service_config := MkServiceConfig {
  SC_Name : string;
  SC_DisplayName : string;
  SC_Description : string;
  SC_Executable : string;
  SC_Arguments : list string;
  SC_Dependencies : list string;
  SC_Option : gmap string option_value;
}.

Inductive service_verb := SvcNew | SvcInstall | SvcUninstall | SvcStart | SvcStop | SvcRun.

Inductive call : Type → Type :=
  | HttpDo (req : wire_request) : call (result wire_response)
  | Wait (d : Z) : call bool                          (* false: the context ended first *)
  | Now : call Z
  | CtxDone : call bool
  | WithTimeout (d : Z) : call unit                   (* the context of a task *)
  | MkdirAll (path : string) : call (result unit)
  | PathExists (path : string) : call bool
  | RemoveAll (path : string) : call (result unit)
  | Clone (url ref path : string) : call clone_answer  (* ref empty: every branch *)
  | Checkout (path ref : string) : call (result unit)
  | WalkDir (path : string) : call (result (list dir_file))
  | ReadFile (path : string) : call (result string)    (* open, stat and read *)
  | Getenv (key : string) : call string
  | LookPath (file : string) : call (result string)
  | WriteFile (path data : string) : call (result unit)
  | Remove (path : string) : call (result unit)
  | Output (path : string) (argv : list string) : call (result process_result)   (* in the worker's own environment *)
  | DiskFree (path : string) : call (result Z)         (* gopsutil: free bytes of the volume *)
  | CpuCounts : call (result Z)                        (* gopsutil: logical cores *)
  | TotalRAM : call (result Z)                         (* gopsutil: bytes of memory *)
  | UserHomeDir : call (result string)
  | Executable : call (result string)                  (* os.Executable *)
  | ReadDir (path : string) : call (result (list string))   (* the names, sorted *)
  | OpenAppend (path : string) : call (result unit)    (* O_CREATE|O_APPEND|O_WRONLY, mode 0600 *)
  | HostSensors : call (result unit)                   (* gopsutil: host.SensorsTemperatures *)
  | HostInfo : call (result unit)                      (* gopsutil: host.Info *)
  | Setpriority (who prio : Z) : call (result unit)    (* of a process; 0 is the caller *)
  | IoprioSet (which who ioprio : Z) : call (result unit)
  | NetListen (path : string) : call (result unit)     (* a Unix socket; closing it unlinks the path *)
  | Chmod (path : string) (mode : Z) : call (result unit)
  | CloseListener (path : string) : call unit
  | ServiceCall (verb : service_verb) (cfg : service_config) : call (result unit)
  | Interactive : call bool                            (* service.Interactive *)
  | Exec (path : string) (argv : list string) (dir : string) (env : list string) : call (result process_result).

Inductive prog (A : Type) : Type :=
  | Done (a : A)
  | Do {X : Type} (c : call X) (k : X → prog A).
Arguments Done {_} _.
Arguments Do {_ _} _ _.

Fixpoint prog_bind_ {A B} (f : A → prog B) (p : prog A) : prog B :=
  match p with
  | Done a => f a
  | Do c k => Do c (λ x, prog_bind_ f (k x))
  end.

#[export] Instance prog_ret : MRet prog := λ _ a, Done a.
#[export] Instance prog_bind : MBind prog := λ _ _ f p, prog_bind_ f p.

Definition ask {X} (c : call X) : prog X := Do c Done.

(** ** Runs *)

(** A call that has been made, with its answer. *)
Inductive event : Type :=
  | Event {X : Type} (c : call X) (x : X).

Definition oracle : Type := ∀ X, list event → call X → X.

Fixpoint run {A} (o : oracle) (h : list event) (p : prog A) : A * list event :=
  match p with
  | Done a => (a, h)
  | Do c k => let x := o _ h c in run o (h ++ [Event c x]) (k x)
  end.

Lemma run_bind {A B} o h (p : prog A) (f : A → prog B) :
  run o h (p ≫= f) = let '(a, h') := run o h p in run o h' (f a).
Proof. revert h. induction p as [a|X c k IH]; intros h; simpl; [done|]. apply IH. Qed.

(** The same, without a binding. *)
Lemma run_bind_eq {A B} o h (p : prog A) (f : A → prog B) :
  run o h (p ≫= f) = run o (run o h p).2 (f (run o h p).1).
Proof. rewrite run_bind. by destruct (run o h p). Qed.

Lemma run_ask {X} o h (c : call X) : run o h (ask c) = (o _ h c, (h ++ [Event c (o _ h c)])%list).
Proof. done. Qed.

(** The calls a program adds to the history. *)
Lemma run_history {A} o h (p : prog A) : ∃ es, (run o h p).2 = (h ++ es)%list.
Proof.
  revert h. induction p as [a|X c k IH]; intros h; simpl.
  - exists []. by rewrite app_nil_r.
  - destruct (IH (o X h c) (h ++ [Event c (o X h c)])%list) as [es ->]. eexists. by rewrite <-app_assoc.
Qed.

(** Every call a program can make satisfies [P]. *)
Fixpoint calls_in {A} (P : ∀ X, call X → Prop) (p : prog A) : Prop :=
  match p with
  | Done _ => True
  | Do c k => P _ c ∧ ∀ x, calls_in P (k x)
  end.

Definition event_in (P : ∀ X, call X → Prop) (e : event) : Prop := match e with Event c _ => P _ c end.

Lemma calls_in_run {A} P o h (p : prog A) :
  calls_in P p → Forall (event_in P) h → Forall (event_in P) (run o h p).2.
Proof.
  revert h. induction p as [a|X c k IH]; intros h; simpl; [done|]. intros [Hc Hk] Hh.
  apply IH; [done|]. apply Forall_app. split; [done|]. by repeat constructor.
Qed.

Lemma calls_in_bind {A B} P (p : prog A) (f : A → prog B) :
  calls_in P p → (∀ a, calls_in P (f a)) → calls_in P (p ≫= f).
Proof. induction p as [a|X c k IH]; simpl; [by intros _|]. intros [Hc Hk] Hf. split; [done|]. intros x. by apply IH. Qed.

Lemma calls_in_ask {X B} (P : ∀ X, call X → Prop) (c : call X) (f : X → prog B) :
  P X c → (∀ x, calls_in P (f x)) → calls_in P (ask c ≫= f).
Proof. done. Qed.

Lemma calls_in_mono {A} (P Q : ∀ X, call X → Prop) (p : prog A) :
  (∀ X c, P X c → Q X c) → calls_in P p → calls_in Q p.
Proof. intros HPQ. induction p as [a|X c k IH]; simpl; [done|]. intros [? ?]. auto. Qed.

(** The same, for the calls that the program adds. *)
Lemma calls_in_events {A} P o h (p : prog A) :
  calls_in P p → ∃ es, (run o h p).2 = (h ++ es)%list ∧ Forall (event_in P) es.
Proof.
  revert h. induction p as [a|X c k IH]; intros h; simpl.
  - intros _. exists []. by rewrite app_nil_r.
  - intros [Hc Hk]. destruct (IH (o X h c) (h ++ [Event c (o X h c)])%list) as (es & -> & Hes); [done|].
    exists (Event c (o X h c) :: es). rewrite <-app_assoc. split; [done|]. by constructor.
Qed.

(** What holds of the result and the calls made, whatever the answers are; [es] are the
    calls before. *)
Fixpoint posts {A} (Q : A → list event → Prop) (es : list event) (p : prog A) : Prop :=
  match p with
  | Done a => Q a es
  | Do c k => ∀ x, posts Q (es ++ [Event c x]) (k x)
  end.

Lemma posts_bind {A B} (Q : B → list event → Prop) es (p : prog A) (f : A → prog B) :
  posts (λ a es', posts Q es' (f a)) es p → posts Q es (p ≫= f).
Proof. revert es. induction p as [a|X c k IH]; intros es; simpl; [done|]. intros H x. apply IH, H. Qed.

Lemma posts_mono {A} (P Q : A → list event → Prop) es (p : prog A) :
  (∀ a es', P a es' → Q a es') → posts P es p → posts Q es p.
Proof. intros HPQ. revert es. induction p as [a|X c k IH]; intros es; simpl; [auto|]. intros H x. apply IH, H. Qed.

Lemma posts_run {A} (Q : A → list event → Prop) o es (p : prog A) :
  posts Q es p → Q (run o es p).1 (run o es p).2.
Proof. revert es. induction p as [a|X c k IH]; intros es; simpl; [done|]. intros H. apply IH, H. Qed.

(** The same, with the calls after [es] only. *)
Definition adds {A} (Q : A → list event → Prop) (p : prog A) : Prop :=
  ∀ es, posts (λ a es', ∃ new, es' = (es ++ new)%list ∧ Q a new) es p.

Lemma adds_ret {A} (Q : A → list event → Prop) a : Q a [] → adds Q (mret a).
Proof. intros H es. exists []. by rewrite app_nil_r. Qed.

Lemma adds_ask {X B} (Q : B → list event → Prop) (c : call X) (f : X → prog B) :
  (∀ x, adds (λ b new, Q b (Event c x :: new)) (f x)) → adds Q (ask c ≫= f).
Proof.
  intros H es x. simpl. eapply posts_mono; [|apply (H x)]. intros b es' (new & -> & HQ).
  exists (Event c x :: new). by rewrite <-app_assoc.
Qed.

Lemma adds_bind {A B} (P : A → list event → Prop) (Q : B → list event → Prop) (p : prog A) (f : A → prog B) :
  adds P p → (∀ a new, P a new → adds (λ b new', Q b (new ++ new')%list) (f a)) → adds Q (p ≫= f).
Proof.
  intros Hp Hf es. apply posts_bind. eapply posts_mono; [|apply Hp]. intros a es' (new & -> & HP).
  eapply posts_mono; [|apply (Hf a new HP)]. intros b es'' (new' & -> & HQ). exists (new ++ new')%list. by rewrite app_assoc.
Qed.

Lemma adds_mono {A} (P Q : A → list event → Prop) (p : prog A) :
  (∀ a new, P a new → Q a new) → adds P p → adds Q p.
Proof.
  intros HPQ Hp es. eapply posts_mono; [|apply Hp]. intros a es' (new & -> & HP). exists new. auto.
Qed.

Lemma adds_run {A} (Q : A → list event → Prop) o h (p : prog A) :
  adds Q p → ∃ new, (run o h p).2 = (h ++ new)%list ∧ Q (run o h p).1 new.
Proof. intros H. exact (posts_run (λ a es', ∃ new, es' = (h ++ new)%list ∧ Q a new) o h p (H h)). Qed.
