(* ===== verification/WClient.v ===== *)
(** * grid-worker/internal/controlplane: the control-plane client and the heartbeat loop

    client.go and heartbeat.go, over the calls of WProg.v.  An error keeps its text and the
    client error that errors.As finds in it.  net/http sends the request and follows
    redirects; url.Parse and the printing of floats by encoding/json are parameters. *)
From S2P Require Import Prelude GoStd Float64 GoJson Domain Http CpConfig WConfig Policy WProg.
From Stdlib Require Import SpecFloat.

#[local] Open Scope string_scope.
#[local] Open Scope Z_scope.

(** ** Errors *)

Inductive client_error :=
  | AuthError (StatusCode : Z) (Message : string)
  | ServerError (StatusCode : Z) (Message : string).

Definition client_error_Error (e : client_error) : string :=
  match e with
  | AuthError code msg => "authentication error " ++ Itoa code ++ ": " ++ msg
  | ServerError code msg => "server error " ++ Itoa code ++ ": " ++ msg
  end.

Record cerror := MkCErr {
  ce_Text : string;
  ce_As : option client_error;      (* what errors.As extracts *)
}.

Definition Errorf (text : string) : cerror := MkCErr text None.
Definition typed_error (e : client_error) : cerror := MkCErr (client_error_Error e) (Some e).
(** [fmt.Errorf(prefix + ": %w", err)] *)
Definition wrap (prefix : string) (e : cerror) : cerror := MkCErr (prefix ++ ": " ++ ce_Text e) (ce_As e).

Definition err_text (e : error) : string :=
  match e with
  | ErrMsg msg => msg
  | ErrNoRows => "no rows in result set"
  | ErrNotFound => "not found"
  | ErrConstraint name => "constraint " ++ name
  | ErrUnavailable => "unavailable"
  end.

(** A Go function that returns [(T, error)]. *)
Notation fallible A := (A + cerror)%type.

Definition fail {A} (prefix : string) (e : error) : fallible A := inr (Errorf (prefix ++ ": " ++ err_text e)).

(** ** Data *)

Record RegisterRequest := MkRegisterRequest {
  RR_HostnameHash : string;
  RR_Agents : list string;
  RR_OSInfo : string;
  RR_CapacityScore : spec_float;
}.

Record HeartbeatRequest := MkHeartbeatRequest {
  HB_State : string;
  HB_CPUPercent : spec_float;
  HB_RAMMBUsed : Z;
  HB_DiskFreeGB : spec_float;
  HB_BatteryPercent : spec_float;
  HB_JobsToday : Z;
}.

(** The two response types: a nil pointer is [None]. *)
Record RegisterResponse := MkRegisterResponse { RegResp_WorkerID : string }.
Record HeartbeatResponse := MkHeartbeatResponse { HBResp_AssignedTask : option TaskAssignment }.

Record TaskStatusRequest := MkTaskStatusRequest { TSR_State : string; TSR_ErrorMessage : string }.

Record ArtifactMeta := MkArtifactMeta { AM_RelPath : string; AM_SHA256 : string; AM_Size : Z }.

Record OutputSubmission := MkOutputSubmission {
  OS_TaskID : string;
  OS_HMACSha256 : string;
  OS_Artifacts : list ArtifactMeta;
  OS_Metadata : list (string * jdoc);     (* sorted by key *)
  OS_XHMACHeader : string;
}.

Record Client := MkClient { C_baseURL : string; C_apiKey : string; C_workerID : string }.

Definition Client_New (cfg : WServerConfig) : Client :=
  MkClient (WSrv_URL cfg) (WSrv_APIKey cfg) (WSrv_WorkerID cfg).
Definition SetWorkerID (id : string) (c : Client) : Client := MkClient (C_baseURL c) (C_apiKey c) id.

(** ** Encodings *)

Class FloatText := float_text : spec_float → string.
Class URLParse := url_Parse : string → option string.       (* the error, if any *)

Definition omit_empty_obj (name : string) (l : list (string * jdoc)) : list (string * jdoc) :=
  match l with [] => [] | _ => [(name, DObj l)] end.

Section encodings.
Context `{FT : FloatText}.

(** A float member: encoding/json refuses infinities and NaN. *)
Definition float_json (f : spec_float) : jdoc + string :=
  match f with
  | S754_nan => inr "json: unsupported value: NaN"
  | S754_infinity s => inr ("json: unsupported value: " ++ (if s then "-Inf" else "+Inf"))
  | _ => inl (DNum (float_text f))
  end.

Definition RegisterRequest_Marshal (r : RegisterRequest) : string + string :=
  match float_json (RR_CapacityScore r) with
  | inr e => inr e
  | inl score =>
      inl (json_Marshal (DObj [("hostname_hash", DStr (RR_HostnameHash r)); ("agents", DArr (map DStr (RR_Agents r)));
        ("os_info", DStr (RR_OSInfo r)); ("capacity_score", score)]))
  end.

Definition HeartbeatRequest_Marshal (r : HeartbeatRequest) : string + string :=
  match float_json (HB_CPUPercent r), float_json (HB_DiskFreeGB r), float_json (HB_BatteryPercent r) with
  | inl cpu, inl disk, inl battery =>
      inl (json_Marshal (DObj [("state", DStr (HB_State r)); ("cpu_percent", cpu); ("ram_mb_used", DInt (HB_RAMMBUsed r));
        ("disk_free_gb", disk); ("battery_percent", battery); ("jobs_today", DInt (HB_JobsToday r))]))
  | inr e, _, _ | _, inr e, _ | _, _, inr e => inr e
  end.
End encodings.

Definition TaskStatusRequest_Marshal (r : TaskStatusRequest) : string :=
  json_Marshal (DObj (("state", DStr (TSR_State r)) :: omit_empty "error_message" (TSR_ErrorMessage r))).

Definition ArtifactMeta_json (a : ArtifactMeta) : jdoc :=
  DObj [("rel_path", DStr (AM_RelPath a)); ("sha256", DStr (AM_SHA256 a)); ("size", DInt (AM_Size a))].

Definition OutputSubmission_Marshal (o : OutputSubmission) : string :=
  json_Marshal (DObj ([("task_id", DStr (OS_TaskID o)); ("hmac_sha256", DStr (OS_HMACSha256 o));
    ("artifacts", DArr (map ArtifactMeta_json (OS_Artifacts o)))] ++ omit_empty_obj "metadata" (OS_Metadata o))).

(** ** client.go *)

(** The first [n] bytes: io.LimitReader. *)
Fixpoint limit_bytes (n : Z) (s : string) : string :=
  match s with
  | EmptyString => EmptyString
  | String c s => if n <=? 0 then EmptyString else String c (limit_bytes (n - 1) s)
  end.

Section client.
Context `{FT : FloatText} `{UP : URLParse} `{RU : JSONUnmarshal RegisterResponse} `{HU : JSONUnmarshal HeartbeatResponse}.

Definition auth_headers (c : Client) : list (string * string) :=
  [("Content-Type", "application/json"); ("Authorization", "Bearer " ++ C_apiKey c)].

(** [out] is the zero value of the response and its decoder; [None] for a nil out. *)
Definition doJSON {A} (c : Client) (method path : string) (req : string + string) (zero : A)
    (out : option (JSONUnmarshal A)) : prog (fallible A) :=
  match req with
  | inr e => mret (inr (Errorf ("marshal request: " ++ e)))
  | inl body =>
      match url_Parse (C_baseURL c ++ path) with
      | Some e => mret (inr (Errorf ("create request: " ++ e)))
      | None =>
          let headers :=
            (auth_headers c ++ (if negb (String.eqb (C_workerID c) "") then [("X-Worker-ID", C_workerID c)] else []))%list in
          r ← ask (HttpDo (MkWire method (C_baseURL c ++ path) headers body));
          mret match r with
          | Err e => fail "execute request" e
          | Ok resp =>
              match WP_Body resp with
              | Err e => fail "read response body" e
              | Ok b =>
                  let respBody := limit_bytes (2 ^ 20) b in
                  if WP_Status resp =? StatusUnauthorized
                  then inr (typed_error (AuthError (WP_Status resp) respBody))
                  else if 500 <=? WP_Status resp then inr (typed_error (ServerError (WP_Status resp) respBody))
                  else if 400 <=? WP_Status resp
                  then inr (Errorf ("client error " ++ Itoa (WP_Status resp) ++ ": " ++ respBody))
                  else match out with
                       | None => inl zero
                       | Some decode =>
                           if String.eqb respBody "" then inl zero
                           else match decode respBody with
                                | inl v => inl v
                                | inr e => inr (Errorf ("unmarshal response: " ++ e))
                                end
                       end
              end
          end
      end
  end.

Definition patch {A} (c : Client) (path : string) (req : string + string) (zero : A) out := doJSON c "PATCH" path req zero out.
Definition post {A} (c : Client) (path : string) (req : string + string) (zero : A) out := doJSON c "POST" path req zero out.

Definition wrapped {A} (prefix : string) (r : fallible A) : fallible A :=
  match r with inl a => inl a | inr e => inr (wrap prefix e) end.

Definition Client_Register (c : Client) (req : RegisterRequest) : prog (fallible RegisterResponse) :=
  r ← post c "/api/v1/workers/register" (RegisterRequest_Marshal req) (MkRegisterResponse "") (Some RU);
  mret (wrapped "register" r).

Definition Client_Heartbeat (c : Client) (req : HeartbeatRequest) : prog (fallible HeartbeatResponse) :=
  r ← post c ("/api/v1/workers/" ++ C_workerID c ++ "/heartbeat") (HeartbeatRequest_Marshal req)
        (MkHeartbeatResponse None) (Some HU);
  mret (wrapped "heartbeat" r).

Definition Client_UpdateTaskStatus (c : Client) (taskID : string) (req : TaskStatusRequest) : prog (fallible unit) :=
  r ← patch c ("/api/v1/tasks/" ++ taskID ++ "/status") (inl (TaskStatusRequest_Marshal req)) tt None;
  mret (wrapped "update task status" r).

(** What ReadAll has read when it fails is left open in the text. *)
Definition body_text (r : wire_response) : string :=
  match WP_Body r with Ok b => limit_bytes 4096 b | Err _ => "" end.

Definition SubmitOutput (c : Client) (output : OutputSubmission) : prog (fallible unit) :=
  match url_Parse (C_baseURL c ++ "/api/v1/outputs") with
  | Some e => mret (inr (Errorf ("create request: " ++ e)))
  | None =>
      let headers :=
        (auth_headers c ++ [("X-Worker-ID", C_workerID c)] ++
         (if negb (String.eqb (OS_XHMACHeader output) "") then [("X-HMAC-SHA256", OS_XHMACHeader output)] else []))%list in
      r ← ask (HttpDo (MkWire "POST" (C_baseURL c ++ "/api/v1/outputs") headers (OutputSubmission_Marshal output)));
      mret match r with
      | Err e => fail "submit output request" e
      | Ok resp =>
          if (WP_Status resp =? StatusAccepted) || (WP_Status resp =? StatusOK) then inl tt
          else inr (Errorf ("submit output: status " ++ Itoa (WP_Status resp) ++ ": " ++ body_text resp))
      end
  end.

Definition ValidateAPIKey (c : Client) : prog (fallible unit) :=
  match url_Parse (C_baseURL c ++ "/api/v1/workers") with
  | Some e => mret (inr (Errorf ("create validate request: " ++ e)))
  | None =>
      r ← ask (HttpDo (MkWire "GET" (C_baseURL c ++ "/api/v1/workers") [("Authorization", "Bearer " ++ C_apiKey c)] ""));
      mret match r with
      | Err e => fail "validate API key request" e
      | Ok resp =>
          if WP_Status resp =? StatusUnauthorized then inr (Errorf "API key is invalid or expired")
          else if 500 <=? WP_Status resp
          then inr (Errorf ("server error during validation: status " ++ Itoa (WP_Status resp) ++ ": " ++ body_text resp))
          else inl tt
      end
  end.

Definition ServerTime (ParseTime : string → Z + string) (c : Client) : prog (fallible Z) :=
  match url_Parse (C_baseURL c ++ "/healthz") with
  | Some e => mret (inr (Errorf ("create time request: " ++ e)))
  | None =>
      r ← ask (HttpDo (MkWire "HEAD" (C_baseURL c ++ "/healthz") [] ""));
      match r with
      | Err e => mret (fail "time request" e)
      | Ok resp =>
          if String.eqb (WP_Date resp) "" then (t ← ask Now; mret (inl t))
          else mret match ParseTime (WP_Date resp) with
                    | inl t => inl t
                    | inr e => inr (Errorf ("parse server Date header: " ++ e))
                    end
      end
  end.

(** ** heartbeat.go *)

Definition NewHeartbeatLoop (intervalSec : Z) : Z := if intervalSec <=? 0 then 30 else intervalSec.

Definition maxBackoff : Z := 5 * Minute.

(** A heartbeat, with the assigned task that is handed to onTask. *)
Definition heartbeat_tick (c : Client) (req : HeartbeatRequest) : prog (option TaskAssignment * option cerror) :=
  r ← Client_Heartbeat c req;
  mret match r with
  | inl resp => (HBResp_AssignedTask resp, None)
  | inr e => (None, Some e)
  end.

(** The backoff after a tick; [None] is the fatal log entry, which ends the process. *)
Definition next_backoff (backoff : Z) (err : option cerror) : option Z :=
  match err with
  | None => Some 0
  | Some e =>
      match ce_As e with
      | Some (AuthError _ _) => None
      | Some (ServerError _ _) =>
          Some (if backoff =? 0 then 5 * Second
                else Z.min (f64_of_int (i64 (backoff * 2))) (f64_of_int maxBackoff))
      | None => Some backoff
      end
  end.

Inductive loop_end :=
  | LoopStopped                  (* the context ended *)
  | LoopFatal                    (* the process exits *)
  | LoopRunning (backoff : Z).   (* after the given number of ticks *)

(** The loop for [ticks] ticks of the ticker, the assigned tasks and how it ends. *)
Fixpoint heartbeat_loop (c : Client) (intervalSec : Z) (stats : nat → HeartbeatRequest) (ticks : nat) (backoff : Z) :
    prog (list TaskAssignment * loop_end) :=
  match ticks with
  | O => mret ([], LoopRunning backoff)
  | S ticks =>
      ticked ← ask (Wait (i64 (intervalSec * Second)));
      if negb ticked then mret ([], LoopStopped)
      else
        waited ← (if 0 <? backoff then ask (Wait backoff) else mret true);
        if negb waited then mret ([], LoopStopped)
        else
          r ← heartbeat_tick c (stats ticks);
          let '(task, err) := r in
          match next_backoff backoff err with
          | None => mret (option_list task, LoopFatal)
          | Some backoff =>
              rest ← heartbeat_loop c intervalSec stats ticks backoff;
              mret ((option_list task ++ fst rest)%list, snd rest)
          end
  end.

Definition HeartbeatLoop_Start (c : Client) (intervalSec : Z) (stats : nat → HeartbeatRequest) (ticks : nat) :
    prog (list TaskAssignment * loop_end) :=
  first ← heartbeat_tick c (stats (S ticks));
  rest ← heartbeat_loop c (NewHeartbeatLoop intervalSec) stats ticks 0;
  mret ((option_list (fst first) ++ fst rest)%list, snd rest).
End client.
