(* ===== verification/WClientFacts.v ===== *)
(** * The heartbeat loop under failures *)
From S2P Require Import Prelude GoStd Float64 GoJson Domain Http Policy WProg WClient.

#[local] Open Scope string_scope.
#[local] Open Scope Z_scope.

(** The backoff after [k] server errors in a row. *)
Definition backoff_level (k : nat) : Z :=
  match k with
  | O => 0
  | S j => Z.min (5 * 2 ^ Z.of_nat j * Second) (5 * Minute)
  end.

Lemma backoff_level_range k : 0 ≤ backoff_level k ≤ 5 * Minute.
Proof.
  destruct k as [|j]; unfold backoff_level, Minute, Second; [lia|].
  pose proof (Z.pow_pos_nonneg 2 (Z.of_nat j)). lia.
Qed.

Lemma backoff_level_pos j : 0 < backoff_level (S j).
Proof. unfold backoff_level, Minute, Second. pose proof (Z.pow_pos_nonneg 2 (Z.of_nat j)). lia. Qed.

Definition is_server_error (e : cerror) : Prop := ∃ code msg, ce_As e = Some (ServerError code msg).
Definition is_auth_error (e : cerror) : Prop := ∃ code msg, ce_As e = Some (AuthError code msg).

Lemma next_backoff_server k e : is_server_error e → next_backoff (backoff_level k) (Some e) = Some (backoff_level (S k)).
Proof.
  intros (code & msg & E). unfold next_backoff. rewrite E. f_equal. destruct k as [|j]; [done|].
  pose proof (backoff_level_pos j) as Hp. pose proof (backoff_level_range (S j)) as Hr.
  destruct (Z.eqb_spec (backoff_level (S j)) 0); [lia|]. unfold f64_of_int, maxBackoff.
  rewrite i64_id by (unfold in_i64, Minute, Second in *; lia).
  rewrite !f64_round_exact by (unfold Minute, Second in *; lia).
  assert (2 ^ Z.of_nat (S j) = 2 * 2 ^ Z.of_nat j) as Hpow.
  { rewrite Nat2Z.inj_succ, Z.pow_succ_r by lia. lia. }
  unfold backoff_level, Minute, Second in *. lia.
Qed.

(** The server errors since the last success; other errors do not count. *)
Fixpoint outage (k : nat) (outcomes : list (option cerror)) : nat :=
  match outcomes with
  | [] => k
  | None :: rest => outage 0 rest
  | Some e :: rest => outage (match ce_As e with Some (ServerError _ _) => S k | _ => k end) rest
  end.

Fixpoint backoff_after (backoff : Z) (outcomes : list (option cerror)) : option Z :=
  match outcomes with
  | [] => Some backoff
  | err :: rest => match next_backoff backoff err with Some b => backoff_after b rest | None => None end
  end.

Lemma backoff_closed_form k outcomes :
  (∀ e, Some e ∈ outcomes → ¬ is_auth_error e) →
  backoff_after (backoff_level k) outcomes = Some (backoff_level (outage k outcomes)).
Proof.
  revert k. induction outcomes as [|[e|] rest IH]; intros k Hna; [done| |].
  - assert (∀ e', Some e' ∈ rest → ¬ is_auth_error e') as Hna' by (intros; apply Hna; by right).
    cbn [backoff_after outage]. destruct (ce_As e) as [[code msg|code msg]|] eqn:E.
    + destruct (Hna e); [by left|by exists code, msg].
    + rewrite next_backoff_server by (by exists code, msg). by apply IH.
    + unfold next_backoff. rewrite E. by apply IH.
  - simpl. apply (IH 0%nat). intros e He. apply Hna. by right.
Qed.

Section loop.
Context `{FT : FloatText} `{UP : URLParse} `{RU : JSONUnmarshal RegisterResponse} `{HU : JSONUnmarshal HeartbeatResponse}.

(** The request of a heartbeat. *)
Definition heartbeat_wire (c : Client) (body : string) : wire_request :=
  MkWire "POST" (C_baseURL c ++ "/api/v1/workers/" ++ C_workerID c ++ "/heartbeat")
    (auth_headers c ++ (if negb (String.eqb (C_workerID c) "") then [("X-Worker-ID", C_workerID c)] else []))%list body.

(** The calls of [n] ticks during an outage of which [k] heartbeats have been lost. *)
Fixpoint outage_calls (c : Client) (intervalSec : Z) (body : string) (resp : wire_response) (k n : nat) : list event :=
  match n with
  | O => []
  | S n =>
      ([Event (Wait (i64 (intervalSec * Second))) true] ++
       (if (0 <? backoff_level k)%Z then [Event (Wait (backoff_level k)) true] else []) ++
       [Event (HttpDo (heartbeat_wire c body)) (Ok resp)] ++
       outage_calls c intervalSec body resp (S k) n)%list
  end.

Lemma heartbeat_loop_outage (o : oracle) c intervalSec stats body resp b n :
  url_Parse (C_baseURL c ++ "/api/v1/workers/" ++ C_workerID c ++ "/heartbeat") = None →
  (∀ i, HeartbeatRequest_Marshal (stats i) = inl body) →
  (∀ h d, o _ h (Wait d) = true) → (∀ h req, o _ h (HttpDo req) = Ok resp) →
  500 ≤ WP_Status resp → WP_Body resp = Ok b →
  ∀ k h, run o h (heartbeat_loop c intervalSec stats n (backoff_level k)) =
    (([], LoopRunning (backoff_level (k + n))), (h ++ outage_calls c intervalSec body resp k n)%list).
Proof.
  intros Hurl Hbody Hwait Hhttp Hst Hb. induction n as [|n IH]; intros k h.
  { simpl. by rewrite Nat.add_0_r, app_nil_r. }
  set (msg := limit_bytes (2 ^ 20) b).
  set (e := wrap "heartbeat" (typed_error (ServerError (WP_Status resp) msg))).
  assert (∀ h, run o h (heartbeat_tick c (stats n)) =
    ((None, Some e), (h ++ [Event (HttpDo (heartbeat_wire c body)) (Ok resp)])%list)) as Htick.
  { intros h'. unfold heartbeat_tick, Client_Heartbeat, post, doJSON. rewrite Hbody, Hurl. cbn. rewrite Hhttp, Hb.
    destruct (Z.eqb_spec (WP_Status resp) StatusUnauthorized) as [Eu|_]; [unfold StatusUnauthorized in Eu; lia|].
    destruct (Z.leb_spec 500 (WP_Status resp)); [|lia]. done. }
  assert (is_server_error e) as Hse by (by exists (WP_Status resp), msg).
  cbn [heartbeat_loop]. rewrite run_bind, run_ask, Hwait. cbn [negb]. rewrite run_bind.
  replace (k + S n)%nat with (S k + n)%nat by lia.
  destruct (0 <? backoff_level k) eqn:Eb.
  - rewrite run_ask, Hwait. cbn [negb]. rewrite run_bind, Htick, (next_backoff_server k e Hse), run_bind, (IH (S k)).
    simpl run. cbn [outage_calls]. rewrite Eb. simpl. by rewrite <-!app_assoc.
  - cbn [run mret prog_ret negb]. rewrite run_bind, Htick, (next_backoff_server k e Hse), run_bind, (IH (S k)).
    simpl run. cbn [outage_calls]. rewrite Eb. simpl. by rewrite <-!app_assoc.
Qed.

(** The heartbeat backs off exponentially and recovers at once: whatever the outcomes of
    the heartbeats, as long as none is a 401, the backoff is 5 s doubled with each server
    error since the last success, at most 5 minutes, and other errors leave it; and while the
    control plane answers 5xx, the loop of the client makes exactly these calls: a wait for
    the ticker, a wait of the backoff if there is one, and one request. *)
Lemma heartbeat_backoff (o : oracle) c intervalSec stats body resp b n h outcomes :
  (∀ e, Some e ∈ outcomes → ¬ is_auth_error e) →
  url_Parse (C_baseURL c ++ "/api/v1/workers/" ++ C_workerID c ++ "/heartbeat") = None →
  (∀ i, HeartbeatRequest_Marshal (stats i) = inl body) →
  (∀ h d, o _ h (Wait d) = true) → (∀ h req, o _ h (HttpDo req) = Ok resp) →
  500 ≤ WP_Status resp → WP_Body resp = Ok b →
  backoff_after 0 outcomes = Some (backoff_level (outage 0 outcomes)) ∧
  run o h (heartbeat_loop c intervalSec stats n (backoff_level (outage 0 outcomes))) =
    (([], LoopRunning (backoff_level (outage 0 outcomes + n))),
     (h ++ outage_calls c intervalSec body resp (outage 0 outcomes) n)%list).
Proof.
  intros Ho Hurl Hbody Hwait Hhttp Hst Hb. split; [by apply (backoff_closed_form 0)|].
  by apply (heartbeat_loop_outage o c intervalSec stats body resp b n).
Qed.
End loop.
