(* ===== verification/Sse.v ===== *)
(** * The event stream of dashboard/hub.go: ServeSSE and writeSSEEvent

    What a connection receives from its channel (Hub.v) is written as a stream of
    server-sent events.  [parse_stream] is the reference: how the standard (HTML,
    "server-sent events") has a client interpret a stream.  The printing of floats is
    a parameter, in which JSON numbers have no line ends. *)
From S2P Require Import Prelude GoStd Regexp Domain Http RedisStore GoJson JsonParse WProg WClient Hub.
From Stdlib Require Import Ascii SpecFloat.

#[local] Open Scope string_scope.
#[local] Open Scope Z_scope.

(** ** What is written *)

Section stream.
Context `{UT : UUIDText} `{FT : FloatText}.

(** json.Marshal of a value of type any that json.Unmarshal has made: no NaN and no
    infinity, so it does not fail.  Maps are printed in the order of their keys. *)
Fixpoint any_doc (v : json) : jdoc :=
  match v with
  | JNull => DNull
  | JBool b => DBool b
  | JNum f => DNum (float_text f)
  | JStr s => DStr s
  | JArr l => DArr (map any_doc l)
  | JObj l => DObj (sort_keys (map (λ kv, (fst kv, any_doc (snd kv))) l))
  end.

Definition writeSSEEvent (ev : Event) : string :=
  (if negb (String.eqb (Ev_ID ev) "") then "id: " ++ Ev_ID ev ++ str1 chr_lf else "") ++
  "event: " ++ Ev_Type ev ++ str1 chr_lf ++
  "data: " ++ json_Marshal (any_doc (Ev_Data ev)) ++ str1 chr_lf ++ str1 chr_lf.

Definition connected_event (id : uuid) (c : Client) : Event :=
  MkEvent (uuid_String id) "connected" (JObj [("client_id", JStr (uuid_String (cl_clientID c)))]).

Definition sse_headers : list (string * string) :=
  [("Content-Type", "text/event-stream"); ("Cache-Control", "no-cache"); ("Connection", "keep-alive"); ("X-Accel-Buffering", "no")].

Inductive sse_reply :=
  | SseError (status : Z) (text : string)
  | SseStream (headers : list (string * string)) (bytes : string).

(** [c] is what Register returns, [id] a new UUID, and [received] what the connection takes
    from its channel until the client leaves or the channel is closed. *)
Definition ServeSSE (flusher : bool) (c : option Client) (id : uuid) (received : list Event) : sse_reply :=
  if negb flusher then SseError StatusInternalServerError "streaming not supported"
  else
    match c with
    | None => SseError StatusServiceUnavailable "too many connections"
    | Some c => SseStream sse_headers (String.concat "" (map writeSSEEvent (connected_event id c :: received)))
    end.
End stream.

(** ** How a client reads it *)

(** The pieces between line ends: LF, CR or CR LF; the last piece has no end. *)
Fixpoint split_lines (s : string) : list string :=
  match s with
  | EmptyString => [""]
  | String c s' =>
      if Ascii.eqb c chr_lf then "" :: split_lines s'
      else if Ascii.eqb c chr_cr then
        match s' with
        | String d s'' => if Ascii.eqb d chr_lf then "" :: split_lines s'' else "" :: split_lines s'
        | EmptyString => "" :: split_lines s'
        end
      else match split_lines s' with l :: ls => String c l :: ls | [] => [str1 c] end
  end.

(** A message event. *)
Record message := MkMessage { m_id : string; m_type : string; m_data : string }.

Record sse_state := MkSse { sse_id : string; sse_type : string; sse_data : string }.

Definition strip_space (s : string) : string :=
  match s with String c s' => if Ascii.eqb c " " then s' else s | EmptyString => s end.

(** Without a line feed at the end. *)
Fixpoint strip_lf (s : string) : string :=
  match s with
  | EmptyString => EmptyString
  | String c EmptyString => if Ascii.eqb c chr_lf then EmptyString else str1 c
  | String c s' => String c (strip_lf s')
  end.

(** An empty line dispatches the event; any other sets a field. *)
Definition sse_line (st : sse_state) (line : string) : sse_state * list message :=
  if String.eqb line "" then
    (MkSse (sse_id st) "" "",
     if String.eqb (sse_data st) "" then []
     else [MkMessage (sse_id st) (if String.eqb (sse_type st) "" then "message" else sse_type st) (strip_lf (sse_data st))])
  else
    let '(field, value) := match Cut line ":" with Some (f, v) => (f, strip_space v) | None => (line, "") end in
    (if String.eqb field "event" then MkSse (sse_id st) value (sse_data st)
     else if String.eqb field "data" then MkSse (sse_id st) (sse_type st) (sse_data st ++ value ++ str1 chr_lf)
     else if String.eqb field "id" then if Contains value (str1 "000") then st else MkSse value (sse_type st) (sse_data st)
     else st, []).

Fixpoint sse_run (st : sse_state) (lines : list string) : list message :=
  match lines with
  | [] => []
  | line :: lines => let '(st, out) := sse_line st line in (out ++ sse_run st lines)%list
  end.

(** What has no line end is not interpreted. *)
Definition parse_stream (bytes : string) : list message := sse_run (MkSse "" "" "") (removelast (split_lines bytes)).

(** ** Facts *)

Definition no_ctl (c : ascii) : bool := 32 <=? byte_val c.

Lemma no_ctl_app s t : str_all no_ctl (s ++ t) = str_all no_ctl s && str_all no_ctl t.
Proof. induction s as [|c s IH]; [done|]. cbn [str_all String.append]. by rewrite IH, andb_assoc. Qed.

Lemma ascii_escape_ctl n : 0 ≤ n < 128 → str_all no_ctl (ascii_escape n) = true.
Proof.
  intros Hn. assert (Forall (λ k, str_all no_ctl (ascii_escape (Z.of_nat k)) = true) (seq 0 128)) as H.
  { apply Forall_forall. intros k Hk. assert (forallb (λ k, str_all no_ctl (ascii_escape (Z.of_nat k))) (seq 0 128) = true) as E by (vm_compute; reflexivity).
    rewrite forallb_forall in E. apply E. by apply list_elem_of_In. }
  rewrite Forall_forall in H. rewrite <-(Z2Nat.id n) by lia. apply H. apply elem_of_seq. lia.
Qed.

(** The bytes of a rune: of a character beyond ASCII they are at least 128. *)
Definition rune_clean (r : rune) : Prop :=
  0 ≤ r.1 < 128 ∨ rune_bad r ∨ 128 ≤ r.1 ∧ str_all no_ctl r.2 = true.

Lemma decode_rune_clean a s :
  let '(cp, w) := decode_rune a s in rune_clean (cp, str_take w (String a s)).
Proof.
  unfold decode_rune. pose proof (byte_val_bounds a) as Ha. destruct (second_range (byte_val a)) as [lo hi] eqn:Er.
  assert (128 ≤ lo) as Hlo by (unfold second_range in Er; repeat case_match; injection Er as <- <-; lia).
  assert (∀ l h c, is_cont l h c = true → 128 ≤ l → no_ctl c = true ∧ l ≤ byte_val c) as Hc.
  { unfold is_cont, no_ctl. intros. lia. }
  destruct (Z.ltb_spec (byte_val a) 128); [left; cbn; lia|].
  assert (no_ctl a = true) as Ha' by (unfold no_ctl; lia).
  destruct ((194 <=? byte_val a) && (byte_val a <=? 223)) eqn:E1.
  { destruct s as [|c1 s]; [by right; left|]. destruct (is_cont 128 191 c1) eqn:E; [|by right; left].
    destruct (Hc _ _ _ E ltac:(lia)) as [K1 ?]. right. right. cbn. rewrite Ha', K1. split; [lia|done]. }
  destruct ((224 <=? byte_val a) && (byte_val a <=? 239)) eqn:E2.
  { destruct s as [|c1 [|c2 s]]; [by right; left..|]. destruct (is_cont lo hi c1 && is_cont 128 191 c2) eqn:E; [|by right; left].
    apply andb_prop in E as [Ea Eb]. destruct (Hc _ _ _ Ea Hlo) as [K1 ?], (Hc _ _ _ Eb ltac:(lia)) as [K2 ?].
    right. right. cbn. rewrite Ha', K1, K2. split; [|done].
    destruct (decide (byte_val a = 224)) as [E224|]; [|lia]. unfold second_range in Er. rewrite E224 in Er. injection Er as <- <-. lia. }
  destruct ((240 <=? byte_val a) && (byte_val a <=? 244)) eqn:E3; [|by right; left].
  destruct s as [|c1 [|c2 [|c3 s]]]; [by right; left..|].
  destruct (is_cont lo hi c1 && is_cont 128 191 c2 && is_cont 128 191 c3) eqn:E; [|by right; left].
  apply andb_prop in E as [[Ea Eb]%andb_prop Ec].
  destruct (Hc _ _ _ Ea Hlo) as [K1 ?], (Hc _ _ _ Eb ltac:(lia)) as [K2 ?], (Hc _ _ _ Ec ltac:(lia)) as [K3 ?].
  right. right. cbn. rewrite Ha', K1, K2, K3. split; [|done].
  destruct (decide (byte_val a = 240)) as [E240|]; [|lia]. unfold second_range in Er. rewrite E240 in Er. injection Er as <- <-. lia.
Qed.

Lemma decode_runes_clean s : Forall rune_clean (decode_runes s).
Proof.
  unfold decode_runes. generalize 0%nat as n. induction s as [|a s IH]; intros n; [constructor|].
  cbn [decode_from]. destruct n as [|n]; [|apply IH]. pose proof (decode_rune_clean a s) as H.
  destruct (decode_rune a s) as [cp w]. constructor; [exact H|apply IH].
Qed.

(** A JSON text has no control characters. *)
Lemma json_string_ctl s : str_all no_ctl (json_string s) = true.
Proof.
  unfold json_string. cbn [str_all]. rewrite no_ctl_app. cbn [str_all].
  assert (str_all no_ctl (String.concat "" (map rune_escape (decode_runes s))) = true) as ->; [|done].
  induction (decode_runes_clean s) as [|[n b] rs Hr _ IH]; [done|]. cbn [map]. rewrite concat_cons, no_ctl_app, IH, andb_true_r.
  unfold rune_clean, rune_bad in Hr. cbn [fst snd] in Hr. unfold rune_escape.
  destruct (Z.ltb_spec n 128) as [Hn|Hn].
  { destruct Hr as [Hr|[[-> _]|[? _]]]; [by apply ascii_escape_ctl|done|lia]. }
  destruct ((n =? RuneError) && (String.length b =? 1)%nat) eqn:E; [done|].
  destruct ((n =? 8232) || (n =? 8233)) eqn:E2.
  { apply orb_prop in E2 as [->%Z.eqb_eq| ->%Z.eqb_eq]; vm_compute; reflexivity. }
  destruct Hr as [Hr|[[-> Hb]|[_ Hr]]]; [lia| |done]. by rewrite Hb in E.
Qed.

Lemma Join_ctl l sep : str_all no_ctl sep = true → Forall (λ s, str_all no_ctl s = true) l → str_all no_ctl (Join l sep) = true.
Proof.
  intros Hs. induction 1 as [|s l Hx Hl IH]; [done|]. destruct l as [|s2 l]; [done|].
  change (Join (s :: s2 :: l) sep) with (s ++ sep ++ Join (s2 :: l) sep). by rewrite !no_ctl_app, Hx, Hs, IH.
Qed.

(** Induction on values. *)
Section json_ind.
Variable P : json → Prop.
Hypothesis HNull : P JNull.
Hypothesis HBool : ∀ b, P (JBool b).
Hypothesis HNum : ∀ f, P (JNum f).
Hypothesis HStr : ∀ s, P (JStr s).
Hypothesis HArr : ∀ l, Forall P l → P (JArr l).
Hypothesis HObj : ∀ l, Forall (λ kv : string * json, P kv.2) l → P (JObj l).

Fixpoint json_ind' (v : json) : P v :=
  match v with
  | JNull => HNull
  | JBool b => HBool b
  | JNum f => HNum f
  | JStr s => HStr s
  | JArr l => HArr l ((fix go l : Forall P l :=
      match l with [] => Forall_nil_2 _ | v :: l => Forall_cons_2 _ v l (json_ind' v) (go l) end) l)
  | JObj l => HObj l ((fix go l : Forall (λ kv : string * json, P kv.2) l :=
      match l with [] => Forall_nil_2 _ | kv :: l => Forall_cons_2 _ kv l (json_ind' kv.2) (go l) end) l)
  end.
End json_ind.

Section facts.
Context `{UT : UUIDText} `{FT : FloatText}.
Hypothesis float_plain : ∀ f, str_all no_ctl (float_text f) = true.

Lemma any_doc_ctl v : str_all no_ctl (json_Marshal (any_doc v)) = true.
Proof.
  induction v as [|b|f|s|l IH|l IH] using json_ind'; cbn [any_doc json_Marshal]; [done|by destruct b|done|apply json_string_ctl|..].
  - rewrite !no_ctl_app, (Join_ctl (map json_Marshal _) ","); [done..|]. rewrite map_map. by apply Forall_map.
  - rewrite !no_ctl_app, (Join_ctl (map _ _) ","); [done..|]. apply Forall_map.
    assert (sort_keys (map (λ kv, (kv.1, any_doc kv.2)) l) ≡ₚ map (λ kv, (kv.1, any_doc kv.2)) l) as -> by apply merge_sort_Permutation.
    apply Forall_map. eapply Forall_impl; [exact IH|]. intros [k v] Hv. cbn [fst snd] in *.
    rewrite !no_ctl_app, json_string_ctl, Hv. done.
Qed.

(** *** Lines *)

Definition line_ok (s : string) : bool := str_all (λ c, negb (Ascii.eqb c chr_lf) && negb (Ascii.eqb c chr_cr)) s.

Lemma line_ok_ctl s : str_all no_ctl s = true → line_ok s = true.
Proof.
  unfold line_ok. induction s as [|c s IH]; [done|]. cbn [str_all]. intros [Hc Hs]%andb_prop. rewrite (IH Hs), andb_true_r.
  unfold no_ctl in Hc. destruct (Ascii.eqb_spec c chr_lf) as [->|]; [done|]. destruct (Ascii.eqb_spec c chr_cr) as [->|]; done.
Qed.

Lemma line_ok_app s t : line_ok (s ++ t) = line_ok s && line_ok t.
Proof. unfold line_ok. induction s as [|c s IH]; [done|]. cbn [str_all String.append]. by rewrite IH, andb_assoc. Qed.

Lemma split_lines_ne s : split_lines s ≠ [].
Proof. destruct s as [|c s]; [done|]. cbn [split_lines]. repeat case_match; done. Qed.

Lemma split_lines_line s t : line_ok s = true → split_lines (s ++ String chr_lf t) = s :: split_lines t.
Proof.
  induction s as [|c s IH]; [done|]. intros [[Hl Hc]%andb_prop Hs]%andb_prop. cbn [String.append split_lines].
  rewrite negb_true_iff in Hl, Hc. by rewrite Hl, Hc, IH.
Qed.

(** The lines of an event. *)
Definition event_lines (ev : Event) : list string :=
  ((if negb (String.eqb (Ev_ID ev) "") then [("id: " ++ Ev_ID ev)%string] else []) ++
   [("event: " ++ Ev_Type ev)%string; ("data: " ++ json_Marshal (any_doc (Ev_Data ev)))%string; ""])%list.

Definition event_ok (ev : Event) : Prop :=
  line_ok (Ev_ID ev) = true ∧ Contains (Ev_ID ev) (str1 "000") = false ∧ Ev_ID ev ≠ "" ∧ line_ok (Ev_Type ev) = true ∧ Ev_Type ev ≠ "".

Lemma event_split ev t : event_ok ev → split_lines (writeSSEEvent ev ++ t) = (event_lines ev ++ split_lines t)%list.
Proof.
  intros (Hi & _ & Hne & Ht & _). unfold writeSSEEvent, event_lines. destruct (String.eqb_spec (Ev_ID ev) "") as [|_]; [done|]. cbn [negb].
  rewrite !str_app_assoc. cbn [app].
  assert (∀ a b u, a ++ b ++ str1 chr_lf ++ u = (a ++ b) ++ String chr_lf u) as Hl by (intros; by rewrite str_app_assoc).
  rewrite Hl, split_lines_line by (by rewrite line_ok_app, Hi).
  rewrite Hl, split_lines_line by (by rewrite line_ok_app, Ht).
  rewrite Hl, split_lines_line by (by rewrite line_ok_app, (line_ok_ctl _ (any_doc_ctl _))). done.
Qed.

Lemma stream_split evs :
  Forall event_ok evs → split_lines (String.concat "" (map writeSSEEvent evs)) = (concat (map event_lines evs) ++ [""])%list.
Proof.
  induction 1 as [|ev evs He _ IH]; [done|]. cbn [map concat]. rewrite concat_cons, event_split, IH by done. by rewrite app_assoc.
Qed.

(** What an event means to a client. *)
Definition message_of (ev : Event) : message := MkMessage (Ev_ID ev) (Ev_Type ev) (json_Marshal (any_doc (Ev_Data ev))).

Lemma sse_id_line st value :
  sse_line st ("id: " ++ value) = (if Contains value (str1 "000") then st else MkSse value (sse_type st) (sse_data st), []).
Proof. done. Qed.
Lemma sse_event_line st value : sse_line st ("event: " ++ value) = (MkSse (sse_id st) value (sse_data st), []).
Proof. done. Qed.
Lemma sse_data_line st value :
  sse_line st ("data: " ++ value) = (MkSse (sse_id st) (sse_type st) (sse_data st ++ value ++ str1 chr_lf), []).
Proof. done. Qed.

Lemma strip_lf_app s : strip_lf (s ++ str1 chr_lf) = s.
Proof. induction s as [|c s IH]; [done|]. cbn [String.append strip_lf]. destruct (s ++ str1 chr_lf) eqn:E; [by destruct s|]. by rewrite IH. Qed.

Lemma run_event_lines ev st rest :
  event_ok ev → sse_type st = "" → sse_data st = "" →
  sse_run st (event_lines ev ++ rest)%list = message_of ev :: sse_run (MkSse (Ev_ID ev) "" "") rest.
Proof.
  intros (_ & Hn & Hne & _ & Ht) H1 H2. unfold event_lines. destruct (String.eqb_spec (Ev_ID ev) "") as [|_]; [done|]. cbn [negb app sse_run].
  rewrite sse_id_line, Hn. cbn [app sse_run]. rewrite sse_event_line. cbn [app sse_run]. rewrite sse_data_line. cbn [app sse_run].
  rewrite H2. cbn [sse_line String.eqb sse_id sse_type sse_data String.append app].
  destruct (String.eqb_spec (json_Marshal (any_doc (Ev_Data ev)) ++ str1 chr_lf) "") as [E|_]; [by destruct (json_Marshal _)|].
  rewrite (proj2 (String.eqb_neq _ _) Ht), strip_lf_app. done.
Qed.

Lemma run_events evs st :
  Forall event_ok evs → sse_type st = "" → sse_data st = "" → sse_run st (concat (map event_lines evs)) = map message_of evs.
Proof.
  intros He. revert st. induction He as [|ev evs Hev _ IH]; intros st H1 H2; [done|]. cbn [map concat].
  rewrite run_event_lines by done. by rewrite IH.
Qed.

(** C15: A connection of the dashboard that is admitted gets a stream in which a client finds, in
    order, the connected event and then every event that came out of its channel, each with
    its id, type and data whole, whatever the data holds; this takes types and ids without
    line ends.  (A type with a line feed in it, which PublishEvent passes on, makes
    lines of its own.) *)
Theorem sse_decodes c id received :
  Forall event_ok (connected_event id c :: received) →
  ∃ bytes, ServeSSE true (Some c) id received = SseStream sse_headers bytes ∧
    parse_stream bytes = map message_of (connected_event id c :: received).
Proof.
  intros He. eexists. split; [reflexivity|]. unfold parse_stream.
  rewrite stream_split by done. rewrite removelast_last. by apply run_events.
Qed.
End facts.
