(* ===== verification/Ruleset.v ===== *)
(** * Scanner rulesets in YAML (grid-worker/internal/scanner/ruleset.go)

    gopkg.in/yaml.v3 is a parameter, as is regexp.Compile beyond the syntax of
    RegexpSyntax.v.  The embedded file is assets/default-ruleset.yaml. *)
From S2P Require Import Prelude GoStd Regexp RegexpSyntax Security WScanner Policy Patterns WProg WClient.
From Stdlib Require Import Ascii.

#[local] Open Scope string_scope.
#[local] Open Scope Z_scope.

Record ruleYAML := MkRuleYAML {
  RY_ID : string;
  RY_Name : string;
  RY_Pattern : string;
  RY_Severity : string;
  RY_Scope : string;
}.

Record rulesetYAML := MkRulesetYAML {
  RSY_Version : string;
  RSY_Rules : list ruleYAML;
  RSY_Paths : list string;
  RSY_Patterns : list string;
}.

(** yaml.Unmarshal into a rulesetYAML, and regexp.Compile: a value or the error text. *)
Class RulesetUnmarshal := yaml_ruleset : string → rulesetYAML + string.
Class RegexpCompile := regexp_Compile : string → re + string.

Section ruleset.
Context `{QT : Quoting} `{YR : RulesetUnmarshal} `{RC : RegexpCompile}.

(** One rule of the file; [i] is its index, for the error. *)
Definition compile_rule (i : nat) (r : ruleYAML) : fallible Rule :=
  match regexp_Compile (RY_Pattern r) with
  | inr err => inr (Errorf ("rule " ++ Itoa (Z.of_nat i) ++ " (" ++ RY_ID r ++ "): invalid pattern " ++
      Quote (RY_Pattern r) ++ ": " ++ err))
  | inl compiled =>
      let scope := if String.eqb (RY_Scope r) "" then "all" else RY_Scope r in
      inl (MkRule (RY_ID r) (RY_Name r) compiled (RY_Severity r) scope)
  end.

Fixpoint compile_rules (i : nat) (rules : list ruleYAML) : fallible (list Rule) :=
  match rules with
  | [] => inl []
  | r :: rules =>
      match compile_rule i r with
      | inr e => inr e
      | inl rule => match compile_rules (S i) rules with inr e => inr e | inl rest => inl (rule :: rest) end
      end
  end.

Definition parseRuleset (data : string) : fallible Ruleset :=
  match yaml_ruleset data with
  | inr err => inr (Errorf ("parse ruleset YAML: " ++ err))
  | inl raw =>
      match compile_rules 0 (RSY_Rules raw) with
      | inr e => inr e
      | inl rules => inl (MkRuleset (RSY_Version raw) rules (RSY_Paths raw) (RSY_Patterns raw))
      end
  end.

Definition LoadRuleset (path : string) : prog (fallible Ruleset) :=
  r ← ask (ReadFile path);
  mret match r with
  | Err e => fail ("read ruleset file " ++ Quote path) e
  | Ok data => parseRuleset data
  end.

(** [data] is the embedded file. *)
Definition DefaultRuleset (data : string) : Ruleset :=
  if String.eqb data "" then hardcodedRuleset
  else match parseRuleset data with inl rs => rs | inr _ => hardcodedRuleset end.
End ruleset.

(** ** The embedded file *)

(** What yaml.v3 reads in assets/default-ruleset.yaml: the rules of the hardcoded list. *)
Definition embedded_raw : rulesetYAML :=
  MkRulesetYAML "1"
    (map (λ s, MkRuleYAML (spec_id s) (spec_name s) (spec_pattern s) (spec_severity s) (spec_scope s)) hardcoded_specs)
    ["**/*.md"; "**/testdata/**"; "**/*_test.go"] ["EXAMPLE_KEY_PLACEHOLDER"; "YOUR_KEY_HERE"].

Section facts.
Context `{QT : Quoting} `{YR : RulesetUnmarshal} `{RC : RegexpCompile}.

(** regexp.Compile is [re_parse] where that is defined. *)
Definition CompileParses : Prop :=
  ∀ pattern r, re_parse pattern = Some r → ∃ r', regexp_Compile pattern = inl r' ∧ r' ≡ r.

(** The rules of a ruleset that loads: one for each entry, in order, compiled, with the
    scope defaulted. *)
Definition rule_of (y : ruleYAML) (r : Rule) : Prop :=
  Rule_ID r = RY_ID y ∧ Rule_Name r = RY_Name y ∧ Rule_Severity r = RY_Severity y ∧
  regexp_Compile (RY_Pattern y) = inl (Rule_Pattern r) ∧
  Rule_Scope r = if String.eqb (RY_Scope y) "" then "all" else RY_Scope y.

Lemma compile_rule_inl i y r : compile_rule i y = inl r → rule_of y r.
Proof. unfold compile_rule, rule_of. destruct (regexp_Compile (RY_Pattern y)); [|done]. intros [= <-]. done. Qed.

Lemma compile_rules_inl i ys rs : compile_rules i ys = inl rs → Forall2 rule_of ys rs.
Proof.
  revert i rs. induction ys as [|y ys IH]; intros i rs; simpl; [intros [= <-]; constructor|].
  destruct (compile_rule i y) eqn:E; [|done]. destruct (compile_rules (S i) ys) eqn:E'; [|done]. intros [= <-].
  constructor; [by eapply compile_rule_inl|by eapply IH].
Qed.

Lemma compile_rules_inr i ys e :
  compile_rules i ys = inr e → ∃ j y err, ys !! j = Some y ∧ regexp_Compile (RY_Pattern y) = inr err ∧
    (∀ k y', (k < j)%nat → ys !! k = Some y' → ∃ r, regexp_Compile (RY_Pattern y') = inl r) ∧
    ce_Text e = "rule " ++ Itoa (Z.of_nat (i + j)) ++ " (" ++ RY_ID y ++ "): invalid pattern " ++
      Quote (RY_Pattern y) ++ ": " ++ err.
Proof.
  revert i. induction ys as [|y ys IH]; intros i; simpl; [done|].
  unfold compile_rule. destruct (regexp_Compile (RY_Pattern y)) as [r|err] eqn:E.
  - destruct (compile_rules (S i) ys) eqn:E'; [done|]. intros [= <-].
    destruct (IH _ E') as (j & y1 & err & Hj & He & Hk & ->). exists (S j), y1, err. split_and!; [done..| |].
    + intros [|k] y' Hlt; simpl; [intros [= <-]; eauto|]. intros Hy. apply (Hk k); [lia|done].
    + by replace (S i + j)%nat with (i + S j)%nat by lia.
  - intros [= <-]. exists 0%nat, y, err. split_and!; [done..| |by rewrite Nat.add_0_r]. intros; lia.
Qed.

(** The rules of the hardcoded list compile to equivalent ones. *)
Lemma compile_rules_specs i specs rules :
  CompileParses → Forall2 (λ s r, ∃ z, compile_spec s = Some z ∧ z ≡ r) specs rules →
  (∀ s, s ∈ specs → spec_scope s ≠ "") →
  ∃ rs, compile_rules i (map (λ s, MkRuleYAML (spec_id s) (spec_name s) (spec_pattern s) (spec_severity s) (spec_scope s))
    specs) = inl rs ∧ rs ≡ rules.
Proof.
  intros HC H. revert i. induction H as [|s r specs rules (z & Ez & Hz) _ IH]; intros i Hs; simpl.
  { exists []. split; [done|constructor]. }
  unfold compile_spec in Ez. apply bind_Some in Ez as (re & Ere & [= <-]).
  destruct (HC _ _ Ere) as (re' & Ere' & Hre). unfold compile_rule. simpl. rewrite Ere'.
  destruct (IH (S i)) as (rs & -> & Hrs); [intros; apply Hs; by right|].
  eexists. split; [done|]. constructor; [|done]. destruct Hz as (H1 & H2 & H3 & H4 & H5). simpl in *.
  destruct (String.eqb_spec (spec_scope s) "") as [E|_]; [destruct (Hs s); [by left|done]|].
  split_and!; [done..|by etrans|done|done].
Qed.

(** A ruleset file either loads whole or not at all: when parsing succeeds there is one
    rule per entry, in order, with its pattern compiled and an empty scope read as all, and
    when the error names a rule, that rule is the first whose pattern does not compile; and
    the default ruleset, whether it comes from the embedded file or is the hardcoded
    fallback, makes the scanner report exactly what the hardcoded rules report. *)
Lemma ruleset_loading data :
  (∀ rs, parseRuleset data = inl rs → ∃ raw, yaml_ruleset data = inl raw ∧ Forall2 rule_of (RSY_Rules raw) (RS_Rules rs) ∧
    Excl_Paths rs = RSY_Paths raw ∧ Excl_Patterns rs = RSY_Patterns raw) ∧
  (∀ e, parseRuleset data = inr e →
    (∃ err, yaml_ruleset data = inr err) ∨
    ∃ raw j y err, yaml_ruleset data = inl raw ∧ RSY_Rules raw !! j = Some y ∧ regexp_Compile (RY_Pattern y) = inr err ∧
      (∀ k y', (k < j)%nat → RSY_Rules raw !! k = Some y' → ∃ r, regexp_Compile (RY_Pattern y') = inl r)) ∧
  (CompileParses → yaml_ruleset data = inl embedded_raw ∨ data = "" ∨ (∃ err, yaml_ruleset data = inr err) →
    DefaultRuleset data ≡ hardcodedRuleset ∧
    (∀ text file, WScanner.ScanText (DefaultRuleset data) text file = WScanner.ScanText hardcodedRuleset text file) ∧
    (∀ ctx patch, ScanPatch (DefaultRuleset data) ctx patch = ScanPatch hardcodedRuleset ctx patch)).
Proof.
  split_and!.
  - intros rs. unfold parseRuleset. destruct (yaml_ruleset data) as [raw|]; [|done].
    destruct (compile_rules 0 (RSY_Rules raw)) eqn:E; [|done]. intros [= <-]. exists raw.
    apply compile_rules_inl in E. done.
  - intros e. unfold parseRuleset. destruct (yaml_ruleset data) as [raw|err]; [|intros _; left; eauto].
    destruct (compile_rules 0 (RSY_Rules raw)) eqn:E; [done|]. intros _. right.
    destruct (compile_rules_inr _ _ _ E) as (j & y & err & ? & ? & ? & _). by exists raw, j, y, err.
  - intros HC Hd. assert (DefaultRuleset data ≡ hardcodedRuleset) as Heq.
    { unfold DefaultRuleset. destruct (String.eqb_spec data ""); [reflexivity|].
      unfold parseRuleset. destruct Hd as [->|[->|[err ->]]]; [|done|reflexivity].
      destruct (compile_rules_specs 0 hardcoded_specs (RS_Rules hardcodedRuleset) HC) as (rs & E & Hrs).
      - repeat constructor; apply compile_spec_equiv;
          auto using denotes_001, denotes_002, denotes_003, denotes_004, denotes_005, denotes_006.
      - intros s Hs. repeat (apply elem_of_cons in Hs as [->|Hs]; [done|]). by apply elem_of_nil in Hs.
      - unfold embedded_raw. cbn [RSY_Rules RSY_Version]. rewrite E. by split_and!. }
    split_and!; [done| |]; intros; [by apply WScanText_equiv|by apply ScanPatch_equiv].
Qed.
End facts.
