(* ===== verification/Reporter.v ===== *)
(** * grid-worker/internal/reporter: packing, signing and submitting the output

    packer.go and reporter.go.  [ReadFile] stands for open, stat and the reads of one file,
    whose size is the length of its content; its error names the step that failed.
    Metadata is kept sorted by key, as encoding/json prints a map. *)
From S2P Require Import Prelude GoStd Crypto GoJson GoPath Domain Scheduler Http Policy WProg WClient.

#[local] Open Scope string_scope.
#[local] Open Scope Z_scope.

(** ** packer.go *)

Definition maxInlineSize : Z := 2 ^ 20.

Record ArtifactEntry := MkArtifactEntry {
  AE_RelPath : string;
  AE_Size : Z;
  AE_SHA256 : string;
  AE_Content : string;        (* empty when not inlined *)
}.

Record OutputPackage := MkOutputPackage {
  OP_TaskID : string;
  OP_WorkerID : string;
  OP_Artifacts : list ArtifactEntry;     (* nil when empty *)
  OP_Metadata : list (string * jdoc);
  OP_HMACSha256 : string;
}.

Definition set_metadata (m : list (string * jdoc)) (p : OutputPackage) : OutputPackage :=
  MkOutputPackage (OP_TaskID p) (OP_WorkerID p) (OP_Artifacts p) m (OP_HMACSha256 p).

Definition ArtifactEntry_json (a : ArtifactEntry) : jdoc :=
  DObj ([("rel_path", DStr (AE_RelPath a)); ("size", DInt (AE_Size a)); ("sha256", DStr (AE_SHA256 a))] ++
        omit_empty "content" (StdEncode (AE_Content a))).

(** The payload struct of signPackage. *)
Definition sign_payload (taskID workerID : string) (artifacts : list ArtifactEntry) (metadata : list (string * jdoc)) : string :=
  json_Marshal (DObj ([("task_id", DStr taskID); ("worker_id", DStr workerID);
    ("artifacts", match artifacts with [] => DNull | _ => DArr (map ArtifactEntry_json artifacts) end)] ++
    omit_empty_obj "metadata" metadata)).

Definition signPackage (pkg : OutputPackage) (secret : string) : string :=
  hex_EncodeToString (hmac_sha256 secret
    (sign_payload (OP_TaskID pkg) (OP_WorkerID pkg) (OP_Artifacts pkg) (OP_Metadata pkg))).

Definition file_entry (relPath content : string) : ArtifactEntry :=
  MkArtifactEntry relPath (str_len content) (hex_EncodeToString (Sum256 content))
    (if str_len content <? maxInlineSize then content else "").

Definition packFile (absPath relPath : string) : prog (fallible ArtifactEntry) :=
  r ← ask (ReadFile absPath);
  mret match r with
  | Err e => inr (Errorf (err_text e))
  | Ok content => inl (file_entry relPath content)
  end.

Section pack.
Context `{QT : Quoting}.

(** The test that an artifact escapes the workspace. *)
Definition escapes (workspacePath absPath : string) : bool :=
  let cleanWorkspace := Clean workspacePath in
  let cleanAbs := Clean absPath in
  ((String.length cleanAbs <=? String.length cleanWorkspace)%nat ||
   negb (String.eqb (str_take (S (String.length cleanWorkspace)) cleanAbs) (cleanWorkspace ++ "/"))) &&
  negb (String.eqb cleanAbs cleanWorkspace).

Fixpoint pack_artifacts (workspacePath : string) (artifacts : list string) : prog (fallible (list ArtifactEntry)) :=
  match artifacts with
  | [] => mret (inl [])
  | relPath :: rest =>
      let absPath := path_Join [workspacePath; relPath] in
      if escapes workspacePath absPath
      then mret (inr (Errorf ("artifact path " ++ Quote relPath ++ " escapes workspace")))
      else
        r ← packFile absPath relPath;
        match r with
        | inr e => mret (inr (wrap ("pack artifact " ++ Quote relPath) e))
        | inl entry =>
            r ← pack_artifacts workspacePath rest;
            mret match r with inr e => inr e | inl entries => inl (entry :: entries) end
        end
  end.

Definition Pack (taskID workerID workspacePath hmacSecret : string) (artifacts : list string) :
    prog (fallible OutputPackage) :=
  r ← pack_artifacts workspacePath artifacts;
  mret match r with
  | inr e => inr e
  | inl entries =>
      let pkg := MkOutputPackage taskID workerID entries [] "" in
      inl (MkOutputPackage taskID workerID entries [] (signPackage pkg hmacSecret))
  end.
End pack.

(** ** reporter.go *)

Definition submission_of (pkg : OutputPackage) : OutputSubmission :=
  MkOutputSubmission (OP_TaskID pkg) (OP_HMACSha256 pkg)
    (map (λ a, MkArtifactMeta (AE_RelPath a) (AE_SHA256 a) (AE_Size a)) (OP_Artifacts pkg))
    (OP_Metadata pkg) (OP_HMACSha256 pkg).

Definition maxRetries : Z := 3.
Definition backoffs : list Z := [Second; 2 * Second; 4 * Second].

Section submit.
Context `{UP : URLParse}.

(** The attempts with the given waits after them; there is none after the last one. *)
Fixpoint submit_attempts (c : Client) (submission : OutputSubmission) (waits : list Z) : prog (fallible unit) :=
  match waits with
  | [] => mret (inl tt)
  | backoff :: rest =>
      r ← SubmitOutput c submission;
      match r with
      | inl _ => mret (inl tt)
      | inr err =>
          match ce_As err with
          | Some (ServerError _ _) =>
              match rest with
              | [] => mret (inr (wrap ("submit output after " ++ Itoa maxRetries ++ " retries") err))
              | _ =>
                  waited ← ask (Wait backoff);
                  if negb waited then mret (inr (Errorf "context cancelled during retry"))
                  else submit_attempts c submission rest
              end
          | _ => mret (inr (wrap "submit output (permanent)" err))
          end
      end
  end.

Definition Reporter_Submit (c : Client) (pkg : OutputPackage) : prog (fallible unit) :=
  submit_attempts c (submission_of pkg) backoffs.
End submit.

(** ** Facts *)

Lemma path_Join_abs d p : IsAbs d = true → IsAbs (path_Join [d; p]) = true ∧ Clean (path_Join [d; p]) = path_Join [d; p].
Proof.
  intros Hd. assert (path_Join [d; p] = Clean (d ++ "/" ++ p)) as ->.
  { unfold path_Join. destruct (String.eqb_spec d "") as [->|]; [done|]. done. }
  assert (IsAbs (d ++ "/" ++ p) = true) as Ha.
  { unfold IsAbs in *. apply HasPrefix_spec in Hd as [t ->]. rewrite str_app_assoc. apply HasPrefix_app. }
  split; [by apply Clean_is_abs|by apply Clean_idempotent].
Qed.

Lemma str_take_prefix n s p : str_take n s = p → HasPrefix s p = true.
Proof. intros <-. apply HasPrefix_spec. exists (str_drop n s). by rewrite str_take_drop. Qed.

Lemma not_escapes_under d p :
  IsAbs d = true → IsAbs p = true → escapes d p = false → under d p.
Proof.
  intros Hd Hp. unfold escapes. rewrite andb_false_iff, orb_false_iff, !negb_false_iff, !String.eqb_eq.
  intros [[_ H]|H].
  - apply prefix_under; [done..|]. by eapply str_take_prefix.
  - exists []. rewrite app_nil_r, <-(Clean_segments p), <-(Clean_segments d) by done. by rewrite H.
Qed.

(** The calls that packing makes. *)
Definition reads_under (d : string) : ∀ X, call X → Prop := λ X c,
  match c with ReadFile p => IsAbs p = true ∧ Clean p = p ∧ under d p | _ => False end.

Section facts.
Context `{QT : Quoting}.

Lemma pack_artifacts_calls d artifacts : IsAbs d = true → calls_in (reads_under d) (pack_artifacts d artifacts).
Proof.
  intros Hd. induction artifacts as [|rel rest IH]; [done|]. cbn [pack_artifacts].
  destruct (escapes _ _) eqn:E; [done|]. destruct (path_Join_abs d rel Hd) as [Ha Hc].
  apply calls_in_bind.
  - simpl. split; [|done]. split_and!; [done..|]. by apply not_escapes_under.
  - intros [entry|e]; [|done]. apply calls_in_bind; [done|]. by intros [].
Qed.

Lemma Pack_calls taskID workerID d secret artifacts :
  IsAbs d = true → calls_in (reads_under d) (Pack taskID workerID d secret artifacts).
Proof. intros Hd. apply calls_in_bind; [by apply pack_artifacts_calls|]. by intros []. Qed.

(** The paths that are read, in order, when every read succeeds. *)
Lemma pack_artifacts_run (o : oracle) d artifacts content h :
  (∀ h p, o _ h (ReadFile p) = Ok (content p)) →
  Forall (λ rel, escapes d (path_Join [d; rel]) = false) artifacts →
  (run o h (pack_artifacts d artifacts)).1 = inl (map (λ rel, file_entry rel (content (path_Join [d; rel]))) artifacts).
Proof.
  intros Hr Ha. revert h. induction Ha as [|rel rest He Ha IH]; intros h; [done|].
  cbn [pack_artifacts]. rewrite He, run_bind_eq. unfold packFile. rewrite run_bind_eq, run_ask, Hr.
  cbn [run mret prog_ret fst snd]. rewrite run_bind_eq, IH. done.
Qed.

Lemma pack_artifacts_refused (o : oracle) d artifacts h :
  Exists (λ rel, escapes d (path_Join [d; rel]) = true) artifacts →
  ∃ e, (run o h (pack_artifacts d artifacts)).1 = inr e.
Proof.
  intros Ha. revert h. induction artifacts as [|rel rest IH]; intros h; [by inversion Ha|].
  cbn [pack_artifacts]. destruct (escapes d (path_Join [d; rel])) eqn:E; [by eexists|].
  rewrite run_bind_eq. case_match; [|by eexists]. rewrite run_bind_eq.
  edestruct IH as [e He]; [inversion Ha; [congruence|done]|]. rewrite He. by eexists.
Qed.

(** C17: Packing reads nothing outside the workspace: for an absolute workspace path, every
    file that Pack opens has a clean path whose segments continue those of the workspace
    (lexically: links are followed), whatever paths the agent lists; one path that leaves
    the workspace makes Pack fail; and when none does and the files can be read, the package
    has, in order, the size and SHA-256 of each file, its content exactly below 1 MiB, and
    the HMAC of the payload, in which the metadata is still empty. *)
Theorem Pack_contained (o : oracle) h taskID workerID d secret artifacts content :
  IsAbs d = true →
  (∃ es, (run o h (Pack taskID workerID d secret artifacts)).2 = (h ++ es)%list ∧ Forall (event_in (reads_under d)) es) ∧
  (Exists (λ rel, escapes d (path_Join [d; rel]) = true) artifacts →
   ∃ e, (run o h (Pack taskID workerID d secret artifacts)).1 = inr e) ∧
  ((∀ h p, o _ h (ReadFile p) = Ok (content p)) →
   Forall (λ rel, escapes d (path_Join [d; rel]) = false) artifacts →
   let entries := map (λ rel, file_entry rel (content (path_Join [d; rel]))) artifacts in
   (run o h (Pack taskID workerID d secret artifacts)).1 =
     inl (MkOutputPackage taskID workerID entries []
            (hex_EncodeToString (hmac_sha256 secret (sign_payload taskID workerID entries []))))).
Proof.
  intros Hd. split_and!.
  - by apply calls_in_events, Pack_calls.
  - intros Ha. unfold Pack. rewrite run_bind_eq.
    destruct (pack_artifacts_refused o d artifacts h Ha) as [e ->]. by exists e.
  - intros Hr Ha. unfold Pack. by rewrite run_bind_eq, (pack_artifacts_run o d artifacts content h Hr Ha).
Qed.
End facts.

Section submit_facts.
Context `{UP : URLParse}.

Lemma SubmitOutput_untyped (o : oracle) h c s e : (run o h (SubmitOutput c s)).1 = inr e → ce_As e = None.
Proof.
  unfold SubmitOutput. destruct (url_Parse _); [by intros [= <-]|]. rewrite run_bind, run_ask. simpl.
  destruct (o _ h _) as [resp|]; [|by intros [= <-]]. destruct (_ || _); by intros [= <-].
Qed.

Lemma SubmitOutput_events (o : oracle) h c s :
  (run o h (SubmitOutput c s)).2 = h ∨
  ∃ req r, (run o h (SubmitOutput c s)).2 = (h ++ [Event (HttpDo req) r])%list ∧
    ((run o h (SubmitOutput c s)).1 = inl tt ↔ ∃ resp, r = Ok resp ∧ (WP_Status resp = 202 ∨ WP_Status resp = 200)).
Proof.
  unfold SubmitOutput. destruct (url_Parse _); [by left|]. right. rewrite run_bind, run_ask. simpl.
  eexists _, _. split; [done|]. destruct (o _ h _) as [resp|e].
  - unfold StatusAccepted, StatusOK. destruct (Z.eqb_spec (WP_Status resp) 202); simpl.
    { split; [|done]. eauto. }
    destruct (Z.eqb_spec (WP_Status resp) 200); simpl; [split; [|done]; eauto|].
    split; [done|]. by intros (? & [= <-] & [?|?]).
  - split; [done|]. by intros (? & [=] & _).
Qed.

Lemma Reporter_Submit_run (o : oracle) h c pkg :
  run o h (Reporter_Submit c pkg) =
  let '(r, h') := run o h (SubmitOutput c (submission_of pkg)) in
  (match r with inl _ => inl tt | inr e => inr (wrap "submit output (permanent)" e) end, h').
Proof.
  unfold Reporter_Submit, backoffs. cbn [submit_attempts]. rewrite run_bind.
  pose proof (SubmitOutput_untyped o h c (submission_of pkg)) as Hu.
  destruct (run o h (SubmitOutput c (submission_of pkg))) as [[[]|e] h']; [done|]. by rewrite (Hu e).
Qed.

(** Submission is a single attempt: Reporter.Submit makes at most one request and never
    waits, whatever the control plane answers (5xx and network failures included, which
    the code means to retry three times), and succeeds exactly when the answer is 200 or 202. *)
Lemma Submit_once (o : oracle) h c pkg :
  url_Parse (C_baseURL c ++ "/api/v1/outputs") = None →
  ∃ req r, (run o h (Reporter_Submit c pkg)).2 = (h ++ [Event (HttpDo req) r])%list ∧
    ((run o h (Reporter_Submit c pkg)).1 = inl tt ↔ ∃ resp, r = Ok resp ∧ (WP_Status resp = 202 ∨ WP_Status resp = 200)).
Proof.
  intros Hurl. rewrite Reporter_Submit_run.
  destruct (SubmitOutput_events o h c (submission_of pkg)) as [E|(req & r & E & Hr)].
  { unfold SubmitOutput in E. rewrite Hurl in E. rewrite run_bind, run_ask in E. simpl in E.
    apply (f_equal length) in E. rewrite length_app in E. simpl in E. lia. }
  destruct (run o h (SubmitOutput c (submission_of pkg))) as [[[]|e] h']; simpl in *; subst h'.
  - exists req, r. split; [done|]. by rewrite <-Hr.
  - exists req, r. split; [done|]. split; [done|]. intros H. by apply Hr in H.
Qed.
End submit_facts.
