(* ===== verification/Workspace.v ===== *)
(** * grid-worker/internal/workspace: workspaces, disk quota and cloning

    manager.go, quota.go and clone.go over the calls of WProg.v.  go-git is behind [Clone]
    and [Checkout]; a walk that fails at the root has no files. *)
From S2P Require Import Prelude GoStd Float64 GoPath Domain Policy WScanner WProg WClient.
From Stdlib Require Import Ascii SpecFloat.

#[local] Open Scope string_scope.
#[local] Open Scope Z_scope.

(** ** manager.go *)

Definition taskPath (basePath taskID : string) : string :=
  let safe := Base taskID in
  let safe := if String.eqb safe "." || String.eqb safe ".." then "_invalid_" else safe in
  path_Join [basePath; safe].

Definition Create (basePath taskID : string) : prog (fallible string) :=
  let wsPath := taskPath basePath taskID in
  r ← ask (MkdirAll wsPath);
  mret match r with
  | Err e => fail ("create workspace for task " ++ taskID) e
  | Ok _ => inl wsPath
  end.

Definition Cleanup (basePath taskID : string) : prog (fallible unit) :=
  let wsPath := taskPath basePath taskID in
  exists_ ← ask (PathExists wsPath);
  if negb exists_ then mret (inl tt)
  else
    r ← ask (RemoveAll wsPath);
    mret match r with
    | Err e => fail ("cleanup workspace for task " ++ taskID) e
    | Ok _ => inl tt
    end.

(** The bytes of the files, as an int64; a file without Info counts nothing. *)
Definition total_bytes (files : list dir_file) : Z :=
  fold_left (λ n f, match df_size f with Some s => i64 (n + s) | None => n end) files 0.

Definition bytes_GB (n : Z) : spec_float := SFdiv 53 1024 (spec_of_int n) (spec_of_int (2 ^ 30)).

Definition usage_GB (path : string) : prog spec_float :=
  r ← ask (WalkDir path);
  mret (bytes_GB (total_bytes match r with Ok files => files | Err _ => [] end)).

Definition DiskUsageGB (basePath taskID : string) : prog spec_float := usage_GB (taskPath basePath taskID).

Section contained.
Context `{QT : Quoting}.

(** [wd] is the working directory. *)
Definition AssertContained (wd workspacePath filePath : string) : option string :=
  let absWorkspace := Abs wd workspacePath in
  let absFile := Abs wd filePath in
  let wsWithSep := if negb (HasSuffix absWorkspace "/") then absWorkspace ++ "/" else absWorkspace in
  if negb (String.eqb absFile absWorkspace) && negb (HasPrefix absFile wsWithSep)
  then Some ("path traversal detected: " ++ Quote filePath ++ " escapes workspace " ++ Quote workspacePath)
  else None.
End contained.

(** ** quota.go *)

Definition quotaCheckInterval : Z := 10 * Second.

(** The monitor for [ticks] ticks: [true] when it calls killFn. *)
Fixpoint QuotaMonitor_Start (workspacePath : string) (maxGB : spec_float) (ticks : nat) : prog bool :=
  match ticks with
  | O => mret false
  | S ticks =>
      ticked ← ask (Wait quotaCheckInterval);
      if negb ticked then mret false
      else
        usageGB ← usage_GB workspacePath;
        if SFltb maxGB usageGB then mret true
        else QuotaMonitor_Start workspacePath maxGB ticks
  end.

(** ** clone.go *)

Definition branch_byte (c : ascii) : bool :=
  let b := byte_val c in
  is_digit_byte c || ((97 <=? b) && (b <=? 122)) || ((65 <=? b) && (b <=? 90)) || has_byte c "._/-".

(** validBranchRe *)
Definition valid_branch (branch : string) : bool := negb (String.eqb branch "") && str_all branch_byte branch.

(** plumbing.NewBranchReferenceName *)
Definition branch_ref (branch : string) : string := "refs/heads/" ++ branch.

Definition clone_error (a : clone_answer) : option string :=
  match a with
  | Cloned => None
  | AlreadyExists => Some "repository already exists"
  | CloneFailed msg => Some msg
  end.

Section clone.
Context `{QT : Quoting}.

Definition CloneRepo (repoURL branch destPath : string) : prog (fallible unit) :=
  if negb (String.eqb branch "") && negb (valid_branch branch)
  then mret (inr (Errorf ("clone: invalid branch name " ++ Quote branch)))
  else
    a ← ask (Clone repoURL (branch_ref branch) destPath);
    match a with
    | Cloned | AlreadyExists => mret (inl tt)
    | CloneFailed err =>
        if negb (String.eqb branch "") then
          b ← ask (Clone repoURL "" destPath);
          match clone_error b with
          | Some fallbackErr =>
              mret (inr (Errorf ("clone " ++ Quote repoURL ++ " (branch " ++ Quote branch ++ ") failed: " ++ err ++
                "; fallback also failed: " ++ fallbackErr)))
          | None => _ ← ask (Checkout destPath (branch_ref branch)); mret (inl tt)
          end
        else mret (inr (Errorf ("clone " ++ Quote repoURL ++ ": " ++ err)))
    end.
End clone.

(** ** Facts *)

Lemma str_rev_app_spec s acc : str_rev_app s acc = str_rev s ++ acc.
Proof.
  unfold str_rev. revert acc. induction s as [|c s IH]; intros acc; [done|]. cbn [str_rev_app].
  rewrite IH, (IH (String c "")). by rewrite str_app_assoc.
Qed.

Lemma str_rev_cons c s : str_rev (String c s) = str_rev s ++ str1 c.
Proof. unfold str_rev. simpl. by rewrite str_rev_app_spec. Qed.

Lemma trim_left_head cut s : trim_left cut s = "" ∨ ∃ c t, trim_left cut s = String c t ∧ cut c = false.
Proof. induction s as [|c s IH]; simpl; [by left|]. destruct (cut c) eqn:E; [done|]. right. by exists c, s. Qed.

Lemma trim_left_all cut s : trim_left cut s = "" ↔ str_all cut s = true.
Proof. induction s as [|c s IH]; simpl; [done|]. by destruct (cut c). Qed.

Lemma str_all_rev p s : str_all p (str_rev s) = str_all p s.
Proof.
  induction s as [|c s IH]; [done|]. rewrite str_rev_cons, str_all_app, IH. simpl.
  rewrite andb_true_r. apply andb_comm.
Qed.

Lemma last_Split_snoc u c sep : c ≠ sep → List.last (Split (u ++ str1 c) sep) "" ≠ "".
Proof.
  intros Hc. induction u as [|d u IH].
  { simpl. by destruct (Ascii.eqb_spec c sep). }
  cbn [String.append Split]. pose proof (Split_ne (u ++ str1 c) sep) as Hne.
  destruct (Split (u ++ str1 c) sep) as [|x l]; [done|]. destruct (Ascii.eqb d sep); [exact IH|].
  destruct l; [done|exact IH].
Qed.

Lemma last_Split_piece s sep : has_byte sep (List.last (Split s sep) "") = false.
Proof.
  pose proof (λ x, Split_pieces s sep x) as Hp. destruct (Split s sep) as [|x l]; [done|].
  apply Hp. clear Hp. revert x. induction l as [|y l IH]; intros x; [by left|]. right. apply IH.
Qed.

(** The name of a path is one segment, unless the path consists of slashes. *)
Lemma Base_spec path :
  (Base path = "/" ∧ path ≠ "" ∧ str_all is_slash path = true) ∨
  (Base path ≠ "" ∧ has_byte slash (Base path) = false ∧ (path = "" ∨ str_all is_slash path = false)).
Proof.
  unfold Base. destruct (String.eqb_spec path "") as [->|Hne]; [right; by split_and!; [| |left]|].
  destruct (trim_left_head is_slash (str_rev path)) as [E|(c & t & E & Hc)].
  - rewrite E. simpl. left. apply trim_left_all in E. by rewrite str_all_rev in E.
  - rewrite E, str_rev_cons. assert (c ≠ slash) as Hcs by (by intros ->).
    pose proof (last_Split_snoc (str_rev t) c slash Hcs) as Hl.
    destruct (String.eqb_spec (List.last (Split (str_rev t ++ str1 c) slash) "") ""); [done|]. right.
    split_and!; [done|apply last_Split_piece|right].
    destruct (str_all is_slash path) eqn:Ea; [|done]. rewrite <-str_all_rev in Ea. apply trim_left_all in Ea. congruence.
Qed.

Lemma clean_segments_join d name :
  IsAbs d = true → plain name → clean_segments (path_Join [d; name]) = (clean_segments d ++ [name])%list.
Proof.
  intros Hd (Hne & Hdot & Hdots & Hs). assert (path_Join [d; name] = Clean (d ++ "/" ++ name)) as ->.
  { unfold path_Join. by destruct (String.eqb_spec d "") as [->|]. }
  assert (IsAbs (d ++ "/" ++ name) = true) as Ha.
  { unfold IsAbs in *. apply HasPrefix_spec in Hd as [t ->]. rewrite str_app_assoc. apply HasPrefix_app. }
  rewrite Clean_segments by done. unfold clean_segments. rewrite Ha, Hd.
  change ("/" ++ name) with (String slash name). rewrite Split_app, foldl_app, (Split_none name) by done.
  simpl. unfold clean_step at 1. rewrite !(proj2 (String.eqb_neq _ _)) by done. done.
Qed.

Lemma clean_join_slash d : IsAbs d = true → path_Join [d; "/"] = Clean d.
Proof.
  intros Hd. assert (path_Join [d; "/"] = Clean (d ++ "/" ++ "/")) as ->.
  { unfold path_Join. by destruct (String.eqb_spec d "") as [->|]. }
  assert (IsAbs (d ++ "/" ++ "/") = true) as Ha.
  { unfold IsAbs in *. apply HasPrefix_spec in Hd as [t ->]. rewrite str_app_assoc. apply HasPrefix_app. }
  rewrite (Clean_abs _ Ha), (Clean_abs _ Hd). unfold clean_segments. rewrite Ha, Hd.
  change ("/" ++ "/") with (String slash (String slash "")). by rewrite !Split_app, !foldl_app.
Qed.

(** The calls on directories touch [p] only. *)
Definition touches (p : string) : ∀ X, call X → Prop := λ X c,
  match c with MkdirAll q | PathExists q | RemoveAll q => q = p | _ => False end.

Lemma Create_calls basePath taskID : calls_in (touches (taskPath basePath taskID)) (Create basePath taskID).
Proof. split; [done|]. by intros [[]|]. Qed.

Lemma Cleanup_calls basePath taskID : calls_in (touches (taskPath basePath taskID)) (Cleanup basePath taskID).
Proof. split; [done|]. intros []; [|done]. split; [done|]. by intros [[]|]. Qed.

(** C18: Workspaces are confined: for an absolute base directory and any task id that is not
    made of slashes only, Create and Cleanup touch one path, a direct child of the base with
    a plain name (no separator, not a dot name), so that Cleanup can never remove the base
    or something outside it; but for an id of slashes that path is the base itself, and
    Cleanup removes the workspaces of all tasks. *)
Theorem workspace_confined basePath taskID :
  IsAbs basePath = true →
  calls_in (touches (taskPath basePath taskID)) (Create basePath taskID) ∧
  calls_in (touches (taskPath basePath taskID)) (Cleanup basePath taskID) ∧
  (taskID = "" ∨ str_all is_slash taskID = false →
   ∃ name, plain name ∧ clean_segments (taskPath basePath taskID) = (clean_segments basePath ++ [name])%list) ∧
  (taskID ≠ "" → str_all is_slash taskID = true → taskPath basePath taskID = Clean basePath).
Proof.
  intros Hb. split; [apply Create_calls|]. split; [apply Cleanup_calls|]. unfold taskPath.
  destruct (Base_spec taskID) as [(E & Hne & Hall)|(Hne & Hs & Hid)].
  - split; [intros [?|?]; congruence|]. intros _ _. rewrite E. by apply clean_join_slash.
  - split; [|intros ? ?; destruct Hid; congruence]. intros _.
    set (name := if _ || _ then "_invalid_" else Base taskID). exists name.
    assert (plain name) as Hp; [|split; [done|by apply clean_segments_join]].
    unfold name. destruct (String.eqb_spec (Base taskID) "."); [done|].
    by destruct (String.eqb_spec (Base taskID) "..").
Qed.
