(* ===== verification/Monitor.v ===== *)
(** * grid-worker/internal/executor/monitor.go: the resource monitor

    A tick samples the CPU and the memory; a failed sample is [None].  The monitor calls
    killFn when a limit is exceeded in two checks in a row. *)
From S2P Require Import Prelude Float64 Domain.
From Stdlib Require Import SpecFloat.

#[local] Open Scope Z_scope.

Definition monitorInterval : Z := 5 * Second.

Record Monitor := MkMonitor { maxCPUPercent : spec_float; maxRAMMB : Z }.

(** What a tick reads: cpu.Percent, [Some] of its list unless it fails, and the used bytes. *)
Record sample := MkSample { sm_percents : option (list spec_float); sm_Used : option Z }.

(** Both checks return whether the task may go on, and the new count of violations. *)
Definition count_violation (over : bool) (violations : Z) : bool * Z :=
  if over then
    let violations := violations + 1 in
    if 2 <=? violations then (false, violations) else (true, violations)
  else (true, 0).

Definition checkCPU (m : Monitor) (s : sample) (violations : Z) : bool * Z :=
  if SFleb (maxCPUPercent m) (spec_of_int 0) then (true, violations)
  else match sm_percents s with
       | None | Some [] => (true, violations)
       | Some (avgCPU :: _) => count_violation (SFltb (maxCPUPercent m) avgCPU) violations
       end.

Definition checkRAM (m : Monitor) (s : sample) (violations : Z) : bool * Z :=
  if maxRAMMB m <=? 0 then (true, violations)
  else match sm_Used s with
       | None => (true, violations)
       | Some used => count_violation (maxRAMMB m <? i64 (used / 2 ^ 20)) violations
       end.

(** The loop over the ticks before the context ends: the index of the tick that calls
    killFn, if there is one. *)
Fixpoint monitor_loop (m : Monitor) (samples : list sample) (cpuViolations ramViolations : Z) : option nat :=
  match samples with
  | [] => None
  | s :: rest =>
      let '(cpuOk, cpuViolations) := checkCPU m s cpuViolations in
      let '(ramOk, ramViolations) := checkRAM m s ramViolations in
      if negb cpuOk || negb ramOk then Some O else S <$> monitor_loop m rest cpuViolations ramViolations
  end.

Definition Monitor_Start (m : Monitor) (samples : list sample) : option nat := monitor_loop m samples 0 0.

(** ** Facts *)

(** Whether a sample is over the limit; [None] when there is no limit or no value. *)
Definition cpu_over (m : Monitor) (s : sample) : option bool :=
  if SFleb (maxCPUPercent m) (spec_of_int 0) then None
  else match sm_percents s with
       | None | Some [] => None
       | Some (avgCPU :: _) => Some (SFltb (maxCPUPercent m) avgCPU)
       end.
Definition ram_over (m : Monitor) (s : sample) : option bool :=
  if maxRAMMB m <=? 0 then None
  else match sm_Used s with None => None | Some used => Some (maxRAMMB m <? i64 (used / 2 ^ 20)) end.

Definition two_in_a_row (bs : list bool) : Prop := ∃ k, bs !! k = Some true ∧ bs !! S k = Some true.

Lemma two_in_a_row_cons b bs : two_in_a_row (b :: bs) ↔ (b = true ∧ head bs = Some true) ∨ two_in_a_row bs.
Proof.
  split.
  - intros ([|k] & H1 & H2); [left|right; by exists k]. simpl in *. destruct bs; simpl in *; by simplify_eq.
  - intros [[-> H]|(k & ? & ?)]; [exists 0%nat|by exists (S k)]. destruct bs; simpl in *; by simplify_eq.
Qed.

(** One counter, fed with the values of the checks. *)
Definition feed (over : option bool) (v : Z) : bool * Z :=
  match over with None => (true, v) | Some b => count_violation b v end.

Lemma checkCPU_feed m s v : checkCPU m s v = feed (cpu_over m s) v.
Proof. unfold checkCPU, cpu_over. destruct (SFleb _ _); [done|]. by destruct (sm_percents s) as [[|]|]. Qed.
Lemma checkRAM_feed m s v : checkRAM m s v = feed (ram_over m s) v.
Proof. unfold checkRAM, ram_over. destruct (_ <=? _); [done|]. by destruct (sm_Used s). Qed.

(** The values that a count of 0 or 1 stands for. *)
Definition before (v : Z) : list bool := if v =? 0 then [] else [true].

Lemma feed_spec over v bs :
  v = 0 ∨ v = 1 →
  match feed over v with
  | (true, v') => (v' = 0 ∨ v' = 1) ∧
      (two_in_a_row (before v ++ option_list over ++ bs) ↔ two_in_a_row (before v' ++ bs))
  | (false, _) => two_in_a_row (before v ++ option_list over ++ bs)
  end.
Proof.
  intros Hv. destruct over as [[]|]; [|simpl|done].
  - destruct Hv as [->| ->]; simpl; [|exists 0%nat]; auto.
  - split; [by left|]. destruct Hv as [->| ->]; simpl; rewrite !two_in_a_row_cons; simpl; naive_solver.
Qed.

Lemma monitor_loop_spec m samples cv rv :
  (cv = 0 ∨ cv = 1) → (rv = 0 ∨ rv = 1) →
  is_Some (monitor_loop m samples cv rv) ↔
  two_in_a_row (before cv ++ omap (cpu_over m) samples) ∨ two_in_a_row (before rv ++ omap (ram_over m) samples).
Proof.
  revert cv rv. induction samples as [|s rest IH]; intros cv rv Hc Hr.
  { assert (∀ v, (v = 0 ∨ v = 1) → ¬ two_in_a_row (before v ++ [])) as Hn.
    { intros v [->| ->] ([|k] & H1 & H2); simpl in *; done. }
    simpl. split; [by intros [? [=]]|]. intros [H|H]; exfalso; [by eapply (Hn cv)|by eapply (Hn rv)]. }
  assert (∀ f : sample → option bool, omap f (s :: rest) = option_list (f s) ++ omap f rest)%list as Ho.
  { intros f. simpl. by destruct (f s). }
  cbn [monitor_loop]. rewrite checkCPU_feed, checkRAM_feed, !Ho.
  pose proof (feed_spec (cpu_over m s) cv (omap (cpu_over m) rest) Hc) as Fc.
  pose proof (feed_spec (ram_over m s) rv (omap (ram_over m) rest) Hr) as Fr.
  destruct (feed (cpu_over m s) cv) as [[] cv'], (feed (ram_over m s) rv) as [[] rv']; simpl;
    [|split; [auto|by eexists]..].
  destruct Fc as [Hc' ->], Fr as [Hr' ->]. rewrite fmap_is_Some. by apply IH.
Qed.

(** The resource monitor kills a task exactly when two samples in a row of the CPU, or
    two in a row of the memory, exceed their limit, where failed samples do not count: they
    neither start nor interrupt a sequence, and with no limit there is no sample. *)
Lemma monitor_two_in_a_row m samples :
  is_Some (Monitor_Start m samples) ↔
  two_in_a_row (omap (cpu_over m) samples) ∨ two_in_a_row (omap (ram_over m) samples).
Proof. by apply monitor_loop_spec; left. Qed.
