(* ===== verification/Adapters.v ===== *)
(** * grid-worker/internal/adapters: the agents and their command lines

    Every adapter finds its binary, builds an argument vector and an environment, and runs
    the process in the workspace.  [map_range] is the order in which Go ranges over a map.
    An answer of [Exec] is a process that has ended, with exit code -1 when it was killed. *)
From S2P Require Import Prelude GoStd GoJson Regexp Policy WProg WClient.
From Stdlib Require Import Ascii.

#[local] Open Scope string_scope.
#[local] Open Scope Z_scope.

(** ** adapter.go and registry.go *)

Record ExecuteRequest := MkExecuteRequest {
  ER_WorkspacePath : string;
  ER_TaskType : string;
  ER_Description : string;
  ER_Options : gmap string string;
}.

Record ExecuteResult := MkExecuteResult {
  EX_ExitCode : Z;
  EX_Stdout : string;
  EX_Stderr : string;
  EX_Artifacts : list string;
}.

Record AgentAdapter := MkAgentAdapter {
  AA_ID : string;
  AA_Version : prog (fallible string);
  AA_Execute : ExecuteRequest → prog (fallible ExecuteResult);
}.

Definition Registry : Type := gmap string AgentAdapter.

Definition NewRegistry : Registry := ∅.
Definition Registry_Register (a : AgentAdapter) (r : Registry) : Registry := <[AA_ID a := a]> r.
Definition Registry_Get (id : string) (r : Registry) : option AgentAdapter := r !! id.

Definition Registry_List (r : Registry) : list string := merge_sort str_le (map fst (map_to_list r)).

(** ** What the adapters share *)

Class MapRange := map_range : gmap string string → list (string * string).
Class MapRangeLaws `{MapRange} := map_range_perm : ∀ m, map_range m ≡ₚ map_to_list m.

(** The variables that are set, in the order of the keys. *)
Fixpoint env_of (keys : list string) : prog (list string) :=
  match keys with
  | [] => mret []
  | key :: keys =>
      v ← ask (Getenv key);
      rest ← env_of keys;
      mret (if negb (String.eqb v "") then (key ++ "=" ++ v) :: rest else rest)
  end.

(** The first of the variables that is set. *)
Fixpoint first_env (keys : list string) : prog (list string) :=
  match keys with
  | [] => mret []
  | key :: keys =>
      v ← ask (Getenv key);
      if negb (String.eqb v "") then mret [key ++ "=" ++ v] else first_env keys
  end.

Definition common_keys : list string := ["PATH"; "HOME"; "TMPDIR"; "TMP"; "TEMP"; "USERPROFILE"].

(** Version: the first line of the program's output, trimmed. *)
Definition agent_version (binary : string) (env : prog (list string)) : prog (fallible string) :=
  p ← ask (LookPath binary);
  match p with
  | Err e => mret (fail (binary ++ " binary not found on PATH") e)
  | Ok path =>
      env ← env;
      r ← ask (Exec path ["--version"] "" env);
      mret match r with
      | Err e => fail (binary ++ " --version failed") e
      | Ok pr =>
          if PR_ExitCode pr =? 0 then inl (TrimSpace (PR_Stdout pr))
          else inr (Errorf (binary ++ " --version failed: exit status " ++ Itoa (PR_ExitCode pr)))
      end
  end.

(** Execute, for a command line that is known. *)
Definition agent_run (binary name : string) (argv : list string) (env : prog (list string))
    (artifacts : process_result → list string) (req : ExecuteRequest) : prog (fallible ExecuteResult) :=
  p ← ask (LookPath binary);
  match p with
  | Err e => mret (fail (binary ++ " binary not found on PATH") e)
  | Ok path =>
      env ← env;
      r ← ask (Exec path argv (ER_WorkspacePath req) env);
      mret match r with
      | Err e => fail ("execute " ++ name) e
      | Ok pr => inl (MkExecuteResult (PR_ExitCode pr) (PR_Stdout pr) (PR_Stderr pr) (artifacts pr))
      end
  end.

(** ** chatgpt, copilot, gemini *)

Definition chatgpt_minimalEnv : prog (list string) := env_of (common_keys ++ ["OPENAI_API_KEY"]).
Definition chatgpt_argv (req : ExecuteRequest) : list string := ["--code"; ER_Description req].
Definition chatgpt_Execute (req : ExecuteRequest) : prog (fallible ExecuteResult) :=
  agent_run "sgpt" "sgpt" (chatgpt_argv req) chatgpt_minimalEnv (λ _, []) req.
Definition chatgpt_Adapter : AgentAdapter :=
  MkAgentAdapter "chatgpt" (agent_version "sgpt" chatgpt_minimalEnv) chatgpt_Execute.

Definition copilot_minimalEnv : prog (list string) := env_of (common_keys ++ ["GH_TOKEN"]).
Definition copilot_argv (req : ExecuteRequest) : list string := ["copilot"; "suggest"; "-t"; "shell"; ER_Description req].
Definition copilot_Execute (req : ExecuteRequest) : prog (fallible ExecuteResult) :=
  agent_run "gh" "gh copilot" (copilot_argv req) copilot_minimalEnv (λ _, []) req.
Definition copilot_Adapter : AgentAdapter :=
  MkAgentAdapter "copilot" (agent_version "gh" copilot_minimalEnv) copilot_Execute.

Definition defaultModel : string := "gemini-2.5-pro".
Definition gemini_minimalEnv : prog (list string) := env_of (common_keys ++ ["GEMINI_API_KEY"]).
Definition gemini_argv (req : ExecuteRequest) : list string :=
  let model := match ER_Options req !! "model" with Some m => m | None => defaultModel end in
  ["--model"; model; "--prompt"; ER_Description req].
Definition gemini_Execute (req : ExecuteRequest) : prog (fallible ExecuteResult) :=
  agent_run "gemini" "gemini" (gemini_argv req) gemini_minimalEnv (λ _, []) req.
Definition gemini_Adapter : AgentAdapter :=
  MkAgentAdapter "gemini" (agent_version "gemini" gemini_minimalEnv) gemini_Execute.

(** ** claude *)

Record claudeOutput := MkClaudeOutput { CO_Result : string; CO_Artifacts : list string; CO_Error : string }.

Definition claude_allowedOptions (k : string) : bool := String.eqb k "model" || String.eqb k "max-tokens".

Definition claude_minimalEnv : prog (list string) :=
  path ← env_of ["PATH"; "HOME"];
  tmp ← first_env ["TMPDIR"; "TMP"; "TEMP"];
  profile ← env_of ["USERPROFILE"];
  mret (path ++ tmp ++ profile)%list.

Section claude.
Context `{MR : MapRange} `{CU : JSONUnmarshal claudeOutput}.

Definition claude_argv (req : ExecuteRequest) : list string :=
  (["--no-interactive"; "--output-format"; "json"; "-p"; ER_Description req] ++
   List.flat_map (λ kv, if claude_allowedOptions (fst kv) then [("--" ++ fst kv)%string; snd kv] else [])
     (map_range (ER_Options req)))%list.

Definition claude_artifacts (pr : process_result) : list string :=
  if (PR_ExitCode pr =? 0) && negb (String.eqb (PR_Stdout pr) "")
  then match CU (PR_Stdout pr) with inl output => CO_Artifacts output | inr _ => [] end
  else [].

Definition claude_Execute (req : ExecuteRequest) : prog (fallible ExecuteResult) :=
  agent_run "claude" "claude" (claude_argv req) claude_minimalEnv claude_artifacts req.
Definition claude_Adapter : AgentAdapter :=
  MkAgentAdapter "claude" (agent_version "claude" claude_minimalEnv) claude_Execute.

(** The registry that the daemon builds. *)
Definition daemon_registry : Registry :=
  Registry_Register chatgpt_Adapter (Registry_Register gemini_Adapter (Registry_Register copilot_Adapter
    (Registry_Register claude_Adapter NewRegistry))).
End claude.

(** ** custom *)

Definition is_unicode_space (n : Z) : bool :=
  ((9 <=? n) && (n <=? 13)) || (n =? 32) || (n =? 133) || (n =? 160) || (n =? 5760) ||
  ((8192 <=? n) && (n <=? 8202)) || (n =? 8232) || (n =? 8233) || (n =? 8239) || (n =? 8287) || (n =? 12288).

(** [strings.Fields]: the words between white space; [word] is the one being read. *)
Fixpoint fields_from (word : string) (s : list rune) : list string :=
  match s with
  | [] => if String.eqb word "" then [] else [word]
  | (n, bytes) :: s =>
      if is_unicode_space n
      then (if String.eqb word "" then fields_from "" s else word :: fields_from "" s)
      else fields_from (word ++ bytes) s
  end.
Definition Fields (s : string) : list string := fields_from "" (decode_runes s).

Record custom_Config := MkCustomConfig { CC_CommandTemplate : string; CC_AllowedOptions : list string }.

Record templateData := MkTemplateData {
  TD_Description : string;
  TD_WorkspacePath : string;
  TD_Options : gmap string string;
}.

Section custom.
(** text/template: the rendered text or the error *)
Variable template_Execute : string → templateData → string + string.
Context `{QT : Quoting}.

Definition custom_minimalEnv : prog (list string) := env_of common_keys.

Definition custom_data (cfg : custom_Config) (req : ExecuteRequest) : templateData :=
  MkTemplateData (ER_Description req) (ER_WorkspacePath req)
    (filter (λ kv, kv.1 ∈ CC_AllowedOptions cfg) (ER_Options req)).

Definition custom_Execute (cfg : custom_Config) (req : ExecuteRequest) : prog (fallible ExecuteResult) :=
  match template_Execute (CC_CommandTemplate cfg) (custom_data cfg req) with
  | inr e => mret (inr (Errorf ("render command template: " ++ e)))
  | inl rendered =>
      match Fields rendered with
      | [] => mret (inr (Errorf "command template rendered to empty string"))
      | binary :: argv =>
          p ← ask (LookPath binary);
          match p with
          | Err e => mret (fail ("custom binary " ++ Quote binary ++ " not found on PATH") e)
          | Ok path =>
              env ← custom_minimalEnv;
              r ← ask (Exec path argv (ER_WorkspacePath req) env);
              mret match r with
              | Err e => fail "execute custom command" e
              | Ok pr => inl (MkExecuteResult (PR_ExitCode pr) (PR_Stdout pr) (PR_Stderr pr) [])
              end
          end
      end
  end.

Definition custom_Adapter (cfg : custom_Config) : AgentAdapter :=
  MkAgentAdapter "custom" (mret (inl "custom-adapter-v1")) (custom_Execute cfg).
End custom.

(** ** Facts *)

(** The variable that a call reads, as an entry of an environment when it is set. *)
Definition env_entry (e : event) : list string :=
  match e with
  | Event c x =>
      match c in call X return X → list string with
      | Getenv k => λ v, if negb (String.eqb v "") then [k ++ "=" ++ v] else []
      | _ => λ _, []
      end x
  end.

Definition env_entries (es : list event) : list string := List.flat_map env_entry es.

(** Reads of the given variables and nothing else. *)
Definition reads_in (keys : list string) (e : event) : Prop :=
  event_in (λ X c, match c with Getenv k => k ∈ keys | _ => False end) e.

(** A program that reads some of the variables and returns the ones it read that are set. *)
Definition env_prog (keys : list string) (p : prog (list string)) : Prop := ∀ o h,
  ∃ es, (run o h p).2 = (h ++ es)%list ∧ Forall (reads_in keys) es ∧ (run o h p).1 = env_entries es.

Lemma env_prog_ret keys : env_prog keys (mret []).
Proof. intros o h. exists []. rewrite app_nil_r. split_and!; [done|by apply Forall_nil|done]. Qed.

Lemma env_prog_app {keys} p (f : list string → prog (list string)) q :
  env_prog keys p → env_prog keys q → (∀ a, f a = (b ← q; mret (a ++ b)%list)) → env_prog keys (p ≫= f).
Proof.
  intros Hp Hq Hf o h. rewrite run_bind_eq, Hf, run_bind_eq. destruct (Hp o h) as (es & E & Hes & ->).
  destruct (Hq o (run o h p).2) as (es' & E' & Hes' & ->). cbn [run mret prog_ret fst snd].
  exists (es ++ es')%list. rewrite E', E, app_assoc. unfold env_entries. rewrite flat_map_app.
  split_and!; [done|by apply Forall_app|done].
Qed.

Lemma env_prog_ask keys k (f : string → prog (list string)) (q : string → prog (list string)) :
  k ∈ keys → (∀ v, env_prog keys (q v)) →
  (∀ v, f v = (b ← q v; mret ((if negb (String.eqb v "") then [(k ++ "=" ++ v)%string] else []) ++ b)%list)) →
  env_prog keys (v ← ask (Getenv k); f v).
Proof.
  intros Hk Hq Hf o h. rewrite run_bind_eq, run_ask. cbn [fst snd]. rewrite Hf, run_bind_eq.
  set (v := o _ h (Getenv k)). destruct (Hq v o (h ++ [Event (Getenv k) v])%list) as (es & E & Hes & ->).
  cbn [run mret prog_ret fst snd]. exists (Event (Getenv k) v :: es). rewrite E, <-app_assoc.
  split_and!; [done|by constructor|done].
Qed.

Lemma env_prog_run keys p q : (∀ o h, run o h p = run o h q) → env_prog keys q → env_prog keys p.
Proof. intros E Hq o h. rewrite E. apply Hq. Qed.

Lemma env_of_prog keys ks : ks ⊆ keys → env_prog keys (env_of ks).
Proof.
  induction ks as [|k ks IH]; intros Hk; [apply env_prog_ret|]. cbn [env_of].
  eapply (env_prog_run _ _ (v ← ask (Getenv k); rest ← env_of ks;
    mret ((if negb (String.eqb v "") then [(k ++ "=" ++ v)%string] else []) ++ rest)%list)).
  - intros o h. rewrite !run_bind_eq, !run_ask. cbn [fst snd]. by destruct (negb _).
  - eapply (env_prog_ask _ _ _ (λ _, env_of ks)); [apply Hk; by left|intros; apply IH; set_solver|done].
Qed.

Lemma first_env_prog keys ks : ks ⊆ keys → env_prog keys (first_env ks).
Proof.
  induction ks as [|k ks IH]; intros Hk; [apply env_prog_ret|]. cbn [first_env].
  eapply (env_prog_run _ _ (v ← ask (Getenv k); rest ← (if negb (String.eqb v "") then mret [] else first_env ks);
    mret ((if negb (String.eqb v "") then [(k ++ "=" ++ v)%string] else []) ++ rest)%list)).
  - intros o h. rewrite !run_bind_eq, !run_ask. cbn [fst snd]. destruct (negb _); [done|].
    cbn [run mret prog_ret fst snd app]. by destruct (run o _ (first_env ks)).
  - eapply (env_prog_ask _ _ _ (λ v, if negb (String.eqb v "") then mret [] else first_env ks));
      [apply Hk; by left| |done].
    intros v. destruct (negb _); [apply env_prog_ret|apply IH; set_solver].
Qed.

Lemma env_prog_bind keys p q :
  env_prog keys p → env_prog keys q → env_prog keys (a ← p; b ← q; mret (a ++ b)%list).
Proof. intros Hp Hq. by eapply (env_prog_app _ _ q). Qed.

(** What an agent does, call by call: it looks its binary up, reads variables, and runs the
    program found, with its command line, in the directory, in the environment of the
    variables that are set; its result is that of the process. *)
Definition agent_trace (binary : string) (keys argv : list string) (dir : string) (es : list event)
    (res : fallible ExecuteResult) : Prop :=
  (∃ e err, es = [Event (LookPath binary) (Err e)] ∧ res = inr err) ∨
  (∃ path reads r, es = (Event (LookPath binary) (Ok path) :: reads ++ [Event (Exec path argv dir (env_entries reads)) r])%list ∧
     Forall (reads_in keys) reads ∧
     match r, res with
     | Ok pr, inl x => EX_ExitCode x = PR_ExitCode pr ∧ EX_Stdout x = PR_Stdout pr ∧ EX_Stderr x = PR_Stderr pr
     | Err _, inr _ => True
     | _, _ => False
     end).

Lemma agent_run_trace binary name keys argv env artifacts req o h :
  env_prog keys env →
  ∃ es, (run o h (agent_run binary name argv env artifacts req)).2 = (h ++ es)%list ∧
    agent_trace binary keys argv (ER_WorkspacePath req) es (run o h (agent_run binary name argv env artifacts req)).1.
Proof.
  intros He. unfold agent_run. rewrite run_bind_eq, run_ask. cbn [fst snd].
  destruct (o _ h (LookPath binary)) as [path|e].
  - rewrite run_bind_eq. set (h1 := (h ++ [Event (LookPath binary) (Ok path)])%list).
    destruct (He o h1) as (reads & E & Hr & ->). rewrite E, run_bind_eq, run_ask. cbn [run mret prog_ret fst snd].
    set (r := o _ _ (Exec _ _ _ _)).
    exists (Event (LookPath binary) (Ok path) :: reads ++ [Event (Exec path argv (ER_WorkspacePath req) (env_entries reads)) r])%list.
    split; [unfold h1; by rewrite <-!app_assoc|]. right. exists path, reads, r. split_and!; [done|done|]. by destruct r.
  - exists [Event (LookPath binary) (Err e)]. split; [done|]. left. by eexists _, _.
Qed.

Section registry_facts.
Context `{MR : MapRange} `{!MapRangeLaws} `{CU : JSONUnmarshal claudeOutput}.

(** The binary, the variables and the command line of each agent of the daemon. *)
Definition agent_profile (id : string) (req : ExecuteRequest) : option (string * list string * list string) :=
  if String.eqb id "claude" then Some ("claude", common_keys, claude_argv req)
  else if String.eqb id "copilot" then Some ("gh", (common_keys ++ ["GH_TOKEN"])%list, copilot_argv req)
  else if String.eqb id "gemini" then Some ("gemini", (common_keys ++ ["GEMINI_API_KEY"])%list, gemini_argv req)
  else if String.eqb id "chatgpt" then Some ("sgpt", (common_keys ++ ["OPENAI_API_KEY"])%list, chatgpt_argv req)
  else None.

Lemma daemon_registry_get id :
  Registry_Get id daemon_registry =
  if String.eqb id "claude" then Some claude_Adapter else if String.eqb id "copilot" then Some copilot_Adapter
  else if String.eqb id "gemini" then Some gemini_Adapter else if String.eqb id "chatgpt" then Some chatgpt_Adapter
  else None.
Proof.
  unfold Registry_Get, daemon_registry, Registry_Register, NewRegistry, Registry. cbn [AA_ID claude_Adapter copilot_Adapter gemini_Adapter chatgpt_Adapter].
  destruct (String.eqb_spec id "claude") as [->|]; [done|]. destruct (String.eqb_spec id "copilot") as [->|]; [done|].
  destruct (String.eqb_spec id "gemini") as [->|]; [done|]. destruct (String.eqb_spec id "chatgpt") as [->|]; [done|].
  rewrite !lookup_insert_ne by done. apply lookup_empty.
Qed.

(** C19: Agents are run without a shell and with a minimal environment: whatever the task
    says and the system answers, the adapter that the daemon's registry holds for an agent
    looks up one binary and, if it is found, reads only the listed variables and then runs
    the program found, once, with its own command line, in the workspace, in an environment
    of exactly the variables it read that are set; it makes no other call, and returns what
    the process returned.  The description is one argument of the command line, and the only
    other arguments that depend on the task are the values of allowlisted options. *)
Theorem agents_confined id a req o h :
  Registry_Get id daemon_registry = Some a →
  ∃ binary keys argv, agent_profile id req = Some (binary, keys, argv) ∧
    (∃ es, (run o h (AA_Execute a req)).2 = (h ++ es)%list ∧
       agent_trace binary keys argv (ER_WorkspacePath req) es (run o h (AA_Execute a req)).1) ∧
    ER_Description req ∈ argv ∧
    (∀ arg, arg ∈ argv → arg = ER_Description req ∨
       arg ∈ ["--no-interactive"; "--output-format"; "json"; "-p"; "--model"; "--max-tokens"; "copilot"; "suggest"; "-t";
              "shell"; "--prompt"; "--code"; defaultModel] ∨
       ∃ k, claude_allowedOptions k = true ∧ ER_Options req !! k = Some arg).
Proof.
  rewrite daemon_registry_get. unfold agent_profile.
  destruct (String.eqb id "claude"); [intros [= <-]|destruct (String.eqb id "copilot"); [intros [= <-]|
    destruct (String.eqb id "gemini"); [intros [= <-]|destruct (String.eqb id "chatgpt"); [intros [= <-]|done]]]];
    eexists _, _, _; (split; [done|]); split_and!.
  - apply agent_run_trace. eapply (env_prog_run _ _ (a ← env_of ["PATH"; "HOME"];
      b ← (b ← first_env ["TMPDIR"; "TMP"; "TEMP"]; c ← env_of ["USERPROFILE"]; mret (b ++ c)%list); mret (a ++ b)%list)).
    + intros o1 h1. unfold claude_minimalEnv. rewrite !run_bind_eq. done.
    + apply env_prog_bind; [|apply env_prog_bind]; [apply env_of_prog|apply first_env_prog|apply env_of_prog]; set_solver.
  - set_solver.
  - intros arg. unfold claude_argv. intros [Ha|Ha]%elem_of_app; [set_solver|].
    apply list_elem_of_In, in_flat_map in Ha as ([k v] & Hin%list_elem_of_In & Harg). simpl in Harg.
    rewrite map_range_perm in Hin. apply elem_of_map_to_list in Hin.
    destruct (claude_allowedOptions k) eqn:Ek; [|done]. destruct Harg as [<-|[<-|[]]]; [|right; right; eauto].
    unfold claude_allowedOptions in Ek. apply orb_true_iff in Ek. rewrite !String.eqb_eq in Ek.
    destruct Ek as [->| ->]; set_solver.
  - apply agent_run_trace. by apply env_of_prog.
  - set_solver.
  - set_solver.
  - apply agent_run_trace. by apply env_of_prog.
  - set_solver.
  - intros arg. unfold gemini_argv. destruct (ER_Options req !! "model") as [m|] eqn:E; [|set_solver].
    rewrite !elem_of_cons, elem_of_nil. intros [->|[->|[->|[->|[]]]]]; [set_solver| |set_solver|by left].
    right. right. by exists "model".
  - apply agent_run_trace. by apply env_of_prog.
  - set_solver.
  - set_solver.
Qed.
End registry_facts.
