(* ===== verification/Platform.v ===== *)
(** * pkg/platform and config.Load: the worker's directories, battery and priority

    The Unix builds: paths.go, battery_linux.go, battery_darwin.go, priority_linux.go and
    priority_darwin.go, as programs over the calls of WProg.v; and Load of
    internal/config/config.go, whose viper is a parameter.  SetLowPriority and Watch are
    never called by the program. *)
From S2P Require Import Prelude GoStd Float64 GoPath Http CpConfig WConfig Policy JsonDecode WScanner WProg WClient Adapters.
From Stdlib Require Import SpecFloat.

#[local] Open Scope string_scope.
#[local] Open Scope Z_scope.

(** ** paths.go *)

Definition ConfigDir : prog string :=
  home ← ask UserHomeDir;
  home ← match home with
         | Ok home => mret home
         | Err _ =>
             home ← ask (Getenv "HOME");
             mret (if String.eqb home "" then "/tmp" else home)
         end;
  mret (path_Join [home; ".grid-worker"]).

Definition WorkspaceDir : prog string :=
  dir ← ConfigDir;
  mret (path_Join [dir; "workspace"]).

Definition LogDir : prog string :=
  dir ← ConfigDir;
  mret (path_Join [dir; "logs"]).

Section dirs.
Context `{QT : Quoting}.

Fixpoint ensure_all (dirs : list string) : prog (fallible unit) :=
  match dirs with
  | [] => mret (inl tt)
  | dir :: dirs =>
      r ← ask (MkdirAll dir);
      match r with
      | Err e => mret (inr (Errorf ("failed to create directory " ++ Quote dir ++ ": " ++ err_text e)))
      | Ok _ => ensure_all dirs
      end
  end.

Definition EnsureDirs : prog (fallible unit) :=
  config ← ConfigDir;
  workspace ← WorkspaceDir;
  log ← LogDir;
  ensure_all [config; workspace; log].
End dirs.

(** ** battery.go *)

Definition upper_byte (c : Ascii.ascii) : Ascii.ascii :=
  if (97 <=? byte_val c) && (byte_val c <=? 122) then byte_of (byte_val c - 32) else c.

(** HasPrefix (strings.ToUpper name, "BAT"): no rune outside ASCII has B, A or T as its upper
    case, so the bytes of the prefix decide. *)
Definition is_battery_name (name : string) : bool :=
  match name with
  | String a (String b (String c _)) => String.eqb (String (upper_byte a) (String (upper_byte b) (str1 (upper_byte c)))) "BAT"
  | _ => false
  end.

Definition TrimSuffix (s p : string) : string :=
  if HasSuffix s p then str_take (String.length s - String.length p) s else s.

Section battery.
Context `{PF : ParseFloat64}.

Definition powerSupplyDir : string := "/sys/class/power_supply".

Fixpoint find_battery (entries : list string) : prog (option spec_float) :=
  match entries with
  | [] => mret None
  | name :: entries =>
      if negb (is_battery_name name) then find_battery entries
      else
        typeBytes ← ask (ReadFile (path_Join [powerSupplyDir; name; "type"]));
        match typeBytes with
        | Err _ => find_battery entries
        | Ok kind =>
            if negb (String.eqb (TrimSpace kind) "Battery") then find_battery entries
            else
              capacity ← ask (ReadFile (path_Join [powerSupplyDir; name; "capacity"]));
              match capacity with
              | Err _ => find_battery entries
              | Ok text =>
                  match parse_float (TrimSpace text) with
                  | Some percent => mret (Some percent)
                  | None => find_battery entries
                  end
              end
        end
  end.

(** battery_linux.go *)
Definition readBatteryFromSystem_linux : prog (option spec_float) :=
  entries ← ask (ReadDir powerSupplyDir);
  match entries with
  | Err _ => mret None
  | Ok entries => find_battery entries
  end.

(** battery_darwin.go *)
Definition percent_of (part : string) : option spec_float :=
  match parse_float (TrimSuffix (TrimSuffix part "%;") "%") with
  | Some percent => if SFleb (S754_zero false) percent && SFleb percent (spec_of_int 100) then Some percent else None
  | None => None
  end.

Fixpoint first_some {A B} (f : A → option B) (l : list A) : option B :=
  match l with
  | [] => None
  | x :: l => match f x with Some b => Some b | None => first_some f l end
  end.

Definition pmset_percent (output : string) : option spec_float :=
  first_some (λ line, if Contains line "%" then first_some percent_of (Fields line) else None) (Split output chr_lf).

(** An exit status other than 0 is an error of Output. *)
Definition readBatteryFromSystem_darwin : prog (option spec_float) :=
  out ← ask (Output "pmset" ["-g"; "batt"]);
  mret match out with
  | Ok pr => if PR_ExitCode pr =? 0 then pmset_percent (PR_Stdout pr) else None
  | Err _ => None
  end.

(** BatteryPercent, over the reader of the platform; the answer about the sensors and the
    host is not used, except that a failing host.Info means no battery. *)
Definition BatteryPercent (readBatteryPercent : prog (option spec_float)) : prog (option spec_float) :=
  _ ← ask HostSensors;
  info ← ask HostInfo;
  match info with
  | Err _ => mret None
  | Ok _ => readBatteryPercent
  end.
End battery.

(** ** priority_linux.go, priority_darwin.go *)

Definition ioprioClassBE : Z := 2.
Definition ioprioClassShift : Z := 13.

(** The system call is made twice, the first time with a null pointer for the value; only the
    second answer counts. *)
Definition ioprioSet (which who ioprio : Z) : prog (result unit) :=
  _ ← ask (IoprioSet which who 0);
  ask (IoprioSet which who ioprio).

Definition SetLowPriority_linux : prog (fallible unit) :=
  r ← ask (Setpriority 0 19);
  match r with
  | Err e => mret (inr (Errorf ("setpriority failed: " ++ err_text e)))
  | Ok _ =>
      _ ← ioprioSet 1 0 (Z.lor (Z.shiftl ioprioClassBE ioprioClassShift) 7);
      mret (inl tt)
  end.

Definition SetLowPriority_darwin : prog (fallible unit) :=
  r ← ask (Setpriority 0 20);
  mret match r with
  | Err e => inr (Errorf ("setpriority failed: " ++ err_text e))
  | Ok _ => inl tt
  end.

(** ** config.Load *)

(** Where viper looks for the file. *)
Inductive config_source :=
  | ConfigFile (path : string)
  | ConfigSearch (dirs : list string).     (* config.yaml in each *)

(** viper with the defaults, the file and the GW_ variables: what ReadInConfig and Unmarshal
    say.  A file that is not found is no error. *)
Class WViper := {
  viper_ReadInConfig : WConfig → config_source → option string;     (* an error, or none *)
  viper_Unmarshal : WConfig → config_source → WConfig + string;
}.

Section load.
Context `{WV : WViper}.

Definition config_source_of (cfgFile : string) : prog config_source :=
  if negb (String.eqb cfgFile "") then mret (ConfigFile cfgFile)
  else dir ← ConfigDir; mret (ConfigSearch [dir; "."]).

Definition WLoad (cfgFile : string) : prog (fallible WConfig) :=
  source ← config_source_of cfgFile;
  workspaceDir ← WorkspaceDir;
  let defaults := setDefaults workspaceDir in
  mret match viper_ReadInConfig defaults source with
  | Some e => inr (Errorf ("reading config file: " ++ e))
  | None =>
      match viper_Unmarshal defaults source with
      | inr e => inr (Errorf ("unmarshalling config: " ++ e))
      | inl cfg => inl cfg
      end
  end.
End load.

(** ** Facts *)

Section facts.
Context `{QT : Quoting} `{PF : ParseFloat64}.

(** The answers to the directory calls of [es]. *)
Definition made (dir : string) (es : list event) : Prop := Event (MkdirAll dir) (Ok tt) ∈ es.

(** EnsureDirs reports success only when it has made the three directories, the workspace and
    the logs in the one of the configuration as it was computed for each. *)
Lemma EnsureDirs_made :
  adds (λ r es, r = inl tt → ∃ c w l, made c es ∧ made w es ∧ made l es ∧
    (∃ c', w = path_Join [c'; "workspace"]) ∧ (∃ c', l = path_Join [c'; "logs"])) EnsureDirs.
Proof.
  assert (∀ P : string → list event → Prop, (∀ d es, P d es) → adds P ConfigDir) as Hdir.
  { intros P HP. unfold ConfigDir. apply adds_ask. intros [home|e]; [by apply adds_ret|]. apply adds_ask. intros home. by apply adds_ret. }
  unfold EnsureDirs. eapply (adds_bind (λ _ _, True)); [by apply Hdir|]. intros c es1 _.
  eapply (adds_bind (λ w _, ∃ c', w = path_Join [c'; "workspace"])).
  { unfold WorkspaceDir. eapply (adds_bind (λ _ _, True)); [by apply Hdir|]. intros c' es _. apply adds_ret. by exists c'. }
  intros w es2 Hw. eapply (adds_bind (λ l _, ∃ c', l = path_Join [c'; "logs"])).
  { unfold LogDir. eapply (adds_bind (λ _ _, True)); [by apply Hdir|]. intros c' es _. apply adds_ret. by exists c'. }
  intros l es3 Hl. cbn [ensure_all]. apply adds_ask. intros [[]|e]; [|by apply adds_ret].
  apply adds_ask. intros [[]|e]; [|by apply adds_ret]. apply adds_ask. intros [[]|e]; [|by apply adds_ret].
  apply adds_ret. intros _. exists c, w, l. unfold made. set_solver.
Qed.

(** A battery level on Linux is the number in the capacity file of an entry whose type file
    says Battery. *)
Lemma find_battery_read entries :
  adds (λ r es, ∀ percent, r = Some percent → ∃ name kind text, name ∈ entries ∧ is_battery_name name = true ∧
    Event (ReadFile (path_Join [powerSupplyDir; name; "type"])) (Ok kind) ∈ es ∧ TrimSpace kind = "Battery" ∧
    Event (ReadFile (path_Join [powerSupplyDir; name; "capacity"])) (Ok text) ∈ es ∧ parse_float (TrimSpace text) = Some percent)
    (find_battery entries).
Proof.
  induction entries as [|name entries IH]; [by apply adds_ret|]. cbn [find_battery].
  assert (∀ new, adds (λ r es, ∀ percent, r = Some percent → ∃ name' kind text, name' ∈ name :: entries ∧ is_battery_name name' = true ∧
    Event (ReadFile (path_Join [powerSupplyDir; name'; "type"])) (Ok kind) ∈ (new ++ es)%list ∧ TrimSpace kind = "Battery" ∧
    Event (ReadFile (path_Join [powerSupplyDir; name'; "capacity"])) (Ok text) ∈ (new ++ es)%list ∧ parse_float (TrimSpace text) = Some percent)
    (find_battery entries)) as Hrest.
  { intros new. eapply adds_mono; [|exact IH]. intros r es H percent Hr. destruct (H percent Hr) as (n & k & t & ? & ? & ? & ? & ? & ?).
    exists n, k, t. split_and!; try done; [by right|apply elem_of_app; by right|apply elem_of_app; by right]. }
  destruct (is_battery_name name) eqn:Hn; [|apply (Hrest [])]. apply adds_ask. intros [kind|e]; [|apply (Hrest [_])].
  destruct (String.eqb_spec (TrimSpace kind) "Battery") as [Hk|_]; [|apply (Hrest [_])]. cbn [negb].
  apply adds_ask. intros [text|e]; [|apply (Hrest [_; _])]. destruct (parse_float (TrimSpace text)) as [p|] eqn:Hp; [|apply (Hrest [_; _])].
  apply adds_ret. intros percent [= <-]. exists name, kind, text. split_and!; try done; [by left|by left|by right; left].
Qed.
End facts.
