(* ===== verification/Service.v ===== *)
(** * grid-worker/internal/service/install.go: the system service

    Programs over the calls of WProg.v; kardianos/service is behind [ServiceCall]. *)
From S2P Require Import Prelude GoStd WScanner WProg WClient.

#[local] Open Scope string_scope.
#[local] Open Scope Z_scope.

Definition serviceName : string := "grid-worker".
Definition serviceDisplayName : string := "Grid Worker Daemon".
Definition serviceDescription : string := "Grid Worker distributed AI coding agent daemon".

Section service.
Variable GOOS : string.                  (* runtime.GOOS *)

Definition buildServiceConfig (execPath : string) : service_config :=
  let option : gmap string option_value := <["OnFailureDelay" := OText "5"]> {["OnFailure" := OText "restart"]} in
  let cfg deps option := MkServiceConfig serviceName serviceDisplayName serviceDescription execPath ["run"] deps option in
  if String.eqb GOOS "linux" then
    cfg ["After=network.target"; "After=network-online.target"; "Wants=network-online.target"]
      (<["Nice" := OText "19"]> (<["RestartSec" := OText "5"]> (<["Restart" := OText "on-failure"]> option)))
  else if String.eqb GOOS "darwin" then
    cfg [] (<["RunAtLoad" := OBool true]> (<["KeepAlive" := OBool true]> option))
  else if String.eqb GOOS "windows" then
    cfg [] (<["OnFailureDelay" := OText "5"]> (<["OnFailure" := OText "restart"]> (<["StartType" := OText "automatic"]> option)))
  else cfg [] option.

(** service.New, then one operation on the service. *)
Definition service_do (verb : service_verb) (what : string) (cfg : service_config) : prog (fallible unit) :=
  r ← ask (ServiceCall SvcNew cfg);
  match r with
  | Err e => mret (fail "create service" e)
  | Ok _ =>
      r ← ask (ServiceCall verb cfg);
      mret match r with
      | Err e => fail what e
      | Ok _ => inl tt
      end
  end.

Definition Install (execPath : string) : prog (fallible unit) :=
  if String.eqb execPath "" then
    r ← ask (LookPath "grid-worker");
    match r with
    | Err e => mret (fail "grid-worker binary not found" e)
    | Ok execPath => service_do SvcInstall "install service" (buildServiceConfig execPath)
    end
  else service_do SvcInstall "install service" (buildServiceConfig execPath).

Definition Uninstall : prog (fallible unit) := service_do SvcUninstall "uninstall service" (buildServiceConfig "").
Definition Start : prog (fallible unit) := service_do SvcStart "start service" (buildServiceConfig "").
Definition Stop : prog (fallible unit) := service_do SvcStop "stop service" (buildServiceConfig "").

(** ** Facts *)

Definition service_ok (c : service_config) : Prop :=
  SC_Name c = serviceName ∧ SC_Arguments c = ["run"] ∧ SC_Option c !! "OnFailure" = Some (OText "restart").

Lemma buildServiceConfig_ok execPath : service_ok (buildServiceConfig execPath) ∧ SC_Executable (buildServiceConfig execPath) = execPath.
Proof. unfold buildServiceConfig. repeat case_match; done. Qed.

(** What an operation asks of the service manager: to make the service, then one thing. *)
Lemma service_do_adds verb what cfg :
  adds (λ r es, ∃ r1, es = [Event (ServiceCall SvcNew cfg) (Err r1)] ∧ r = fail "create service" r1 ∨
    ∃ u r2, es = [Event (ServiceCall SvcNew cfg) (Ok u); Event (ServiceCall verb cfg) r2] ∧
      r = match r2 with Ok _ => inl tt | Err e => fail what e end) (service_do verb what cfg).
Proof.
  unfold service_do. apply adds_ask. intros [u|e].
  - apply adds_ask. intros r2. apply adds_ret. exists (ErrUnavailable). right. by exists u, r2.
  - apply adds_ret. exists e. left. done.
Qed.
End service.
