(* ===== verification/Preflight.v ===== *)
(** * The checks before the daemon starts (grid-worker/internal/preflight/checks.go)

    Each check is a program over the calls of WProg.v that returns its result; [RunAll] runs
    the ten of them in order and may lower the configured number of jobs.  The printing of
    floats (%.1f, %.2f) and of instants is a parameter. *)
From S2P Require Import Prelude GoStd Float64 GoPath Domain Http WConfig Policy Regexp Security WScanner Patterns WProg WClient Workspace Adapters Ruleset.
From Stdlib Require Import Ascii SpecFloat.

#[local] Open Scope string_scope.
#[local] Open Scope Z_scope.

Record CheckResult := MkCheckResult {
  CR_ID : string;
  CR_Name : string;
  CR_Status : string;      (* pass, warn or fail *)
  CR_Message : string;
}.

Definition pass : string := "pass".
Definition warn : string := "warn".
Definition failed : string := "fail".

Class FloatFmt := fmt_float : nat → spec_float → string.      (* %.nf *)
Class InstantText := rfc3339 : Z → string.
Class HTTPDate := parse_http_date : string → Z + string.

Section preflight.
Context `{QT : Quoting} `{UP : URLParse} `{FF : FloatFmt} `{IT : InstantText} `{HD : HTTPDate}.
Context `{YR : RulesetUnmarshal} `{RC : RegexpCompile}.
Context (embedded : string).    (* assets.DefaultRulesetYAML *)

Definition checkAPIKey (cfg : WConfig) : prog CheckResult :=
  let result := MkCheckResult "PF-01" "API Key Validation" in
  if String.eqb (WSrv_APIKey (W_Server cfg)) "" then mret (result failed "server.api_key is not configured")
  else
    r ← ValidateAPIKey (Client_New (W_Server cfg));
    mret match r with
    | inr err => result failed ("API key rejected by server: " ++ ce_Text err)
    | inl _ => result pass "API key present and validated by server"
    end.

Definition checkTLS (cfg : WConfig) : prog CheckResult :=
  let result := MkCheckResult "PF-02" "TLS Handshake" in
  let serverURL := WSrv_URL (W_Server cfg) in
  if String.eqb serverURL "" then mret (result failed "server.url is not configured")
  else
    match url_Parse serverURL with
    | Some err => mret (result failed ("failed to build request: " ++ err))
    | None =>
        r ← ask (HttpDo (MkWire "HEAD" serverURL [] ""));
        mret match r with
        | Err err => result failed ("TLS connection failed: " ++ err_text err)
        | Ok resp => result pass ("TLS handshake successful (HTTP " ++ Itoa (WP_Status resp) ++ ")")
        end
    end.

Definition checkOrgUnit (cfg : WConfig) : prog CheckResult :=
  let result := MkCheckResult "PF-03" "Org Unit Resolution" in
  r ← ValidateAPIKey (Client_New (W_Server cfg));
  mret match r with
  | inr err => result failed ("org unit not resolvable (API key validation failed): " ++ ce_Text err)
  | inl _ => result pass "org unit resolved via API key validation"
  end.

Definition test_file (cfg : WConfig) : string := path_Join [Ws_BasePath (W_Workspace cfg); ".preflight-test"].

Definition checkWorkspaceRW (cfg : WConfig) : prog CheckResult :=
  let result := MkCheckResult "PF-04" "Workspace Read/Write" in
  let wsPath := Ws_BasePath (W_Workspace cfg) in
  if String.eqb wsPath "" then mret (result failed "workspace.base_path is not configured")
  else
    r ← ask (MkdirAll wsPath);
    match r with
    | Err err => mret (result failed ("cannot create workspace directory: " ++ err_text err))
    | Ok _ =>
        r ← ask (WriteFile (test_file cfg) "test");
        match r with
        | Err err => mret (result failed ("workspace not writable: " ++ err_text err))
        | Ok _ =>
            r ← ask (ReadFile (test_file cfg));
            _ ← ask (Remove (test_file cfg));
            mret (if match r with Ok data => String.eqb data "test" | Err _ => false end
                  then result pass ("workspace " ++ Quote wsPath ++ " is readable and writable")
                  else result failed "workspace not readable")
        end
    end.

Definition checkDiskQuota (cfg : WConfig) : prog CheckResult :=
  let result := MkCheckResult "PF-05" "Disk Space" in
  let wsPath := Ws_BasePath (W_Workspace cfg) in
  if String.eqb wsPath "" then mret (result warn "workspace.base_path is not configured, cannot check disk")
  else
    r ← ask (DiskFree wsPath);
    mret match r with
    | Err err => result warn ("cannot determine disk usage: " ++ err_text err)
    | Ok free =>
        let freeGB := bytes_GB free in
        let requiredGB := Ws_DiskQuotaGB (W_Workspace cfg) in
        if SFltb freeGB requiredGB
        then result warn ("disk free " ++ fmt_float 2 freeGB ++ " GB is below quota " ++ fmt_float 2 requiredGB ++ " GB")
        else result pass ("disk free " ++ fmt_float 2 freeGB ++ " GB (quota " ++ fmt_float 2 requiredGB ++ " GB)")
    end.

Definition agentBinaries (agent : string) : option (list string) :=
  if String.eqb agent "claude" then Some ["claude"] else if String.eqb agent "copilot" then Some ["gh"]
  else if String.eqb agent "gemini" then Some ["gemini"] else if String.eqb agent "chatgpt" then Some ["sgpt"]
  else if String.eqb agent "custom" then Some [] else None.

(** The two lists: what is found and what is missing. *)
Fixpoint look_for (wanted : list (string * string)) : prog (list string * list string) :=
  match wanted with
  | [] => mret ([], [])
  | (agent, bin) :: wanted =>
      r ← ask (LookPath bin);
      '(found, missing) ← look_for wanted;
      mret match r with
      | Ok path => ((agent ++ " (" ++ path ++ ")") :: found, missing)
      | Err _ => (found, (agent ++ " (binary: " ++ bin ++ ")") :: missing)
      end
  end.

Definition wanted_binaries (permitted : list string) : list (string * string) :=
  List.flat_map (λ agent, match agentBinaries agent with Some bins => map (λ b, (agent, b)) bins | None => [] end) permitted.

Definition is_nil {A} (l : list A) : bool := match l with [] => true | _ => false end.

Definition checkAgentBinaries (cfg : WConfig) : prog CheckResult :=
  let result := MkCheckResult "PF-06" "Agent Binaries" in
  let permitted := Exec_Agents (W_Execution cfg) in
  if is_nil permitted then mret (result warn "no agents configured in execution.agents")
  else
    '(found, missing) ← look_for (wanted_binaries permitted);
    mret (if is_nil found && negb (is_nil missing)
          then result failed ("no agent binaries found on PATH: " ++ Join missing ", ")
          else
            let msgs := if is_nil found then [] else ["found: " ++ Join found ", "] in
            if negb (is_nil missing)
            then result warn (Join (app msgs ["missing: " ++ Join missing ", "]) "; ")
            else result pass (Join msgs "; ")).

(** What the output of git --version says: the status and the message. *)
Definition git_verdict (gitPath out : string) : string * string :=
  let versionStr := TrimSpace out in
  match Fields versionStr with
  | _ :: _ :: version :: _ =>
      match Split version "." with
      | major :: minor :: _ =>
          match Atoi major, Atoi minor with
          | Some major, Some minor =>
              if (major <? 2) || ((major =? 2) && (minor <? 30))
              then (failed, "git " ++ version ++ " is below required version 2.30")
              else (pass, "git " ++ version ++ " found at " ++ gitPath)
          | _, _ => (warn, "cannot parse git version numbers: " ++ Quote version)
          end
      | _ => (warn, "cannot parse git version: " ++ Quote version)
      end
  | _ => (warn, "unexpected git --version output: " ++ Quote versionStr)
  end.

Definition checkGitVersion (cfg : WConfig) : prog CheckResult :=
  let result := MkCheckResult "PF-07" "Git Version" in
  r ← ask (LookPath "git");
  match r with
  | Err _ => mret (result failed "git not found on PATH")
  | Ok gitPath =>
      r ← ask (Output gitPath ["--version"]);
      mret match r with
      | Err err => result failed ("failed to run git --version: " ++ err_text err)
      | Ok p =>
          if negb (PR_ExitCode p =? 0)
          then result failed ("failed to run git --version: exit status " ++ Itoa (PR_ExitCode p))
          else let '(status, msg) := git_verdict gitPath (PR_Stdout p) in result status msg
      end
  end.

Definition checkScannerRuleset (cfg : WConfig) : prog CheckResult :=
  let result := MkCheckResult "PF-08" "Scanner Ruleset" in
  let sec := W_Security cfg in
  if negb (WSec_ScanEnabled sec) then mret (result pass "secret scanning is disabled")
  else
    let rules_text (rs : Ruleset) := "(" ++ Itoa (Z.of_nat (length (RS_Rules rs))) ++ " rules)" in
    let verdict (rs : Ruleset) (msg : string) :=
      if is_nil (RS_Rules rs) then result warn "ruleset loaded but contains no rules" else result pass msg in
    if negb (String.eqb (WSec_RulesetPath sec) "") then
      r ← LoadRuleset (WSec_RulesetPath sec);
      mret match r with
      | inr err => result failed ("failed to load ruleset from " ++ Quote (WSec_RulesetPath sec) ++ ": " ++ ce_Text err)
      | inl rs => verdict rs ("custom ruleset loaded from " ++ Quote (WSec_RulesetPath sec) ++ " " ++ rules_text rs)
      end
    else
      let rs := DefaultRuleset embedded in
      mret (verdict rs ("default ruleset loaded " ++ rules_text rs)).

(** Time.Sub saturates; Duration.Seconds is the whole seconds plus the fraction. *)
Definition time_Sub (a b : Z) : Z := Z.max (- 2 ^ 63) (Z.min (2 ^ 63 - 1) (a - b)).
Definition Seconds (d : Z) : spec_float :=
  SFadd 53 1024 (spec_of_int (Z.quot d Second)) (SFdiv 53 1024 (spec_of_int (Z.rem d Second)) (spec_of_int Second)).

Definition clock_drift (localTime serverTime : Z) : spec_float := SFabs (Seconds (time_Sub localTime serverTime)).

Definition checkSystemTime (cfg : WConfig) : prog CheckResult :=
  let result := MkCheckResult "PF-09" "System Time Sync" in
  r ← ServerTime parse_http_date (Client_New (W_Server cfg));
  match r with
  | inr err => mret (result warn ("cannot retrieve server time: " ++ ce_Text err))
  | inl serverTime =>
      localTime ← ask Now;
      let drift := clock_drift localTime serverTime in
      mret (if SFltb (spec_of_int 60) drift
            then result failed ("clock drift " ++ fmt_float 1 drift ++ "s exceeds 60s limit (local: " ++ rfc3339 localTime ++
                   ", server: " ++ rfc3339 serverTime ++ ")")
            else result pass ("clock drift " ++ fmt_float 1 drift ++ "s within limit"))
  end.

Definition set_MaxJobs (n : Z) (cfg : WConfig) : WConfig :=
  let ws := W_Workspace cfg in
  MkWConfig (W_Server cfg) (MkWorkspaceConfig (Ws_BasePath ws) (Ws_DiskQuotaGB ws) n (Ws_CleanupAfter ws))
    (W_Security cfg) (W_Execution cfg) (W_Policy cfg) (W_Logging cfg).

(** One warning of the hardware check, which lowers MaxJobs the first time. *)
Definition hardware_warning (low : bool) (text : string) (state : list string * WConfig) : list string * WConfig :=
  let '(warnings, cfg) := state in
  if negb low then state
  else if 1 <? Ws_MaxJobs (W_Workspace cfg) then ((warnings ++ [text; "MaxJobs reduced to 1"])%list, set_MaxJobs 1 cfg)
  else ((warnings ++ [text])%list, cfg).

(** runtime.NumCPU is only read on Windows and its value is not used. *)
Definition checkHardware (cfg : WConfig) : prog (CheckResult * WConfig) :=
  let result := MkCheckResult "PF-10" "Hardware Requirements" in
  r ← ask CpuCounts;
  match r with
  | Err err => mret (result warn ("cannot determine CPU count: " ++ err_text err), cfg)
  | Ok cpuCount =>
      r ← ask TotalRAM;
      mret match r with
      | Err err => (result warn ("cannot determine RAM: " ++ err_text err), cfg)
      | Ok total =>
          let ramGB := bytes_GB total in
          let '(warnings, cfg) :=
            hardware_warning (SFltb ramGB (spec_of_int 4)) ("RAM: " ++ fmt_float 1 ramGB ++ " GB (minimum 4 GB recommended)")
              (hardware_warning (cpuCount <? 2) ("CPU cores: " ++ Itoa cpuCount ++ " (minimum 2 recommended)") ([], cfg)) in
          (if is_nil warnings
           then result pass ("CPU: " ++ Itoa cpuCount ++ " cores, RAM: " ++ fmt_float 1 ramGB ++ " GB")
           else result warn (Join warnings "; "), cfg)
      end
  end.

(** The nine checks that leave the configuration alone, in order; the tenth comes last. *)
Definition checks : list (WConfig → prog CheckResult) :=
  [checkAPIKey; checkTLS; checkOrgUnit; checkWorkspaceRW; checkDiskQuota; checkAgentBinaries; checkGitVersion;
   checkScannerRuleset; checkSystemTime].

Fixpoint run_checks (fns : list (WConfig → prog CheckResult)) (cfg : WConfig) : prog (list CheckResult * WConfig) :=
  match fns with
  | [] => '(result, cfg) ← checkHardware cfg; mret ([result], cfg)
  | fn :: fns =>
      result ← fn cfg;
      '(results, cfg) ← run_checks fns cfg;
      mret (result :: results, cfg)
  end.

Definition RunAll (cfg : WConfig) : prog (list CheckResult * WConfig) := run_checks checks cfg.

Definition HasFailures (results : list CheckResult) : bool :=
  existsb (λ r, String.eqb (CR_Status r) "fail") results.
End preflight.

(** ** What a result means *)

Section facts.
Context `{QT : Quoting} `{UP : URLParse} `{FF : FloatFmt} `{IT : InstantText} `{HD : HTTPDate}.
Context `{YR : RulesetUnmarshal} `{RC : RegexpCompile}.
Context (embedded : string).

(** The server accepted the key in one of the calls. *)
Definition validated (cfg : WConfig) (es : list event) : Prop :=
  ∃ req resp, Event (HttpDo req) (Ok resp) ∈ es ∧
    req = MkWire "GET" (WSrv_URL (W_Server cfg) ++ "/api/v1/workers")
      [("Authorization", "Bearer " ++ WSrv_APIKey (W_Server cfg))] "" ∧
    WP_Status resp ≠ 401 ∧ WP_Status resp < 500.

Definition git_below (out : string) : Prop :=
  ∃ w1 w2 version ws major minor parts M m, Fields (TrimSpace out) = w1 :: w2 :: version :: ws ∧
    Split version "." = major :: minor :: parts ∧ Atoi major = Some M ∧ Atoi minor = Some m ∧
    (M < 2 ∨ M = 2 ∧ m < 30).

(** The binary was looked up and found. *)
Definition on_path (es : list event) (bin : string) : Prop :=
  ∃ path, Event (LookPath bin) (Ok path) ∈ es.

(** What the calls of a check show when its status is not fail. *)
Definition evidence (id : string) (cfg : WConfig) (status : string) (es : list event) : Prop :=
  if String.eqb id "PF-01" then WSrv_APIKey (W_Server cfg) ≠ "" ∧ validated cfg es
  else if String.eqb id "PF-02" then
    ∃ resp, Event (HttpDo (MkWire "HEAD" (WSrv_URL (W_Server cfg)) [] "")) (Ok resp) ∈ es
  else if String.eqb id "PF-03" then validated cfg es
  else if String.eqb id "PF-04" then
    Ws_BasePath (W_Workspace cfg) ≠ "" ∧ Event (MkdirAll (Ws_BasePath (W_Workspace cfg))) (Ok tt) ∈ es ∧
    Event (WriteFile (test_file cfg) "test") (Ok tt) ∈ es ∧ Event (ReadFile (test_file cfg)) (Ok "test") ∈ es
  else if String.eqb id "PF-05" then
    status = pass → Ws_BasePath (W_Workspace cfg) ≠ "" ∧
    ∃ free, Event (DiskFree (Ws_BasePath (W_Workspace cfg))) (Ok free) ∈ es ∧
      SFltb (bytes_GB free) (Ws_DiskQuotaGB (W_Workspace cfg)) = false
  else if String.eqb id "PF-06" then
    (wanted_binaries (Exec_Agents (W_Execution cfg)) = [] ∨
     ∃ agent bin, (agent, bin) ∈ wanted_binaries (Exec_Agents (W_Execution cfg)) ∧ on_path es bin) ∧
    (status = pass →
     ∀ agent bin, (agent, bin) ∈ wanted_binaries (Exec_Agents (W_Execution cfg)) → on_path es bin)
  else if String.eqb id "PF-07" then
    ∃ path p, Event (LookPath "git") (Ok path) ∈ es ∧ Event (Output path ["--version"]) (Ok p) ∈ es ∧
      PR_ExitCode p = 0 ∧ ¬ git_below (PR_Stdout p)
  else if String.eqb id "PF-08" then
    WSec_ScanEnabled (W_Security cfg) = true → WSec_RulesetPath (W_Security cfg) ≠ "" →
    ∃ data rs, Event (ReadFile (WSec_RulesetPath (W_Security cfg))) (Ok data) ∈ es ∧ parseRuleset data = inl rs
  else if String.eqb id "PF-09" then
    status = pass → ∃ resp localTime serverTime,
      Event (HttpDo (MkWire "HEAD" (WSrv_URL (W_Server cfg) ++ "/healthz") [] "")) (Ok resp) ∈ es ∧
      Event Now localTime ∈ es ∧ SFltb (spec_of_int 60) (clock_drift localTime serverTime) = false ∧
      (WP_Date resp ≠ "" → parse_http_date (WP_Date resp) = inl serverTime)
  else if String.eqb id "PF-10" then
    status = pass → ∃ cpuCount total,
      Event CpuCounts (Ok cpuCount) ∈ es ∧ Event TotalRAM (Ok total) ∈ es ∧
      2 ≤ cpuCount ∧ SFltb (bytes_GB total) (spec_of_int 4) = false
  else True.

(** The statuses a check can have. *)
Definition statuses (id : string) : list string :=
  if existsb (String.eqb id) ["PF-05"; "PF-10"] then [pass; warn]
  else if existsb (String.eqb id) ["PF-06"; "PF-07"; "PF-08"; "PF-09"] then [pass; warn; failed]
  else [pass; failed].

Definition judged (id : string) (cfg : WConfig) (r : CheckResult) (es : list event) : Prop :=
  CR_ID r = id ∧ CR_Status r ∈ statuses id ∧ (CR_Status r ≠ failed → evidence id cfg (CR_Status r) es).

Ltac in_list := repeat first [by left | right].
Ltac judge := split; [reflexivity|split; [cbn; in_list|]].

Lemma validate_adds cfg : adds (λ r es, match r with inl _ => validated cfg es | inr _ => True end)
  (ValidateAPIKey (Client_New (W_Server cfg))).
Proof.
  unfold ValidateAPIKey. destruct (url_Parse _); [by apply adds_ret|]. apply adds_ask. intros r. apply adds_ret.
  destruct r as [resp|]; [|done]. destruct (Z.eqb_spec (WP_Status resp) StatusUnauthorized); [done|].
  destruct (Z.leb_spec 500 (WP_Status resp)); [done|]. eexists _, _. split; [by left|]. split_and!; [done..|lia].
Qed.

Lemma judged_01 cfg : adds (judged "PF-01" cfg) (checkAPIKey cfg).
Proof.
  unfold checkAPIKey. destruct (String.eqb_spec (WSrv_APIKey (W_Server cfg)) ""); [apply adds_ret; by judge|].
  eapply adds_bind; [apply validate_adds|]. intros [|e] new H; apply adds_ret; rewrite app_nil_r; judge; done.
Qed.

Lemma judged_02 cfg : adds (judged "PF-02" cfg) (checkTLS cfg).
Proof.
  unfold checkTLS. destruct (String.eqb _ ""); [apply adds_ret; by judge|]. destruct (url_Parse _); [apply adds_ret; by judge|].
  apply adds_ask. intros [resp|]; apply adds_ret; judge; [|done]. intros _. exists resp. by left.
Qed.

Lemma judged_03 cfg : adds (judged "PF-03" cfg) (checkOrgUnit cfg).
Proof.
  unfold checkOrgUnit. eapply adds_bind; [apply validate_adds|].
  intros [|e] new H; apply adds_ret; rewrite app_nil_r; judge; done.
Qed.

Lemma judged_04 cfg : adds (judged "PF-04" cfg) (checkWorkspaceRW cfg).
Proof.
  unfold checkWorkspaceRW. destruct (String.eqb_spec (Ws_BasePath (W_Workspace cfg)) ""); [apply adds_ret; by judge|].
  apply adds_ask. intros [[]|]; [|apply adds_ret; by judge]. apply adds_ask. intros [[]|]; [|apply adds_ret; by judge].
  apply adds_ask. intros r. apply adds_ask. intros rm. apply adds_ret.
  destruct r as [data|]; [destruct (String.eqb_spec data "test") as [->|]|]; judge; try done.
  intros _. split_and!; [done|in_list..].
Qed.

Lemma judged_05 cfg : adds (judged "PF-05" cfg) (checkDiskQuota cfg).
Proof.
  unfold checkDiskQuota. destruct (String.eqb_spec (Ws_BasePath (W_Workspace cfg)) ""); [apply adds_ret; by judge|].
  apply adds_ask. intros [free|]; apply adds_ret; [destruct (SFltb _ _) eqn:E|]; judge; try done.
  intros _ _. split; [done|]. exists free. by split; [left|].
Qed.

Lemma look_for_adds wanted :
  adds (λ r es, is_nil wanted = is_nil r.1 && is_nil r.2 ∧
    (is_nil r.1 = false → ∃ agent bin, (agent, bin) ∈ wanted ∧ on_path es bin) ∧
    (is_nil r.2 = true → ∀ agent bin, (agent, bin) ∈ wanted → on_path es bin)) (look_for wanted).
Proof.
  induction wanted as [|[agent bin] wanted IH]; [apply adds_ret; split_and!; [done..|by intros _ ? ? ?%elem_of_nil]|].
  simpl. apply adds_ask. intros r. eapply adds_bind; [exact IH|]. intros [found missing] new (_ & H & Ha). apply adds_ret.
  rewrite app_nil_r. destruct r as [path|]; simpl in *; (split_and!; [by rewrite ?andb_false_r|..]).
  - intros _. exists agent, bin. split; [by left|by eexists; left].
  - intros Hm a b [[= -> ->]|Hin]%elem_of_cons; [by eexists; left|].
    destruct (Ha Hm a b Hin) as [p ?]. by exists p; right.
  - intros Hf. destruct (H Hf) as (a & b & ? & p & ?). exists a, b. split; [by right|]. by exists p; right.
  - done.
Qed.

Lemma judged_06 cfg : adds (judged "PF-06" cfg) (checkAgentBinaries cfg).
Proof.
  unfold checkAgentBinaries. destruct (Exec_Agents (W_Execution cfg)) as [|a l] eqn:E.
  { apply adds_ret. judge. intros _. unfold evidence. rewrite E. split; [by left|done]. }
  cbn [is_nil]. rewrite <-E. eapply adds_bind; [apply look_for_adds|].
  intros [found missing] new (Hn & H & Ha). apply adds_ret.
  rewrite app_nil_r. simpl in *. destruct (is_nil found) eqn:Ef; simpl in *.
  - destruct (is_nil missing) eqn:Em; simpl; judge; [|done]. intros _.
    split; [left; by destruct (wanted_binaries _)|]. intros _. by apply Ha.
  - destruct (is_nil missing); simpl; judge; intros _; (split; [right; by apply H|]); [intros _; by apply Ha|done].
Qed.

Lemma git_verdict_status path out :
  (git_verdict path out).1 ∈ statuses "PF-07" ∧ ((git_verdict path out).1 = failed ↔ git_below out).
Proof.
  unfold git_verdict, git_below. destruct (Fields (TrimSpace out)) as [|w1 [|w2 [|version ws]]] eqn:EF.
  1-3: split; [cbn; in_list|]; split; [done|]; intros (?&?&?&?&?&?&?&?&?&H&_); congruence.
  destruct (Split version ".") as [|major [|minor parts]] eqn:ES.
  1-2: split; [cbn; in_list|]; split; [done|]; intros (?&?&?&?&?&?&?&?&?&H&H'&_); simplify_eq; congruence.
  assert (∀ w1' w2' v ws' mj mn ps M m, w1 :: w2 :: version :: ws = w1' :: w2' :: v :: ws' →
    Split v "." = mj :: mn :: ps → Atoi mj = Some M → Atoi mn = Some m → Atoi major = Some M ∧ Atoi minor = Some m) as Hi.
  { intros. simplify_eq. rewrite ES in *. by simplify_eq. }
  destruct (Atoi major) as [M|] eqn:EM; [destruct (Atoi minor) as [m|] eqn:Em|].
  - destruct ((M <? 2) || (M =? 2) && (m <? 30)) eqn:EV; (split; [cbn; in_list|]; split; [|]).
    + intros _. eexists _, _, _, _, _, _, _, M, m. split_and!; [done..|]. lia.
    + done.
    + done.
    + intros (?&?&?&?&?&?&?&M'&m'&H1&H2&H3&H4&H5). destruct (Hi _ _ _ _ _ _ _ _ _ H1 H2 H3 H4) as [? ?]. simplify_eq. lia.
  - split; [cbn; in_list|]. split; [done|]. intros (?&?&?&?&?&?&?&?&?&H1&H2&H3&H4&H5).
    destruct (Hi _ _ _ _ _ _ _ _ _ H1 H2 H3 H4). congruence.
  - split; [cbn; in_list|]. split; [done|]. intros (?&?&?&?&?&?&?&?&?&H1&H2&H3&H4&H5).
    destruct (Hi _ _ _ _ _ _ _ _ _ H1 H2 H3 H4). congruence.
Qed.

Lemma judged_07 cfg : adds (judged "PF-07" cfg) (checkGitVersion cfg).
Proof.
  unfold checkGitVersion. apply adds_ask. intros [path|]; [|apply adds_ret; by judge].
  apply adds_ask. intros [p|]; apply adds_ret; [|by judge].
  destruct (Z.eqb_spec (PR_ExitCode p) 0); simpl; [|by judge].
  destruct (git_verdict path (PR_Stdout p)) as [status msg] eqn:E. pose proof (git_verdict_status path (PR_Stdout p)) as [Hs Hb].
  rewrite E in *. simpl in *. split; [done|]. split; [done|]. simpl. intros Hf. exists path, p.
  split_and!; [by left|by right; left|done|]. by rewrite <-Hb.
Qed.

Lemma judged_08 cfg : adds (judged "PF-08" cfg) (checkScannerRuleset embedded cfg).
Proof.
  unfold checkScannerRuleset. destruct (WSec_ScanEnabled (W_Security cfg)) eqn:Een; cbn [negb].
  2:{ apply adds_ret. judge. intros _. simpl. congruence. }
  destruct (String.eqb_spec (WSec_RulesetPath (W_Security cfg)) "") as [E|E]; cbn [negb].
  - apply adds_ret. destruct (is_nil _); judge; intros _; simpl; congruence.
  - eapply adds_bind with (P := λ x es, ∀ rs, x = inl rs → ∃ data,
      Event (ReadFile (WSec_RulesetPath (W_Security cfg))) (Ok data) ∈ es ∧ parseRuleset data = inl rs).
    { apply adds_ask. intros r. apply adds_ret. destruct r as [data|]; [|done].
      intros rs Hrs. exists data. split; [by left|done]. }
    intros [rs|e] new H; apply adds_ret; rewrite app_nil_r; [|by judge].
    destruct (H rs eq_refl) as (data & ? & ?). destruct (is_nil (RS_Rules rs)); judge; intros _ _ _; by exists data, rs.
Qed.

Lemma judged_09 cfg : adds (judged "PF-09" cfg) (checkSystemTime cfg).
Proof.
  unfold checkSystemTime, ServerTime.
  eapply adds_bind with (P := λ r es, ∀ t, r = inl t → ∃ resp,
    Event (HttpDo (MkWire "HEAD" (WSrv_URL (W_Server cfg) ++ "/healthz") [] "")) (Ok resp) ∈ es ∧
    (WP_Date resp ≠ "" → parse_http_date (WP_Date resp) = inl t)).
  { destruct (url_Parse _); [by apply adds_ret|]. apply adds_ask. intros [resp|]; [|by apply adds_ret].
    destruct (String.eqb_spec (WP_Date resp) "").
    - apply adds_ask. intros t. apply adds_ret. intros t' _. exists resp. split; [by left|done].
    - apply adds_ret. intros t Ht. exists resp. split; [by left|]. intros _. destruct (parse_http_date _); by simplify_eq. }
  intros [t|e] new H; [|apply adds_ret; by judge]. apply adds_ask. intros local. apply adds_ret.
  destruct (H t eq_refl) as (resp & Hin & Hp). destruct (SFltb _ _) eqn:Ed; judge; [done|]. intros _ _.
  exists resp, local, t. split_and!; [apply elem_of_app; by left|apply elem_of_app; right; by left|done|done].
Qed.

Lemma hardware_two low1 t1 low2 t2 cfg :
  let '(ws, cfg') := hardware_warning low2 t2 (hardware_warning low1 t1 ([], cfg)) in
  cfg' = cfg ∨ 1 < Ws_MaxJobs (W_Workspace cfg) ∧ cfg' = set_MaxJobs 1 cfg ∧ is_nil ws = false.
Proof.
  unfold hardware_warning. destruct low1, low2; simpl; destruct (Z.ltb_spec 1 (Ws_MaxJobs (W_Workspace cfg))); simpl; auto.
  destruct (Z.ltb_spec 1 (Ws_MaxJobs (W_Workspace cfg))); auto.
Qed.

Lemma hardware_none low1 t1 low2 t2 cfg :
  is_nil (hardware_warning low2 t2 (hardware_warning low1 t1 ([], cfg))).1 = true → low1 = false ∧ low2 = false.
Proof.
  unfold hardware_warning.
  destruct low1, low2; simpl; try done; destruct (1 <? Ws_MaxJobs (W_Workspace cfg)) eqn:E; simpl; rewrite ?E; done.
Qed.

Lemma judged_10 cfg : adds (λ r es, judged "PF-10" cfg r.1 es ∧
    (r.2 = cfg ∨ 1 < Ws_MaxJobs (W_Workspace cfg) ∧ r.2 = set_MaxJobs 1 cfg ∧ CR_Status r.1 = warn)) (checkHardware cfg).
Proof.
  unfold checkHardware. apply adds_ask. intros [n|]; [|apply adds_ret; split; [by judge|by left]].
  apply adds_ask. intros [total|]; apply adds_ret; [|split; [by judge|by left]].
  set (t1 := "CPU cores: " ++ Itoa n ++ " (minimum 2 recommended)").
  set (t2 := "RAM: " ++ fmt_float 1 (bytes_GB total) ++ " GB (minimum 4 GB recommended)").
  pose proof (hardware_two (n <? 2) t1 (SFltb (bytes_GB total) (spec_of_int 4)) t2 cfg) as H2.
  pose proof (hardware_none (n <? 2) t1 (SFltb (bytes_GB total) (spec_of_int 4)) t2 cfg) as H0.
  destruct (hardware_warning _ _ _) as [ws cfg']. cbn [fst] in H0. destruct (is_nil ws) eqn:E.
  - destruct H0 as [Hn Hr]; [done|]. split; [judge|left; naive_solver].
    intros _ _. exists n, total. split_and!; [by left|by right; left|lia|done].
  - split; [by judge|]. naive_solver.
Qed.

(** The ids, in order. *)
Definition check_ids : list string :=
  ["PF-01"; "PF-02"; "PF-03"; "PF-04"; "PF-05"; "PF-06"; "PF-07"; "PF-08"; "PF-09"; "PF-10"].

(** The calls of the run are those of the checks, one after the other. *)
Definition judged_all (ids : list string) (cfg : WConfig) (rs : list CheckResult) (es : list event) : Prop :=
  ∃ parts, es = List.concat parts ∧ Forall3 (λ id r part, judged id cfg r part) ids rs parts.

Lemma run_checks_adds ids fns cfg :
  Forall2 (λ id fn, adds (judged id cfg) (fn cfg)) ids fns →
  adds (λ r es, judged_all (ids ++ ["PF-10"]) cfg r.1 es ∧
    (r.2 = cfg ∨ 1 < Ws_MaxJobs (W_Workspace cfg) ∧ r.2 = set_MaxJobs 1 cfg)) (run_checks fns cfg).
Proof.
  induction 1 as [|id fn ids fns Hfn _ IH]; cbn [run_checks app].
  - eapply adds_bind; [apply judged_10|]. intros [r cfg'] new [Hj Hc]. apply adds_ret. rewrite app_nil_r. simpl in *. split.
    + exists [new]. split; [simpl; by rewrite app_nil_r|]. constructor; [exact Hj|constructor].
    + naive_solver.
  - eapply adds_bind; [exact Hfn|]. intros r new Hr. eapply adds_bind; [exact IH|].
    intros [rs cfg'] new' [(parts & -> & Hrs) Hc].
    apply adds_ret. rewrite app_nil_r. split; [|done]. exists (new :: parts). split; [done|by constructor].
Qed.

Lemma checks_judged cfg : Forall2 (λ id fn, adds (judged id cfg) (fn cfg)) (take 9 check_ids) (checks embedded).
Proof.
  repeat constructor; [apply judged_01|apply judged_02|apply judged_03|apply judged_04|apply judged_05|apply judged_06|
    apply judged_07|apply judged_08|apply judged_09].
Qed.

Lemma RunAll_adds cfg :
  adds (λ r es, judged_all check_ids cfg r.1 es ∧
    (r.2 = cfg ∨ 1 < Ws_MaxJobs (W_Workspace cfg) ∧ r.2 = set_MaxJobs 1 cfg)) (RunAll embedded cfg).
Proof. apply (run_checks_adds (take 9 check_ids)), checks_judged. Qed.

Lemma judged_ids ids cfg rs parts :
  Forall3 (λ id r part, judged id cfg r part) ids rs parts → map CR_ID rs = ids.
Proof. induction 1 as [|id r part ids rs parts (E & _) _ IH]; [done|]. simpl. by rewrite IH, E. Qed.

(** C30: The preflight run always comes to an end with ten results, PF-01 to PF-10 in this
    order, whatever the network, the disk and the programs answer; each status is pass, warn
    or fail, the disk and the hardware check never fail, the checks of the key, the server
    and the workspace never warn; and the configuration is returned as it was, or with
    max_jobs lowered from above 1 to exactly 1. *)
Theorem RunAll_results o h cfg :
  let '(results, cfg') := (run o h (RunAll embedded cfg)).1 in
  map CR_ID results = ["PF-01"; "PF-02"; "PF-03"; "PF-04"; "PF-05"; "PF-06"; "PF-07"; "PF-08"; "PF-09"; "PF-10"] ∧
  Forall (λ r, CR_Status r ∈ (if existsb (String.eqb (CR_ID r)) ["PF-05"; "PF-10"] then ["pass"; "warn"]
    else if existsb (String.eqb (CR_ID r)) ["PF-06"; "PF-07"; "PF-08"; "PF-09"] then ["pass"; "warn"; "fail"]
    else ["pass"; "fail"])) results ∧
  (cfg' = cfg ∨ 1 < Ws_MaxJobs (W_Workspace cfg) ∧ cfg' = set_MaxJobs 1 cfg).
Proof.
  destruct (adds_run _ o h _ (RunAll_adds cfg)) as (new & _ & (parts & _ & HF) & Hc).
  destruct (run o h (RunAll embedded cfg)).1 as [results cfg']. cbn [fst snd] in *. split_and!; [| |done].
  - exact (judged_ids _ _ _ _ HF).
  - clear Hc. induction HF as [|id r part ids rs parts (E & Hs & _) _ IH]; [constructor|]. constructor; [|exact IH].
    by rewrite E.
Qed.

End facts.

(** Exactly 60 seconds of drift pass, one nanosecond more fails; the clock may be ahead or
    behind. *)
Example drift_boundary :
  map (λ d, SFltb (spec_of_int 60) (clock_drift d 0)) [60 * Second; 60 * Second + 1; - (60 * Second); - (60 * Second) - 1] =
  [false; true; false; true].
Proof. vm_compute. reflexivity. Qed.

Example git_versions :
  map (λ v, @git_verdict id "/usr/bin/git" ("git version " ++ v)) ["2.30.0"; "2.29.9"; "1.9"; "10.0"; "2.x"; ""] =
  [("pass", "git 2.30.0 found at /usr/bin/git"); ("fail", "git 2.29.9 is below required version 2.30");
   ("fail", "git 1.9 is below required version 2.30"); ("pass", "git 10.0 found at /usr/bin/git");
   ("warn", "cannot parse git version numbers: 2.x"); ("warn", "unexpected git --version output: git version")].
Proof. vm_compute. reflexivity. Qed.
