(* ===== verification/Executor.v ===== *)
(** * grid-worker/internal/executor/executor.go: the life of a task on the worker

    [Execute] is the whole function, from the workspace to the final status.  The resource
    and quota monitors run beside it and can only cancel the agent, which shows in the answer
    of [Exec].  The goroutines of the directory scan stop at the first file that finds the
    context ended: the files scanned are a prefix of the walk. *)
From S2P Require Import Prelude GoStd GoJson GoPath Domain Policy WConfig WScanner WProg WClient Reporter Workspace Adapters.

#[local] Open Scope string_scope.
#[local] Open Scope Z_scope.

(** ** Errors in sequence *)

(** [p], and [f] on its value unless it fails. *)
Definition and_then {A B} (p : prog (fallible A)) (f : A → prog (fallible B)) : prog (fallible B) :=
  r ← p;
  match r with
  | inl a => f a
  | inr e => mret (inr e)
  end.

(** ** The scanner as a program *)

Fixpoint scan_collected (rs : Ruleset) (files : list dir_file) : prog (list Finding) :=
  match files with
  | [] => mret []
  | f :: rest =>
      done ← ask CtxDone;
      if (done : bool) then mret []
      else
        more ← scan_collected rs rest;
        mret (scan_file rs f ++ more)%list
  end.

Definition scan_directory (rs : Ruleset) (dir : string) : prog (fallible (list Finding)) :=
  r ← ask (WalkDir dir);
  match r with
  | Err e => mret (fail ("walk directory " ++ dir) e)
  | Ok files =>
      findings ← scan_collected rs (List.filter collected files);
      mret (inl findings)
  end.

(** The tests of the context, up to the first that finds it ended. *)
Fixpoint ctx_checks (n : nat) : prog (list bool) :=
  match n with
  | O => mret []
  | S n =>
      done ← ask CtxDone;
      if (done : bool) then mret [true]
      else
        rest ← ctx_checks n;
        mret (false :: rest)
  end.

Definition scan_output (rs : Ruleset) (patch : string) : prog (list Finding * bool) :=
  ctx ← ctx_checks (length (bufio_lines (Split patch chr_lf)));
  mret (ScanPatch rs ctx patch).

(** ** Helpers of executor.go *)

Definition hasCritical (findings : list Finding) : bool := existsb (λ f, String.eqb (F_Severity f) "critical") findings.

Definition finding_text (f : Finding) : string :=
  F_RuleID f ++ " (" ++ F_Severity f ++ ") at " ++ F_FilePath f ++ ":" ++ Itoa (F_Line f).

(** The loop of formatFindings from index [i]; [total] is the number of findings. *)
Fixpoint format_from (i total : Z) (findings : list Finding) : string :=
  match findings with
  | [] => ""
  | f :: rest =>
      (if 0 <? i then "; " else "") ++ finding_text f ++
      (if 4 <=? i then " and " ++ Itoa (total - 5) ++ " more" else format_from (i + 1) total rest)
  end.

Definition formatFindings (findings : list Finding) : string :=
  match findings with
  | [] => "none"
  | _ => format_from 0 (Z.of_nat (length findings)) findings
  end.

Definition intermediate_states : list string :=
  ["preparing"; "cloning"; "scanning_pre"; "executing"; "scanning_post"; "packing"; "reporting"].

Definition api_state (state : string) : string :=
  if existsb (String.eqb state) intermediate_states then "running" else state.

(** The timeout of a task in seconds. *)
Definition task_timeout (cfg : WConfig) (task : TaskAssignment) : Z :=
  let timeoutSec := TA_TimeoutSec task in
  let timeoutSec := if timeoutSec <=? 0 then Exec_TimeoutSec (W_Execution cfg) else timeoutSec in
  if timeoutSec <=? 0 then 3600 else timeoutSec.

Section executor.
Context `{QT : Quoting} `{UP : URLParse}.
Variables (reg : Registry) (rs : Ruleset) (c : Client) (cfg : WConfig).

(** An error is logged and dropped. *)
Definition updateStatus (taskID state errMsg : string) : prog unit :=
  _ ← Client_UpdateTaskStatus c taskID (MkTaskStatusRequest (api_state state) errMsg);
  mret tt.

(** The failed status, and the error that Execute returns. *)
Definition fail_task {A} (taskID msg : string) (e : cerror) : prog (fallible A) :=
  _ ← updateStatus taskID "failed" msg;
  mret (inr e).

(** The result of [p], or the failed status with the error under the prefix. *)
Definition or_fail_task {A} (taskID statusPrefix errPrefix : string) (p : prog (fallible A)) : prog (fallible A) :=
  r ← p;
  match r with
  | inl a => mret (inl a)
  | inr e => fail_task taskID (statusPrefix ++ ": " ++ ce_Text e) (wrap errPrefix e)
  end.

(** Step 2 *)
Definition clone_step (task : TaskAssignment) (wsPath : string) : prog (fallible unit) :=
  if negb (String.eqb (TA_RepoURL task) "") then
    _ ← updateStatus (TA_TaskID task) "cloning" "";
    or_fail_task (TA_TaskID task) "clone repo" "clone repo" (CloneRepo (TA_RepoURL task) (TA_Branch task) wsPath)
  else mret (inl tt).

(** Step 3 *)
Definition prescan_step (task : TaskAssignment) (wsPath : string) : prog (fallible unit) :=
  if WSec_ScanEnabled (W_Security cfg) then
    _ ← updateStatus (TA_TaskID task) "scanning_pre" "";
    r ← scan_directory rs wsPath;
    match r with
    | inr _ => mret (inl tt)
    | inl findings =>
        if hasCritical findings
        then fail_task (TA_TaskID task) ("pre-execution scan found critical secrets: " ++ formatFindings findings)
               (Errorf "pre-execution scan: critical secrets found in repository")
        else mret (inl tt)
    end
  else mret (inl tt).

(** Step 4.  The code returns fmt.Errorf(msg), which reads msg as a format: for an agent with a
    percent sign in its name the returned error, which the daemon only logs, has marks such
    as %!x(MISSING) where the model keeps the text; the reported message is the text itself. *)
Definition agent_step (task : TaskAssignment) (wsPath : string) : prog (fallible ExecuteResult) :=
  match Registry_Get (TA_AIAgent task) reg with
  | None =>
      let msg := "no adapter registered for agent " ++ Quote (TA_AIAgent task) in
      fail_task (TA_TaskID task) msg (Errorf msg)
  | Some adapter =>
      _ ← updateStatus (TA_TaskID task) "executing" "";
      or_fail_task (TA_TaskID task) "execution error" "execute agent"
        (AA_Execute adapter (MkExecuteRequest wsPath (TA_TaskType task) (TA_Description task) (TA_Options task)))
  end.

(** Step 5 *)
Definition postscan_step (task : TaskAssignment) (execResult : ExecuteResult) : prog (fallible unit) :=
  if WSec_ScanEnabled (W_Security cfg) && negb (String.eqb (EX_Stdout execResult) "") then
    _ ← updateStatus (TA_TaskID task) "scanning_post" "";
    r ← scan_output rs (EX_Stdout execResult);
    let '(findings, err) := r in
    if (err : bool) then mret (inl tt)
    else if hasCritical findings
    then fail_task (TA_TaskID task) ("post-execution scan found critical secrets in output: " ++ formatFindings findings)
           (Errorf "post-execution scan: critical secrets found in output")
    else mret (inl tt)
  else mret (inl tt).

(** Step 6, with the execution metadata *)
Definition pack_step (task : TaskAssignment) (wsPath : string) (execResult : ExecuteResult) : prog (fallible OutputPackage) :=
  _ ← updateStatus (TA_TaskID task) "packing" "";
  and_then
    (or_fail_task (TA_TaskID task) "pack output" "pack output"
       (Pack (TA_TaskID task) (WSrv_WorkerID (W_Server cfg)) wsPath (WSec_HMACSecret (W_Security cfg))
          (EX_Artifacts execResult)))
    (λ pkg, mret (inl (set_metadata [("agent", DStr (TA_AIAgent task)); ("exit_code", DInt (EX_ExitCode execResult));
                                     ("task_type", DStr (TA_TaskType task))] pkg))).

(** Step 7 *)
Definition report_step (task : TaskAssignment) (pkg : OutputPackage) : prog (fallible unit) :=
  _ ← updateStatus (TA_TaskID task) "reporting" "";
  or_fail_task (TA_TaskID task) "report output" "report output" (Reporter_Submit c pkg).

(** What happens between the creation of the workspace and its cleanup. *)
Definition execute_in (task : TaskAssignment) (wsPath : string) : prog (fallible unit) :=
  and_then (clone_step task wsPath) (λ _,
  and_then (prescan_step task wsPath) (λ _,
  and_then (agent_step task wsPath) (λ execResult,
  and_then (postscan_step task execResult) (λ _,
  and_then (pack_step task wsPath execResult) (λ pkg,
  and_then (report_step task pkg) (λ _,
    _ ← updateStatus (TA_TaskID task) "completed" "";
    mret (inl tt))))))).

Definition Execute (task : TaskAssignment) : prog (fallible unit) :=
  _ ← ask (WithTimeout (i64 (task_timeout cfg task * Second)));
  _ ← updateStatus (TA_TaskID task) "preparing" "";
  and_then (or_fail_task (TA_TaskID task) "create workspace" "create workspace"
              (Create (Ws_BasePath (W_Workspace cfg)) (TA_TaskID task)))
    (λ wsPath,
      r ← execute_in task wsPath;
      if Ws_CleanupAfter (W_Workspace cfg)
      then (_ ← Cleanup (Ws_BasePath (W_Workspace cfg)) (TA_TaskID task); mret r)
      else mret r).
End executor.
