(* ===== verification/ExecutorFacts.v ===== *)
(** * What an execution shows to the control plane

    [observe] keeps of a run the status reports, the start of the agent and the submission
    of the output.  [wp] states what a program returns and shows, from any history. *)
From S2P Require Import Prelude GoStd GoJson GoPath Domain Policy WConfig WScanner WProg WClient Reporter Workspace Adapters.
From S2P Require Import Executor TaskHandler.

#[local] Open Scope string_scope.
#[local] Open Scope Z_scope.

(** ** Observations *)

Inductive olabel :=
  | OStatus (body : string)      (* PATCH, a status report *)
  | OAgent                       (* the agent is started *)
  | OOutput.                     (* POST, the submission *)

Definition observe_call {X} (c : call X) : list olabel :=
  match c with
  | HttpDo req => if String.eqb (WR_Method req) "PATCH" then [OStatus (WR_Body req)] else [OOutput]
  | Exec _ _ _ _ => [OAgent]
  | _ => []
  end.

Definition observe (es : list event) : list olabel := List.flat_map (λ e, match e with Event c _ => observe_call c end) es.

Lemma observe_app es es' : observe (es ++ es') = (observe es ++ observe es')%list.
Proof. apply flat_map_app. Qed.

Definition quiet : ∀ X, call X → Prop := λ X c, observe_call c = [].

Lemma observe_quiet es : Forall (event_in quiet) es → observe es = [].
Proof. induction 1 as [|[X c x] es H Hs IH]; [done|]. simpl in *. unfold quiet in H. by rewrite H. Qed.

Section wp.
Variable o : oracle.

Definition wp {A} (p : prog A) (Q : A → list olabel → Prop) : Prop :=
  ∀ h, ∃ es, (run o h p).2 = (h ++ es)%list ∧ Q (run o h p).1 (observe es).

Lemma wp_ret {A} (a : A) (Q : A → list olabel → Prop) : Q a [] → wp (mret a) Q.
Proof. intros H h. exists []. by rewrite app_nil_r. Qed.

Lemma wp_mono {A} (p : prog A) (Q R : A → list olabel → Prop) : wp p Q → (∀ a l, Q a l → R a l) → wp p R.
Proof. intros H HQR h. destruct (H h) as (es & ? & ?). exists es. auto. Qed.

Lemma wp_bind {A B} (p : prog A) (f : A → prog B) Q R :
  wp p Q → (∀ a l, Q a l → wp (f a) (λ b l', R b (l ++ l')%list)) → wp (p ≫= f) R.
Proof.
  intros Hp Hf h. rewrite run_bind_eq. destruct (Hp h) as (es & E & HQ).
  destruct (Hf _ _ HQ (run o h p).2) as (es' & E' & HR). exists (es ++ es')%list.
  split; [by rewrite E', E, app_assoc|by rewrite observe_app].
Qed.

(** A program that shows nothing: its result is that of some run. *)
Lemma wp_quiet {A} (p : prog A) (Q : A → list olabel → Prop) :
  calls_in quiet p → (∀ h, Q (run o h p).1 []) → wp p Q.
Proof.
  intros Hq HQ h. destruct (calls_in_events quiet o h p Hq) as (es & E & Hes). exists es.
  rewrite (observe_quiet es Hes). auto.
Qed.

Lemma wp_ask {X} (c : call X) (Q : X → list olabel → Prop) : (∀ h, Q (o _ h c) (observe_call c)) → wp (ask c) Q.
Proof. intros HQ h. exists [Event c (o _ h c)]. split; [done|]. simpl. rewrite app_nil_r. apply HQ. Qed.

(** *** Steps: what is shown besides status reports *)

Definition running_report : string := TaskStatusRequest_Marshal (MkTaskStatusRequest "running" "").
Definition completed_report : string := TaskStatusRequest_Marshal (MkTaskStatusRequest "completed" "").
Definition failed_report (msg : string) : string := TaskStatusRequest_Marshal (MkTaskStatusRequest "failed" msg).

Definition is_status (l : olabel) : bool := match l with OStatus _ => true | _ => false end.

Section traces.
(** Can a status report be sent at all? *)
Variable rep : bool.

(** The report of a body, if it can be sent. *)
Definition report_if (body : string) : list olabel := if rep then [OStatus body] else [].

(** Reports of the running state only, if they can be sent, and the work [w]. *)
Definition trace (w l : list olabel) : Prop :=
  (∀ body, OStatus body ∈ l → rep = true ∧ body = running_report) ∧ List.filter (λ x, negb (is_status x)) l = w.

Lemma trace_nil : trace [] [].
Proof. split; [|done]. intros body []%elem_of_nil. Qed.

Lemma trace_app w1 w2 l1 l2 : trace w1 l1 → trace w2 l2 → trace (w1 ++ w2) (l1 ++ l2).
Proof.
  intros [H1 <-] [H2 <-]. split; [|apply bfilter_app]. intros body [?|?]%elem_of_app; auto.
Qed.

Lemma trace_report : trace [] (report_if running_report).
Proof. unfold report_if. split; [|by destruct rep]. destruct rep; [by intros body [= ->]%list_elem_of_singleton|]. by intros body ?%elem_of_nil. Qed.

(** A step that ends: normally with the work [w] and a value of [P], or with the failed
    status after work of [We]. *)
Definition stepQ {A} (w : list olabel) (We : list olabel → Prop) (P : A → Prop) (r : fallible A) (l : list olabel) : Prop :=
  match r with
  | inl a => P a ∧ trace w l
  | inr _ => ∃ v l1 msg, We v ∧ l = (l1 ++ report_if (failed_report msg))%list ∧ trace v l1
  end.

Lemma wp_and_then {A B} (p : prog (fallible A)) (f : A → prog (fallible B)) w We P (Q : fallible B → list olabel → Prop) :
  wp p (stepQ w We P) →
  (∀ e v l1 msg, We v → trace v l1 → Q (inr e) (l1 ++ report_if (failed_report msg))%list) →
  (∀ a l, P a → trace w l → wp (f a) (λ r l', Q r (l ++ l')%list)) →
  wp (and_then p f) Q.
Proof.
  intros Hp He Hf. eapply wp_bind; [exact Hp|]. intros [a|e] l; simpl.
  - intros [Ha Ht]. by apply Hf.
  - intros (v & l1 & msg & Hv & -> & Ht). apply wp_ret. rewrite app_nil_r. by apply (He e v l1 msg).
Qed.

End traces.

(** Does url.Parse accept the address of the task's status reports? *)
Definition reports_sent `{UP : URLParse} (c : Client) (taskID : string) : bool :=
  match url_Parse (C_baseURL c ++ "/api/v1/tasks/" ++ taskID ++ "/status") with None => true | Some _ => false end.

Section reports.
Context `{UP : URLParse}.
Variables (c : Client) (task : TaskAssignment).
#[local] Abbreviation rep := (reports_sent c (TA_TaskID task)).
#[local] Abbreviation report := (report_if rep).
#[local] Abbreviation trace := (trace rep).
#[local] Abbreviation stepQ := (stepQ rep).

Lemma wp_updateStatus state msg (Q : unit → list olabel → Prop) :
  Q tt (report (TaskStatusRequest_Marshal (MkTaskStatusRequest (api_state state) msg))) →
  wp (updateStatus c (TA_TaskID task) state msg) Q.
Proof.
  intros HQ h. unfold updateStatus, Client_UpdateTaskStatus, patch, doJSON.
  unfold report_if, reports_sent in HQ.
  destruct (url_Parse _) as [e|].
  - exists []. rewrite app_nil_r. split; [done|exact HQ].
  - rewrite run_bind_eq, run_bind_eq, run_bind_eq. eexists [Event (HttpDo _) _]. split; [reflexivity|]. exact HQ.
Qed.

Lemma wp_running {A} state (p : prog A) Q :
  api_state state = "running" →
  (∀ l, trace [] l → wp p (λ a l', Q a (l ++ l')%list)) →
  wp (_ ← updateStatus c (TA_TaskID task) state ""; p) Q.
Proof.
  intros Hs Hp. eapply wp_bind; [apply (wp_updateStatus _ _ (λ _ l, trace [] l))|intros a l Hl; by apply Hp].
  rewrite Hs. apply trace_report.
Qed.

Lemma wp_fail_task {A} msg e (Q : fallible A → list olabel → Prop) :
  Q (inr e) (report (failed_report msg)) → wp (fail_task c (TA_TaskID task) msg e) Q.
Proof.
  intros HQ. apply (wp_bind _ _ (λ _ l, l = report (failed_report msg))); [by apply wp_updateStatus|].
  intros a l ->. apply wp_ret. by rewrite app_nil_r.
Qed.

Lemma wp_or_fail_task {A} sp ep (p : prog (fallible A)) w (We : list olabel → Prop) (P : A → Prop) :
  wp p (λ r l, match r with inl a => P a ∧ trace w l | inr _ => ∃ v, We v ∧ trace v l end) →
  wp (or_fail_task c (TA_TaskID task) sp ep p) (stepQ w We P).
Proof.
  intros Hp. eapply wp_bind; [exact Hp|]. intros [a|e] l Hr.
  - apply wp_ret. by rewrite app_nil_r.
  - apply wp_fail_task. destruct Hr as (v & Hv & Ht). by exists v, l, (sp ++ ": " ++ ce_Text e).
Qed.

(** *** The programs that show nothing *)

Lemma quiet_CloneRepo `{QT : Quoting} url branch dest : calls_in quiet (CloneRepo url branch dest).
Proof.
  unfold CloneRepo. destruct (_ && _); [done|]. split; [done|]. intros [| |msg]; [done..|].
  destruct (negb _); [|done]. split; [done|]. intros [| |msg']; [|done..]. split; [done|]. by intros.
Qed.

Lemma quiet_scan_collected rs files : calls_in quiet (scan_collected rs files).
Proof.
  induction files as [|f files IH]; [done|]. apply calls_in_ask; [done|].
  intros []; [done|]. apply calls_in_bind; [done|]. by intros.
Qed.

Lemma quiet_scan_directory rs dir : calls_in quiet (scan_directory rs dir).
Proof.
  apply calls_in_ask; [done|]. intros [files|]; [|done]. apply calls_in_bind; [apply quiet_scan_collected|]. by intros.
Qed.

Lemma quiet_ctx_checks n : calls_in quiet (ctx_checks n).
Proof.
  induction n as [|n IH]; [done|]. apply calls_in_ask; [done|].
  intros []; [done|]. apply calls_in_bind; [done|]. by intros.
Qed.

Lemma quiet_scan_output rs patch : calls_in quiet (scan_output rs patch).
Proof. apply calls_in_bind; [apply quiet_ctx_checks|]. by intros. Qed.

Lemma quiet_Pack `{QT : Quoting} taskID workerID d secret artifacts :
  calls_in quiet (Pack taskID workerID d secret artifacts).
Proof.
  apply calls_in_bind; [|by intros []]. induction artifacts as [|rel rest IH]; [done|]. cbn [pack_artifacts].
  destruct (escapes _ _); [done|]. apply calls_in_bind; [by split|]. intros [entry|e]; [|done].
  apply calls_in_bind; [done|]. by intros [].
Qed.

Lemma quiet_env_of ks : calls_in quiet (env_of ks).
Proof.
  induction ks as [|k ks IH]; [done|]. apply calls_in_ask; [done|]. intros v. apply calls_in_bind; [done|]. by intros.
Qed.

Lemma quiet_first_env ks : calls_in quiet (first_env ks).
Proof. induction ks as [|k ks IH]; [done|]. apply calls_in_ask; [done|]. intros v. by destruct (negb _). Qed.

(** *** Scans that the context does not cut short *)

Lemma scan_collected_run rs files :
  (∀ h, o _ h CtxDone = false) → ∀ h, (run o h (scan_collected rs files)).1 = List.flat_map (scan_file rs) files.
Proof.
  intros Hd. induction files as [|f files IH]; intros h; [done|].
  cbn [scan_collected List.flat_map]. rewrite run_bind_eq, run_ask, Hd. cbn [fst snd].
  by rewrite run_bind_eq, IH.
Qed.

Lemma ctx_checks_run n : (∀ h, o _ h CtxDone = false) → ∀ h, (run o h (ctx_checks n)).1 = replicate n false.
Proof.
  intros Hd. induction n as [|n IH]; intros h; [done|].
  cbn [ctx_checks]. rewrite run_bind_eq, run_ask, Hd. cbn [fst snd]. by rewrite run_bind_eq, IH.
Qed.

Lemma scan_patch_running rs lines n file num :
  scan_patch rs (replicate n false) lines file num = scan_patch rs [] lines file num.
Proof.
  revert n file num. induction lines as [|line lines IH]; intros n file num; [done|].
  destruct n as [|n]; [done|]. cbn [scan_patch replicate].
  destruct (HasPrefix line "+++ b/"); [apply IH|]. destruct (HasPrefix line "@@"); [apply IH|].
  destruct (_ || _); [apply IH|]. by rewrite IH.
Qed.

Lemma scan_patch_no_error rs lines file num : (scan_patch rs [] lines file num).2 = false.
Proof.
  revert file num. induction lines as [|line lines IH]; intros file num; [done|]. cbn [scan_patch].
  destruct (HasPrefix line "+++ b/"); [apply IH|]. destruct (HasPrefix line "@@"); [apply IH|].
  destruct (_ || _); [apply IH|]. specialize (IH file (num + 1)). by destruct (scan_patch _ _ _ _ _).
Qed.

(** *** The agents *)

(** The output of the agent, when every process answers [pr]. *)
Definition output_of_agent (res : ExecuteResult) : Prop :=
  ∀ pr, (∀ h path argv dir env, o _ h (Exec path argv dir env) = Ok pr) → EX_Stdout res = PR_Stdout pr.

Definition agentQ (r : fallible ExecuteResult) (l : list olabel) : Prop :=
  match r with
  | inl res => output_of_agent res ∧ trace [OAgent] l
  | inr _ => ∃ v, (v = [] ∨ v = [OAgent]) ∧ trace v l
  end.

Lemma trace_agent : trace [OAgent] [OAgent].
Proof. split; [|done]. intros body [=]%list_elem_of_singleton. Qed.

Lemma wp_agent_run binary name argv env artifacts req :
  calls_in quiet env → wp (agent_run binary name argv env artifacts req) agentQ.
Proof.
  intros He. eapply (wp_bind _ _ (λ _ l, l = [])); [by apply wp_ask|]. intros [path|e] l ->.
  2: { apply wp_ret. exists []. split; [by left|apply trace_nil]. }
  eapply (wp_bind _ _ (λ _ l, l = [])); [by apply wp_quiet|]. intros vars l ->.
  eapply (wp_bind _ _ (λ r l, l = [OAgent] ∧ ∃ h, r = o _ h (Exec path argv (ER_WorkspacePath req) vars)));
    [apply wp_ask; eauto|].
  intros r l [-> [h E]]. apply wp_ret. simpl. destruct r as [pr|e].
  - split; [|apply trace_agent]. intros pr' Hpr. rewrite Hpr in E. by injection E as ->.
  - exists [OAgent]. split; [by right|apply trace_agent].
Qed.

Lemma wp_daemon_agent `{MR : MapRange} `{CU : JSONUnmarshal claudeOutput} id a req :
  Registry_Get id daemon_registry = Some a → wp (AA_Execute a req) agentQ.
Proof.
  rewrite daemon_registry_get.
  destruct (String.eqb id "claude"); [intros [= <-]|destruct (String.eqb id "copilot"); [intros [= <-]|
    destruct (String.eqb id "gemini"); [intros [= <-]|destruct (String.eqb id "chatgpt"); [intros [= <-]|done]]]];
    apply wp_agent_run; try apply quiet_env_of.
  apply calls_in_bind; [apply quiet_env_of|]. intros. apply calls_in_bind; [apply quiet_first_env|]. intros.
  apply calls_in_bind; [apply quiet_env_of|]. by intros.
Qed.

(** *** The steps of Execute *)

Section steps.
Context `{QT : Quoting}.
Variables (reg : Registry) (rs : Ruleset) (cfg : WConfig).
Hypothesis agents_ok : ∀ id a req, Registry_Get id reg = Some a → wp (AA_Execute a req) agentQ.

(** What the scans have found, when the files of the workspace and the output are known. *)
Definition prescan_clean (ws : string) : Prop :=
  WSec_ScanEnabled (W_Security cfg) = true → ∀ files, (∀ h, o _ h (WalkDir ws) = Ok files) →
  (∀ h, o _ h CtxDone = false) → hasCritical (ScanDirectory rs files) = false.
Definition output_clean : Prop :=
  WSec_ScanEnabled (W_Security cfg) = true → ∀ pr, (∀ h path argv dir env, o _ h (Exec path argv dir env) = Ok pr) →
  (∀ h, o _ h CtxDone = false) → hasCritical (ScanPatch rs [] (PR_Stdout pr)).1 = false.

Definition no_work (v : list olabel) : Prop := v = [].

Lemma wp_reported {A} state (p : prog (fallible A)) w We P :
  api_state state = "running" → wp p (stepQ w We P) → wp (_ ← updateStatus c (TA_TaskID task) state ""; p) (stepQ w We P).
Proof.
  intros Hs Hp. apply wp_running; [done..|]. intros l Hl. eapply wp_mono; [exact Hp|]. intros [a|e] l'; simpl.
  - intros [Ha Ht]. split; [done|]. by apply (trace_app _ [] w).
  - intros (v & l1 & msg & Hv & -> & Ht). exists v, (l ++ l1)%list, msg. split; [done|].
    rewrite app_assoc. split; [done|]. by apply (trace_app _ [] v).
Qed.

(** A quiet program, reported when it fails. *)
Lemma wp_quiet_step {A} sp ep (p : prog (fallible A)) (P : A → Prop) :
  calls_in quiet p → (∀ h a, (run o h p).1 = inl a → P a) →
  wp (or_fail_task c (TA_TaskID task) sp ep p) (stepQ [] no_work P).
Proof.
  intros Hq HP. apply wp_or_fail_task, wp_quiet; [done|]. intros h. specialize (HP h).
  destruct (run o h p).1; [split; [by apply HP|apply trace_nil]|]. exists []. split; [done|apply trace_nil].
Qed.

Lemma wp_done {A} w We (P : A → Prop) a : P a → w = [] → wp (mret (inl a)) (stepQ w We P).
Proof. intros Ha ->. apply wp_ret. split; [done|apply trace_nil]. Qed.

Lemma wp_refuse {A} msg e (P : A → Prop) w : wp (fail_task c (TA_TaskID task) msg e) (stepQ w no_work P).
Proof. apply wp_fail_task. exists [], [], msg. split_and!; [done|done|apply trace_nil]. Qed.

Lemma wp_clone_step ws : wp (clone_step c task ws) (stepQ [] no_work (λ _, True)).
Proof.
  unfold clone_step. destruct (negb _); [|by apply wp_done].
  apply wp_reported; [done|]. apply wp_quiet_step; [apply quiet_CloneRepo|done].
Qed.

Lemma wp_prescan_step ws : wp (prescan_step rs c cfg task ws) (stepQ [] no_work (λ _, prescan_clean ws)).
Proof.
  unfold prescan_step. destruct (WSec_ScanEnabled _) eqn:Es; [|apply wp_done; [by unfold prescan_clean; rewrite Es|done]].
  apply wp_reported; [done|].
  eapply (wp_bind _ _ (λ r l, l = [] ∧ ∀ files, (∀ h, o _ h (WalkDir ws) = Ok files) → (∀ h, o _ h CtxDone = false) →
    r = inl (ScanDirectory rs files))).
  - apply wp_quiet; [apply quiet_scan_directory|]. intros h. split; [done|]. intros files Hw Hd.
    unfold scan_directory. rewrite run_bind_eq, run_ask, Hw. cbn [fst snd].
    by rewrite run_bind_eq, scan_collected_run.
  - intros r l [-> Hr]. destruct r as [findings|e].
    + destruct (hasCritical findings) eqn:Ec; [apply wp_refuse|]. apply wp_done; [|done].
      intros _ files Hw Hd. specialize (Hr files Hw Hd). injection Hr as ->. done.
    + apply wp_done; [|done]. intros _ files Hw Hd. by specialize (Hr files Hw Hd).
Qed.

Lemma wp_agent_step ws :
  wp (agent_step reg c task ws) (stepQ [OAgent] (λ v, v = [] ∨ v = [OAgent]) output_of_agent).
Proof.
  unfold agent_step. destruct (Registry_Get _ _) as [a|] eqn:E.
  - apply wp_reported; [done|]. apply wp_or_fail_task. eapply agents_ok, E.
  - apply wp_fail_task. eexists [], [], _. split_and!; [by left|done|apply trace_nil].
Qed.

Lemma wp_postscan_step res :
  output_of_agent res → wp (postscan_step rs c cfg task res) (stepQ [] no_work (λ _, output_clean)).
Proof.
  intros Hres. unfold postscan_step. destruct (WSec_ScanEnabled _) eqn:Es; simpl;
    [|apply wp_done; [by unfold output_clean; rewrite Es|done]].
  destruct (String.eqb_spec (EX_Stdout res) "") as [E|_]; simpl.
  { apply wp_done; [|done]. intros _ pr Hpr _. rewrite (Hres pr Hpr) in E. by rewrite E. }
  apply wp_reported; [done|].
  eapply (wp_bind _ _ (λ r l, l = [] ∧ ((∀ h, o _ h CtxDone = false) → r = ScanPatch rs [] (EX_Stdout res)))).
  - apply wp_quiet; [apply quiet_scan_output|]. intros h. split; [done|]. intros Hd. unfold scan_output.
    rewrite run_bind_eq, ctx_checks_run by done. apply scan_patch_running.
  - intros [findings err] l [-> Hr]. destruct err.
    + apply wp_done; [|done]. intros _ pr Hpr Hd. specialize (Hr Hd).
      assert ((ScanPatch rs [] (EX_Stdout res)).2 = false) as Hf by apply scan_patch_no_error.
      by rewrite <-Hr in Hf.
    + destruct (hasCritical findings) eqn:Ec; [apply wp_refuse|]. apply wp_done; [|done].
      intros _ pr Hpr Hd. by rewrite <-(Hres pr Hpr), <-(Hr Hd).
Qed.

Lemma wp_pack_step ws res : wp (pack_step c cfg task ws res) (stepQ [] no_work (λ _, True)).
Proof.
  unfold pack_step. apply wp_reported; [done|].
  eapply wp_and_then; [apply (wp_quiet_step _ _ _ (λ _, True)); [apply quiet_Pack|done]| |].
  - intros e v l1 msg -> Ht. exists [], l1, msg. done.
  - intros pkg l _ Ht. apply wp_ret. rewrite app_nil_r. done.
Qed.

Lemma wp_report_step pkg : wp (report_step c task pkg) (stepQ [OOutput] (λ v, v = [] ∨ v = [OOutput]) (λ _, True)).
Proof.
  unfold report_step. apply wp_reported; [done|]. apply wp_or_fail_task. intros h. rewrite Reporter_Submit_run.
  unfold SubmitOutput. destruct (url_Parse _) as [e|].
  { exists []. rewrite app_nil_r. split; [done|]. exists []. split; [by left|apply trace_nil]. }
  rewrite run_bind_eq, run_ask. eexists [Event (HttpDo _) _]. split; [reflexivity|].
  assert (trace [OOutput] [OOutput]) by (split; [intros body [=]%list_elem_of_singleton|done]).
  cbn [fst snd run mret prog_ret]. destruct (match o _ h _ with Ok _ => _ | Err _ => _ end); [done|].
  exists [OOutput]. auto.
Qed.

(** The work done by a failed execution, with what the scans must have found for it. *)
Definition failed_work (ws : string) (v : list olabel) : Prop :=
  v = [] ∨ (prescan_clean ws ∧ (v = [OAgent] ∨ (output_clean ∧ v = [OAgent; OOutput]))).

Definition execQ (ws : string) (r : fallible unit) (l : list olabel) : Prop :=
  match r with
  | inl _ => prescan_clean ws ∧ output_clean ∧
      ∃ l1, l = (l1 ++ report completed_report)%list ∧ trace [OAgent; OOutput] l1
  | inr _ => ∃ v l1 msg, failed_work ws v ∧ l = (l1 ++ report (failed_report msg))%list ∧ trace v l1
  end.

(** The error of a later step, after the work [w]. *)
Lemma execQ_failed ws e w v l l1 msg :
  failed_work ws (w ++ v) → trace w l → trace v l1 →
  execQ ws (inr e) (l ++ l1 ++ report (failed_report msg))%list.
Proof. intros Hf Hw Hv. exists (w ++ v)%list, (l ++ l1)%list, msg. rewrite app_assoc. by split_and!; [| |apply trace_app]. Qed.

Lemma execQ_clean_failed ws e v l l1 msg :
  no_work v → failed_work ws [] → trace [] l → trace v l1 →
  execQ ws (inr e) (l ++ l1 ++ report (failed_report msg))%list.
Proof. intros -> Hf Hl H1. by eapply (execQ_failed ws e [] []). Qed.

Lemma wp_execute_in ws : wp (execute_in reg rs c cfg task ws) (execQ ws).
Proof.
  eapply wp_and_then; [apply wp_clone_step| |].
  { intros e v l1 msg -> Ht. apply (execQ_failed ws e [] [] [] l1); [by left|apply trace_nil|done]. }
  intros ? l1 _ T1. eapply wp_and_then; [apply wp_prescan_step| |].
  { intros e v l msg -> Ht. by apply (execQ_failed ws e [] []); [left| |]. }
  intros ? l2 Hpre T2. pose proof (trace_app _ _ _ _ _ T1 T2) as T12. eapply wp_and_then; [apply wp_agent_step| |].
  { intros e v l msg Hv Ht. rewrite app_assoc. apply (execQ_failed ws e [] v); [|done..].
    destruct Hv as [->| ->]; [by left|]. right. auto. }
  intros res l3 Hres T3. pose proof (trace_app _ _ _ _ _ T12 T3) as T13.
  eapply wp_and_then; [by apply wp_postscan_step| |].
  { intros e v l msg -> Ht. rewrite !app_assoc. rewrite <-(app_assoc _ l). apply (execQ_failed ws e [OAgent] []); [|done..].
    right. auto. }
  intros ? l4 Hout T4. pose proof (trace_app _ _ _ _ _ T13 T4) as T14. eapply wp_and_then; [apply wp_pack_step| |].
  { intros e v l msg -> Ht. rewrite !app_assoc. rewrite <-(app_assoc _ l). apply (execQ_failed ws e [OAgent] []); [|done..].
    right. auto. }
  intros pkg l5 _ T5. pose proof (trace_app _ _ _ _ _ T14 T5) as T15. eapply wp_and_then; [apply wp_report_step| |].
  { intros e v l msg Hv Ht. rewrite !app_assoc. rewrite <-(app_assoc _ l). apply (execQ_failed ws e [OAgent] v); [|done..].
    right. destruct Hv as [->| ->]; auto. }
  intros ? l6 _ T6. pose proof (trace_app _ _ _ _ _ T15 T6) as T16.
  apply (wp_bind _ _ (λ _ l, l = report completed_report)); [by apply wp_updateStatus|].
  intros ? l7 ->. apply wp_ret. split; [done|]. split; [done|]. eexists. rewrite app_nil_r, !app_assoc. split; [done|done].
Qed.

Lemma quiet_Create base id : calls_in quiet (Create base id).
Proof. apply calls_in_ask; [done|]. by intros []. Qed.

Lemma quiet_Cleanup base id : calls_in quiet (Cleanup base id).
Proof. apply calls_in_ask; [done|]. intros []; [|done]. apply calls_in_ask; [done|]. by intros []. Qed.

Lemma wp_Execute :
  wp (Execute reg rs c cfg task) (execQ (taskPath (Ws_BasePath (W_Workspace cfg)) (TA_TaskID task))).
Proof.
  set (ws := taskPath _ _). apply (wp_bind _ _ (λ _ l, l = [])); [by apply wp_ask|]. intros ? l ->. cbn [app].
  apply wp_running; [done..|]. intros l0 T0.
  eapply wp_and_then;
    [apply (wp_quiet_step _ _ _ (λ p, p = ws)); [apply quiet_Create|]| |].
  - intros h path. unfold Create. rewrite run_bind_eq, run_ask. simpl. by destruct (o _ h _); intros [= <-].
  - intros e v l1 msg -> Ht. by apply (execQ_failed ws e [] []); [left| |].
  - intros ? l1 -> T1. pose proof (trace_app _ _ _ _ _ T0 T1) as T.
    apply (wp_bind _ _ (execQ ws)); [apply wp_execute_in|]. intros r l2 Hr.
    assert (execQ ws r (l0 ++ l1 ++ l2)) as Hr'.
    { destruct r as [[]|e]; simpl in *.
      - destruct Hr as (? & ? & l3 & -> & T3). split_and!; [done..|]. exists ((l0 ++ l1) ++ l3)%list.
        split; [by rewrite !app_assoc|]. by apply (trace_app _ [] _).
      - destruct Hr as (v & l3 & msg & Hv & -> & T3). exists v, ((l0 ++ l1) ++ l3)%list, msg.
        split_and!; [done|by rewrite !app_assoc|]. by apply (trace_app _ [] _). }
    destruct (Ws_CleanupAfter _).
    + apply (wp_bind _ _ (λ _ l, l = [])); [apply wp_quiet; [apply quiet_Cleanup|done]|].
      intros ? l ->. apply wp_ret. by rewrite !app_nil_r.
    + apply wp_ret. by rewrite !app_nil_r.
Qed.
End steps.
End reports.
End wp.

(** ** Runs in which every call succeeds *)

Section results.
Variable o : oracle.
Context `{UP : URLParse} `{QT : Quoting}.
Variables (c : Client) (rs : Ruleset) (cfg : WConfig) (task : TaskAssignment).

Lemma run_and_then {A B} h (p : prog (fallible A)) (f : A → prog (fallible B)) a :
  (run o h p).1 = inl a → run o h (and_then p f) = run o (run o h p).2 (f a).
Proof. intros E. unfold and_then. by rewrite run_bind_eq, E. Qed.

Lemma run_or_fail_task {A} h taskID sp ep (p : prog (fallible A)) a :
  (run o h p).1 = inl a → (run o h (or_fail_task c taskID sp ep p)).1 = inl a.
Proof. intros E. unfold or_fail_task. by rewrite run_bind_eq, E. Qed.

Hypothesis mkdir_ok : ∀ h p, o _ h (MkdirAll p) = Ok tt.
Hypothesis clone_ok : ∀ h url ref p, o _ h (Clone url ref p) = Cloned.
Hypothesis branch_ok : TA_RepoURL task = "" ∨ valid_branch (TA_Branch task) = true.
Hypothesis running : ∀ h, o _ h CtxDone = false.

Lemma run_clone_step ws h : (run o h (clone_step c task ws)).1 = inl tt.
Proof.
  unfold clone_step. destruct (String.eqb_spec (TA_RepoURL task) ""); [done|]. simpl.
  rewrite run_bind_eq. apply run_or_fail_task. unfold CloneRepo.
  destruct branch_ok as [|E]; [done|]. rewrite E, andb_false_r, run_bind_eq, run_ask, clone_ok. done.
Qed.

Lemma run_prescan_step ws files h :
  (∀ h, o _ h (WalkDir ws) = Ok files) → hasCritical (ScanDirectory rs files) = false →
  (run o h (prescan_step rs c cfg task ws)).1 = inl tt.
Proof.
  intros Hw Hc. unfold prescan_step. destruct (WSec_ScanEnabled _); [|done].
  rewrite run_bind_eq, run_bind_eq. unfold scan_directory. rewrite (run_bind_eq _ _ (ask _)), run_ask, Hw. cbn [fst snd].
  rewrite (run_bind_eq _ _ (scan_collected _ _)), scan_collected_run by done.
  change (List.flat_map (scan_file rs) (List.filter collected files)) with (ScanDirectory rs files).
  cbn [run mret prog_ret fst snd]. by rewrite Hc.
Qed.

Lemma run_postscan_step res h :
  hasCritical (ScanPatch rs [] (EX_Stdout res)).1 = false → (run o h (postscan_step rs c cfg task res)).1 = inl tt.
Proof.
  intros Hc. unfold postscan_step. destruct (_ && _); [|done]. rewrite run_bind_eq, run_bind_eq. unfold scan_output.
  rewrite (run_bind_eq _ _ (ctx_checks _)), ctx_checks_run by done. cbn [run mret prog_ret fst snd].
  unfold ScanPatch in *. rewrite scan_patch_running. destruct (scan_patch rs [] _ _ _) as [findings []]; [done|].
  simpl in Hc. by rewrite Hc.
Qed.

Lemma run_agent_run binary name argv env artifacts req pr h :
  (∀ h f, ∃ p, o _ h (LookPath f) = Ok p) → (∀ h p a d e, o _ h (Exec p a d e) = Ok pr) →
  (run o h (agent_run binary name argv env artifacts req)).1 =
    inl (MkExecuteResult (PR_ExitCode pr) (PR_Stdout pr) (PR_Stderr pr) (artifacts pr)).
Proof.
  intros Hl He. unfold agent_run. rewrite run_bind_eq, run_ask. destruct (Hl h binary) as [p ->]. cbn [fst snd].
  rewrite run_bind_eq, run_bind_eq, run_ask, He. done.
Qed.

(** A process that failed leaves no artifacts, whichever agent it is. *)
Lemma run_agent_failed `{MR : MapRange} `{CU : JSONUnmarshal claudeOutput} id a req pr h :
  Registry_Get id daemon_registry = Some a → PR_ExitCode pr ≠ 0 →
  (∀ h f, ∃ p, o _ h (LookPath f) = Ok p) → (∀ h p a d e, o _ h (Exec p a d e) = Ok pr) →
  (run o h (AA_Execute a req)).1 = inl (MkExecuteResult (PR_ExitCode pr) (PR_Stdout pr) (PR_Stderr pr) []).
Proof.
  intros Hg Hx Hl He. rewrite daemon_registry_get in Hg. revert Hg.
  destruct (String.eqb id "claude"); [intros [= <-]|destruct (String.eqb id "copilot"); [intros [= <-]|
    destruct (String.eqb id "gemini"); [intros [= <-]|destruct (String.eqb id "chatgpt"); [intros [= <-]|done]]]];
    cbn [AA_Execute claude_Adapter copilot_Adapter gemini_Adapter chatgpt_Adapter];
    unfold claude_Execute, copilot_Execute, gemini_Execute, chatgpt_Execute;
    rewrite (run_agent_run _ _ _ _ _ req pr) by done; try done.
  unfold claude_artifacts. by destruct (Z.eqb_spec (PR_ExitCode pr) 0).
Qed.
End results.

(** ** Properties *)

Section properties.
Context `{QT : Quoting} `{UP : URLParse} `{MR : MapRange} `{CU : JSONUnmarshal claudeOutput}.

Lemma daemon_wp_Execute (o : oracle) rs c cfg task :
  wp o (Execute daemon_registry rs c cfg task)
    (execQ o c task rs cfg (taskPath (Ws_BasePath (W_Workspace cfg)) (TA_TaskID task))).
Proof. apply wp_Execute. intros id a req. apply wp_daemon_agent. Qed.

(** C6: A task's execution speaks a fixed protocol with the control plane, whatever the
    network, the disk, git and the agent do: it makes requests with reports of the running
    state, then exactly one last report, completed if Execute succeeds and failed otherwise,
    except that it reports nothing at all when url.Parse refuses the address of the task's
    status (the base URL with the task's id in it); the agent is started at most once, the
    output submitted at most once and only after the agent, and both have happened when
    Execute succeeds; and the control plane accepts every state that is reported. *)
Theorem execution_protocol (o : oracle) rs c cfg task h :
  ∃ es l1 last state msg, (run o h (Execute daemon_registry rs c cfg task)).2 = (h ++ es)%list ∧
    observe es = (l1 ++ (if reports_sent c (TA_TaskID task) then [OStatus last] else []))%list ∧
    (∀ body, OStatus body ∈ l1 → reports_sent c (TA_TaskID task) = true ∧ body = running_report) ∧
    last = TaskStatusRequest_Marshal (MkTaskStatusRequest state msg) ∧
    Forall (λ s, is_ok (validateStateTransition s) = true) ["running"; state] ∧
    match (run o h (Execute daemon_registry rs c cfg task)).1 with
    | inl _ => state = "completed" ∧ List.filter (λ x, negb (is_status x)) l1 = [OAgent; OOutput]
    | inr _ => state = "failed" ∧ List.filter (λ x, negb (is_status x)) l1 ∈ [[]; [OAgent]; [OAgent; OOutput]]
    end.
Proof.
  destruct (daemon_wp_Execute o rs c cfg task h) as (es & E & HQ). exists es.
  destruct (run o h _).1 as [[]|e]; simpl in HQ.
  - destruct HQ as (_ & _ & l1 & -> & Ht & Hw). exists l1, completed_report, "completed", "".
    split_and!; [done..|by repeat constructor|done|done].
  - destruct HQ as (v & l1 & msg & Hv & -> & Ht & Hw). exists l1, (failed_report msg), "failed", msg.
    split_and!; [done..|by repeat constructor|done|]. rewrite Hw. destruct Hv as [->|[_ [->|[_ ->]]]]; set_solver.
Qed.

(** C7: Scanning gates the agent and the output: with scanning enabled and a context that
    does not end, if the files of the workspace contain a critical finding then the agent is
    not started and nothing is submitted, and if the agent's standard output, read as a
    diff, contains one, then nothing is submitted; in both cases Execute fails. *)
Theorem secrets_stop_execution (o : oracle) rs c cfg task h :
  WSec_ScanEnabled (W_Security cfg) = true → (∀ h, o _ h CtxDone = false) →
  ∃ es, (run o h (Execute daemon_registry rs c cfg task)).2 = (h ++ es)%list ∧
    (∀ files, (∀ h, o _ h (WalkDir (taskPath (Ws_BasePath (W_Workspace cfg)) (TA_TaskID task))) = Ok files) →
     hasCritical (ScanDirectory rs files) = true →
     (OAgent ∉ observe es) ∧ (OOutput ∉ observe es) ∧
     ∃ e, (run o h (Execute daemon_registry rs c cfg task)).1 = inr e) ∧
    (∀ pr, (∀ h path argv dir env, o _ h (Exec path argv dir env) = Ok pr) →
     hasCritical (ScanPatch rs [] (PR_Stdout pr)).1 = true →
     (OOutput ∉ observe es) ∧ ∃ e, (run o h (Execute daemon_registry rs c cfg task)).1 = inr e).
Proof.
  intros Hs Hd. destruct (daemon_wp_Execute o rs c cfg task h) as (es & E & HQ). exists es. split; [done|].
  assert (∀ l v msg x, trace (reports_sent c (TA_TaskID task)) v l → is_status x = false → x ∉ v →
    x ∉ (l ++ report_if (reports_sent c (TA_TaskID task)) msg)%list) as Hnot.
  { intros l v msg x [_ <-] Hx Hn [Hin|Hin]%elem_of_app.
    - apply Hn, elem_of_bfilter. by rewrite Hx.
    - unfold report_if in Hin. case_match; [|by apply elem_of_nil in Hin]. by apply list_elem_of_singleton in Hin as ->. }
  destruct (run o h _).1 as [[]|e]; simpl in HQ.
  - destruct HQ as (Hpre & Hout & _). split; [intros files Hw Hc|intros pr Hpr Hc].
    + by rewrite (Hpre Hs files Hw Hd) in Hc.
    + by rewrite (Hout Hs pr Hpr Hd) in Hc.
  - destruct HQ as (v & l1 & msg & Hv & -> & Ht). split; [intros files Hw Hc|intros pr Hpr Hc].
    + assert (v = []) as ->.
      { destruct Hv as [->|[Hpre _]]; [done|]. by rewrite (Hpre Hs files Hw Hd) in Hc. }
      split_and!; [apply (Hnot _ [])|apply (Hnot _ [])|by exists e]; (done || apply not_elem_of_nil).
    + split; [|by exists e]. apply (Hnot _ v); [done..|].
      destruct Hv as [->|[_ [->|[Hout ->]]]]; [apply not_elem_of_nil|set_solver|].
      by rewrite (Hout Hs pr Hpr Hd) in Hc.
Qed.

(** The exit status of the agent does not matter: when every other call succeeds, a task
    whose agent exits with a failure, or is killed by the monitors or at the timeout
    (exit code -1), is reported completed. *)
Lemma failed_agent_completes (o : oracle) rs c cfg task files pr h a :
  url_Parse (C_baseURL c ++ "/api/v1/outputs") = None → Registry_Get (TA_AIAgent task) daemon_registry = Some a →
  TA_RepoURL task = "" ∨ valid_branch (TA_Branch task) = true →
  (∀ h p, o _ h (MkdirAll p) = Ok tt) → (∀ h url ref p, o _ h (Clone url ref p) = Cloned) →
  (∀ h, o _ h CtxDone = false) → (∀ h p, o _ h (WalkDir p) = Ok files) →
  (∀ h f, ∃ p, o _ h (LookPath f) = Ok p) → (∀ h p a d e, o _ h (Exec p a d e) = Ok pr) →
  (∀ h req, ∃ resp, o _ h (HttpDo req) = Ok resp ∧ WP_Status resp = 200) →
  hasCritical (ScanDirectory rs files) = false → hasCritical (ScanPatch rs [] (PR_Stdout pr)).1 = false →
  PR_ExitCode pr ≠ 0 →
  ∃ es l1, (run o h (Execute daemon_registry rs c cfg task)) = (inl tt, (h ++ es)%list) ∧
    observe es = (l1 ++ report_if (reports_sent c (TA_TaskID task)) completed_report)%list.
Proof.
  intros Hurl Hg Hb Hm Hcl Hd Hw Hl He Hh Hs Hp Hx.
  assert (∀ ws h, (run o h (execute_in daemon_registry rs c cfg task ws)).1 = inl tt) as Hin.
  { intros ws h0. unfold execute_in.
    erewrite run_and_then by (by apply run_clone_step). erewrite run_and_then by (by eapply run_prescan_step).
    erewrite run_and_then.
    2: { unfold agent_step. rewrite Hg. rewrite run_bind_eq. apply run_or_fail_task. by eapply run_agent_failed. }
    erewrite run_and_then by (by apply run_postscan_step). erewrite run_and_then.
    2: { unfold pack_step. rewrite run_bind_eq. erewrite run_and_then; [reflexivity|]. by apply run_or_fail_task. }
    erewrite run_and_then; [by rewrite run_bind_eq|].
    unfold report_step. rewrite run_bind_eq. apply run_or_fail_task. rewrite Reporter_Submit_run.
    unfold SubmitOutput. rewrite Hurl, run_bind_eq, run_ask. cbn [fst snd].
    match goal with |- context [o _ ?h1 (HttpDo ?r)] => destruct (Hh h1 r) as (resp & -> & E200) end.
    simpl. by rewrite E200. }
  assert ((run o h (Execute daemon_registry rs c cfg task)).1 = inl tt) as Hr.
  { unfold Execute. rewrite run_bind_eq, run_bind_eq. erewrite run_and_then.
    2: { apply run_or_fail_task. unfold Create. rewrite run_bind_eq, run_ask, Hm. reflexivity. }
    rewrite run_bind_eq. destruct (Ws_CleanupAfter _); [rewrite run_bind_eq|]; apply Hin. }
  destruct (daemon_wp_Execute o rs c cfg task h) as (es & E & HQ). rewrite Hr in HQ.
  destruct HQ as (_ & _ & l1 & Ho & _). exists es, l1. split; [|done].
  rewrite <-E, <-Hr. by destruct (run o h _).
Qed.
End properties.
