(* ===== verification/Control.v ===== *)
(** * grid-worker/internal/control/server.go: the control socket

    A connection is the string of bytes that the client sends; the server returns the bytes
    it writes.  A handler changes the state of the daemon, of type [W].  %q and the decoding
    of JSON are parameters here; Messages.v has the decoders and DaemonControl.v the handlers. *)
From S2P Require Import Prelude GoStd Crypto GoJson Policy WProg WClient.
From Stdlib Require Import Ascii.

#[local] Open Scope string_scope.
#[local] Open Scope Z_scope.

(** ** Messages *)

Record Command := MkCommand { Cmd_Type : string; Cmd_Payload : string (* raw JSON *) }.
Record Response := MkResp { Rsp_OK : bool; Rsp_Data : string (* raw JSON *); Rsp_Error : string }.

Definition omit_empty_raw (name raw : string) : list (string * jdoc) :=
  if String.eqb raw "" then [] else [(name, DNum raw)].

Definition Command_Marshal (c : Command) : string :=
  json_Marshal (DObj (("type", DStr (Cmd_Type c)) :: omit_empty_raw "payload" (Cmd_Payload c))).
Definition Response_Marshal (r : Response) : string :=
  json_Marshal (DObj (("ok", DBool (Rsp_OK r)) :: omit_empty_raw "data" (Rsp_Data r) ++ omit_empty "error" (Rsp_Error r))).

(** binary.Write of uint32(len(data)), then the data. *)
Definition frame (data : string) : string := of_bytes (be32 (w32 (str_len data))) ++ data.

(** binary.Read of a big-endian uint32: [None] when fewer than four bytes are left. *)
Definition read_u32 (s : string) : option (Z * string) :=
  match s with
  | String a (String b (String c (String d rest))) =>
      Some (((byte_val a * 256 + byte_val b) * 256 + byte_val c) * 256 + byte_val d, rest)
  | _ => None
  end.

(** io.ReadFull of [n] bytes. *)
Fixpoint read_full (n : Z) (s : string) : option (string * string) :=
  if n <=? 0 then Some ("", s)
  else match s with
       | EmptyString => None
       | String c s => match read_full (n - 1) s with Some (b, rest) => Some (String c b, rest) | None => None end
       end.

Definition maxMessage : Z := 2 ^ 20.

(** ** The server *)

Section server.
Context {W : Type} `{QT : Quoting} `{CD : JSONUnmarshal Command} `{RD : JSONUnmarshal Response}.

Definition CommandHandler : Type := string → M W (result (option jdoc)).

Variable handlers : gmap string CommandHandler.

Definition dispatch (cmd : Command) : M W Response :=
  match handlers !! Cmd_Type cmd with
  | None => mret (MkResp false "" ("unknown command type " ++ Quote (Cmd_Type cmd)))
  | Some handler =>
      r ← handler (Cmd_Payload cmd);
      mret match r with
      | Err e => MkResp false "" (err_text e)
      | Ok None => MkResp true "" ""
      | Ok (Some data) => MkResp true (json_Marshal data) ""
      end
  end.

(** The loop of handleConn on the bytes of the connection: what it writes. *)
Fixpoint handle_conn (fuel : nat) (input : string) : M W string :=
  match fuel with
  | O => mret ""
  | S fuel =>
      match read_u32 input with
      | None => mret ""
      | Some (length, input) =>
          if (length =? 0) || (maxMessage <? length) then mret ""
          else match read_full length input with
               | None => mret ""
               | Some (buf, input) =>
                   match CD buf with
                   | inr _ => mret (frame (Response_Marshal (MkResp false "" "invalid JSON")))
                   | inl cmd =>
                       resp ← dispatch cmd;
                       rest ← handle_conn fuel input;
                       mret (frame (Response_Marshal resp) ++ rest)
                   end
               end
      end
  end.

(** Every message takes more than four bytes, so the fuel is enough. *)
Definition handleConn (input : string) : M W string := handle_conn (S (String.length input)) input.

(** ** The client *)

Definition parse_reply (output : string) : fallible Response :=
  match read_u32 output with
  | None => inr (Errorf "read response length")
  | Some (length, output) =>
      match read_full length output with
      | None => inr (Errorf "read response body")
      | Some (buf, _) =>
          match RD buf with
          | inl resp => inl resp
          | inr e => inr (Errorf ("parse response: " ++ e))
          end
      end
  end.

(** SendCommand on a connection of its own.  The server closes the connection on a command that
    is too long; whether the client notices when it writes the rest or only when it reads is
    a race, and the model takes the second. *)
Definition SendCommand (cmd : Command) : M W (fallible Response) :=
  output ← handleConn (frame (Command_Marshal cmd));
  mret (parse_reply output).
End server.

(** ** Facts *)

Lemma byte_of_be z : byte_val (byte_of (Z.land z 255)) = z mod 256.
Proof.
  change 255 with (Z.ones 8). rewrite Z.land_ones by lia. change (2 ^ 8) with 256. apply byte_val_of.
  apply Z.mod_pos_bound. lia.
Qed.

Lemma be32_value x : 0 ≤ x < 2 ^ 32 →
  (((x / 2 ^ 24) mod 256 * 256 + (x / 2 ^ 16) mod 256) * 256 + (x / 2 ^ 8) mod 256) * 256 + x mod 256 = x.
Proof.
  intros Hx. change (2 ^ 24) with (256 * (256 * 256)). change (2 ^ 16) with (256 * 256). change (2 ^ 8) with 256.
  change (2 ^ 32) with 4294967296 in Hx. rewrite <-!Z.div_div by lia.
  rewrite (Z.mod_small (x / 256 / 256 / 256)).
  - pose proof (Z.div_mod x 256). pose proof (Z.div_mod (x / 256) 256). pose proof (Z.div_mod (x / 256 / 256) 256). lia.
  - rewrite !Z.div_div by lia. split; [apply Z.div_pos; lia|apply Z.div_lt_upper_bound; lia].
Qed.

Lemma read_u32_frame data rest :
  str_len data < 2 ^ 32 → read_u32 (frame data ++ rest) = Some (str_len data, data ++ rest).
Proof.
  intros Hl. assert (0 ≤ str_len data) as H0 by (unfold str_len; lia).
  assert (w32 (str_len data) = str_len data) as Hw.
  { unfold w32. change 4294967295 with (Z.ones 32). rewrite Z.land_ones by lia. apply Z.mod_small. lia. }
  unfold frame. rewrite Hw. unfold be32. cbn [of_bytes String.append read_u32].
  rewrite !byte_of_be, !Z.shiftr_div_pow2 by lia. rewrite be32_value by lia. done.
Qed.

Lemma read_full_app data rest : read_full (str_len data) (data ++ rest) = Some (data, rest).
Proof.
  induction data as [|c data IH]; [by destruct rest|]. unfold str_len in *. cbn [String.length String.append read_full].
  destruct (Z.leb_spec (Z.of_nat (S (String.length data))) 0); [lia|].
  replace (Z.of_nat (S (String.length data)) - 1) with (Z.of_nat (String.length data)) by lia. by rewrite IH.
Qed.

Section facts.
Context {W : Type} `{QT : Quoting} `{CD : JSONUnmarshal Command} `{RD : JSONUnmarshal Response}.
Variable handlers : gmap string (@CommandHandler W).

(** What the server owes for a sequence of messages: each command is dispatched in the state
    that the one before left and answered in order, up to the first that is no command. *)
Fixpoint serve (bodies : list string) : M W string :=
  match bodies with
  | [] => mret ""
  | body :: bodies =>
      match CD body with
      | inr _ => mret (frame (Response_Marshal (MkResp false "" "invalid JSON")))
      | inl cmd =>
          resp ← dispatch handlers cmd;
          rest ← serve bodies;
          mret (frame (Response_Marshal resp) ++ rest)
      end
  end.

Definition message_ok (body : string) : Prop := 1 ≤ str_len body ≤ maxMessage.

(** Bytes after the last whole message that the server does not take for one. *)
Definition tail_ok (rest : string) : Prop :=
  match read_u32 rest with
  | None => True
  | Some (n, rest) => n = 0 ∨ maxMessage < n ∨ read_full n rest = None
  end.

Lemma handle_conn_tail fuel rest w : tail_ok rest → handle_conn handlers fuel rest w = ("", w).
Proof.
  unfold tail_ok. destruct fuel as [|fuel]; [done|]. cbn [handle_conn]. destruct (read_u32 rest) as [[n s]|]; [|done].
  intros H. destruct (Z.eqb_spec n 0); [done|]. destruct (Z.ltb_spec maxMessage n); [done|]. simpl.
  destruct H as [?|[?|H]]; [lia..|]. by rewrite H.
Qed.

Lemma handle_conn_serve fuel bodies rest w :
  Forall message_ok bodies → tail_ok rest → (length bodies < fuel)%nat →
  handle_conn handlers fuel (String.concat "" (map frame bodies) ++ rest) w = serve bodies w.
Proof.
  revert fuel w. induction bodies as [|body bodies IH]; intros fuel w Hb Ht Hf.
  { by apply handle_conn_tail. }
  apply Forall_cons in Hb as [[H1 H2] Hb]. destruct fuel as [|fuel]; [simpl in Hf; lia|].
  assert (String.concat "" (map frame (body :: bodies)) ++ rest = frame body ++ (String.concat "" (map frame bodies) ++ rest)) as ->.
  { rewrite <-str_app_assoc. f_equal. simpl. destruct bodies; simpl; [by rewrite str_app_nil_r|done]. }
  cbn [handle_conn serve]. rewrite read_u32_frame by (unfold maxMessage in H2; lia).
  destruct (Z.eqb_spec (str_len body) 0); [lia|]. destruct (Z.ltb_spec maxMessage (str_len body)); [lia|]. cbn [orb].
  rewrite read_full_app. destruct (CD body) as [cmd|e]; [|done].
  unfold mbind, M_bind. destruct (dispatch handlers cmd w) as [resp w1]. rewrite IH by (done || simpl in Hf; lia). done.
Qed.

Lemma frames_long bodies rest :
  (length bodies <= String.length (String.concat "" (map frame bodies) ++ rest))%nat.
Proof.
  rewrite length_str_app. induction bodies as [|body bodies IH]; [simpl; lia|].
  assert (4 <= String.length (frame body))%nat by (unfold frame; simpl; lia).
  simpl. destruct bodies as [|b2 bodies]; [simpl; lia|]. simpl in *. rewrite !length_str_app in *. simpl. lia.
Qed.

(** One exchange: the client gets the answer of the dispatcher. *)
Lemma SendCommand_dispatch cmd w :
  CD (Command_Marshal cmd) = inl cmd →
  (let resp := (dispatch handlers cmd w).1 in
   RD (Response_Marshal resp) = inl resp ∧ str_len (Response_Marshal resp) < 2 ^ 32) →
  str_len (Command_Marshal cmd) ≤ maxMessage →
  SendCommand handlers cmd w = (inl (dispatch handlers cmd w).1, (dispatch handlers cmd w).2).
Proof.
  intros Hc [Hr Hl] Hm. assert (message_ok (Command_Marshal cmd)) as Hok.
  { split; [|done]. unfold Command_Marshal, str_len. simpl. lia. }
  unfold SendCommand, mbind, M_bind. unfold handleConn.
  pose proof (handle_conn_serve (S (String.length (frame (Command_Marshal cmd)))) [Command_Marshal cmd] "" w) as E.
  simpl String.concat in E. rewrite !str_app_nil_r in E. rewrite E; [|by apply Forall_singleton|exact I|unfold frame; simpl; lia].
  cbn [serve]. rewrite Hc. unfold mbind, M_bind. destruct (dispatch handlers cmd w) as [resp w1]. cbn [fst snd] in *.
  unfold mret, M_ret. cbv beta iota. rewrite str_app_nil_r. unfold parse_reply. rewrite <-(str_app_nil_r (frame _)).
  by rewrite read_u32_frame, read_full_app, Hr.
Qed.

(** A turn of the loop takes a message from the input. *)
Lemma read_u32_length s n rest : read_u32 s = Some (n, rest) → (String.length s = 4 + String.length rest)%nat.
Proof. destruct s as [|a [|b [|c [|d s]]]]; simpl; try done. by intros [= _ <-]. Qed.

Lemma read_full_length n s buf rest :
  read_full n s = Some (buf, rest) → (String.length s = Z.to_nat n + String.length rest)%nat.
Proof.
  revert n buf. induction s as [|c s IH]; intros n buf; cbn [read_full].
  - destruct (Z.leb_spec n 0); [|done]. intros [= <- <-]. simpl. lia.
  - destruct (Z.leb_spec n 0); [intros [= <- <-]; simpl; lia|].
    destruct (read_full (n - 1) s) as [[b r]|] eqn:E; [|done]. intros [= _ ->]. apply IH in E. simpl. lia.
Qed.

Lemma message_shorter s n rest buf rest' :
  read_u32 s = Some (n, rest) → n ≠ 0 → read_full n rest = Some (buf, rest') → (5 + String.length rest' <= String.length s)%nat.
Proof.
  intros H1 Hn H2. apply read_full_length in H2. assert (0 ≤ n).
  { destruct s as [|a [|b [|c [|d s]]]]; simpl in H1; try done. injection H1 as <- <-. unfold byte_val. lia. }
  apply read_u32_length in H1. lia.
Qed.

Lemma handle_conn_enough f1 f2 input w :
  (String.length input < f1)%nat → (String.length input < f2)%nat →
  handle_conn handlers f1 input w = handle_conn handlers f2 input w.
Proof.
  revert f2 input w. induction f1 as [|f1 IH]; intros [|f2] input w H1 H2; try lia. cbn [handle_conn].
  destruct (read_u32 input) as [[n i1]|] eqn:E1; [|done].
  destruct ((n =? 0) || (maxMessage <? n)) eqn:En; [done|]. apply orb_false_iff in En as [En%Z.eqb_neq _].
  destruct (read_full n i1) as [[buf i2]|] eqn:E2; [|done]. destruct (CD buf) as [cmd|e]; [|done].
  pose proof (message_shorter _ _ _ _ _ E1 En E2). unfold mbind, M_bind.
  destruct (dispatch handlers cmd w) as [resp w1]. rewrite (IH f2) by lia. done.
Qed.

(** The loop of a connection comes to an end on every input: [handleConn], which runs it
    with one turn more than there are bytes, is what every larger number of turns gives, and
    satisfies the equation of the loop itself, in which a turn that goes on has taken a
    prefix and at least one byte of body from the input. *)
Lemma handleConn_terminates fuel input w :
  (String.length input < fuel)%nat →
  handle_conn handlers fuel input w = handleConn handlers input w ∧
  handleConn handlers input w =
    match read_u32 input with
    | None => ("", w)
    | Some (n, input1) =>
        if (n =? 0) || (maxMessage <? n) then ("", w)
        else match read_full n input1 with
             | None => ("", w)
             | Some (buf, input2) =>
                 match CD buf with
                 | inr _ => (frame (Response_Marshal (MkResp false "" "invalid JSON")), w)
                 | inl cmd =>
                     let '(resp, w1) := dispatch handlers cmd w in
                     let '(out, w2) := handleConn handlers input2 w1 in
                     (frame (Response_Marshal resp) ++ out, w2)
                 end
             end
    end ∧
  (∀ n input1 buf input2, read_u32 input = Some (n, input1) → n ≠ 0 → read_full n input1 = Some (buf, input2) →
     (5 + String.length input2 <= String.length input)%nat).
Proof.
  intros Hf. split; [|split].
  - apply handle_conn_enough; [done|lia].
  - unfold handleConn at 1. cbn [handle_conn]. destruct (read_u32 input) as [[n i1]|] eqn:E1; [|done].
    destruct ((n =? 0) || (maxMessage <? n)) eqn:En; [done|]. apply orb_false_iff in En as [En%Z.eqb_neq _].
    destruct (read_full n i1) as [[buf i2]|] eqn:E2; [|done]. destruct (CD buf) as [cmd|e]; [|done].
    pose proof (message_shorter _ _ _ _ _ E1 En E2). unfold mbind, M_bind.
    destruct (dispatch handlers cmd w) as [resp w1]. unfold handleConn. rewrite (handle_conn_enough _ (S (String.length i2))) by lia.
    by destruct (handle_conn _ _ i2 w1).
  - intros n i1 buf i2 E1 En E2. by eapply message_shorter.
Qed.

(** C22: The control protocol frames and answers correctly: on any sequence of messages of 1
    byte to 1 MiB, whatever follows that is no whole message, the server writes exactly one
    framed answer per command, in order, running each handler in the state the one before
    left; and SendCommand returns the very response that dispatch gives for its command,
    for commands of at most 1 MiB and answers below 4 GiB, as long as JSON decoding undoes
    encoding for the two messages; a longer command gets no answer. *)
Theorem control_roundtrip bodies rest cmd w :
  Forall message_ok bodies → tail_ok rest →
  CD (Command_Marshal cmd) = inl cmd →
  (let resp := (dispatch handlers cmd w).1 in
   RD (Response_Marshal resp) = inl resp ∧ str_len (Response_Marshal resp) < 2 ^ 32) →
  handleConn handlers (String.concat "" (map frame bodies) ++ rest) w = serve bodies w ∧
  (str_len (Command_Marshal cmd) ≤ maxMessage →
   SendCommand handlers cmd w = (inl (dispatch handlers cmd w).1, (dispatch handlers cmd w).2)) ∧
  (maxMessage < str_len (Command_Marshal cmd) < 2 ^ 32 →
   SendCommand handlers cmd w = (inr (Errorf "read response length"), w)).
Proof.
  intros Hb Ht Hc [Hr Hl]. split; [|split].
  - apply handle_conn_serve; [done..|]. pose proof (frames_long bodies rest). lia.
  - by apply SendCommand_dispatch.
  - intros Hm. unfold SendCommand, handleConn, mbind, M_bind. rewrite handle_conn_tail; [done|].
    unfold tail_ok. rewrite <-(str_app_nil_r (frame _)), read_u32_frame by lia. right. left. lia.
Qed.
End facts.
