(* ===== verification/ControlServer.v ===== *)
(** * Listening on the control socket: socket_unix.go and Start of control/server.go

    Listen is a program over the calls of WProg.v, and so are the methods that stop the server
    and the daemon.  The accept loop of Start is a function of
    what Accept returns; Control.v has what is done with a connection. *)
From S2P Require Import Prelude GoStd Scheduler Policy Daemon WScanner WProg WClient Control.

#[local] Open Scope string_scope.
#[local] Open Scope Z_scope.

(** Server; the mutex orders registrations and look-ups. *)
Record Server (W : Type) := MkServer {
  Sv_socketPath : string;
  Sv_handlers : gmap string (@CommandHandler W);
}.
Arguments MkServer {W} _ _.
Arguments Sv_socketPath {W} _.
Arguments Sv_handlers {W} _.

Definition Server_New {W} (socketPath : string) : Server W := MkServer socketPath ∅.
Definition Server_Register {W} (cmdType : string) (handler : @CommandHandler W) (s : Server W) : Server W :=
  MkServer (Sv_socketPath s) (<[cmdType := handler]> (Sv_handlers s)).

(** What Accept returns: a connection, or an error with whether the context has ended. *)
Inductive accepted :=
  | AConn (input : string)
  | AError (e : error) (ctx_done : bool).

(** The connections that are served, and how the loop ends; [None] while it goes on. *)
Fixpoint accept_loop (accepts : list accepted) : list string * option (fallible unit) :=
  match accepts with
  | [] => ([], None)
  | AError e ctx_done :: _ => ([], Some (if ctx_done then inl tt else inr (Errorf (err_text e))))
  | AConn input :: accepts =>
      let '(served, r) := accept_loop accepts in (input :: served, r)
  end.

Section server.
Context `{QT : Quoting}.

Definition Listen (path : string) : prog (fallible unit) :=
  r ← ask (Remove path);
  match r with
  | Err ErrNotFound | Ok _ =>
      ln ← ask (NetListen path);
      match ln with
      | Err e => mret (fail ("listen unix " ++ Quote path) e)
      | Ok _ =>
          r ← ask (Chmod path 384);      (* 0600 *)
          match r with
          | Err e =>
              _ ← ask (CloseListener path);
              mret (fail ("chmod socket " ++ Quote path) e)
          | Ok _ => mret (inl tt)
          end
      end
  | Err e => mret (fail ("remove stale socket " ++ Quote path) e)
  end.

Definition Server_Start (path : string) (accepts : list accepted) : prog (list string * option (fallible unit)) :=
  ln ← Listen path;
  mret match ln with
  | inr e => ([], Some (inr (wrap ("listen on " ++ Quote path) e)))
  | inl _ => accept_loop accepts
  end.

(** Stop closes the listener, once there is one. *)
Definition Server_Stop (listener : option string) : prog unit :=
  match listener with
  | Some path => _ ← ask (CloseListener path); mret tt
  | None => mret tt
  end.

(** Stop of the service: cancel the context, if Start has made one, and stop the control
    server. *)
Definition Daemon_Stop (cancelFn : bool) (listener : option string) (d : daemon) : prog (fallible unit * daemon) :=
  let d := if cancelFn then set_done d else d in
  _ ← Server_Stop listener;
  mret (inl tt, d).

(** ** Facts *)

Definition opened (path : string) (e : event) : bool :=
  match e with Event c x => match c in call X return X → bool with NetListen p => λ r, String.eqb p path && is_ok r | _ => λ _, false end x end.
Definition closed (path : string) (e : event) : bool :=
  match e with Event (CloseListener p) _ => String.eqb p path | _ => false end.
Definition restricted (path : string) (e : event) : bool :=
  match e with Event c x => match c in call X return X → bool with Chmod p m => λ r, String.eqb p path && (m =? 384) && is_ok r | _ => λ _, false end x end.

(** Listen leaves a socket open exactly when it succeeds, and then only its owner may use it. *)
Lemma Listen_ok path :
  adds (λ r es, match r with
    | inl _ => existsb (opened path) es = true ∧ existsb (closed path) es = false ∧ existsb (restricted path) es = true
    | inr _ => existsb (opened path) es = existsb (closed path) es
    end) (Listen path).
Proof.
  unfold Listen. apply adds_ask. intros r.
  assert (∀ x : result unit, adds (λ r es, match r with
    | inl _ => existsb (opened path) (Event (Remove path) x :: es) = true ∧ existsb (closed path) (Event (Remove path) x :: es) = false ∧
               existsb (restricted path) (Event (Remove path) x :: es) = true
    | inr _ => existsb (opened path) (Event (Remove path) x :: es) = existsb (closed path) (Event (Remove path) x :: es)
    end) (ln ← ask (NetListen path);
      match ln with
      | Err e => mret (fail ("listen unix " ++ Quote path) e)
      | Ok _ =>
          r ← ask (Chmod path 384);
          match r with
          | Err e => _ ← ask (CloseListener path); mret (fail ("chmod socket " ++ Quote path) e)
          | Ok _ => mret (inl tt)
          end
      end)) as H.
  { intros x. apply adds_ask. intros [u|e]; [|apply adds_ret; simpl; by rewrite String.eqb_refl]. apply adds_ask. intros [u'|e].
    - apply adds_ret. simpl. by rewrite String.eqb_refl.
    - apply adds_ask. intros []. apply adds_ret. simpl. by rewrite String.eqb_refl. }
  destruct r as [u|[]]; try apply H; by apply adds_ret.
Qed.

(** The service manager's Stop is a step of the daemon, as a signal is; it never fails, and
    closes the listener there is and nothing else. *)
Lemma Daemon_Stop_step `{TimeZones} cancelFn listener d :
  adds (λ r es, r.1 = inl tt ∧ (r.2 = d ∨ dstep LQuiet d (Some r.2)) ∧
    (cancelFn = true → d_done r.2 = true) ∧
    match listener with Some path => es = [Event (CloseListener path) tt] | None => es = [] end) (Daemon_Stop cancelFn listener d).
Proof.
  assert ((if cancelFn then set_done d else d) = d ∨ dstep LQuiet d (Some (if cancelFn then set_done d else d))) as Hd
    by (destruct cancelFn; [right; constructor|by left]).
  assert (cancelFn = true → d_done (if cancelFn then set_done d else d) = true) as Hc by (by intros ->).
  unfold Daemon_Stop, Server_Stop. destruct listener as [path|].
  - apply adds_ask. intros []. apply adds_ret. by split_and!.
  - apply adds_ret. by split_and!.
Qed.

(** Every connection before the first error of Accept is served and none after it; the loop
    ends in an error unless the context has ended, so one failing Accept ends the server. *)
Lemma accept_loop_spec conns e ctx_done rest :
  accept_loop (map AConn conns ++ AError e ctx_done :: rest) =
    (conns, Some (if ctx_done then inl tt else inr (Errorf (err_text e)))).
Proof. induction conns as [|c conns IH]; [done|]. simpl. by rewrite IH. Qed.
End server.
