(* ===== verification/Messages.v ===== *)
(** * The JSON messages of the two programs, decoded

    The fields of every struct that a handler of the control plane or the worker decodes,
    with the names of their json tags, and the decoders that encoding/json makes of them.
    [time_UnmarshalJSON] is time.Time's own method, on the text of the value. *)
From S2P Require Import Prelude GoStd Float64 Domain Http TaskHandler WorkerHandler KeyHandler OutputHandler AdminHandlers.
From S2P Require Import Policy GoJson JsonParse JsonDecode WProg WClient Adapters Control.
From Stdlib Require Import SpecFloat.

#[local] Open Scope string_scope.
#[local] Open Scope Z_scope.

Class TimeUnmarshal := time_UnmarshalJSON : string → option Z.

Section messages.
Context `{JE : JSONErrorText} `{PF : ParseFloat64} `{TU : TimeUnmarshal}.

Definition dec_strings : decoder (slice string) := dec_slice "" dec_string.

(** ** Control plane: the requests *)

Definition createTaskRequest_fields : list (string * setter jdoc createTaskRequest) :=
  [("title", field CT_Title (λ x r, MkCreateTaskRequest x (CT_Description r) (CT_TaskType r) (CT_Priority r)
       (CT_AIAgent r) (CT_MaxRetries r) (CT_Options r)) dec_string);
   ("description", field CT_Description (λ x r, MkCreateTaskRequest (CT_Title r) x (CT_TaskType r) (CT_Priority r)
       (CT_AIAgent r) (CT_MaxRetries r) (CT_Options r)) dec_string);
   ("task_type", field CT_TaskType (λ x r, MkCreateTaskRequest (CT_Title r) (CT_Description r) x (CT_Priority r)
       (CT_AIAgent r) (CT_MaxRetries r) (CT_Options r)) dec_string);
   ("priority", field CT_Priority (λ x r, MkCreateTaskRequest (CT_Title r) (CT_Description r) (CT_TaskType r) x
       (CT_AIAgent r) (CT_MaxRetries r) (CT_Options r)) dec_int);
   ("ai_agent", field CT_AIAgent (λ x r, MkCreateTaskRequest (CT_Title r) (CT_Description r) (CT_TaskType r) (CT_Priority r)
       x (CT_MaxRetries r) (CT_Options r)) dec_string);
   ("max_retries", field CT_MaxRetries (λ x r, MkCreateTaskRequest (CT_Title r) (CT_Description r) (CT_TaskType r) (CT_Priority r)
       (CT_AIAgent r) x (CT_Options r)) dec_int);
   ("options", field CT_Options (λ x r, MkCreateTaskRequest (CT_Title r) (CT_Description r) (CT_TaskType r) (CT_Priority r)
       (CT_AIAgent r) (CT_MaxRetries r) x) (dec_map JNull dec_any))].

Definition decode_createTaskRequest : JSONDecode createTaskRequest :=
  json_decoder "createTaskRequest" (MkCreateTaskRequest "" "" "" 0 "" 0 None) (λ _, dec_struct createTaskRequest_fields).

Definition updateTaskStateRequest_fields : list (string * setter jdoc updateTaskStateRequest) :=
  [("state", field UT_State (λ x r, MkUpdateTaskStateRequest x (UT_ErrorMessage r)) dec_string);
   ("error_message", field UT_ErrorMessage (λ x r, MkUpdateTaskStateRequest (UT_State r) x) (dec_ptr "" dec_string))].

Definition decode_updateTaskStateRequest : JSONDecode updateTaskStateRequest :=
  json_decoder "updateTaskStateRequest" (MkUpdateTaskStateRequest "" None) (λ _, dec_struct updateTaskStateRequest_fields).

Definition registerWorkerRequest_fields : list (string * setter jdoc registerWorkerRequest) :=
  [("hostname_hash", field RW_HostnameHash (λ x r, MkRegisterWorkerRequest x (RW_Hostname r) (RW_Agents r) (RW_CapacityScore r)) dec_string);
   ("hostname", field RW_Hostname (λ x r, MkRegisterWorkerRequest (RW_HostnameHash r) x (RW_Agents r) (RW_CapacityScore r)) dec_string);
   ("agents", field RW_Agents (λ x r, MkRegisterWorkerRequest (RW_HostnameHash r) (RW_Hostname r) x (RW_CapacityScore r)) dec_strings);
   ("capacity_score", field RW_CapacityScore (λ x r, MkRegisterWorkerRequest (RW_HostnameHash r) (RW_Hostname r) (RW_Agents r) x) dec_float)].

Definition decode_registerWorkerRequest : JSONDecode registerWorkerRequest :=
  json_decoder "registerWorkerRequest" (MkRegisterWorkerRequest "" "" None (S754_zero false))
    (λ _, dec_struct registerWorkerRequest_fields).

Definition heartbeatRequest_fields : list (string * setter jdoc heartbeatRequest) :=
  [("agents", field HB_Agents (λ x _, WorkerHandler.MkHeartbeatRequest x) dec_strings)].

Definition decode_heartbeatRequest : JSONDecode heartbeatRequest :=
  json_decoder "heartbeatRequest" (WorkerHandler.MkHeartbeatRequest None) (λ _, dec_struct heartbeatRequest_fields).

(** A time.Time with its own UnmarshalJSON: an error ends the decoding. *)
Definition dec_time_ptr : (string * jdoc) → option Z → option Z * outcome := λ x p,
  match snd x with
  | DNull => (None, DecOk)
  | _ => match time_UnmarshalJSON (fst x) with
         | Some t => (Some t, DecOk)
         | None => (Some (default 0 p), DecStop)
         end
  end.

Definition createAPIKeyRequest_fields : list (string * setter (string * jdoc) createAPIKeyRequest) :=
  [("name", field CK_Name (λ x r, MkCreateAPIKeyRequest x (CK_Scopes r) (CK_ExpiresAt r) (CK_WorkerID r)) (plain dec_string));
   ("scopes", field CK_Scopes (λ x r, MkCreateAPIKeyRequest (CK_Name r) x (CK_ExpiresAt r) (CK_WorkerID r)) (plain dec_strings));
   ("expires_at", field CK_ExpiresAt (λ x r, MkCreateAPIKeyRequest (CK_Name r) (CK_Scopes r) x (CK_WorkerID r)) dec_time_ptr);
   ("worker_id", field CK_WorkerID (λ x r, MkCreateAPIKeyRequest (CK_Name r) (CK_Scopes r) (CK_ExpiresAt r) x)
      (plain (dec_ptr "" dec_string)))].

Definition decode_createAPIKeyRequest : JSONDecode createAPIKeyRequest :=
  json_decoder "createAPIKeyRequest" (MkCreateAPIKeyRequest "" None None None) (dec_raw_struct createAPIKeyRequest_fields).

Definition zero_artifact : Domain.ArtifactMeta := Domain.MkArtifactMeta "" "" 0.

Definition ArtifactMeta_fields : list (string * setter jdoc Domain.ArtifactMeta) :=
  [("rel_path", field Art_RelPath (λ x a, Domain.MkArtifactMeta x (Art_SHA256 a) (Art_Size a)) dec_string);
   ("sha256", field Art_SHA256 (λ x a, Domain.MkArtifactMeta (Art_RelPath a) x (Art_Size a)) dec_string);
   ("size", field Art_Size (λ x a, Domain.MkArtifactMeta (Art_RelPath a) (Art_SHA256 a) x) dec_int)].

(** The handler does not tell a nil slice or map from an empty one. *)
Definition submitRequest_fields : list (string * setter jdoc submitRequest) :=
  [("task_id", field SO_TaskID (λ x r, MkSubmitRequest x (SO_HMACSha256 r) (SO_Artifacts r) (SO_Metadata r)) dec_string);
   ("hmac_sha256", field SO_HMACSha256 (λ x r, MkSubmitRequest (SO_TaskID r) x (SO_Artifacts r) (SO_Metadata r)) dec_string);
   ("artifacts", field (λ r, Some (SO_Artifacts r)) (λ x r, MkSubmitRequest (SO_TaskID r) (SO_HMACSha256 r) (elems x) (SO_Metadata r))
      (dec_slice zero_artifact (dec_struct ArtifactMeta_fields)));
   ("metadata", field (λ r, Some (SO_Metadata r)) (λ x r, MkSubmitRequest (SO_TaskID r) (SO_HMACSha256 r) (SO_Artifacts r) (default ∅ x))
      (dec_map JNull dec_any))].

Definition decode_submitRequest : JSONDecode submitRequest :=
  json_decoder "submitRequest" (MkSubmitRequest "" "" [] ∅) (λ _, dec_struct submitRequest_fields).

Definition reviewRequest_fields : list (string * setter jdoc reviewRequest) :=
  [("review_status", field RV_ReviewStatus (λ x r, MkReviewRequest x (RV_Comment r)) dec_string);
   ("comment", field RV_Comment (λ x r, MkReviewRequest (RV_ReviewStatus r) x) dec_string)].

Definition decode_reviewRequest : JSONDecode reviewRequest :=
  json_decoder "reviewRequest" (MkReviewRequest "" "") (λ _, dec_struct reviewRequest_fields).

Definition createOrgRequest_fields : list (string * setter jdoc createOrgRequest) :=
  [("name", field CO_Name (λ x r, MkCreateOrgRequest x (CO_PlanTier r)) dec_string);
   ("plan_tier", field CO_PlanTier (λ x r, MkCreateOrgRequest (CO_Name r) x) dec_string)].

Definition decode_createOrgRequest : JSONDecode createOrgRequest :=
  json_decoder "createOrgRequest" (MkCreateOrgRequest "" "") (λ _, dec_struct createOrgRequest_fields).

Definition TimeWindow_fields : list (string * setter jdoc TimeWindow) :=
  [("day_of_week", field TW_DayOfWeek (λ x t, MkTimeWindow x (TW_StartHour t) (TW_EndHour t) (TW_Timezone t)) (dec_slice 0 dec_int));
   ("start_hour", field TW_StartHour (λ x t, MkTimeWindow (TW_DayOfWeek t) x (TW_EndHour t) (TW_Timezone t)) dec_int);
   ("end_hour", field TW_EndHour (λ x t, MkTimeWindow (TW_DayOfWeek t) (TW_StartHour t) x (TW_Timezone t)) dec_int);
   ("timezone", field TW_Timezone (λ x t, MkTimeWindow (TW_DayOfWeek t) (TW_StartHour t) (TW_EndHour t) x) dec_string)].

Definition OrgPolicy_fields : list (string * setter jdoc OrgPolicy) :=
  [("execution_windows", field OP_ExecutionWindows (λ x p, MkOrgPolicy x (OP_MaxConcurrentJobs p) (OP_AllowedAgents p)
       (OP_AutoMerge p) (OP_RequireReview p) (OP_MaxRetries p)) (dec_slice (MkTimeWindow None 0 0 "") (dec_struct TimeWindow_fields)));
   ("max_concurrent_jobs", field OP_MaxConcurrentJobs (λ x p, MkOrgPolicy (OP_ExecutionWindows p) x (OP_AllowedAgents p)
       (OP_AutoMerge p) (OP_RequireReview p) (OP_MaxRetries p)) dec_int);
   ("allowed_agents", field OP_AllowedAgents (λ x p, MkOrgPolicy (OP_ExecutionWindows p) (OP_MaxConcurrentJobs p) x
       (OP_AutoMerge p) (OP_RequireReview p) (OP_MaxRetries p)) dec_strings);
   ("auto_merge", field OP_AutoMerge (λ x p, MkOrgPolicy (OP_ExecutionWindows p) (OP_MaxConcurrentJobs p) (OP_AllowedAgents p)
       x (OP_RequireReview p) (OP_MaxRetries p)) dec_bool);
   ("require_review", field OP_RequireReview (λ x p, MkOrgPolicy (OP_ExecutionWindows p) (OP_MaxConcurrentJobs p) (OP_AllowedAgents p)
       (OP_AutoMerge p) x (OP_MaxRetries p)) dec_bool);
   ("max_retries", field OP_MaxRetries (λ x p, MkOrgPolicy (OP_ExecutionWindows p) (OP_MaxConcurrentJobs p) (OP_AllowedAgents p)
       (OP_AutoMerge p) (OP_RequireReview p) x) dec_int)].

Definition decode_OrgPolicy : JSONDecode OrgPolicy :=
  json_decoder "OrgPolicy" (MkOrgPolicy None 0 None false false 0) (λ _, dec_struct OrgPolicy_fields).

(** ** Worker: the answers of the control plane and of the agent *)

Definition RegisterResponse_fields : list (string * setter jdoc RegisterResponse) :=
  [("worker_id", field RegResp_WorkerID (λ x _, MkRegisterResponse x) dec_string)].

Definition unmarshal_RegisterResponse : JSONUnmarshal RegisterResponse :=
  json_unmarshal "RegisterResponse" (MkRegisterResponse "") (λ _, dec_struct RegisterResponse_fields).

Definition zero_assignment : TaskAssignment := MkAssignment "" "" "" "" "" ∅ "" "" 0.

Definition TaskAssignment_fields : list (string * setter jdoc TaskAssignment) :=
  [("task_id", field TA_TaskID (λ x a, MkAssignment x (TA_Title a) (TA_Description a) (TA_TaskType a) (TA_AIAgent a)
       (TA_Options a) (TA_RepoURL a) (TA_Branch a) (TA_TimeoutSec a)) dec_string);
   ("title", field TA_Title (λ x a, MkAssignment (TA_TaskID a) x (TA_Description a) (TA_TaskType a) (TA_AIAgent a)
       (TA_Options a) (TA_RepoURL a) (TA_Branch a) (TA_TimeoutSec a)) dec_string);
   ("description", field TA_Description (λ x a, MkAssignment (TA_TaskID a) (TA_Title a) x (TA_TaskType a) (TA_AIAgent a)
       (TA_Options a) (TA_RepoURL a) (TA_Branch a) (TA_TimeoutSec a)) dec_string);
   ("task_type", field TA_TaskType (λ x a, MkAssignment (TA_TaskID a) (TA_Title a) (TA_Description a) x (TA_AIAgent a)
       (TA_Options a) (TA_RepoURL a) (TA_Branch a) (TA_TimeoutSec a)) dec_string);
   ("ai_agent", field TA_AIAgent (λ x a, MkAssignment (TA_TaskID a) (TA_Title a) (TA_Description a) (TA_TaskType a) x
       (TA_Options a) (TA_RepoURL a) (TA_Branch a) (TA_TimeoutSec a)) dec_string);
   ("options", field (λ a, Some (TA_Options a)) (λ x a, MkAssignment (TA_TaskID a) (TA_Title a) (TA_Description a) (TA_TaskType a)
       (TA_AIAgent a) (default ∅ x) (TA_RepoURL a) (TA_Branch a) (TA_TimeoutSec a)) (dec_map "" dec_string));
   ("repo_url", field TA_RepoURL (λ x a, MkAssignment (TA_TaskID a) (TA_Title a) (TA_Description a) (TA_TaskType a) (TA_AIAgent a)
       (TA_Options a) x (TA_Branch a) (TA_TimeoutSec a)) dec_string);
   ("branch", field TA_Branch (λ x a, MkAssignment (TA_TaskID a) (TA_Title a) (TA_Description a) (TA_TaskType a) (TA_AIAgent a)
       (TA_Options a) (TA_RepoURL a) x (TA_TimeoutSec a)) dec_string);
   ("timeout_sec", field TA_TimeoutSec (λ x a, MkAssignment (TA_TaskID a) (TA_Title a) (TA_Description a) (TA_TaskType a) (TA_AIAgent a)
       (TA_Options a) (TA_RepoURL a) (TA_Branch a) x) dec_int)].

Definition HeartbeatResponse_fields : list (string * setter jdoc HeartbeatResponse) :=
  [("assigned_task", field HBResp_AssignedTask (λ x _, MkHeartbeatResponse x)
      (dec_ptr zero_assignment (dec_struct TaskAssignment_fields)))].

Definition unmarshal_HeartbeatResponse : JSONUnmarshal HeartbeatResponse :=
  json_unmarshal "HeartbeatResponse" (MkHeartbeatResponse None) (λ _, dec_struct HeartbeatResponse_fields).

Definition claudeOutput_fields : list (string * setter jdoc claudeOutput) :=
  [("result", field CO_Result (λ x c, MkClaudeOutput x (CO_Artifacts c) (CO_Error c)) dec_string);
   ("artifacts", field (λ c, Some (CO_Artifacts c)) (λ x c, MkClaudeOutput (CO_Result c) (elems x) (CO_Error c)) dec_strings);
   ("error", field CO_Error (λ x c, MkClaudeOutput (CO_Result c) (CO_Artifacts c) x) dec_string)].

Definition unmarshal_claudeOutput : JSONUnmarshal claudeOutput :=
  json_unmarshal "claudeOutput" (MkClaudeOutput "" [] "") (λ _, dec_struct claudeOutput_fields).

(** ** The control socket *)

Definition Command_fields : list (string * setter (string * jdoc) Command) :=
  [("type", field Cmd_Type (λ x c, MkCommand x (Cmd_Payload c)) (plain dec_string));
   ("payload", field Cmd_Payload (λ x c, MkCommand (Cmd_Type c) x) dec_raw)].

Definition unmarshal_Command : JSONUnmarshal Command :=
  json_unmarshal "Command" (MkCommand "" "") (dec_raw_struct Command_fields).

Definition Response_fields : list (string * setter (string * jdoc) Response) :=
  [("ok", field Rsp_OK (λ x r, MkResp x (Rsp_Data r) (Rsp_Error r)) (plain dec_bool));
   ("data", field Rsp_Data (λ x r, MkResp (Rsp_OK r) x (Rsp_Error r)) dec_raw);
   ("error", field Rsp_Error (λ x r, MkResp (Rsp_OK r) (Rsp_Data r) x) (plain dec_string))].

Definition unmarshal_Response : JSONUnmarshal Response :=
  json_unmarshal "Response" (MkResp false "" "") (dec_raw_struct Response_fields).

End messages.
