(* ===== verification/Jsonb.v ===== *)
(** * JSON in a column of type jsonb

    A map[string]any is stored as a document and read back.  PostgreSQL keeps the value of
    a document, not its text: members change their order, numbers their spelling.  Values
    are therefore compared up to the order of members, [≡], and [jsonb_same] says which
    document may come back. *)
From S2P Require Import Prelude GoStd Regexp Domain Http RedisStore GoJson JsonParse JsonDecode WProg WClient Hub Sse.
From Stdlib Require Import Ascii SpecFloat.

#[local] Set Warnings "-register-all".
#[local] Open Scope string_scope.
#[local] Open Scope Z_scope.

(** ** Sorted keys *)

#[global] Instance str_le_antisymm : AntiSymm (=) str_le.
Proof. intros a b. apply String.leb_antisym. Qed.

#[global] Instance str_le_total : Total str_le.
Proof. intros a b. apply String.leb_total. Qed.

Lemma leb_cons a b s t :
  String.leb (String a s) (String b t) =
    match (N_of_ascii a ?= N_of_ascii b)%N with Lt => true | Gt => false | Eq => String.leb s t end.
Proof. unfold String.leb. simpl. unfold Ascii.compare. by destruct (_ ?= _)%N. Qed.

#[global] Instance str_le_trans : Transitive str_le.
Proof.
  unfold str_le. intros a. induction a as [|x a IH]; intros [|y b] [|z c]; try done.
  rewrite !leb_cons. specialize (IH b c).
  destruct (N.compare_spec (N_of_ascii x) (N_of_ascii y)), (N.compare_spec (N_of_ascii y) (N_of_ascii z)),
    (N.compare_spec (N_of_ascii x) (N_of_ascii z)); try done; auto; lia.
Qed.

#[global] Instance key_le_total {A} : Total (key_le (A := A)).
Proof. intros a b. apply (total str_le). Qed.

#[global] Instance key_le_trans {A} : Transitive (key_le (A := A)).
Proof. intros a b c. unfold key_le. apply transitivity. Qed.

Lemma sort_keys_Permutation {A} (l : list (string * A)) : sort_keys l ≡ₚ l.
Proof. apply merge_sort_Permutation. Qed.

Lemma sort_keys_sorted {A} (l : list (string * A)) : StronglySorted key_le (sort_keys l).
Proof. apply Sorted_StronglySorted; [apply _|]. apply Sorted_merge_sort, _. Qed.

(** Without equal keys the sorted list is that of the entries. *)
Lemma sort_keys_unique {A} (l1 l2 : list (string * A)) : NoDup l1.*1 → l1 ≡ₚ l2 → sort_keys l1 = sort_keys l2.
Proof.
  intros Hn Hp. apply (StronglySorted_unique_strong key_le); [|apply sort_keys_sorted..|by rewrite !sort_keys_Permutation].
  intros [k1 v1] [k2 v2] H1 H2 L1 L2. rewrite sort_keys_Permutation in H1, H2. rewrite <-Hp in H2.
  assert (k1 = k2) as -> by (by apply (anti_symm str_le)).
  by apply (NoDup_map_inj fst l1).
Qed.

(** ** Values up to the order of members *)

(** The value with the members of every object in the order of their keys. *)
Fixpoint json_norm (v : json) : json :=
  match v with
  | JArr l => JArr (map json_norm l)
  | JObj l => JObj (sort_keys (map (λ kv, (fst kv, json_norm (snd kv))) l))
  | v => v
  end.

#[export] Instance json_equiv : Equiv json := λ a b, json_norm a = json_norm b.

#[export] Instance json_equivalence : Equivalence (≡@{json}).
Proof. split; unfold equiv, json_equiv; congruence. Qed.

(** ** The document that a column returns *)

Section jsonb.
Context `{PF : ParseFloat64}.

(** The order of members may be another one, and so may be the spelling of numbers except
    that of integers. *)
Inductive jsonb_same : jdoc → jdoc → Prop :=
  | js_null : jsonb_same DNull DNull
  | js_bool b : jsonb_same (DBool b) (DBool b)
  | js_num t t' :
      parse_float t' = parse_float t → (∀ z, t = Itoa z → t' = t) → jsonb_same (DNum t) (DNum t')
  | js_str s : jsonb_same (DStr s) (DStr s)
  | js_arr l l' : Forall2 jsonb_same l l' → jsonb_same (DArr l) (DArr l')
  | js_obj l l' l'' :
      l'' ≡ₚ l → Forall2 (λ kv kv', kv'.1 = kv.1 ∧ jsonb_same kv.2 kv'.2) l'' l' →
      jsonb_same (DObj l) (DObj l').

(** No integers: the document has been read. *)
Fixpoint doc_read (d : jdoc) : Prop :=
  match d with
  | DInt _ => False
  | DArr l => fold_right (λ d P, doc_read d ∧ P) True l
  | DObj l => fold_right (λ kv P, doc_read kv.2 ∧ P) True l
  | _ => True
  end.

(** No object has two members of one name. *)
Fixpoint keys_ok (d : jdoc) : Prop :=
  match d with
  | DArr l => fold_right (λ d P, keys_ok d ∧ P) True l
  | DObj l => NoDup l.*1 ∧ fold_right (λ kv P, keys_ok kv.2 ∧ P) True l
  | _ => True
  end.

Lemma Forall_fold {A} (P : A → Prop) l : fold_right (λ x Q, P x ∧ Q) True l ↔ Forall P l.
Proof. induction l as [|x l IH]; simpl; [done|]. by rewrite Forall_cons, IH. Qed.

Lemma jsonb_same_refl d : doc_read d → jsonb_same d d.
Proof.
  induction d as [| | | | |l IH|l IH] using jdoc_ind'; simpl; try done; try (by constructor).
  - intros H%Forall_fold. constructor. rewrite Forall2_same_length_lookup. split; [done|].
    intros i x y Hx Hy. simplify_eq. rewrite Forall_lookup in IH, H. by eapply IH, H.
  - intros H. rewrite (Forall_fold (λ kv : string * jdoc, doc_read kv.2)) in H.
    apply (js_obj _ _ l); [done|]. rewrite Forall2_same_length_lookup. split; [done|].
    intros i x y Hx Hy. simplify_eq. split; [done|]. rewrite Forall_lookup in IH, H. by eapply IH, H.
Qed.

(** *** Entries *)

Lemma entry_set_fresh {A} k (a : A) l : k ∉ l.*1 → entry_set k a l = (l ++ [(k, a)])%list.
Proof.
  induction l as [|[k' b] l IH]; [done|]. rewrite fmap_cons, not_elem_of_cons. intros [Hne Hk].
  cbn [entry_set fst] in *. destruct (String.eqb_spec k k'); [done|]. by rewrite IH.
Qed.

Lemma foldl_entries {A} (l m : list (string * A)) :
  NoDup (m ++ l)%list.*1 → foldl (λ m kv, entry_set (fst kv) (snd kv) m) m l = (m ++ l)%list.
Proof.
  revert m. induction l as [|[k a] l IH]; intros m Hn; simpl; [by rewrite app_nil_r|].
  assert (k ∉ m.*1) as Hk.
  { rewrite fmap_app in Hn. apply NoDup_app in Hn as (_ & Hn & _). intros H. apply (Hn k H). by left. }
  rewrite entry_set_fresh, IH by (done || by rewrite <-app_assoc). by rewrite <-app_assoc.
Qed.

Lemma entries_of_NoDup {A} (l : list (string * A)) : NoDup l.*1 → entries_of l = l.
Proof. apply (foldl_entries l []). Qed.

Lemma map_related {A B} (P : A → Prop) (R : A → A → Prop) (f : A → B) l l' :
  (∀ x y, P x → R x y → f y = f x) → Forall P l → Forall2 R l l' → map f l' = map f l.
Proof.
  intros Hf Hl H. revert Hl. induction H as [|x y l l' Hxy _ IH]; simpl; [done|].
  intros [Hx Hl]%Forall_cons. f_equal; eauto.
Qed.

Lemma Forall_related {A} (P Q : A → Prop) (R : A → A → Prop) l l' :
  (∀ x y, P x → R x y → Q y) → Forall P l → Forall2 R l l' → Forall Q l'.
Proof.
  intros Hf Hl H. revert Hl. induction H as [|x y l l' Hxy _ IH]; [by constructor|].
  intros [Hx Hl]%Forall_cons. constructor; eauto.
Qed.

Lemma forallb_Forall {A} (f : A → bool) l : forallb f l = true ↔ Forall (λ x, f x = true) l.
Proof. induction l as [|x l IH]; simpl; [done|]. by rewrite andb_true_iff, Forall_cons, IH. Qed.

Lemma map_snd_keys {A B} (g : A → B) (l : list (string * A)) :
  (map (λ kv, (fst kv, g (snd kv))) l).*1 = map fst l.
Proof. induction l as [|kv l IH]; [done|]. cbn [map fmap list_fmap fst]. by f_equal. Qed.

(** The value of a document that comes back is that of the document stored. *)
Definition same_value (d d' : jdoc) : Prop :=
  json_norm (any_value d') = json_norm (any_value d) ∧ (any_ok d = true → any_ok d' = true).

Lemma jsonb_same_value d : ∀ d', jsonb_same d d' → doc_read d → keys_ok d → same_value d d'.
Proof.
  unfold same_value.
  induction d as [| | |t|s|l IH|l IH] using jdoc_ind'; intros d' H Hr Hk; inversion H as [| |?? Hf _| |?? Hfl|??? Hp Hfl]; subst; simpl in *; try done.
  - by rewrite Hf.
  - rewrite (Forall_fold doc_read) in Hr. rewrite (Forall_fold keys_ok) in Hk.
    assert (Forall (λ d, ∀ d', jsonb_same d d' → same_value d d') l) as Hl.
    { rewrite Forall_forall in *. intros x Hx d' Hd. apply (IH x); auto. }
    split.
    + f_equal. rewrite !map_map. eapply map_related; [|exact Hl|exact Hfl]. intros x y Hx Hxy. by apply Hx.
    + rewrite !forallb_Forall. intros Ho. eapply (Forall_related (λ d, (∀ d', jsonb_same d d' → same_value d d') ∧ any_ok d = true));
        [|by apply Forall_and|exact Hfl]. intros x y [Hx Hxo] Hxy. by apply Hx.
  - destruct Hk as [Hn Hk]. rewrite (Forall_fold (λ kv : string * jdoc, doc_read kv.2)) in Hr.
    rewrite (Forall_fold (λ kv : string * jdoc, keys_ok kv.2)) in Hk.
    assert (Forall (λ kv : string * jdoc, ∀ d', jsonb_same kv.2 d' → same_value kv.2 d') l'') as Hl.
    { rewrite Hp. rewrite Forall_forall in *. intros x Hx d' Hd. apply (IH x); auto. }
    assert (map fst l' = map fst l'') as E0 by (eapply map_related; [|exact Hl|exact Hfl]; by intros x y _ [? _]).
    assert (NoDup (map fst l'')) as Hn2 by (by rewrite Hp).
    assert (NoDup (map fst l')) as Hn1 by (by rewrite E0).
    split.
    + f_equal. rewrite !entries_of_NoDup by (rewrite map_snd_keys; done).
      rewrite !map_map. cbn [fst snd]. apply sort_keys_unique; [by rewrite (map_snd_keys (λ d, json_norm (any_value d)))|].
      rewrite <-Hp. rewrite (map_related (λ kv : string * jdoc, ∀ d', jsonb_same kv.2 d' → same_value kv.2 d')
        (λ kv kv', kv'.1 = kv.1 ∧ jsonb_same kv.2 kv'.2) _ l'' l'); [done| |done..].
      intros x y Hx [Hk1 Hxy]. destruct (Hx _ Hxy) as [-> _]. by rewrite Hk1.
    + rewrite !forallb_Forall. rewrite <-Hp. intros Ho.
      eapply (Forall_related (λ kv, (∀ d', jsonb_same kv.2 d' → same_value kv.2 d') ∧ any_ok kv.2 = true));
        [|by apply Forall_and|exact Hfl]. intros x y [Hx Hxo] [_ Hxy]. by apply Hx.
Qed.
End jsonb.

(** ** A map as a document *)

Section maps.
Context `{JE : JSONErrorText} `{PF : ParseFloat64} `{FT : FloatText}.

(** A text that PostgreSQL takes: UTF-8 without a zero byte. *)
Definition text_ok (s : string) : Prop := valid_utf8 s ∧ str_all (λ c, negb (byte_val c =? 0)) s = true.

(** A number that is printed and read back. *)
Definition float_ok (f : spec_float) : Prop := num_text (float_text f) = true ∧ parse_float (float_text f) = Some f.

(** A Go value of type any: maps have no key twice. *)
Fixpoint json_ok (v : json) : Prop :=
  match v with
  | JNum f => float_ok f
  | JStr s => text_ok s
  | JArr l => fold_right (λ v P, json_ok v ∧ P) True l
  | JObj l => NoDup l.*1 ∧ fold_right (λ kv P, (text_ok kv.1 ∧ json_ok kv.2) ∧ P) True l
  | _ => True
  end.

(** A document that the column takes: the numbers of Go, texts without a zero byte. *)
Fixpoint jsonb_ok (d : jdoc) : Prop :=
  match d with
  | DInt z => in_i64 z
  | DNum t => ∃ f, t = float_text f ∧ float_ok f
  | DStr s => text_ok s
  | DArr l => fold_right (λ d P, jsonb_ok d ∧ P) True l
  | DObj l => NoDup l.*1 ∧ fold_right (λ kv P, (text_ok kv.1 ∧ jsonb_ok kv.2) ∧ P) True l
  | _ => True
  end.

Lemma jsonb_ok_arr l : jsonb_ok (DArr l) ↔ Forall jsonb_ok l.
Proof. apply (Forall_fold jsonb_ok). Qed.

Lemma jsonb_ok_obj l : jsonb_ok (DObj l) ↔ NoDup l.*1 ∧ Forall (λ kv : string * jdoc, text_ok kv.1 ∧ jsonb_ok kv.2) l.
Proof. simpl. by rewrite (Forall_fold (λ kv : string * jdoc, text_ok kv.1 ∧ jsonb_ok kv.2)). Qed.

Lemma jsonb_ok_doc d : jsonb_ok d → jdoc_ok d.
Proof.
  induction d as [| | |t|s|l IH|l IH] using jdoc_ind'; try done.
  - by intros (f & -> & ? & _).
  - rewrite jsonb_ok_arr, jdoc_ok_arr, !Forall_forall in *. eauto.
  - rewrite jsonb_ok_obj, jdoc_ok_obj, !Forall_forall in *. intros [_ Hl] kv Hkv. by apply IH, Hl.
Qed.

Lemma jdoc_read_read d : doc_read (jdoc_read d).
Proof.
  induction d as [| | |t|s|l IH|l IH] using jdoc_ind'; try done; simpl.
  - rewrite (Forall_fold doc_read). by apply Forall_map.
  - rewrite (Forall_fold (λ kv : string * jdoc, doc_read kv.2)). by apply Forall_map.
Qed.

Lemma read_keys l : Forall (λ kv : string * jdoc, text_ok kv.1 ∧ jsonb_ok kv.2) l →
  (map (λ kv, (to_valid kv.1, jdoc_read kv.2)) l).*1 = l.*1.
Proof.
  induction 1 as [|kv l [[Hv _] _] _ IH]; [done|]. cbn [map fmap list_fmap fst]. rewrite to_valid_id by done. by f_equal.
Qed.

Lemma jsonb_ok_keys d : jsonb_ok d → keys_ok (jdoc_read d).
Proof.
  induction d as [| | |t|s|l IH|l IH] using jdoc_ind'; try done; simpl.
  - rewrite (Forall_fold jsonb_ok), (Forall_fold keys_ok), Forall_map, !Forall_forall in *. eauto.
  - rewrite (Forall_fold (λ kv : string * jdoc, text_ok kv.1 ∧ jsonb_ok kv.2)),
      (Forall_fold (λ kv : string * jdoc, keys_ok kv.2)), Forall_map. intros [Hn Hl].
    split; [by rewrite read_keys|]. rewrite !Forall_forall in *. intros kv Hkv. by apply IH, Hl.
Qed.

(** *** Values printed *)

Lemma any_doc_members l :
  NoDup l.*1 →
  NoDup (map (λ kv : string * json, (kv.1, any_doc kv.2)) l).*1 ∧
  NoDup (sort_keys (map (λ kv : string * json, (kv.1, any_doc kv.2)) l)).*1.
Proof.
  intros Hn. assert (NoDup (map (λ kv : string * json, (kv.1, any_doc kv.2)) l).*1) as H by (by rewrite (map_snd_keys any_doc)).
  split; [done|]. by rewrite sort_keys_Permutation.
Qed.

Lemma any_doc_jsonb v : json_ok v → jsonb_ok (any_doc v).
Proof.
  induction v as [|b|f|s|l IH|l IH] using json_ind'; cbn [json_ok any_doc]; try done.
  - intros Hf. by exists f.
  - rewrite (Forall_fold json_ok), jsonb_ok_arr, Forall_map, !Forall_forall in *. eauto.
  - rewrite (Forall_fold (λ kv : string * json, text_ok kv.1 ∧ json_ok kv.2)), jsonb_ok_obj. intros [Hn Hl].
    split; [by apply any_doc_members|]. rewrite sort_keys_Permutation, Forall_map, !Forall_forall in *.
    intros kv Hkv. destruct (Hl kv Hkv) as [? ?]. split; [done|]. by apply IH.
Qed.

(** A value printed and read is the value. *)
Lemma any_doc_value v : json_ok v → any_value (jdoc_read (any_doc v)) ≡ v ∧ any_ok (jdoc_read (any_doc v)) = true.
Proof.
  unfold equiv, json_equiv. induction v as [|b|f|s|l IH|l IH] using json_ind'; cbn [json_ok any_doc jdoc_read]; try done.
  - intros [_ Hf]. cbn [any_value any_ok]. rewrite Hf. split; [done|]. by apply bool_decide_eq_true_2.
  - intros [Hv _]. cbn [any_value]. by rewrite to_valid_id.
  - rewrite (Forall_fold json_ok). intros Hl. cbn [any_value any_ok json_norm]. rewrite !map_map, forallb_Forall, !Forall_map.
    rewrite !Forall_forall in *. split; [|intros x Hx; by apply IH, Hl].
    f_equal. apply map_ext_in. intros x Hx%list_elem_of_In. by apply IH, Hl.
  - rewrite (Forall_fold (λ kv : string * json, text_ok kv.1 ∧ json_ok kv.2)). intros [Hn Hl].
    assert (∀ kv, kv ∈ l → json_norm (any_value (jdoc_read (any_doc kv.2))) = json_norm kv.2 ∧ any_ok (jdoc_read (any_doc kv.2)) = true) as Hv.
    { rewrite !Forall_forall in *. intros kv Hkv. by apply IH, Hl. }
    set (l' := sort_keys _). assert (l' ≡ₚ map (λ kv : string * json, (kv.1, any_doc kv.2)) l) as Hp by apply sort_keys_Permutation.
    assert (Forall (λ kv : string * jdoc, text_ok kv.1 ∧ jsonb_ok kv.2) l') as Hl'.
    { rewrite Hp, Forall_map, !Forall_forall in *. intros kv Hkv. destruct (Hl kv Hkv). split; [done|by apply any_doc_jsonb]. }
    cbn [any_value any_ok json_norm]. split.
    + f_equal. rewrite entries_of_NoDup.
      2:{ rewrite map_snd_keys. change (NoDup (map (λ kv : string * jdoc, (to_valid kv.1, jdoc_read kv.2)) l').*1).
          rewrite read_keys by done. by apply any_doc_members. }
      rewrite !map_map. cbn [fst snd]. symmetry. apply sort_keys_unique; [by rewrite (map_snd_keys json_norm)|].
      rewrite Hp, map_map. cbn [fst snd]. apply reflexive_eq, map_ext_in. intros kv Hkv%list_elem_of_In.
      destruct (Hv kv Hkv) as [-> _]. rewrite Forall_forall in Hl. destruct (Hl kv Hkv) as [[? _] _]. by rewrite to_valid_id.
    + rewrite forallb_Forall, Forall_map, Hp, Forall_map, Forall_forall. intros kv Hkv. by apply Hv.
Qed.

(** *** map[string]any *)

(** json.Marshal of a map. *)
Definition map_doc (m : gmap string json) : jdoc := any_doc (JObj (map_to_list m)).

Definition map_ok (m : gmap string json) : Prop := map_Forall (λ k v, text_ok k ∧ json_ok v) m.

Lemma map_ok_json m : map_ok m → json_ok (JObj (map_to_list m)).
Proof.
  intros H. cbn [json_ok]. rewrite (Forall_fold (λ kv : string * json, text_ok kv.1 ∧ json_ok kv.2)).
  split; [apply NoDup_fst_map_to_list|]. apply Forall_forall. intros [k v] Hin%elem_of_map_to_list. by apply (H k v).
Qed.

Lemma map_doc_jsonb m : map_ok m → jsonb_ok (map_doc m).
Proof. intros H. by apply any_doc_jsonb, map_ok_json. Qed.

(** The members of an object that has no name twice, stored in an empty map. *)
Lemma dec_entries_any l :
  NoDup (map fst l) → (∀ kv, kv ∈ l → any_ok kv.2 = true) →
  dec_entries JNull dec_any l ∅ =
    (list_to_map (map (λ kv : string * jdoc, (kv.1, any_value kv.2)) l), DecOk).
Proof.
  intros Hn Hl. assert (l = map (λ kv : string * jdoc, (kv.1, kv.2)) l) as E by (rewrite <-(map_id l) at 1; apply map_ext; by intros []).
  rewrite E at 1. rewrite (dec_entries_ok _ _ (λ kv : string * jdoc, kv.1) (λ kv, kv.2) (λ kv, any_value kv.2)).
  2:{ intros kv Hkv. unfold dec_any. by rewrite Hl. }
  set (entries := map _ l). assert (NoDup entries.*1) as Hne by (subst entries; by rewrite (map_snd_keys any_value)).
  f_equal. rewrite <-(foldl_insert_map (list_to_map entries : gmap string json) entries) by (symmetry; by apply map_to_list_to_map).
  subst entries. clear. generalize (∅ : gmap string json) as m0. induction l as [|kv l IH]; intros m0; [done|]. simpl. apply IH.
Qed.

(** A text whose document may have come from that of the map is read as the map. *)
Lemma unmarshal_map_same m t d' :
  map_ok m → json_parse t = Some d' → jsonb_same (jdoc_read (map_doc m)) d' →
  ∃ m', unmarshal_map t = inl (Some m') ∧ m' ≡ m.
Proof.
  intros Hm Ht Hs. unfold unmarshal_map, json_unmarshal. rewrite Ht.
  pose proof (map_ok_json m Hm) as Hok. pose proof (jsonb_ok_keys _ (map_doc_jsonb m Hm)) as Hk.
  pose proof (any_doc_value _ Hok) as [_ Hany].
  unfold map_doc in *. cbn [any_doc jdoc_read] in Hs, Hk, Hany. set (l := map _ (sort_keys _)) in Hs, Hk, Hany.
  inversion Hs as [| | | | |? l' l'' Hp Hfl]; subst; clear Hs. destruct Hk as [Hn Hk]. fold (keys_ok) in Hk.
  assert (NoDup (map fst l'')) as Hn2 by (by rewrite Hp).
  assert (map fst l' = map fst l'') as E0.
  { eapply (map_related (λ _, True)); [|by apply Forall_true|exact Hfl]. by intros x y _ [? _]. }
  assert (NoDup (map fst l')) as Hn1 by (by rewrite E0).
  assert (∀ kv, kv ∈ l → doc_read kv.2 ∧ keys_ok kv.2 ∧ any_ok kv.2 = true) as Hl.
  { rewrite (Forall_fold (λ kv : string * jdoc, keys_ok kv.2)) in Hk. cbn [any_ok] in Hany. rewrite forallb_Forall in Hany.
    rewrite Forall_forall in Hk, Hany. intros kv Hkv. split_and!; [|by apply Hk|by apply Hany].
    apply elem_of_bmap in Hkv as (kv0 & -> & _). apply jdoc_read_read. }
  assert (∀ kv', kv' ∈ l' → any_ok kv'.2 = true) as Hl'.
  { intros kv' [i Hi]%list_elem_of_lookup. destruct (Forall2_lookup_r _ _ _ _ _ Hfl Hi) as (kv & Hkv & _ & Hsame).
    apply list_elem_of_lookup_2 in Hkv. rewrite Hp in Hkv. destruct (Hl kv Hkv) as (? & ? & ?).
    by apply (jsonb_same_value kv.2 kv'.2). }
  set (entries := map (λ kv : string * jdoc, (kv.1, any_value kv.2)) l').
  assert (NoDup entries.*1) as Hne by (subst entries; by rewrite (map_snd_keys any_value)).
  exists (list_to_map entries). split.
  - unfold dec_map. cbn [default from_option].
    by rewrite dec_entries_any.
  - intros k. destruct (m !! k) as [v|] eqn:Ev.
    + assert ((k, jdoc_read (any_doc v)) ∈ l) as Hin.
      { subst l. apply elem_of_bmap. exists (k, any_doc v). cbn [fst snd]. split.
        - destruct (Hm k v Ev) as [[Hv _] _]. by rewrite to_valid_id.
        - rewrite sort_keys_Permutation. apply elem_of_bmap. exists (k, v). split; [done|]. by apply elem_of_map_to_list. }
      destruct (Hl _ Hin) as (Hdr & Hko & _). cbn [snd] in *.
      rewrite <-Hp in Hin. apply list_elem_of_lookup in Hin as [i Hi].
      destruct (Forall2_lookup_l _ _ _ _ _ Hfl Hi) as ([k' d'] & Hi' & Hk' & Hsame). cbn [fst snd] in *. subst k'.
      assert ((list_to_map entries : gmap string json) !! k = Some (any_value d')) as ->.
      { apply elem_of_list_to_map; [done|]. subst entries. apply elem_of_bmap. exists (k, d'). split; [done|].
        by eapply list_elem_of_lookup_2. }
      constructor. destruct (Hm k v Ev) as [_ Hv]. etrans; [|by apply any_doc_value].
      by apply (jsonb_same_value _ d').
    + assert ((list_to_map entries : gmap string json) !! k = None) as ->; [|done].
      apply not_elem_of_list_to_map. subst entries. rewrite (map_snd_keys any_value). rewrite E0, Hp.
      intros (kv & -> & Hin)%elem_of_bmap. subst l. apply elem_of_bmap in Hin as (kv1 & -> & Hin).
      rewrite sort_keys_Permutation in Hin. apply elem_of_bmap in Hin as ([k2 v2] & -> & Hin). cbn [fst snd] in *.
      apply elem_of_map_to_list in Hin. destruct (Hm k2 v2 Hin) as [[Hv _] _].
      rewrite to_valid_id in Ev by done. congruence.
Qed.
End maps.
