(* ===== verification/Rows.v ===== *)
(** * The rows of store/postgres: what is written is what is read

    PgStore.v keeps the records of the program in its tables.  Here is what lies between
    the two: the columns that the INSERT statements send, and the functions that scan a
    row back into a record.  The driver, pgx, is a class: it stores an argument of a Go
    type in a column, and scans a column into a destination; its laws are what its
    documentation says for the types that the program uses, with PostgreSQL's own
    resolution of a microsecond, and the values that PostgreSQL takes. *)
From S2P Require Import Prelude GoStd Regexp Float64 Domain Http RedisStore GoJson JsonParse JsonDecode WProg WClient Hub Sse.
From S2P Require Import Messages Jsonb.
From Stdlib Require Import Ascii SpecFloat.

#[local] Open Scope string_scope.
#[local] Open Scope Z_scope.

(** ** Values that a column takes *)

Definition uuid_ok (id : uuid) : Prop := 0 ≤ id < 2 ^ 128.

(** From 4713 BC to the year 294276. *)
Definition time_ok (t : Z) : Prop := -210866803200 * Second ≤ t < 9224318016000 * Second.

Definition us_floor (t : Z) : Z := UnixMicro t * 1000.

Definition opt_ok {A} (P : A → Prop) (p : option A) : Prop := from_option P True p.

(** ** The driver *)

Class Pgx (C : Type) := {
  col_null : C;
  col_uuid : uuid → C;              (* uuid.UUID *)
  col_text : string → C;            (* string, and the types made of it *)
  col_int4 : Z → C;                 (* int *)
  col_timestamptz : Z → C;          (* time.Time *)
  col_texts : list string → C;      (* []string that is not nil *)
  col_jsonb : string → C;           (* []byte *)
  scan_uuid : C → option uuid;                  (* into *uuid.UUID *)
  scan_uuid_ptr : C → option (option uuid);     (* into **uuid.UUID *)
  scan_text : C → option string;
  scan_text_ptr : C → option (option string);
  scan_int : C → option Z;
  scan_time : C → option Z;
  scan_time_ptr : C → option (option Z);
  scan_texts : C → option (slice string);
  scan_bytes : C → option (option string);      (* into *[]byte *)
}.

(** A nil pointer or slice is NULL. *)
Definition arg_ptr {C A} `{Pgx C} (col : A → C) (p : option A) : C :=
  match p with Some a => col a | None => col_null end.

Class PgxLaws (C : Type) `{Pgx C} `{PF : ParseFloat64} `{FT : FloatText} := {
  scan_uuid_col id : uuid_ok id → scan_uuid (col_uuid id) = Some id;
  scan_uuid_ptr_col p : opt_ok uuid_ok p → scan_uuid_ptr (arg_ptr col_uuid p) = Some p;
  scan_text_col s : text_ok s → scan_text (col_text s) = Some s;
  scan_text_ptr_col p : opt_ok text_ok p → scan_text_ptr (arg_ptr col_text p) = Some p;
  scan_text_null : scan_text col_null = None;
  scan_int_col z : int4_ok z = true → scan_int (col_int4 z) = Some z;
  scan_time_col t : time_ok t → scan_time (col_timestamptz t) = Some (us_floor t);
  scan_time_ptr_col p : opt_ok time_ok p → scan_time_ptr (arg_ptr col_timestamptz p) = Some (us_floor <$> p);
  scan_texts_col p : opt_ok (Forall text_ok) p → scan_texts (arg_ptr col_texts p) = Some p;
  (* the text of a jsonb column is that of an equal document *)
  scan_jsonb_col d : jsonb_ok d →
    ∃ t d', scan_bytes (col_jsonb (json_Marshal d)) = Some (Some t) ∧ json_parse t = Some d' ∧
      jsonb_same (jdoc_read d) d';
}.

Section rows.
Context {C : Type} `{PX : Pgx C} `{JE : JSONErrorText} `{PF : ParseFloat64} `{FT : FloatText}.

Definition scan_error : error := ErrMsg "scan".

(** The loops over rows.Next; [failed] is rows.Err after the last row. *)
Fixpoint read_rows {A} (scan : list C → result A) (rows : list (list C)) (failed : bool) : result (list A) :=
  match rows with
  | [] => if failed then Err ErrUnavailable else Ok []
  | row :: rows =>
      match scan row with
      | Err e => Err e
      | Ok a => match read_rows scan rows failed with Ok l => Ok (a :: l) | Err e => Err e end
      end
  end.

(** if len(raw) > 0 { json.Unmarshal(raw, &m) } *)
Definition unmarshal_raw (context : string) (raw : option string) : result (gmap string json) :=
  if 0 <? str_len (default "" raw) then
    match unmarshal_map (default "" raw) with
    | inl m => Ok (default ∅ m)
    | inr e => Err (ErrMsg (context ++ e))
    end
  else Ok ∅.

(** ** tasks.go *)

Definition CreateTask_args (t : Task) : list C :=
  [col_uuid (Task_ID t); col_uuid (Task_OrgUnitID t); arg_ptr col_uuid (Task_SubmitterID t); col_text (Task_Title t);
   col_text (Task_Description t); col_text (Task_TaskType t); col_int4 (Task_Priority t); col_text (Task_AIAgent t);
   col_text (Task_State t); arg_ptr col_uuid (Task_AssignedWorkerID t); col_timestamptz (Task_QueuedAt t);
   arg_ptr col_timestamptz (Task_AssignedAt t); arg_ptr col_timestamptz (Task_StartedAt t);
   arg_ptr col_timestamptz (Task_CompletedAt t); arg_ptr col_timestamptz (Task_FailedAt t); col_text (Task_ErrorMessage t);
   col_int4 (Task_RetryCount t); col_int4 (Task_MaxRetries t); col_jsonb (json_Marshal (map_doc (Task_Options t)))].

(** What row.Scan leaves in the variables: the record but for its options, and their text. *)
Definition scan_task_columns (row : list C) : option ((gmap string json → Task) * option string) :=
  match row with
  | [c1; c2; c3; c4; c5; c6; c7; c8; c9; c10; c11; c12; c13; c14; c15; c16; c17; c18; c19] =>
      id ← scan_uuid c1; org ← scan_uuid c2; submitter ← scan_uuid_ptr c3; title ← scan_text c4;
      description ← scan_text c5; taskType ← scan_text c6; priority ← scan_int c7; agent ← scan_text c8;
      state ← scan_text c9; worker ← scan_uuid_ptr c10; queuedAt ← scan_time c11;
      assignedAt ← scan_time_ptr c12; startedAt ← scan_time_ptr c13; completedAt ← scan_time_ptr c14;
      failedAt ← scan_time_ptr c15; message ← scan_text c16; retries ← scan_int c17; maxRetries ← scan_int c18;
      optRaw ← scan_bytes c19;
      Some (MkTask id org submitter title description taskType priority agent state worker queuedAt
              assignedAt startedAt completedAt failedAt message retries maxRetries, optRaw)
  | _ => None
  end.

Definition scanTask (row : list C) : result Task :=
  match scan_task_columns row with
  | None => Err scan_error
  | Some (t, optRaw) =>
      match unmarshal_raw "unmarshal options: " optRaw with
      | Ok options => Ok (t options)
      | Err e => Err e
      end
  end.

(** ** workers.go *)

Definition RegisterWorker_args (wk : Worker) : list C :=
  [col_uuid (Worker_ID wk); col_uuid (Worker_OrgUnitID wk); col_text (Worker_HostnameHash wk);
   arg_ptr col_texts (Worker_Agents wk); col_text (Worker_State wk); col_int4 (Worker_CapacityScore wk);
   arg_ptr col_timestamptz (Worker_LastHeartbeatAt wk); col_timestamptz (Worker_CreatedAt wk)].

Definition scan_worker_columns (row : list C) : option Worker :=
  match row with
  | [c1; c2; c3; c4; c5; c6; c7; c8] =>
      id ← scan_uuid c1; org ← scan_uuid c2; hash ← scan_text c3; agents ← scan_texts c4; state ← scan_text c5;
      capacity ← scan_int c6; lastHeartbeat ← scan_time_ptr c7; createdAt ← scan_time c8;
      Some (MkWorker id org hash agents state lastHeartbeat capacity createdAt)
  | _ => None
  end.

Definition scanWorker (row : list C) : result Worker :=
  match scan_worker_columns row with None => Err scan_error | Some wk => Ok wk end.

(** The answer of the database to the query: the rows, and whether reading them failed. *)
Definition queryWorkers (answer : result (list (list C) * bool)) : result (list Worker) :=
  match answer with
  | Err e => Err e
  | Ok (rows, failed) => read_rows scanWorker rows failed
  end.

(** ** orgs.go *)

Definition CreateOrg_args (o : OrgUnit) : list C :=
  [col_uuid (Org_ID o); col_text (Org_Name o); col_text (Org_PlanTier o);
   col_jsonb (json_Marshal (map_doc (Org_Policy o))); col_timestamptz (Org_CreatedAt o); col_timestamptz (Org_UpdatedAt o)].

Definition scan_org_columns (row : list C) : option ((gmap string json → OrgUnit) * option string) :=
  match row with
  | [c1; c2; c3; c4; c5; c6] =>
      id ← scan_uuid c1; name ← scan_text c2; planTier ← scan_text c3; policyRaw ← scan_bytes c4;
      createdAt ← scan_time c5; updatedAt ← scan_time c6;
      Some (λ policy, MkOrgUnit id name planTier policy createdAt updatedAt, policyRaw)
  | _ => None
  end.

(** The policy is unmarshalled even when it is empty. *)
Definition scanOrg (row : list C) : result OrgUnit :=
  match scan_org_columns row with
  | None => Err scan_error
  | Some (o, policyRaw) =>
      match unmarshal_map (default "" policyRaw) with
      | inl m => Ok (o (default ∅ m))
      | inr e => Err (ErrMsg ("unmarshal policy: " ++ e))
      end
  end.

(** ** audit.go *)

Definition WriteAuditEvent_args (ev : AuditEvent) : list C :=
  [col_uuid (Audit_ID ev); col_uuid (Audit_OrgUnitID ev); col_text (Audit_ActorType ev); col_text (Audit_ActorID ev);
   col_text (Audit_Action ev); col_text (Audit_ResourceType ev); arg_ptr col_text (Audit_ResourceID ev);
   col_jsonb (json_Marshal (map_doc (Audit_Details ev))); col_text (Audit_IPAddress ev);
   col_timestamptz (Audit_OccurredAt ev)].

Definition scan_audit_columns (row : list C) : option ((gmap string json → AuditEvent) * option string) :=
  match row with
  | [c1; c2; c3; c4; c5; c6; c7; c8; c9; c10] =>
      id ← scan_uuid c1; org ← scan_uuid c2; actorType ← scan_text c3; actorID ← scan_text c4; action ← scan_text c5;
      resourceType ← scan_text c6; resourceID ← scan_text_ptr c7; detailsRaw ← scan_bytes c8; ip ← scan_text c9;
      occurredAt ← scan_time c10;
      Some (λ details, MkAuditEvent id org actorType actorID action resourceType resourceID details ip occurredAt, detailsRaw)
  | _ => None
  end.

Definition scanAuditEvent (row : list C) : result AuditEvent :=
  match scan_audit_columns row with
  | None => Err scan_error
  | Some (ev, detailsRaw) =>
      match unmarshal_raw "unmarshal details: " detailsRaw with
      | Ok details => Ok (ev details)
      | Err e => Err e
      end
  end.

(** ** outputs.go *)

Definition artifact_doc (a : Domain.ArtifactMeta) : jdoc :=
  DObj [("rel_path", DStr (Art_RelPath a)); ("sha256", DStr (Art_SHA256 a)); ("size", DInt (Art_Size a))].

(** The records do not tell a nil list of artifacts from an empty one. *)
Definition artifacts_doc (l : list Domain.ArtifactMeta) : jdoc := DArr (map artifact_doc l).

Definition CreateOutput_args (o : OutputPackage) : list C :=
  [col_uuid (Out_ID o); col_uuid (Out_TaskID o); col_uuid (Out_WorkerID o); col_text (Out_HMACSha256 o);
   col_jsonb (json_Marshal (artifacts_doc (Out_Artifacts o))); col_jsonb (json_Marshal (map_doc (Out_Metadata o)));
   col_text (Out_ReviewStatus o); arg_ptr col_uuid (Out_ReviewerID o); col_timestamptz (Out_SubmittedAt o);
   arg_ptr col_timestamptz (Out_ReviewedAt o)].

Definition unmarshal_artifacts : JSONUnmarshal (slice Domain.ArtifactMeta) :=
  json_unmarshal "[]domain.ArtifactMeta" None (λ _, dec_slice zero_artifact (dec_struct ArtifactMeta_fields)).

Definition scan_output_columns (row : list C)
    : option ((list Domain.ArtifactMeta → gmap string json → OutputPackage) * option string * option string) :=
  match row with
  | [c1; c2; c3; c4; c5; c6; c7; c8; c9; c10] =>
      id ← scan_uuid c1; task ← scan_uuid c2; worker ← scan_uuid c3; hmac ← scan_text c4; artifactsRaw ← scan_bytes c5;
      metaRaw ← scan_bytes c6; reviewStatus ← scan_text c7; reviewer ← scan_uuid_ptr c8; submittedAt ← scan_time c9;
      reviewedAt ← scan_time_ptr c10;
      Some (λ artifacts metadata, MkOutputPackage id task worker hmac artifacts metadata reviewStatus reviewer
              submittedAt reviewedAt, artifactsRaw, metaRaw)
  | _ => None
  end.

Definition unmarshal_artifacts_raw (raw : option string) : result (list Domain.ArtifactMeta) :=
  if 0 <? str_len (default "" raw) then
    match unmarshal_artifacts (default "" raw) with
    | inl l => Ok (elems l)
    | inr e => Err (ErrMsg ("outputs: unmarshal artifacts: " ++ e))
    end
  else Ok [].

Definition scanOutput (row : list C) : result OutputPackage :=
  match scan_output_columns row with
  | None => Err scan_error
  | Some (o, artifactsRaw, metaRaw) =>
      match unmarshal_artifacts_raw artifactsRaw with
      | Err e => Err e
      | Ok artifacts =>
          match unmarshal_raw "outputs: unmarshal metadata: " metaRaw with
          | Ok metadata => Ok (o artifacts metadata)
          | Err e => Err e
          end
      end
  end.

(** ** apikeys.go *)

(** The row that the INSERT leaves: two of its columns are not given and NULL. *)
Definition CreateAPIKey_row (k : APIKey) : list C :=
  [col_uuid (Key_ID k); col_uuid (Key_OrgUnitID k); arg_ptr col_uuid (Key_WorkerID k); col_text (Key_KeyHash k);
   col_text (Key_KeyPrefix k); col_text (Key_Name k); arg_ptr col_texts (Key_Scopes k); col_timestamptz (Key_CreatedAt k);
   arg_ptr col_timestamptz (Key_ExpiresAt k); col_null; col_null].

Definition scan_key_columns (row : list C) : option APIKey :=
  match row with
  | [c1; c2; c3; c4; c5; c6; c7; c8; c9; c10; c11] =>
      id ← scan_uuid c1; org ← scan_uuid c2; worker ← scan_uuid_ptr c3; hash ← scan_text c4; prefix ← scan_text c5;
      name ← scan_text c6; scopes ← scan_texts c7; createdAt ← scan_time c8; expiresAt ← scan_time_ptr c9;
      revokedAt ← scan_time_ptr c10; lastUsedAt ← scan_time_ptr c11;
      Some (MkAPIKey id org worker hash prefix name scopes createdAt expiresAt revokedAt lastUsedAt)
  | _ => None
  end.

Definition scanAPIKey (row : list C) : result APIKey :=
  match scan_key_columns row with None => Err scan_error | Some k => Ok k end.

End rows.

(** ** Records that the tables take, and what they become *)

Record task_storable `{ParseFloat64} `{FloatText} (t : Task) : Prop := {
  ts_ids : uuid_ok (Task_ID t) ∧ uuid_ok (Task_OrgUnitID t) ∧ opt_ok uuid_ok (Task_SubmitterID t) ∧ opt_ok uuid_ok (Task_AssignedWorkerID t);
  ts_texts : text_ok (Task_Title t) ∧ text_ok (Task_Description t) ∧ text_ok (Task_TaskType t) ∧ text_ok (Task_AIAgent t) ∧
    text_ok (Task_State t) ∧ text_ok (Task_ErrorMessage t);
  ts_ints : int4_ok (Task_Priority t) = true ∧ int4_ok (Task_RetryCount t) = true ∧ int4_ok (Task_MaxRetries t) = true;
  ts_times : time_ok (Task_QueuedAt t) ∧ opt_ok time_ok (Task_AssignedAt t) ∧ opt_ok time_ok (Task_StartedAt t) ∧
    opt_ok time_ok (Task_CompletedAt t) ∧ opt_ok time_ok (Task_FailedAt t);
  ts_options : map_ok (Task_Options t);
}.

(** The task with times of a microsecond's resolution, and the options read back. *)
Definition task_stored (t : Task) (options : gmap string json) : Task :=
  MkTask (Task_ID t) (Task_OrgUnitID t) (Task_SubmitterID t) (Task_Title t) (Task_Description t) (Task_TaskType t)
    (Task_Priority t) (Task_AIAgent t) (Task_State t) (Task_AssignedWorkerID t) (us_floor (Task_QueuedAt t))
    (us_floor <$> Task_AssignedAt t) (us_floor <$> Task_StartedAt t) (us_floor <$> Task_CompletedAt t)
    (us_floor <$> Task_FailedAt t) (Task_ErrorMessage t) (Task_RetryCount t) (Task_MaxRetries t) options.

Definition worker_storable (wk : Worker) : Prop :=
  (uuid_ok (Worker_ID wk) ∧ uuid_ok (Worker_OrgUnitID wk)) ∧
  (text_ok (Worker_HostnameHash wk) ∧ opt_ok (Forall text_ok) (Worker_Agents wk) ∧ text_ok (Worker_State wk)) ∧
  int4_ok (Worker_CapacityScore wk) = true ∧ opt_ok time_ok (Worker_LastHeartbeatAt wk) ∧ time_ok (Worker_CreatedAt wk).

Definition worker_stored (wk : Worker) : Worker :=
  MkWorker (Worker_ID wk) (Worker_OrgUnitID wk) (Worker_HostnameHash wk) (Worker_Agents wk) (Worker_State wk)
    (us_floor <$> Worker_LastHeartbeatAt wk) (Worker_CapacityScore wk) (us_floor (Worker_CreatedAt wk)).

Definition org_storable `{ParseFloat64} `{FloatText} (o : OrgUnit) : Prop :=
  uuid_ok (Org_ID o) ∧ text_ok (Org_Name o) ∧ text_ok (Org_PlanTier o) ∧ map_ok (Org_Policy o) ∧
  time_ok (Org_CreatedAt o) ∧ time_ok (Org_UpdatedAt o).

Definition org_stored (o : OrgUnit) (policy : gmap string json) : OrgUnit :=
  MkOrgUnit (Org_ID o) (Org_Name o) (Org_PlanTier o) policy (us_floor (Org_CreatedAt o)) (us_floor (Org_UpdatedAt o)).

Definition audit_storable `{ParseFloat64} `{FloatText} (ev : AuditEvent) : Prop :=
  (uuid_ok (Audit_ID ev) ∧ uuid_ok (Audit_OrgUnitID ev)) ∧
  (text_ok (Audit_ActorType ev) ∧ text_ok (Audit_ActorID ev) ∧ text_ok (Audit_Action ev) ∧ text_ok (Audit_ResourceType ev) ∧
   opt_ok text_ok (Audit_ResourceID ev) ∧ text_ok (Audit_IPAddress ev)) ∧
  map_ok (Audit_Details ev) ∧ time_ok (Audit_OccurredAt ev).

Definition audit_stored (ev : AuditEvent) (details : gmap string json) : AuditEvent :=
  MkAuditEvent (Audit_ID ev) (Audit_OrgUnitID ev) (Audit_ActorType ev) (Audit_ActorID ev) (Audit_Action ev)
    (Audit_ResourceType ev) (Audit_ResourceID ev) details (Audit_IPAddress ev) (us_floor (Audit_OccurredAt ev)).

Definition artifact_ok (a : Domain.ArtifactMeta) : Prop :=
  text_ok (Art_RelPath a) ∧ text_ok (Art_SHA256 a) ∧ in_i64 (Art_Size a).

Definition output_storable `{ParseFloat64} `{FloatText} (o : OutputPackage) : Prop :=
  (uuid_ok (Out_ID o) ∧ uuid_ok (Out_TaskID o) ∧ uuid_ok (Out_WorkerID o) ∧ opt_ok uuid_ok (Out_ReviewerID o)) ∧
  (text_ok (Out_HMACSha256 o) ∧ text_ok (Out_ReviewStatus o)) ∧
  (Forall artifact_ok (Out_Artifacts o) ∧ map_ok (Out_Metadata o)) ∧
  time_ok (Out_SubmittedAt o) ∧ opt_ok time_ok (Out_ReviewedAt o).

Definition output_stored (o : OutputPackage) (metadata : gmap string json) : OutputPackage :=
  MkOutputPackage (Out_ID o) (Out_TaskID o) (Out_WorkerID o) (Out_HMACSha256 o) (Out_Artifacts o) metadata
    (Out_ReviewStatus o) (Out_ReviewerID o) (us_floor (Out_SubmittedAt o)) (us_floor <$> Out_ReviewedAt o).

Definition key_storable (k : APIKey) : Prop :=
  (uuid_ok (Key_ID k) ∧ uuid_ok (Key_OrgUnitID k) ∧ opt_ok uuid_ok (Key_WorkerID k)) ∧
  (text_ok (Key_KeyHash k) ∧ text_ok (Key_KeyPrefix k) ∧ text_ok (Key_Name k) ∧ opt_ok (Forall text_ok) (Key_Scopes k)) ∧
  time_ok (Key_CreatedAt k) ∧ opt_ok time_ok (Key_ExpiresAt k).

(** A new key is neither revoked nor used. *)
Definition key_stored (k : APIKey) : APIKey :=
  MkAPIKey (Key_ID k) (Key_OrgUnitID k) (Key_WorkerID k) (Key_KeyHash k) (Key_KeyPrefix k) (Key_Name k) (Key_Scopes k)
    (us_floor (Key_CreatedAt k)) (us_floor <$> Key_ExpiresAt k) None None.

(** ** Reading back *)

Section facts.
Context {C : Type} `{PX : Pgx C} `{JE : JSONErrorText} `{PF : ParseFloat64} `{FT : FloatText} `{PL : !PgxLaws C}.

(** Scan the columns one by one. *)
Ltac scan_columns :=
  repeat (first
    [ rewrite scan_uuid_col by assumption | rewrite scan_uuid_ptr_col by assumption
    | rewrite scan_text_col by assumption | rewrite scan_text_ptr_col by assumption
    | rewrite scan_int_col by assumption | rewrite scan_time_col by assumption
    | rewrite scan_time_ptr_col by (assumption || exact I) | rewrite scan_texts_col by assumption
    | match goal with H : scan_bytes (col_jsonb ?x) = Some _ |- context [scan_bytes (col_jsonb ?x)] => rewrite H end ];
    cbn [mbind option_bind]).

Lemma json_parse_nonempty t d : json_parse t = Some d → 0 < str_len t.
Proof. destruct t as [|c t]; [done|]. intros _. unfold str_len. simpl. lia. Qed.

(** A stored map, scanned as text and unmarshalled. *)
Lemma map_column m : map_ok m → ∃ t m',
  scan_bytes (col_jsonb (json_Marshal (map_doc m))) = Some (Some t) ∧ unmarshal_map t = inl (Some m') ∧ m' ≡ m ∧
  ∀ context, unmarshal_raw context (Some t) = Ok m'.
Proof.
  intros Hm. destruct (scan_jsonb_col (map_doc m)) as (t & d' & Hs & Hp & Hd); [by apply map_doc_jsonb|].
  destruct (unmarshal_map_same m t d' Hm Hp Hd) as (m' & Hu & Heq). exists t, m'. split_and!; try done.
  intros context. unfold unmarshal_raw. cbn [default from_option id]. rewrite Hu.
  by rewrite (proj2 (Z.ltb_lt 0 _)) by (by eapply json_parse_nonempty).
Qed.

Lemma scanTask_row t : task_storable t →
  ∃ m, scanTask (CreateTask_args t) = Ok (task_stored t m) ∧ m ≡ Task_Options t.
Proof.
  intros [(?&?&?&?) (?&?&?&?&?&?) (?&?&?) (?&?&?&?&?) Ho].
  destruct (map_column _ Ho) as (raw & m & Hs & _ & Hm & Hu). exists m. split; [|done].
  unfold scanTask, scan_task_columns, CreateTask_args. scan_columns. by rewrite Hu.
Qed.

Lemma scanWorker_row wk : worker_storable wk → scanWorker (RegisterWorker_args wk) = Ok (worker_stored wk).
Proof.
  intros ((?&?)&(?&?&?)&?&?&?). unfold scanWorker, scan_worker_columns, RegisterWorker_args. by scan_columns.
Qed.

Lemma scanOrg_row o : org_storable o → ∃ m, scanOrg (CreateOrg_args o) = Ok (org_stored o m) ∧ m ≡ Org_Policy o.
Proof.
  intros (?&?&?&Ho&?&?). destruct (map_column _ Ho) as (raw & m & Hs & Hu & Hm & _). exists m. split; [|done].
  unfold scanOrg, scan_org_columns, CreateOrg_args. scan_columns. cbn [default from_option id]. by rewrite Hu.
Qed.

Lemma scanAuditEvent_row ev : audit_storable ev →
  ∃ m, scanAuditEvent (WriteAuditEvent_args ev) = Ok (audit_stored ev m) ∧ m ≡ Audit_Details ev.
Proof.
  intros ((?&?)&(?&?&?&?&?&?)&Ho&?). destruct (map_column _ Ho) as (raw & m & Hs & _ & Hm & Hu). exists m. split; [|done].
  unfold scanAuditEvent, scan_audit_columns, WriteAuditEvent_args. scan_columns. by rewrite Hu.
Qed.

Lemma scanAPIKey_row k : key_storable k → scanAPIKey (CreateAPIKey_row k) = Ok (key_stored k).
Proof.
  intros ((?&?&?)&(?&?&?&?)&?&?). unfold scanAPIKey, scan_key_columns, CreateAPIKey_row.
  change (@col_null C PX) with (arg_ptr (C := C) col_timestamptz None). by scan_columns.
Qed.

(** *** Artifacts *)

Lemma Permutation_three {A} (l : list A) a b c :
  l ≡ₚ [a; b; c] →
  l = [a; b; c] ∨ l = [a; c; b] ∨ l = [b; a; c] ∨ l = [b; c; a] ∨ l = [c; a; b] ∨ l = [c; b; a].
Proof.
  intros Hp. pose proof (Permutation_length Hp) as Hl.
  destruct l as [|x l]; [done|]. assert (x ∈ [a; b; c]) as Hx by (rewrite <-Hp; by left).
  rewrite !elem_of_cons, elem_of_nil in Hx. destruct Hx as [->|[->|[->|[]]]].
  - apply Permutation_cons_inv, Permutation_sym, Permutation_length_2_inv in Hp as [->| ->]; auto 10.
  - rewrite (Permutation_swap b a [c]) in Hp.
    apply Permutation_cons_inv, Permutation_sym, Permutation_length_2_inv in Hp as [->| ->]; auto 10.
  - rewrite (Permutation_swap c b []), (Permutation_swap c a [b]) in Hp.
    apply Permutation_cons_inv, Permutation_sym, Permutation_length_2_inv in Hp as [->| ->]; auto 10.
Qed.

Lemma artifact_same a d' : artifact_ok a → jsonb_same (jdoc_read (artifact_doc a)) d' →
  dec_struct ArtifactMeta_fields d' zero_artifact = (a, DecOk).
Proof.
  intros ([Hv1 _] & [Hv2 _] & Hi). cbn [artifact_doc jdoc_read map fst snd]. literals. rewrite !to_valid_id by done.
  intros H. inversion H as [| | | | |? l' l'' Hp Hf]; subst; clear H.
  assert (∀ d, jsonb_same (DStr (Art_RelPath a)) d → d = DStr (Art_RelPath a)) as H1 by (intros d Hd; by inversion Hd).
  assert (∀ d, jsonb_same (DStr (Art_SHA256 a)) d → d = DStr (Art_SHA256 a)) as H2 by (intros d Hd; by inversion Hd).
  assert (∀ d, jsonb_same (DNum (Itoa (Art_Size a))) d → d = DNum (Itoa (Art_Size a))) as H3.
  { intros d Hd. inversion Hd as [| |? ? _ Hz| | |]; subst. by rewrite (Hz _ eq_refl). }
  unfold dec_struct. destruct a as [path sha size]. cbn [Art_RelPath Art_SHA256 Art_Size] in *.
  apply Permutation_three in Hp as [->|[->|[->|[->|[->| ->]]]]];
    repeat match goal with Hf : Forall2 _ (_ :: _) _ |- _ =>
      let k := fresh "k" in let d := fresh "d" in let Hk := fresh "Hk" in let Hd := fresh "Hd" in
      apply Forall2_cons_inv_l in Hf as ([k d] & ? & [Hk Hd] & Hf & ->); cbn [fst snd] in Hk, Hd; subst k end;
    apply Forall2_nil_inv_l in Hf as ->;
    repeat match goal with Hd : jsonb_same ?v ?d |- _ => first [apply H1 in Hd | apply H2 in Hd | apply H3 in Hd]; subst d end;
    repeat (erewrite dec_member_known; [|reflexivity|open_field; cbn [dec_string dec_int]; rewrite ?Atoi_Itoa by done; reflexivity]);
    reflexivity.
Qed.

Lemma artifact_doc_ok l : Forall artifact_ok l → jsonb_ok (artifacts_doc l).
Proof.
  intros Hl. apply jsonb_ok_arr, Forall_map. eapply Forall_impl; [exact Hl|]. intros a (? & ? & ?).
  apply jsonb_ok_obj. split; [by apply (bool_decide_unpack _)|].
  assert (∀ s, str_all (λ c, byte_val c <? 128) s = true → str_all (λ c, negb (byte_val c =? 0)) s = true → text_ok s) as Hk
    by (intros; split; [by apply valid_ascii|done]).
  rewrite !Forall_cons. cbn [fst snd jsonb_ok]. split_and!; try done; by apply Hk.
Qed.

Lemma artifacts_column l : Forall artifact_ok l → ∃ t,
  scan_bytes (col_jsonb (json_Marshal (artifacts_doc l))) = Some (Some t) ∧ unmarshal_artifacts_raw (Some t) = Ok l.
Proof.
  intros Hl. destruct (scan_jsonb_col (artifacts_doc l)) as (t & d' & Hs & Hp & Hd); [by apply artifact_doc_ok|].
  exists t. split; [done|]. unfold unmarshal_artifacts_raw. cbn [default from_option id].
  rewrite (proj2 (Z.ltb_lt 0 _)) by (by eapply json_parse_nonempty).
  unfold unmarshal_artifacts, json_unmarshal. rewrite Hp.
  cbn [artifacts_doc jdoc_read] in Hd. inversion Hd as [| | | |? l' Hf|]; subst. unfold dec_slice. cbn [elems default from_option].
  assert (dec_elems zero_artifact (dec_struct ArtifactMeta_fields) l' [] = (l, DecOk)) as ->; [|done].
  clear -Hl Hf. rewrite map_map in Hf. revert l' Hf. induction Hl as [|a l Ha _ IH]; intros l' Hf; cbn [map] in Hf.
  - by apply Forall2_nil_inv_l in Hf as ->.
  - apply Forall2_cons_inv_l in Hf as (d & l1 & Hd & Hf & ->). cbn [dec_elems head default from_option tail].
    rewrite (artifact_same a d Ha Hd), (IH l1 Hf). done.
Qed.

Lemma scanOutput_row o : output_storable o →
  ∃ m, scanOutput (CreateOutput_args o) = Ok (output_stored o m) ∧ m ≡ Out_Metadata o.
Proof.
  intros ((?&?&?&?)&(?&?)&(Ha&Ho)&?&?). destruct (map_column _ Ho) as (raw & m & Hs & _ & Hm & Hu).
  destruct (artifacts_column _ Ha) as (raw2 & Hs2 & Hu2). exists m. split; [|done].
  unfold scanOutput, scan_output_columns, CreateOutput_args. scan_columns. by rewrite Hu2, Hu.
Qed.

(** *** Whole tables *)

Lemma read_rows_all {A B} (scan : list C → result B) (row : A → list C) (P : A → B → Prop) l :
  (∀ a, a ∈ l → ∃ b, scan (row a) = Ok b ∧ P a b) →
  ∃ l', read_rows scan (map row l) false = Ok l' ∧ Forall2 P l l'.
Proof.
  induction l as [|a l IH]; intros H; [by exists []|].
  destruct (H a) as (b & Hb & HP); [by left|]. destruct IH as (l' & Hl & Hf); [intros x Hx; apply H; by right|].
  exists (b :: l'). cbn [map read_rows]. rewrite Hb, Hl. split; [done|by constructor].
Qed.

(** One row that cannot be scanned fails the whole query. *)
Lemma read_rows_bad {A} (scan : list C → result A) l1 row l2 failed :
  is_ok (scan row) = false → is_ok (read_rows scan (l1 ++ row :: l2)%list failed) = false.
Proof.
  intros H. induction l1 as [|r l1 IH]; cbn [app read_rows].
  - by destruct (scan row).
  - destruct (scan r); [|done]. by destruct (read_rows scan _ failed).
Qed.

(** A row of tasks without an error message, which the schema allows. *)
Lemma scanTask_null row : row !! 15%nat = Some col_null → is_ok (scanTask row) = false.
Proof.
  intros Hc. unfold scanTask. assert (scan_task_columns row = None) as ->; [|done]. unfold scan_task_columns.
  do 16 (destruct row as [|? row]; [done|]). injection Hc as ->.
  do 3 (destruct row as [|? row]; [done|]). destruct row; [|done].
  repeat match goal with |- mbind _ ?x = None => destruct x eqn:?; cbn [mbind option_bind]; [|done] end.
  by rewrite scan_text_null in *.
Qed.

(** C25: What the program writes it reads: for every list of tasks, workers, audit events,
    outputs, org units and new API keys with values that PostgreSQL takes, scanning the
    rows that the INSERT statements make gives the records back, in order, with their
    times cut to whole microseconds and with equal options, details, metadata and policies
    (up to the order of members), whatever the jsonb columns made of the texts; but one
    row of tasks whose error message is NULL, which the schema allows, fails the query
    for all of them. *)
Theorem rows_read_back ts ws evs os orgs ks :
  Forall task_storable ts → Forall worker_storable ws → Forall audit_storable evs → Forall output_storable os →
  Forall org_storable orgs → Forall key_storable ks →
  (∃ l, read_rows scanTask (map CreateTask_args ts) false = Ok l ∧
     Forall2 (λ t t', t' = task_stored t (Task_Options t') ∧ Task_Options t' ≡ Task_Options t) ts l) ∧
  queryWorkers (Ok (map RegisterWorker_args ws, false)) = Ok (map worker_stored ws) ∧
  (∃ l, read_rows scanAuditEvent (map WriteAuditEvent_args evs) false = Ok l ∧
     Forall2 (λ e e', e' = audit_stored e (Audit_Details e') ∧ Audit_Details e' ≡ Audit_Details e) evs l) ∧
  (∃ l, read_rows scanOutput (map CreateOutput_args os) false = Ok l ∧
     Forall2 (λ o o', o' = output_stored o (Out_Metadata o') ∧ Out_Metadata o' ≡ Out_Metadata o) os l) ∧
  (∃ l, read_rows scanOrg (map CreateOrg_args orgs) false = Ok l ∧
     Forall2 (λ o o', o' = org_stored o (Org_Policy o') ∧ Org_Policy o' ≡ Org_Policy o) orgs l) ∧
  read_rows scanAPIKey (map CreateAPIKey_row ks) false = Ok (map key_stored ks) ∧
  ∀ l1 row l2 failed, row !! 15%nat = Some col_null → is_ok (read_rows scanTask (l1 ++ row :: l2)%list failed) = false.
Proof.
  rewrite !Forall_forall. intros Ht Hw He Ho Hg Hk. split_and!.
  - apply read_rows_all. intros t Hin. destruct (scanTask_row t (Ht t Hin)) as (m & -> & Hm). by eexists.
  - cbn [queryWorkers].
    destruct (read_rows_all scanWorker RegisterWorker_args (λ wk wk', wk' = worker_stored wk) ws) as (l & -> & Hl).
    + intros wk Hin. rewrite scanWorker_row by auto. by eexists.
    + f_equal. clear -Hl. induction Hl; simpl; congruence.
  - apply read_rows_all. intros e Hin. destruct (scanAuditEvent_row e (He e Hin)) as (m & -> & Hm). by eexists.
  - apply read_rows_all. intros o Hin. destruct (scanOutput_row o (Ho o Hin)) as (m & -> & Hm). by eexists.
  - apply read_rows_all. intros o Hin. destruct (scanOrg_row o (Hg o Hin)) as (m & -> & Hm). by eexists.
  - destruct (read_rows_all scanAPIKey CreateAPIKey_row (λ k k', k' = key_stored k) ks) as (l & -> & Hl).
    + intros k Hin. rewrite scanAPIKey_row by auto. by eexists.
    + f_equal. clear -Hl. induction Hl; simpl; congruence.
  - intros l1 row l2 failed Hn. by apply read_rows_bad, scanTask_null.
Qed.
End facts.
