(* ===== verification/Wire.v ===== *)
(** * The wire between the two programs

    What one program prints with encoding/json, the other decodes: the worker's requests on
    the control plane, the control plane's answers on the worker, and the messages of the
    control socket.  [pval_json] is the document of an answer that the worker reads; the
    keys of a Go map are printed in order. *)
From S2P Require Import Prelude GoStd Float64 Domain World RedisStore Http TaskHandler WorkerHandler OutputHandler.
From S2P Require Import Policy GoJson JsonParse JsonDecode WProg WClient Control Messages.
From Stdlib Require Import SpecFloat.

#[local] Open Scope string_scope.
#[local] Open Scope Z_scope.

(** ** Answers *)

Section answers.
Context `{UT : UUIDText}.

Fixpoint pval_json (v : pval) : option jdoc :=
  match v with
  | VStr s => Some (DStr s)
  | VInt z => Some (DInt z)
  | VBool b => Some (DBool b)
  | VID id => Some (DStr (uuid_String id))
  | VStringMap m => Some (DObj (map (λ kv, (fst kv, DStr (snd kv))) (sort_keys (map_to_list m))))
  | VObj l =>
      (λ l, DObj (sort_keys l)) <$>
        (fix go l := match l with
                     | [] => Some []
                     | (k, v) :: l => match pval_json v, go l with
                                      | Some d, Some ds => Some ((k, d) :: ds)
                                      | _, _ => None
                                      end
                     end) l
  | _ => None
  end.

(** The bytes of an answer that the worker reads. *)
Definition response_text (resp : http_response) : option string :=
  match Resp_Body resp with
  | PEmpty => Some ""
  | PText s => Some s
  | PJSON v => (λ d, json_Marshal d ++ str1 chr_lf) <$> pval_json v      (* json.Encoder ends with a line feed *)
  end.

(** The assignment that the heartbeat answer describes. *)
Definition assignment_of (t : Task) : TaskAssignment :=
  MkAssignment (uuid_String (Task_ID t)) (Task_Title t) (Task_Description t) (Task_TaskType t) (Task_AIAgent t)
    (omap (λ v, WorkerHandler.json_string (Some v)) (Task_Options t))
    (default "" (WorkerHandler.json_string (Task_Options t !! "repo_url"))) (default "" (WorkerHandler.json_string (Task_Options t !! "branch")))
    (match json_number (Task_Options t !! "timeout_sec") with Some f => f64_to_int f | None => 3600 end).
End answers.

(** ** Requests of the worker on the control plane *)

Section requests.
Context `{JE : JSONErrorText} `{PF : ParseFloat64} `{TU : TimeUnmarshal} `{FT : FloatText}.

Lemma status_decodes r :
  decode_updateTaskStateRequest (TaskStatusRequest_Marshal r) =
    (MkUpdateTaskStateRequest (to_valid (TSR_State r))
       (if String.eqb (TSR_ErrorMessage r) "" then None else Some (to_valid (TSR_ErrorMessage r))), None).
Proof.
  unfold decode_updateTaskStateRequest, TaskStatusRequest_Marshal, omit_empty.
  destruct (String.eqb _ ""); cbn [app]; rewrite json_decoder_printed by done; cbn [jdoc_read map fst snd]; literals;
    unfold dec_struct; repeat store_member; reflexivity.
Qed.

Definition artifact_of (a : WClient.ArtifactMeta) : Domain.ArtifactMeta :=
  Domain.MkArtifactMeta (to_valid (AM_RelPath a)) (to_valid (AM_SHA256 a)) (AM_Size a).

Definition metadata_of (l : list (string * jdoc)) : gmap string json :=
  foldl (λ m kv, <[to_valid (fst kv) := any_value (jdoc_read (snd kv))]> m) ∅ l.

Definition submission_ok (o : OutputSubmission) : Prop :=
  Forall (λ a, in_i64 (AM_Size a)) (OS_Artifacts o) ∧
  Forall (λ kv, jdoc_ok kv.2 ∧ any_ok (jdoc_read kv.2) = true) (OS_Metadata o).

Lemma artifact_decodes a : in_i64 (AM_Size a) →
  dec_struct ArtifactMeta_fields (jdoc_read (ArtifactMeta_json a)) zero_artifact = (artifact_of a, DecOk).
Proof.
  intros Ha. cbn [ArtifactMeta_json jdoc_read map fst snd]. literals. unfold dec_struct. store_member. store_member.
  erewrite dec_member_known; [|reflexivity|]; [reflexivity|]. open_field. unfold dec_int. by rewrite Atoi_Itoa.
Qed.

Lemma metadata_decodes l : Forall (λ kv : string * jdoc, jdoc_ok kv.2 ∧ any_ok (jdoc_read kv.2) = true) l →
  dec_entries JNull dec_any (map (λ kv, (to_valid kv.1, jdoc_read kv.2)) l) ∅ = (metadata_of l, DecOk).
Proof.
  intros Hl. rewrite (dec_entries_ok _ _ _ _ (λ kv, any_value (jdoc_read kv.2))); [done|].
  intros kv Hkv. rewrite Forall_forall in Hl. destruct (Hl kv Hkv) as [_ Ho]. unfold dec_any. by rewrite Ho.
Qed.

Lemma submission_decodes o :
  submission_ok o →
  decode_submitRequest (OutputSubmission_Marshal o) =
    (MkSubmitRequest (to_valid (OS_TaskID o)) (to_valid (OS_HMACSha256 o)) (map artifact_of (OS_Artifacts o))
       (metadata_of (OS_Metadata o)), None).
Proof.
  intros [Ha Hm]. unfold decode_submitRequest, OutputSubmission_Marshal.
  assert (∀ l, Forall (λ a, in_i64 (AM_Size a)) l → jdoc_ok (DArr (map ArtifactMeta_json l))) as Hok.
  { intros l Hl. apply jdoc_ok_arr, Forall_map. eapply Forall_impl; [exact Hl|]. intros a H. simpl; auto. }
  assert (∀ l, Forall (λ a, in_i64 (AM_Size a)) l →
    dec_elems zero_artifact (dec_struct ArtifactMeta_fields) (map jdoc_read (map ArtifactMeta_json l)) [] =
      (map artifact_of l, DecOk)) as Hdec.
  { intros l Hl. rewrite map_map. apply dec_elems_ok. intros a Hin. apply artifact_decodes. rewrite Forall_forall in Hl. auto. }
  rewrite json_decoder_printed.
  2: { apply jdoc_ok_obj, Forall_app. split; [by repeat (constructor; [done || by apply Hok|])|]. unfold omit_empty_obj.
       destruct (OS_Metadata o) as [|kv l]; [constructor|]. apply Forall_singleton, (jdoc_ok_obj (kv :: l)).
       eapply Forall_impl; [exact Hm|]. by intros ? []. }
  cbn [app jdoc_read map fst snd]. literals. unfold dec_struct. store_member. store_member.
  erewrite dec_member_known; [|reflexivity|].
  2: { open_field. unfold dec_slice. cbn [elems default]. rewrite Hdec by done. reflexivity. }
  unfold omit_empty_obj. destruct (OS_Metadata o) as [|kv l]; [reflexivity|].
  cbn [map fst snd jdoc_read]. literals. erewrite dec_member_known; [|reflexivity|].
  2: { open_field. unfold dec_map. cbn [default]. 
       pose proof (metadata_decodes (kv :: l) Hm) as E. cbn [map] in E.
       match goal with |- context [dec_entries _ _ _ ?m] => change m with (∅ : gmap string json) end. rewrite E. reflexivity. }
  reflexivity.
Qed.

(** A number that is printed as a JSON number, and reads back as itself. *)
Definition float_prints (f : spec_float) : Prop := num_text (float_text f) = true.
Definition float_ok (f : spec_float) : Prop := float_prints f ∧ parse_float (float_text f) = Some f.

Lemma float_json_number f d : float_json f = inl d → d = DNum (float_text f).
Proof. unfold float_json. destruct f; by intros [= <-]. Qed.

Lemma register_decodes r body :
  float_ok (RR_CapacityScore r) → RegisterRequest_Marshal r = inl body →
  decode_registerWorkerRequest body =
    (MkRegisterWorkerRequest (to_valid (RR_HostnameHash r)) "" (Some (map to_valid (RR_Agents r))) (RR_CapacityScore r), None).
Proof.
  intros [Hp Hf]. unfold RegisterRequest_Marshal. destruct (float_json (RR_CapacityScore r)) as [score|] eqn:Es; [|done].
  intros <-%(inj inl).
  apply float_json_number in Es as ->.
  unfold decode_registerWorkerRequest. rewrite json_decoder_printed.
  2: { apply jdoc_ok_obj. do 4 (constructor; [first [done|exact Hp|by apply jdoc_ok_arr, Forall_map, Forall_true]|]). constructor. }
  cbn [jdoc_read map fst snd]. literals. unfold dec_struct. store_member.
  erewrite dec_member_known; [|reflexivity|].
  2: { open_field. unfold dec_strings, dec_slice. cbn [elems default]. rewrite map_map.
       rewrite (dec_elems_ok _ _ _ to_valid) by done. reflexivity. }
  store_member. erewrite dec_member_known; [|reflexivity|]; [reflexivity|]. open_field. unfold dec_float.
  by rewrite Hf.
Qed.

(** A heartbeat names no agents: the control plane keeps those it has. *)
Lemma heartbeat_decodes r body :
  float_prints (HB_CPUPercent r) → float_prints (HB_DiskFreeGB r) → float_prints (HB_BatteryPercent r) →
  in_i64 (HB_RAMMBUsed r) → in_i64 (HB_JobsToday r) → HeartbeatRequest_Marshal r = inl body →
  decode_heartbeatRequest body = (WorkerHandler.MkHeartbeatRequest None, None).
Proof.
  intros ? ? ? H1 H2. unfold HeartbeatRequest_Marshal.
  destruct (float_json (HB_CPUPercent r)) as [c|] eqn:Ec; [|done].
  destruct (float_json (HB_DiskFreeGB r)) as [d|] eqn:Ed; [|done].
  destruct (float_json (HB_BatteryPercent r)) as [b|] eqn:Eb; [|done]. intros <-%(inj inl).
  apply float_json_number in Ec as ->. apply float_json_number in Ed as ->. apply float_json_number in Eb as ->.
  unfold decode_heartbeatRequest. rewrite json_decoder_printed.
  2: { apply jdoc_ok_obj. do 6 (constructor; [done|]). constructor. }
  cbn [jdoc_read map fst snd]. literals. unfold dec_struct. by repeat store_member.
Qed.
End requests.

(** ** Answers of the control plane on the worker *)

Section replies.
Context `{JE : JSONErrorText} `{PF : ParseFloat64} `{TU : TimeUnmarshal} `{UT : UUIDText}.

Definition string_map_json (m : gmap string string) : jdoc :=
  DObj (map (λ kv, (fst kv, DStr (snd kv))) (sort_keys (map_to_list m))).

Definition assignment_json (a : TaskAssignment) : jdoc :=
  DObj [("ai_agent", DStr (TA_AIAgent a)); ("branch", DStr (TA_Branch a)); ("description", DStr (TA_Description a));
        ("options", string_map_json (TA_Options a)); ("repo_url", DStr (TA_RepoURL a)); ("task_id", DStr (TA_TaskID a));
        ("task_type", DStr (TA_TaskType a)); ("timeout_sec", DInt (TA_TimeoutSec a)); ("title", DStr (TA_Title a))].

#[local] Arguments string_map_json : simpl never.
#[local] Arguments assignment_json : simpl never.

Lemma assigned_task_json t : pval_json (assigned_task_value t) = Some (assignment_json (assignment_of t)).
Proof. reflexivity. Qed.

Lemma heartbeat_json id ttl t :
  pval_json (VObj [("ok", VBool true); ("worker_id", VID id); ("next_ttl_sec", VInt ttl); ("assigned_task", assigned_task_value t)]) =
    Some (DObj [("assigned_task", assignment_json (assignment_of t)); ("next_ttl_sec", DInt ttl); ("ok", DBool true);
                ("worker_id", DStr (uuid_String id))]).
Proof. reflexivity. Qed.

(** Text of valid UTF-8, a timeout of 64 bits. *)
Definition assignment_ok (a : TaskAssignment) : Prop :=
  Forall valid_utf8 [TA_TaskID a; TA_Title a; TA_Description a; TA_TaskType a; TA_AIAgent a; TA_RepoURL a; TA_Branch a] ∧
  map_Forall (λ k v, valid_utf8 k ∧ valid_utf8 v) (TA_Options a) ∧ in_i64 (TA_TimeoutSec a).

Lemma string_map_decodes m : map_Forall (λ k v, valid_utf8 k ∧ valid_utf8 v) m →
  dec_map "" dec_string (jdoc_read (string_map_json m)) (Some ∅) = (Some m, DecOk).
Proof.
  intros Hm. unfold string_map_json, dec_map. cbn [jdoc_read default].
  assert (sort_keys (map_to_list m) ≡ₚ map_to_list m) as Hp by apply merge_sort_Permutation.
  rewrite map_map. cbn [fst snd jdoc_read].
  assert (map (λ kv : string * string, (to_valid kv.1, DStr (to_valid kv.2))) (sort_keys (map_to_list m)) =
          map (λ kv, (fst kv, DStr (snd kv))) (sort_keys (map_to_list m))) as ->.
  { apply map_ext_in. intros [k v] Hin%list_elem_of_In. rewrite Hp, elem_of_map_to_list in Hin.
    destruct (Hm _ _ Hin). simpl. by rewrite !to_valid_id. }
  unfold id. rewrite (dec_entries_ok _ _ fst (λ kv, DStr (snd kv)) snd) by done. by rewrite (foldl_insert_map m).
Qed.

Lemma assignment_decodes a : assignment_ok a →
  dec_struct TaskAssignment_fields (jdoc_read (assignment_json a)) zero_assignment = (a, DecOk).
Proof.
  intros (Hs & Hm & Ht). rewrite !Forall_cons in Hs. destruct Hs as (? & ? & ? & ? & ? & ? & ? & _).
  unfold assignment_json. cbn [jdoc_read map fst snd]. literals. rewrite !to_valid_id by done.
  unfold dec_struct. do 3 store_member. erewrite dec_member_known; [|reflexivity|].
  2: { open_field.
       rewrite string_map_decodes by done. reflexivity. }
  tidy_members. do 3 store_member. erewrite dec_member_known; [|reflexivity|].
  2: { open_field. unfold dec_int. rewrite (Atoi_Itoa _ Ht). reflexivity. }
  store_member. by destruct a.
Qed.

Lemma assignment_json_ok a : in_i64 (TA_TimeoutSec a) → jdoc_ok (assignment_json a).
Proof.
  intros H. apply jdoc_ok_obj. do 9 (constructor; [first [done|by apply jdoc_ok_obj, Forall_map, Forall_true]|]). constructor.
Qed.

Lemma assignment_not_null a : jdoc_read (assignment_json a) ≠ DNull.
Proof. unfold assignment_json. discriminate. Qed.

(** The answer to a heartbeat, with its line feed: the worker reads the task's assignment. *)
Lemma heartbeat_reply_decodes id ttl t :
  in_i64 ttl → assignment_ok (assignment_of t) →
  ∃ text, response_text (writeJSON StatusOK
      (VObj [("ok", VBool true); ("worker_id", VID id); ("next_ttl_sec", VInt ttl); ("assigned_task", assigned_task_value t)])) = Some text ∧
    unmarshal_HeartbeatResponse text = inl (MkHeartbeatResponse (Some (assignment_of t))).
Proof.
  intros Hl Ha. unfold response_text. cbn [Resp_Body writeJSON]. rewrite heartbeat_json. eexists. split; [reflexivity|].
  apply json_unmarshal_printed; [|reflexivity|].
  - apply jdoc_ok_obj. do 4 (constructor; [first [done|by apply assignment_json_ok, Ha]|]). constructor.
  - cbn [jdoc_read map fst snd]. literals. unfold dec_struct at 1. erewrite dec_member_known; [|reflexivity|].
    2: { open_field. cbn [HBResp_AssignedTask]. rewrite (dec_ptr_ok _ _ _ _ (assignment_not_null _) (assignment_decodes _ Ha)). reflexivity. }
    by repeat store_member.
Qed.

Lemma idle_reply_decodes id ttl :
  in_i64 ttl → ∃ text, response_text (writeJSON StatusOK
      (VObj [("ok", VBool true); ("worker_id", VID id); ("next_ttl_sec", VInt ttl)])) = Some text ∧
    unmarshal_HeartbeatResponse text = inl (MkHeartbeatResponse None).
Proof.
  intros Hl. eexists. split; [reflexivity|]. apply json_unmarshal_printed; [|reflexivity|].
  - apply jdoc_ok_obj. do 3 (constructor; [done|]). constructor.
  - cbn [jdoc_read map fst snd]. literals. unfold dec_struct. by repeat store_member.
Qed.

Lemma register_reply_decodes id :
  valid_utf8 (uuid_String id) →
  ∃ text, response_text (writeJSON StatusCreated (VObj [("worker_id", VID id); ("state", VStr WorkerStateIdle)])) = Some text ∧
    unmarshal_RegisterResponse text = inl (MkRegisterResponse (uuid_String id)).
Proof.
  intros Hv. unfold response_text. cbn [Resp_Body writeJSON].
  change (pval_json (VObj _)) with (Some (DObj [("state", DStr "idle"); ("worker_id", DStr (uuid_String id))])).
  eexists. split; [reflexivity|]. apply json_unmarshal_printed; [|reflexivity|].
  - apply jdoc_ok_obj. do 2 (constructor; [done|]). constructor.
  - cbn [jdoc_read map fst snd]. literals. rewrite to_valid_id by done. unfold dec_struct. by repeat store_member.
Qed.
End replies.

(** ** The control socket *)

Section socket.
Context `{JE : JSONErrorText}.

(** A json.RawMessage that json.Marshal has produced, or none. *)
Definition raw_ok (raw : string) : Prop := raw = "" ∨ ∃ v, jdoc_ok v ∧ raw = json_Marshal v.

(** A member that holds a RawMessage is printed as its document. *)
Lemma raw_member name raw : raw_ok raw →
  raw = "" ∧ omit_empty_raw name raw = [] ∨
  ∃ v, jdoc_ok v ∧ raw = json_Marshal v ∧ omit_empty_raw name raw = [(name, DNum (json_Marshal v))].
Proof.
  intros [->|(v & Hv & ->)]; [by left|]. right. exists v. split_and!; [done..|]. unfold omit_empty_raw. by rewrite json_not_empty.
Qed.

Lemma Command_decodes c :
  valid_utf8 (Cmd_Type c) → raw_ok (Cmd_Payload c) → unmarshal_Command (Command_Marshal c) = inl c.
Proof.
  intros Ht Hp. unfold unmarshal_Command, Command_Marshal. destruct c as [ty raw]. cbn [Cmd_Type Cmd_Payload] in *.
  destruct (raw_member "payload" raw Hp) as [[-> ->]|(v & Hv & -> & ->)].
  - apply json_unmarshal_raw; [done|]. cbn [map]. unfold read_member. cbn [fst snd jdoc_read]. literals.
    rewrite to_valid_id by done. store_member. reflexivity.
  - change (json_Marshal (DObj _)) with (json_Marshal (DObj [("type", DStr ty); ("payload", v)])).
    apply json_unmarshal_raw; [by simpl|]. cbn [map]. unfold read_member. cbn [fst snd jdoc_read]. literals.
    rewrite to_valid_id by done. store_member. store_member. reflexivity.
Qed.

Lemma Response_decodes r :
  raw_ok (Rsp_Data r) → valid_utf8 (Rsp_Error r) → unmarshal_Response (Response_Marshal r) = inl r.
Proof.
  intros Hd He. unfold unmarshal_Response, Response_Marshal, omit_empty. destruct r as [ok raw err].
  cbn [Rsp_OK Rsp_Data Rsp_Error] in *.
  assert (∃ tl, (if String.eqb err "" then [] else [("error", DStr err)]) = tl ∧ jdoc_ok (DObj tl) ∧
    ∀ a, dec_members Response_fields (map read_member tl) (MkResp ok a "") = (MkResp ok a err, DecOk)) as (tl & -> & Htl & Hdec).
  { destruct (String.eqb_spec err "") as [->|]; [by exists []|]. eexists. split; [reflexivity|]. split; [done|].
    intros a. cbn [map]. unfold read_member. cbn [fst snd jdoc_read]. literals. rewrite to_valid_id by done.
    store_member. reflexivity. }
  destruct (raw_member "data" raw Hd) as [[-> ->]|(v & Hv & -> & ->)]; cbn [app].
  - apply json_unmarshal_raw; [by split|]. cbn [map]. unfold read_member at 1. cbn [fst snd jdoc_read]. literals.
    store_member. apply Hdec.
  - change (json_Marshal (DObj _)) with (json_Marshal (DObj (("ok", DBool ok) :: ("data", v) :: tl))).
    apply json_unmarshal_raw; [by split_and!|]. cbn [map]. unfold read_member at 1 2. cbn [fst snd jdoc_read]. literals.
    store_member. store_member. apply Hdec.
Qed.
End socket.

(** ** Property *)

Section agreement.
Context `{JE : JSONErrorText} `{PF : ParseFloat64} `{TU : TimeUnmarshal} `{FT : FloatText} `{UT : UUIDText}.

(** C20: Each program reads what the other means, in the bytes that go over the wire: a status
    report decodes on the control plane to its state and message, a submission to its task,
    signature, artifacts and metadata, a registration to its host, agents and capacity (and
    no host name), a heartbeat to one without agents; and the answers decode on the worker
    to the id of the worker and to the assignment of the task that is waiting, whatever its
    texts and options are, as long as they are valid UTF-8. *)
Theorem wire_agrees st o reg reg_body hb hb_body id ttl t :
  submission_ok o → float_ok (RR_CapacityScore reg) → RegisterRequest_Marshal reg = inl reg_body →
  float_prints (HB_CPUPercent hb) → float_prints (HB_DiskFreeGB hb) → float_prints (HB_BatteryPercent hb) →
  in_i64 (HB_RAMMBUsed hb) → in_i64 (HB_JobsToday hb) → HeartbeatRequest_Marshal hb = inl hb_body →
  in_i64 ttl → valid_utf8 (uuid_String id) → assignment_ok (assignment_of t) →
  decode_updateTaskStateRequest (TaskStatusRequest_Marshal st) =
    (MkUpdateTaskStateRequest (to_valid (TSR_State st))
       (if String.eqb (TSR_ErrorMessage st) "" then None else Some (to_valid (TSR_ErrorMessage st))), None) ∧
  decode_submitRequest (OutputSubmission_Marshal o) =
    (MkSubmitRequest (to_valid (OS_TaskID o)) (to_valid (OS_HMACSha256 o)) (map artifact_of (OS_Artifacts o))
       (metadata_of (OS_Metadata o)), None) ∧
  decode_registerWorkerRequest reg_body =
    (MkRegisterWorkerRequest (to_valid (RR_HostnameHash reg)) "" (Some (map to_valid (RR_Agents reg))) (RR_CapacityScore reg), None) ∧
  decode_heartbeatRequest hb_body = (WorkerHandler.MkHeartbeatRequest None, None) ∧
  (∃ text, response_text (writeJSON StatusCreated (VObj [("worker_id", VID id); ("state", VStr WorkerStateIdle)])) = Some text ∧
     unmarshal_RegisterResponse text = inl (MkRegisterResponse (uuid_String id))) ∧
  (∃ text, response_text (writeJSON StatusOK
       (VObj [("ok", VBool true); ("worker_id", VID id); ("next_ttl_sec", VInt ttl); ("assigned_task", assigned_task_value t)])) = Some text ∧
     unmarshal_HeartbeatResponse text = inl (MkHeartbeatResponse (Some (assignment_of t)))) ∧
  (∃ text, response_text (writeJSON StatusOK (VObj [("ok", VBool true); ("worker_id", VID id); ("next_ttl_sec", VInt ttl)])) = Some text ∧
     unmarshal_HeartbeatResponse text = inl (MkHeartbeatResponse None)).
Proof.
  intros. split_and!; [by apply status_decodes|by apply submission_decodes|by apply register_decodes|
    by eapply heartbeat_decodes|by apply register_reply_decodes|by apply heartbeat_reply_decodes|by apply idle_reply_decodes].
Qed.
End agreement.
