(* ===== verification/DaemonControl.v ===== *)
(** * The commands of the control socket, from the command line to the daemon

    daemon/handlers.go: the handlers that registerControlHandlers registers, on the state of
    Daemon.v; and cli/: the subcommands that send them.  A handler runs without a pause
    here; [cli_commands] shows that each run is a run of the daemon's transition system,
    in which the same steps interleave with those of the other goroutines.  %q, the layout of
    tables and the order of a map's entries are parameters. *)
From S2P Require Import Prelude GoStd Domain Scheduler CpConfig WConfig Policy Daemon DaemonFacts.
From S2P Require Import GoJson JsonParse JsonDecode WProg WClient Adapters Control Messages Wire.

#[local] Open Scope string_scope.
#[local] Open Scope Z_scope.

(** ** handlers.go *)

(** approvePayload *)
Definition approvePayload_fields : list (string * setter jdoc string) :=
  [("task_id", field id (λ x _, x) dec_string)].

Section control.
Context `{TZ : TimeZones} `{QT : Quoting} `{JE : JSONErrorText} `{PF : ParseFloat64}.

Definition unmarshal_approvePayload : JSONUnmarshal string :=
  json_unmarshal "approvePayload" "" (λ _, dec_struct approvePayload_fields).

Definition string_map (k v : string) : jdoc := DObj [(k, DStr v)].

(** statusResponse; the daemon's configuration is never nil. *)
Definition handleStatusCmd : @CommandHandler daemon := λ _ d,
  (match daemon_cfg d with
   | Some cfg => Ok (Some (DObj [("state", DStr (d_state d)); ("policy_mode", DStr (mode_of cfg));
                                 ("worker_id", DStr (WSrv_WorkerID (W_Server cfg)))]))
   | None => Err ErrUnavailable
   end, d).

(** A transition, with the error that it returns. *)
Definition transition (from to : string) (d : daemon) : result unit * daemon :=
  let '(r, s) := Transition from to (d_state d) in (r, set_state s d).

Definition handlePauseCmd : @CommandHandler daemon := λ _ d,
  let current := d_state d in
  if negb (String.eqb current StateIdle)
  then (Err (ErrMsg ("can only pause from IDLE state (current: " ++ current ++ ")")), d)
  else
    match transition StateIdle StatePaused d with
    | (Err e, d) => (Err e, d)
    | (Ok _, d) => (Ok (Some (string_map "state" "PAUSED")), write_mode "paused" d)
    end.

Definition handleResumeCmd : @CommandHandler daemon := λ _ d,
  let current := d_state d in
  if negb (String.eqb current StatePaused)
  then (Err (ErrMsg ("can only resume from PAUSED state (current: " ++ current ++ ")")), d)
  else
    match transition StatePaused StateIdle d with
    | (Err e, d) => (Err e, d)
    | (Ok _, d) => (Ok (Some (string_map "state" "IDLE")), write_mode "auto" d)
    end.

Definition handleApproveCmd (now : Z) : @CommandHandler daemon := λ payload d,
  match unmarshal_approvePayload payload with
  | inr e => (Err (ErrMsg ("invalid approve payload: " ++ e)), d)
  | inl taskID =>
      match Daemon.handleApproveCmd now taskID d with
      | (Err e, d) => (Err e, d)
      | (Ok _, d) => (Ok (Some (string_map "approved" taskID)), d)
      end
  end.

(** Nothing is cancelled: the command is logged. *)
Definition handleRevokeCmd : @CommandHandler daemon := λ _ d, (Ok (Some (string_map "state" "revoking")), d).

Definition registerControlHandlers (now : Z) : gmap string (@CommandHandler daemon) :=
  <["status" := handleStatusCmd]> (<["pause" := handlePauseCmd]> (<["resume" := handleResumeCmd]>
    (<["approve" := handleApproveCmd now]> (<["revoke" := handleRevokeCmd]> ∅)))).

(** ** cli *)

#[local] Existing Instance unmarshal_Command.
#[local] Existing Instance unmarshal_Response.

Definition SocketPath : string := "/tmp/grid-worker.sock".

(** The daemon as the command line finds it: [Some e] when the socket cannot be reached. *)
Definition connect_send (now : Z) (unreachable : option string) (cmd : Command) : M daemon (fallible Response) := λ d,
  match unreachable with
  | Some e => (inr (Errorf ("connect to control socket " ++ Quote SocketPath ++ ": connect to unix socket " ++
                            Quote SocketPath ++ ": " ++ e)), d)
  | None => SendCommand (registerControlHandlers now) cmd d
  end.

(** What a subcommand prints, or its error. *)
Definition run_command (now : Z) (unreachable : option string) (cmd : Command) (out : Response → string) :
    M daemon (fallible string) :=
  r ← connect_send now unreachable cmd;
  mret match r with
  | inr e => inr (wrap "cannot connect to daemon" e)
  | inl resp => if negb (Rsp_OK resp) then inr (Errorf ("daemon error: " ++ Rsp_Error resp)) else inl (out resp)
  end.

Definition runPause now u := run_command now u (MkCommand "pause" "") (λ _, "daemon paused" ++ str1 chr_lf).
Definition runResume now u := run_command now u (MkCommand "resume" "") (λ _, "daemon resumed" ++ str1 chr_lf).
Definition runRevoke now u :=
  run_command now u (MkCommand "revoke" "") (λ _, "current task revoked, daemon pausing" ++ str1 chr_lf).
Definition approve_command (taskID : string) : Command :=
  MkCommand "approve" (json_Marshal (string_map "task_id" taskID)).
Definition runApprove now u (taskID : string) :=
  run_command now u (approve_command taskID)
    (λ _, "task " ++ Quote taskID ++ " approved" ++ str1 chr_lf).
End control.

(** ** Facts *)

Section facts.
Context `{TZ : TimeZones} `{QT : Quoting} `{JE : JSONErrorText} `{PF : ParseFloat64}.
Variable now : Z.

(** *** The handlers are runs of the daemon *)

Lemma daemon_eta_pause d l s m :
  set_ctl (d_ctl d) (write_mode m (set_ctl l (set_state s d))) = write_mode m (set_state s d).
Proof. by destruct d. Qed.

(** The check, the transition and the assignment, with nothing in between. *)
Lemma pause_run raw d r d' :
  handlePauseCmd raw d = (r, d') → d_serving d = true → ∃ tr, drun d tr d'.
Proof.
  unfold handlePauseCmd. intros H Hs. destruct (String.eqb_spec (d_state d) StateIdle) as [E|_]; simpl in H.
  2: { injection H as <- <-. exists []. constructor. }
  unfold transition in H. rewrite E in H. simpl in H. injection H as <- <-. exists [LQuiet; LQuiet; LQuiet].
  eapply (drun_step _ [LQuiet; LQuiet]); [eapply (drun_step _ [LQuiet]); [eapply (drun_step _ []); [constructor|]|]|].
  - by apply d_pause_check.
  - apply (d_pause_move _ [] (d_ctl d) true (set_state StatePaused (set_ctl (CPauseMove :: d_ctl d) d))); [done|].
    unfold move. simpl. by rewrite E.
  - rewrite <-(daemon_eta_pause d (CPauseMode :: d_ctl d)). apply (d_pause_mode _ [] (d_ctl d)). done.
Qed.

Lemma resume_run raw d r d' :
  handleResumeCmd raw d = (r, d') → d_serving d = true → ∃ tr, drun d tr d'.
Proof.
  unfold handleResumeCmd. intros H Hs. destruct (String.eqb_spec (d_state d) StatePaused) as [E|_]; simpl in H.
  2: { injection H as <- <-. exists []. constructor. }
  unfold transition in H. rewrite E in H. simpl in H. injection H as <- <-. exists [LQuiet; LQuiet; LResumed].
  eapply (drun_step _ [LQuiet; LQuiet]); [eapply (drun_step _ [LQuiet]); [eapply (drun_step _ []); [constructor|]|]|].
  - by apply d_resume_check.
  - apply (d_resume_move _ [] (d_ctl d) true (set_state StateIdle (set_ctl (CResumeMove :: d_ctl d) d))); [done|].
    unfold move. simpl. by rewrite E.
  - rewrite <-(daemon_eta_pause d (CResumeMode :: d_ctl d)). apply (d_resume_mode _ [] (d_ctl d)). done.
Qed.

Lemma approve_run raw d r d' :
  handleApproveCmd now raw d = (r, d') → d_serving d = true → ∃ tr, drun d tr d'.
Proof.
  unfold handleApproveCmd. intros H Hs. destruct (unmarshal_approvePayload raw) as [id|e].
  2: { injection H as <- <-. exists []. constructor. }
  destruct (Daemon.handleApproveCmd now id d) as [[[]|e] d1] eqn:E; injection H as <- <-;
    (eexists; eapply (drun_step _ []); [constructor|by eapply d_approve]).
Qed.

Lemma dispatch_run cmd d resp d' :
  dispatch (registerControlHandlers now) cmd d = (resp, d') → d_serving d = true → ∃ tr, drun d tr d'.
Proof.
  unfold dispatch. destruct (_ !! Cmd_Type cmd) as [h|] eqn:Eh.
  2: { intros [= <- <-] _. exists []. constructor. }
  unfold mbind, M_bind, mret, M_ret. destruct (h (Cmd_Payload cmd) d) as [r d1] eqn:E. intros [= <- <-] Hs.
  unfold registerControlHandlers in Eh. rewrite !lookup_insert_Some, lookup_empty in Eh.
  destruct Eh as [[_ <-]|[_ [[_ <-]|[_ [[_ <-]|[_ [[_ <-]|[_ [[_ <-]|[_ ?]]]]]]]]]].
  - injection E as <- <-. exists []. constructor.
  - by eapply pause_run.
  - by eapply resume_run.
  - by eapply approve_run.
  - injection E as <- <-. exists []. constructor.
  - done.
Qed.

(** *** Over the socket *)

(** A command that fits, with an answer that fits, gets that answer. *)
Lemma send_dispatch cmd d resp d' :
  dispatch (registerControlHandlers now) cmd d = (resp, d') →
  valid_utf8 (Cmd_Type cmd) → raw_ok (Cmd_Payload cmd) → str_len (Command_Marshal cmd) ≤ maxMessage →
  raw_ok (Rsp_Data resp) → valid_utf8 (Rsp_Error resp) → str_len (Response_Marshal resp) < 2 ^ 32 →
  connect_send now None cmd d = (inl resp, d').
Proof.
  intros Hd Ht Hp Hm Hr He Hl. unfold connect_send. rewrite SendCommand_dispatch; rewrite ?Hd; try done.
  - by apply Command_decodes.
  - split; [by apply Response_decodes|done].
Qed.

Lemma run_command_dispatch cmd out d resp d' :
  connect_send now None cmd d = (inl resp, d') →
  run_command now None cmd out d =
    ((if negb (Rsp_OK resp) then inr (Errorf ("daemon error: " ++ Rsp_Error resp)) else inl (out resp)), d').
Proof. intros H. unfold run_command, mbind, M_bind. rewrite H. done. Qed.

Definition lifecycle : list string := [StateInit; StatePreflight; StateIdle; StateExecuting; StatePaused; StateShutdown].


Lemma lifecycle_text s : s ∈ lifecycle → valid_utf8 s ∧ (String.length s <= 9)%nat.
Proof.
  intros Hs. assert (Forall (λ s, str_all (λ c, byte_val c <? 128) s && (String.length s <=? 9)%nat = true) lifecycle) as H
    by (repeat constructor).
  rewrite Forall_forall in H. specialize (H _ Hs). apply andb_prop in H as [? ?%Nat.leb_le].
  split; [by apply valid_ascii|done].
Qed.

Lemma handler_lookup :
  registerControlHandlers now !! "pause" = Some handlePauseCmd ∧ registerControlHandlers now !! "resume" = Some handleResumeCmd ∧
  registerControlHandlers now !! "approve" = Some (handleApproveCmd now) ∧ registerControlHandlers now !! "revoke" = Some handleRevokeCmd.
Proof.
  unfold registerControlHandlers. split_and!; repeat first [rewrite lookup_insert_eq; reflexivity | rewrite lookup_insert_ne by done].
Qed.

(** A command without a payload, by its handler's result. *)
Lemma simple_cli name (h : @CommandHandler daemon) d (r : result (option jdoc)) d' (out : Response → string) :
  registerControlHandlers now !! name = Some h → h "" d = (r, d') →
  str_all (λ c, byte_val c <? 128) name = true →
  let resp := match r with
              | Ok (Some v) => MkResp true (json_Marshal v) "" | Ok None => MkResp true "" "" | Err e => MkResp false "" (err_text e)
              end in
  raw_ok (Rsp_Data resp) → valid_utf8 (Rsp_Error resp) →
  str_len (Command_Marshal (MkCommand name "")) ≤ maxMessage → str_len (Response_Marshal resp) < 2 ^ 32 →
  run_command now None (MkCommand name "") out d =
    (match r with Ok _ => inl (out resp) | Err e => inr (Errorf ("daemon error: " ++ err_text e)) end, d').
Proof.
  intros Hl Hh Ha resp Hr He Hm Hlen.
  assert (connect_send now None (MkCommand name "") d = (inl resp, d')) as Hs.
  { apply send_dispatch; [|by apply valid_ascii|by left|done..]. unfold dispatch. cbn [Cmd_Type Cmd_Payload].
    match goal with |- context [match ?x with Some _ => _ | None => _ end] => replace x with (Some h) by (symmetry; exact Hl) end.
    unfold mbind, M_bind, mret, M_ret. rewrite Hh. subst resp. by destruct r as [[]|]. }
  rewrite (run_command_dispatch _ _ _ _ _ Hs). subst resp. by destruct r as [[]|].
Qed.

(** The answer to a pause or resume command that is refused fits in a message. *)
Lemma refusal_fits (name from : string) d :
  (name, from) ∈ [("pause", StateIdle); ("resume", StatePaused)] → d_state d ∈ lifecycle →
  let msg := "can only " ++ name ++ " from " ++ from ++ " state (current: " ++ d_state d ++ ")" in
  valid_utf8 msg ∧ str_len (Response_Marshal (MkResp false "" msg)) < 2 ^ 32.
Proof.
  intros Hn Hs.
  assert (Forall (λ nf : string * string, Forall (λ s, let msg := "can only " ++ nf.1 ++ " from " ++ nf.2 ++ " state (current: " ++ s ++ ")" in
    str_all (λ c, byte_val c <? 128) msg && (str_len (Response_Marshal (MkResp false "" msg)) <? 2 ^ 32) = true) lifecycle)
    [("pause", StateIdle); ("resume", StatePaused)]) as H by (repeat constructor).
  rewrite Forall_forall in H. specialize (H _ Hn). rewrite Forall_forall in H. specialize (H _ Hs).
  cbv zeta in *. cbn [fst snd] in H. apply andb_prop in H as [H1 H2]. split; [by apply valid_ascii|lia].
Qed.

Lemma write_mode_cfg mode d cfg : daemon_cfg d = Some cfg → mode_of <$> daemon_cfg (write_mode mode d) = Some mode.
Proof.
  unfold daemon_cfg. intros H. simpl. rewrite list_lookup_alter. case_decide; [|done]. by rewrite H.
Qed.

(** What the pause and resume subcommands print and do. *)
Lemma pause_cli d :
  d_state d ∈ lifecycle →
  runPause now None d =
    if String.eqb (d_state d) StateIdle
    then (inl ("daemon paused" ++ str1 chr_lf), write_mode "paused" (set_state StatePaused d))
    else (inr (Errorf ("daemon error: can only pause from IDLE state (current: " ++ d_state d ++ ")")), d).
Proof.
  intros Hl. unfold runPause. destruct handler_lookup as (Hp & _).
  destruct (String.eqb_spec (d_state d) StateIdle) as [E|E].
  - apply (simple_cli "pause" handlePauseCmd d (Ok (Some (string_map "state" "PAUSED")))); try done.
    + unfold handlePauseCmd, transition. by rewrite E.
    + right. by exists (string_map "state" "PAUSED").
    + by apply valid_ascii.
  - destruct (refusal_fits "pause" StateIdle d) as [Hv Hf]; [by left|done|].
    apply (simple_cli "pause" handlePauseCmd d (Err (ErrMsg ("can only pause from IDLE state (current: " ++ d_state d ++ ")"))));
      try done; [|by left].
    unfold handlePauseCmd. by rewrite (proj2 (String.eqb_neq _ _) E).
Qed.

Lemma resume_cli d :
  d_state d ∈ lifecycle →
  runResume now None d =
    if String.eqb (d_state d) StatePaused
    then (inl ("daemon resumed" ++ str1 chr_lf), write_mode "auto" (set_state StateIdle d))
    else (inr (Errorf ("daemon error: can only resume from PAUSED state (current: " ++ d_state d ++ ")")), d).
Proof.
  intros Hl. unfold runResume. destruct handler_lookup as (_ & Hp & _).
  destruct (String.eqb_spec (d_state d) StatePaused) as [E|E].
  - apply (simple_cli "resume" handleResumeCmd d (Ok (Some (string_map "state" "IDLE")))); try done.
    + unfold handleResumeCmd, transition. by rewrite E.
    + right. by exists (string_map "state" "IDLE").
    + by apply valid_ascii.
  - destruct (refusal_fits "resume" StatePaused d) as [Hv Hf]; [by right; left|done|].
    apply (simple_cli "resume" handleResumeCmd d (Err (ErrMsg ("can only resume from PAUSED state (current: " ++ d_state d ++ ")"))));
      try done; [|by left].
    unfold handleResumeCmd. by rewrite (proj2 (String.eqb_neq _ _) E).
Qed.

(** Revoking changes nothing. *)
Lemma revoke_cli d : runRevoke now None d = (inl ("current task revoked, daemon pausing" ++ str1 chr_lf), d).
Proof.
  unfold runRevoke. destruct handler_lookup as (_ & _ & _ & Hp).
  apply (simple_cli "revoke" handleRevokeCmd d (Ok (Some (string_map "state" "revoking")))); try done.
  - right. by exists (string_map "state" "revoking").
  - by apply valid_ascii.
Qed.

(** An approval is given exactly when the store gives it. *)
Lemma approve_cli d taskID :
  (∀ s, valid_utf8 (Quote s)) → valid_utf8 taskID → str_len (Command_Marshal (approve_command taskID)) ≤ maxMessage →
  str_len (Response_Marshal (dispatch (registerControlHandlers now) (approve_command taskID) d).1) < 2 ^ 32 →
  runApprove now None taskID d =
    match Daemon.handleApproveCmd now taskID d with
    | (Ok _, d') => (inl ("task " ++ Quote taskID ++ " approved" ++ str1 chr_lf), d')
    | (Err e, d') => (inr (Errorf ("daemon error: " ++ err_text e)), d')
    end.
Proof.
  intros Hq Hv Hm Hl. unfold runApprove. destruct handler_lookup as (_ & _ & Hp & _).
  assert (unmarshal_approvePayload (Cmd_Payload (approve_command taskID)) = inl taskID) as Hu.
  { unfold unmarshal_approvePayload, approve_command. cbn [Cmd_Payload]. rewrite <-(str_app_nil_r (json_Marshal _)).
    apply json_unmarshal_printed; [done|done|]. cbn [string_map jdoc_read map fst snd]. literals. rewrite to_valid_id by done.
    unfold dec_struct. store_member. reflexivity. }
  destruct (dispatch (registerControlHandlers now) (approve_command taskID) d) as [resp d'] eqn:Ed. cbn [fst] in Hl.
  pose proof Ed as Ed'. unfold dispatch in Ed'.
  match type of Ed' with context [match ?x with Some _ => _ | None => _ end] =>
    replace x with (Some (handleApproveCmd now)) in Ed' by (symmetry; exact Hp) end.
  unfold mbind, M_bind, mret, M_ret, handleApproveCmd in Ed'. rewrite Hu in Ed'.
  assert (raw_ok (Rsp_Data resp) ∧ valid_utf8 (Rsp_Error resp)) as [Hr He].
  { unfold Daemon.handleApproveCmd in Ed'. destruct (String.eqb taskID ""); [|destruct (Approve now taskID _) as [[] a]];
      injection Ed' as <- <-; (split; [first [by left|right; by exists (string_map "approved" taskID)]|]).
    - by apply valid_ascii. - by apply valid_ascii.
    - change (valid_utf8 ("task " ++ (Quote taskID ++ " not found in pending approvals"))). apply valid_app; [by apply valid_ascii|]. apply valid_app; [done|by apply valid_ascii]. }
  assert (raw_ok (Cmd_Payload (approve_command taskID))) as Hpay by (right; by exists (string_map "task_id" taskID)).
  rewrite (run_command_dispatch _ _ _ resp d'); [|apply send_dispatch; try done; by apply valid_ascii].
  destruct (Daemon.handleApproveCmd now taskID d) as [[]]; by injection Ed' as <- <-.
Qed.

(** C21: What the subcommands of the command line do to a running daemon, over the socket and
    in JSON both ways: each of them is a run of the daemon's own transition system; pause
    takes an idle daemon to PAUSED and its mode to paused, resume a paused one to IDLE and
    auto, and in any other state they change nothing and report the state; approve succeeds
    exactly when a pending approval of that task has not expired; revoke reports that the
    task is revoked and changes nothing at all. *)
Theorem cli_commands d cfg taskID :
  d_serving d = true → daemon_cfg d = Some cfg → d_state d ∈ lifecycle →
  (∀ s, valid_utf8 (Quote s)) → valid_utf8 taskID → str_len (Command_Marshal (approve_command taskID)) ≤ maxMessage →
  str_len (Response_Marshal (dispatch (registerControlHandlers now) (approve_command taskID) d).1) < 2 ^ 32 →
  (∀ run, run ∈ [runPause now None; runResume now None; runRevoke now None; runApprove now None taskID] →
     ∃ tr, drun d tr (run d).2) ∧
  (if String.eqb (d_state d) StateIdle
   then (runPause now None d).1 = inl ("daemon paused" ++ str1 chr_lf) ∧ d_state (runPause now None d).2 = StatePaused ∧
        mode_of <$> daemon_cfg (runPause now None d).2 = Some "paused"
   else runPause now None d = (inr (Errorf ("daemon error: can only pause from IDLE state (current: " ++ d_state d ++ ")")), d)) ∧
  (if String.eqb (d_state d) StatePaused
   then (runResume now None d).1 = inl ("daemon resumed" ++ str1 chr_lf) ∧ d_state (runResume now None d).2 = StateIdle ∧
        mode_of <$> daemon_cfg (runResume now None d).2 = Some "auto"
   else runResume now None d = (inr (Errorf ("daemon error: can only resume from PAUSED state (current: " ++ d_state d ++ ")")), d)) ∧
  ((runApprove now None taskID d).1 = inl ("task " ++ Quote taskID ++ " approved" ++ str1 chr_lf) ↔
     taskID ≠ "" ∧ (Approve now taskID (d_approval d)).1 = true) ∧
  runRevoke now None d = (inl ("current task revoked, daemon pausing" ++ str1 chr_lf), d).
Proof.
  intros Hs Hc Hl Hq Hv Hm Hlen. rewrite revoke_cli. pose proof (pause_cli d Hl) as Ep. pose proof (resume_cli d Hl) as Er.
  pose proof (approve_cli d taskID Hq Hv Hm Hlen) as Ea. split_and!; [| | | |done].
  - intros run Hin. rewrite !elem_of_cons, elem_of_nil in Hin. destruct Hin as [->|[->|[->|[->|[]]]]].
    + rewrite Ep. destruct (String.eqb_spec (d_state d) StateIdle) as [E|_]; [|exists []; constructor].
      apply (pause_run "" d (Ok (Some (string_map "state" "PAUSED")))); [|done]. unfold handlePauseCmd, transition. by rewrite E.
    + rewrite Er. destruct (String.eqb_spec (d_state d) StatePaused) as [E|_]; [|exists []; constructor].
      apply (resume_run "" d (Ok (Some (string_map "state" "IDLE")))); [|done]. unfold handleResumeCmd, transition. by rewrite E.
    + rewrite revoke_cli. exists []. constructor.
    + rewrite Ea. destruct (Daemon.handleApproveCmd now taskID d) as [[]] eqn:E; simpl;
        (eexists; eapply (drun_step _ []); [constructor|by eapply d_approve]).
  - rewrite Ep. destruct (String.eqb (d_state d) StateIdle); [|reflexivity]. split_and!; [done..|].
    apply (write_mode_cfg _ (set_state _ d) cfg Hc).
  - rewrite Er. destruct (String.eqb (d_state d) StatePaused); [|reflexivity]. split_and!; [done..|].
    apply (write_mode_cfg _ (set_state _ d) cfg Hc).
  - rewrite Ea. unfold Daemon.handleApproveCmd. destruct (String.eqb_spec taskID "") as [->|Hne]; [split; [done|by intros [? _]]|].
    destruct (Approve now taskID (d_approval d)) as [[] a]; simpl; split; try done. by intros [_ ?].
Qed.
End facts.
