(* ===== verification/Cli.v ===== *)
(** * The worker's command line: internal/cli

    Starting a command (root.go), run, preflight, status, set-key, install and uninstall, and
    daemon.New, which run calls.  DaemonControl.v has pause, resume, approve and revoke, Logs.v
    logs.  cobra, YAML, zerolog's levels and %v of a float are parameters. *)
From S2P Require Import Prelude GoStd Float64 GoPath Domain Scheduler Http CpConfig WConfig Policy Security Daemon.
From S2P Require Import GoJson JsonParse JsonDecode GoTab WScanner WProg WClient Ruleset Adapters Preflight Platform Service.
From S2P Require Import Control Messages Wire DaemonControl.
From Stdlib Require Import SpecFloat.

#[local] Open Scope string_scope.
#[local] Open Scope Z_scope.

(** How a command ends. *)
Inductive cli :=
  | CliOK (out : string)                    (* what it has printed *)
  | CliError (e : cerror)
  | CliExit (code : Z) (out err : string)   (* os.Exit *)
  | CliBlocks                               (* select {} *)
  | CliPanic.

(** main of cmd/grid-worker: standard output, standard error and exit status; [None] while
    the process is there. *)
Definition main (c : cli) : option (string * string * Z) :=
  match c with
  | CliOK out => Some (out, "", 0)
  | CliError e => Some ("", "error: " ++ ce_Text e ++ str1 chr_lf, 1)
  | CliExit code out err => Some (out, err, code)
  | CliBlocks => None
  | CliPanic => Some ("", "panic", 2)
  end.

Definition cli_of (r : fallible string) : cli := match r with inl out => CliOK out | inr e => CliError e end.

(** ** root.go *)

Record Logger := MkLogger {
  Lg_Level : Z;
  Lg_File : option string;                  (* None: standard error *)
  Lg_Console : bool;
}.

Definition zero_config : WConfig :=
  MkWConfig (MkWServerConfig "" "" "" 0 0 false 0) (MkWorkspaceConfig "" (S754_zero false) 0 false) (MkWSecurityConfig "" false "" 0)
    (MkExecutionConfig 0 (S754_zero false) 0 []) (MkPolicyConfig "" []) (MkWLoggingConfig "" "" "").

Section root.
Context `{WV : WViper} `{LL : LogLevels}.

Definition buildLogger (level format file : string) : prog Logger :=
  let lvl := default InfoLevel (ParseLevel level) in
  w ← (if negb (String.eqb file "") then
         r ← ask (OpenAppend file);
         mret (if is_ok r then Some file else None)
       else mret None);
  mret (MkLogger lvl w (String.eqb format "text")).

(** The configuration that cannot be loaded becomes the zero configuration. *)
Definition initConfig (cfgFile : string) (verbose : bool) : prog (WConfig * Logger) :=
  r ← WLoad cfgFile;
  let cfg := match r with inl cfg => cfg | inr _ => zero_config end in
  let level := if verbose then "debug" else WLog_Level (W_Logging cfg) in
  logger ← buildLogger level (WLog_Format (W_Logging cfg)) (WLog_File (W_Logging cfg));
  mret (cfg, logger).

(** PersistentPreRunE *)
Definition pre_run (name cfgFile : string) (verbose : bool) : prog (option (WConfig * Logger)) :=
  if String.eqb name "completion" || String.eqb name "help" then mret None
  else r ← initConfig cfgFile verbose; mret (Some r).
End root.

(** ** run.go and daemon.New *)

Section run.
Context `{QT : Quoting} `{YR : RulesetUnmarshal} `{RC : RegexpCompile}.
Context (embedded : string).    (* assets.DefaultRulesetYAML *)

(** buildExecutor: the adapters are [daemon_registry]; what may fail is the ruleset. *)
Definition buildExecutor (cfg : WConfig) : prog (fallible Ruleset) :=
  if negb (String.eqb (WSec_RulesetPath (W_Security cfg)) "") then
    r ← LoadRuleset (WSec_RulesetPath (W_Security cfg));
    mret match r with inl rs => inl rs | inr e => inr (wrap "load scanner ruleset" e) end
  else mret (inl (DefaultRuleset embedded)).

(** The daemon, with the ruleset of its executor. *)
Definition New (cfg : WConfig) : prog (fallible (daemon * Ruleset)) :=
  match daemon_New Quote cfg with
  | Err e => mret (fail "invalid config" e)
  | Ok d =>
      r ← EnsureDirs;
      match r with
      | inr e => mret (inr (wrap "ensure dirs" e))
      | inl _ =>
          r ← buildExecutor cfg;
          mret match r with
          | inr e => inr (wrap "build executor" e)
          | inl rs => inl (d, rs)
          end
      end
  end.

(** What the daemon puts into a heartbeat: its state and the battery. *)
Definition collectStats (readBatteryPercent : prog (option spec_float)) (d : daemon) : prog HeartbeatRequest :=
  battery ← BatteryPercent readBatteryPercent;
  mret (MkHeartbeatRequest (d_state d) (S754_zero false) 0 (S754_zero false) (default (S754_zero false) battery) 0).

Definition run_service_config : service_config := MkServiceConfig serviceName serviceDisplayName serviceDescription "" [] [] ∅.

Definition runDaemon (cfg : option WConfig) : prog cli :=
  match cfg with
  | None => mret (CliError (Errorf "configuration not loaded"))
  | Some cfg =>
      r ← New cfg;
      match r with
      | inr e => mret (CliError (wrap "create daemon" e))
      | inl _ =>
          r ← ask (ServiceCall SvcNew run_service_config);
          match r with
          | Err e => mret (CliError (Errorf ("create service: " ++ err_text e)))
          | Ok _ =>
              interactive ← ask Interactive;
              if interactive : bool then mret CliBlocks      (* d.Start, which does not fail, then select {} *)
              else
                r ← ask (ServiceCall SvcRun run_service_config);
                mret match r with
                | Err e => CliExit 1 "" ("service run error: " ++ err_text e ++ str1 chr_lf)
                | Ok _ => CliOK ""
                end
          end
      end
  end.
End run.

(** ** daemon/signals.go *)

Inductive os_signal := SIGTERM | SIGINT | SIGHUP.

(** A signal with what config.Load returns if it is asked; whether the goroutine goes on. *)
Definition handle_signal (sig : os_signal) (load : fallible WConfig) (d : daemon) : daemon * bool :=
  match sig with
  | SIGTERM | SIGINT => (set_done d, false)
  | SIGHUP => (match load with inl cfg => onConfigReload cfg d | inr _ => d end, true)
  end.

(** The goroutine of HandleSignals, until the context is cancelled. *)
Fixpoint HandleSignals (sigs : list (os_signal * fallible WConfig)) (d : daemon) : daemon :=
  match sigs with
  | [] => d
  | (sig, load) :: sigs =>
      if d_done d then d
      else let '(d', goes_on) := handle_signal sig load d in if goes_on then HandleSignals sigs d' else d'
  end.

(** ** install.go, uninstall.go *)

Section install.
Variable GOOS : string.

Definition runInstall : prog cli :=
  exe ← ask Executable;
  match exe with
  | Err e => mret (CliError (Errorf ("determine executable path: " ++ err_text e)))
  | Ok execPath =>
      r ← Install GOOS execPath;
      mret match r with
      | inr e => CliError (wrap "install service" e)
      | inl _ => CliOK ("grid-worker installed as system service" ++ str1 chr_lf ++
                        "Start it with: grid-worker-ctl start  (or: systemctl start grid-worker)" ++ str1 chr_lf)
      end
  end.

Definition runUninstall : prog cli :=
  r ← Uninstall GOOS;
  mret match r with
  | inr e => CliError (wrap "uninstall service" e)
  | inl _ => CliOK ("grid-worker system service removed" ++ str1 chr_lf)
  end.
End install.

(** ** set-key.go *)

(** yaml.v3 on map[string]any.  Unmarshal leaves what it has read when it fails, and the nil
    map for a document that is null. *)
Class YAML := {
  yaml_Unmarshal : string → option (gmap string json);
  yaml_Marshal : gmap string json → result string;
}.

(** existing["server"].(map[string]any) *)
Definition section_of (v : option json) : gmap string json :=
  match v with Some (JObj l) => list_to_map l | _ => ∅ end.

Definition with_key (apiKey : string) (existing : gmap string json) : gmap string json :=
  <["server" := map_value (Some (<["api_key" := JStr apiKey]> (section_of (existing !! "server"))))]> existing.

Section set_key.
Context `{YM : YAML}.

Definition read_existing (data : result string) : option (gmap string json) :=
  match data with
  | Ok text => yaml_Unmarshal text
  | Err _ => Some ∅
  end.

Definition runSetKey (cfgFile apiKey : string) : prog cli :=
  if String.eqb apiKey "" then mret (CliError (Errorf "api-key cannot be empty"))
  else
    configDir ← ConfigDir;
    r ← ask (MkdirAll configDir);
    match r with
    | Err e => mret (CliError (Errorf ("create config directory: " ++ err_text e)))
    | Ok _ =>
        let configPath := if String.eqb cfgFile "" then path_Join [configDir; "config.yaml"] else cfgFile in
        data ← ask (ReadFile configPath);
        match read_existing data with
        | None => mret CliPanic               (* an assignment into the nil map *)
        | Some existing =>
            match yaml_Marshal (with_key apiKey existing) with
            | Err e => mret (CliError (Errorf ("marshal config: " ++ err_text e)))
            | Ok text =>
                r ← ask (WriteFile configPath text);
                mret match r with
                | Err e => CliError (Errorf ("write config: " ++ err_text e))
                | Ok _ => CliOK ("API key saved to " ++ configPath ++ str1 chr_lf)
                end
            end
        end
    end.
End set_key.

(** ** preflight.go *)

(** json.Encoder with SetIndent("", "  "). *)
Fixpoint blanks (n : nat) : string := match n with O => "" | S n => "  " ++ blanks n end.
Definition newline_at (depth : nat) : string := str1 chr_lf ++ blanks depth.

Fixpoint json_indent (depth : nat) (v : jdoc) : string :=
  match v with
  | DArr (_ :: _ as l) =>
      "[" ++ newline_at (S depth) ++ Join (map (json_indent (S depth)) l) ("," ++ newline_at (S depth)) ++ newline_at depth ++ "]"
  | DObj (_ :: _ as l) =>
      "{" ++ newline_at (S depth) ++
      Join (map (λ kv, json_string (fst kv) ++ ": " ++ json_indent (S depth) (snd kv)) l) ("," ++ newline_at (S depth)) ++
      newline_at depth ++ "}"
  | _ => json_Marshal v
  end.

Definition result_doc (r : CheckResult) : jdoc :=
  DObj [("ID", DStr (CR_ID r)); ("Name", DStr (CR_Name r)); ("Status", DStr (CR_Status r)); ("Message", DStr (CR_Message r))].

Definition status_icon (status : string) : string :=
  if String.eqb status "fail" then "✗" else if String.eqb status "warn" then "!" else "✓".

Definition check_row (r : CheckResult) : list string :=
  [CR_ID r; CR_Name r; status_icon (CR_Status r) ++ " " ++ CR_Status r; CR_Message r].

Definition preflight_header : list (list string) := [["ID"; "NAME"; "STATUS"; "MESSAGE"]; ["--"; "----"; "------"; "-------"]].

Definition failures_text : string :=
  str1 chr_lf ++ "Pre-flight checks FAILED. Please fix the issues above before starting the daemon." ++ str1 chr_lf.

(** After RunAll. *)
Definition show_results (jsonOutput : bool) (results : list CheckResult) : cli :=
  if jsonOutput then CliOK (json_indent 0 (DArr (map result_doc results)) ++ str1 chr_lf)
  else
    let out := tab_format (table_text (preflight_header ++ map check_row results)) in
    if existsb (λ r, String.eqb (CR_Status r) "fail") results then CliExit 1 out failures_text else CliOK out.

Section preflight.
Context `{QT : Quoting} `{UP : URLParse} `{FF : FloatFmt} `{IT : InstantText} `{HD : HTTPDate}.
Context `{YR : RulesetUnmarshal} `{RC : RegexpCompile}.
Context (embedded : string).

Definition runPreflight (cfg : option WConfig) (jsonOutput : bool) : prog cli :=
  match cfg with
  | None => mret (CliError (Errorf "configuration not loaded"))
  | Some cfg =>
      r ← RunAll embedded cfg;
      mret (show_results jsonOutput (fst r))
  end.
End preflight.

(** ** status.go *)

(** %v of what json.Unmarshal leaves in an any; [fmt_g] prints a float. *)
Class FmtG := fmt_g : spec_float → string.

Fixpoint fmt_v `{FmtG} (v : json) : string :=
  match v with
  | JNull => "<nil>"
  | JBool b => if b then "true" else "false"
  | JNum f => fmt_g f
  | JStr s => s
  | JArr l => "[" ++ Join (map fmt_v l) " " ++ "]"
  | JObj l => "map[" ++ Join (map (λ kv, fst kv ++ ":" ++ fmt_v (snd kv)) l) " " ++ "]"
  end.

(** range over a map[string]any, in an order of its own each time. *)
Class AnyRange := any_range : gmap string json → list (string * json).
Class AnyRangeLaws `{AnyRange} := any_range_perm : ∀ m, any_range m ≡ₚ map_to_list m.

Section status.
Context `{TZ : TimeZones} `{QT : Quoting} `{JE : JSONErrorText} `{PF : ParseFloat64} `{FG : FmtG} `{AR : AnyRange}.

Definition status_header : list (list string) := [["FIELD"; "VALUE"]; ["-----"; "-----"]].

Definition show_status (jsonOutput : bool) (data : string) : string :=
  if jsonOutput then data ++ str1 chr_lf
  else
    match unmarshal_map data with
    | inr _ => data ++ str1 chr_lf
    | inl m => tab_format (table_text (status_header ++ map (λ kv, [fst kv; fmt_v (snd kv)]) (any_range (default ∅ m))))
    end.

Definition runStatus (now : Z) (unreachable : option string) (jsonOutput : bool) : M daemon cli :=
  r ← run_command now unreachable (MkCommand "status" "") (λ resp, show_status jsonOutput (Rsp_Data resp));
  mret (cli_of r).
End status.

(** ** Facts *)

Lemma section_of_map m : section_of (Some (map_value (Some m))) = m.
Proof.
  unfold section_of, map_value. assert (sort_keys (map_to_list m) ≡ₚ map_to_list m) as Hp by apply merge_sort_Permutation.
  assert (NoDup (sort_keys (map_to_list m)).*1) as Hn by (rewrite Hp; apply NoDup_fst_map_to_list).
  rewrite (list_to_map_proper _ _ Hn Hp). apply list_to_map_to_list.
Qed.

Lemma with_key_ok apiKey existing :
  section_of (with_key apiKey existing !! "server") = <["api_key" := JStr apiKey]> (section_of (existing !! "server")) ∧
  (∀ k, k ≠ "server" → with_key apiKey existing !! k = existing !! k).
Proof.
  unfold with_key. split; [by rewrite lookup_insert_eq, section_of_map|]. intros k Hk. by rewrite lookup_insert_ne.
Qed.

Section facts.
Context `{QT : Quoting} `{UP : URLParse} `{FF : FloatFmt} `{IT : InstantText} `{HD : HTTPDate}.
Context `{YR : RulesetUnmarshal} `{RC : RegexpCompile} `{YM : YAML}.
Context (embedded : string).

(** When set-key reports success the file holds, as YAML reads it back, the key under
    server.api_key and everything else as it was read before; a file that cannot be read
    counts as empty. *)
Lemma set_key_saves cfgFile apiKey :
  (∀ m text, yaml_Marshal m = Ok text → yaml_Unmarshal text = Some m) →
  adds (λ c es, ∀ out, c = CliOK out → ∃ path data existing text m,
    Event (ReadFile path) data ∈ es ∧ Event (WriteFile path text) (Ok tt) ∈ es ∧ (cfgFile ≠ "" → path = cfgFile) ∧
    read_existing data = Some existing ∧ yaml_Unmarshal text = Some m ∧
    section_of (m !! "server") = <["api_key" := JStr apiKey]> (section_of (existing !! "server")) ∧
    (∀ k, k ≠ "server" → m !! k = existing !! k)) (runSetKey cfgFile apiKey).
Proof.
  intros HY. unfold runSetKey. destruct (String.eqb apiKey ""); [by apply adds_ret|].
  eapply (adds_bind (λ _ _, True)).
  { unfold ConfigDir. apply adds_ask. intros [home|e]; [by apply adds_ret|]. apply adds_ask. intros home. by apply adds_ret. }
  intros configDir new _. apply adds_ask. intros [[]|e]; [|by apply adds_ret].
  set (path := if String.eqb cfgFile "" then path_Join [configDir; "config.yaml"] else cfgFile).
  apply adds_ask. intros data. destruct (read_existing data) as [existing|] eqn:Er; [|by apply adds_ret].
  destruct (yaml_Marshal (with_key apiKey existing)) as [text|e] eqn:Em; [|by apply adds_ret].
  apply adds_ask. intros [[]|e]; apply adds_ret; [|done]. intros out _.
  exists path, data, existing, text, (with_key apiKey existing). destruct (with_key_ok apiKey existing).
  split_and!; try done; [set_solver|set_solver| |by apply HY].
  intros Hf. unfold path. by destruct (String.eqb_spec cfgFile "").
Qed.

Definition local_call X (c : call X) : Prop := match c with HttpDo _ | Interactive => False | _ => True end.

Lemma ConfigDir_local {B} (f : string → prog B) : (∀ dir, calls_in local_call (f dir)) → calls_in local_call (ConfigDir ≫= f).
Proof.
  intros Hf. apply calls_in_bind; [|done]. unfold ConfigDir. apply calls_in_ask; [done|]. intros [home|e]; [done|].
  by apply calls_in_ask.
Qed.

Lemma New_local cfg : calls_in local_call (New embedded cfg).
Proof.
  unfold New. destruct (daemon_New Quote cfg) as [d|e]; [|done]. apply calls_in_bind.
  - unfold EnsureDirs, WorkspaceDir, LogDir. apply ConfigDir_local. intros d1. apply calls_in_bind; [by apply ConfigDir_local|].
    intros d2. apply calls_in_bind; [by apply ConfigDir_local|]. intros d3.
    induction [d1; d2; d3] as [|dir dirs IH]; [done|]. apply calls_in_ask; [done|]. by intros [|].
  - intros [_|e]; [|done]. apply calls_in_bind; [|by intros []]. unfold buildExecutor, LoadRuleset. by destruct (negb _).
Qed.

Lemma calls_in_adds {A} (P : ∀ X, call X → Prop) (p : prog A) : calls_in P p → adds (λ _ es, Forall (event_in P) es) p.
Proof.
  induction p as [a|X c k IH]; [by intros _; apply adds_ret|]. intros [Hc Hk]. apply (adds_ask _ c k). intros x.
  eapply adds_mono; [|by apply IH]. intros a new Hn. by constructor.
Qed.

Definition http_event (e : event) : bool := match e with Event (HttpDo _) _ => true | _ => false end.
Definition interactive_event (e : event) : bool :=
  match e with Event c x => match c in call X return X → bool with Interactive => λ b, b | _ => λ _, false end x end.

Lemma local_events es :
  Forall (event_in local_call) es → existsb http_event es = false ∧ existsb interactive_event es = false.
Proof. induction 1 as [|[X c x] es Hc _ [IH1 IH2]]; [done|]. simpl. rewrite IH1, IH2. by destruct c. Qed.

(** Starting the worker asks nothing of the control plane before the daemon runs, and in the
    foreground the command never ends by itself. *)
Lemma runDaemon_outcomes cfg :
  adds (λ c es, existsb http_event es = false ∧ (existsb interactive_event es = true ↔ c = CliBlocks)) (runDaemon embedded cfg).
Proof.
  unfold runDaemon. destruct cfg as [cfg|]; [|by apply adds_ret].
  eapply adds_bind; [apply calls_in_adds, New_local|]. intros r es [H1 H2]%local_events.
  assert (∀ c l, existsb http_event l = false → (existsb interactive_event l = true ↔ c = CliBlocks) →
    existsb http_event (es ++ l)%list = false ∧ (existsb interactive_event (es ++ l)%list = true ↔ c = CliBlocks)) as Happ.
  { intros c l Hl Hi. by rewrite !existsb_app, H1, H2. }
  destruct r as [[d rs]|e]; [|by apply adds_ret, Happ].
  apply adds_ask. intros [u|e]; [|by apply adds_ret, Happ]. apply adds_ask. intros [|]; [by apply adds_ret, Happ|].
  apply adds_ask. intros [u'|e]; by apply adds_ret, Happ.
Qed.

(** What the preflight command shows: one line per check under a header, in aligned
    columns, when no cell holds a tab or a line feed; and its exit status is 1 exactly when a
    check has failed.  With --json it prints the results as JSON and exits with 0,
    also when a check has failed. *)
Lemma preflight_report o h cfg :
  let results := (run o h (RunAll embedded cfg)).1.1 in
  let table := aligned (preflight_header ++ map check_row results) in
  Forall (λ r, Forall (λ s, clean_cell s = true) (check_row r)) results →
  main (run o h (runPreflight embedded (Some cfg) false)).1 =
    Some (if HasFailures results then (table, failures_text, 1) else (table, "", 0)) ∧
  main (run o h (runPreflight embedded (Some cfg) true)).1 =
    Some (json_indent 0 (DArr (map result_doc results)) ++ str1 chr_lf, "", 0).
Proof.
  intros results table Hc.
  assert (tab_format (table_text (preflight_header ++ map check_row results)) = table) as Ht.
  { apply (tab_table 3). apply Forall_app. split; [repeat constructor|]. apply Forall_map.
    eapply Forall_impl; [exact Hc|]. intros r Hr. by split. }
  unfold runPreflight. rewrite !run_bind_eq. cbn [fst run mret prog_ret]. fold results.
  unfold show_results. rewrite Ht. unfold HasFailures. split; [|done]. by destruct (existsb _ results).
Qed.
End facts.

Section status_facts.
Context `{TZ : TimeZones} `{QT : Quoting} `{JE : JSONErrorText} `{PF : ParseFloat64} `{FG : FmtG} `{AR : AnyRange} `{AL : !AnyRangeLaws}.

Definition status_doc (d : daemon) (cfg : WConfig) : jdoc :=
  DObj [("state", DStr (d_state d)); ("policy_mode", DStr (mode_of cfg)); ("worker_id", DStr (WSrv_WorkerID (W_Server cfg)))].

(** The status table has one row per field, in an order that the map chooses. *)
Lemma status_table d cfg :
  valid_utf8 (d_state d) → valid_utf8 (mode_of cfg) → valid_utf8 (WSrv_WorkerID (W_Server cfg)) →
  ∃ rows, rows ≡ₚ [["state"; d_state d]; ["policy_mode"; mode_of cfg]; ["worker_id"; WSrv_WorkerID (W_Server cfg)]] ∧
    show_status false (json_Marshal (status_doc d cfg)) = tab_format (table_text (status_header ++ rows)).
Proof.
  intros H1 H2 H3. unfold show_status, status_doc. rewrite unmarshal_map_object by (repeat constructor).
  eexists. split; [|reflexivity]. cbn [default from_option]. rewrite any_range_perm.
  unfold object_value. cbn [foldl fst snd jdoc_read any_value]. rewrite !to_valid_id by (done || by apply valid_ascii).
  unfold Datatypes.id. rewrite (map_to_list_insert _ "worker_id") by done. rewrite (map_to_list_insert _ "policy_mode") by done.
  rewrite (map_to_list_insert _ "state") by done. rewrite map_to_list_empty. cbn [map fst snd fmt_v].
  etransitivity; [apply Permutation_rev|done].
Qed.

(** The status command reports what the daemon holds and changes nothing. *)
Lemma status_cli now d cfg jsonOutput :
  daemon_cfg d = Some cfg →
  valid_utf8 (d_state d) → valid_utf8 (mode_of cfg) → valid_utf8 (WSrv_WorkerID (W_Server cfg)) →
  str_len (Response_Marshal (MkResp true (json_Marshal (status_doc d cfg)) "")) < 2 ^ 32 →
  runStatus now None jsonOutput d = (CliOK (show_status jsonOutput (json_Marshal (status_doc d cfg))), d).
Proof.
  intros Hc H1 H2 H3 Hl. unfold runStatus, mbind, M_bind.
  rewrite (simple_cli now "status" handleStatusCmd d (Ok (Some (status_doc d cfg))) d); try done.
  - unfold handleStatusCmd. by rewrite Hc.
  - right. exists (status_doc d cfg). split; [|done]. apply jdoc_ok_obj. repeat constructor.
  - by apply valid_ascii.
Qed.
End status_facts.

Section signal_facts.
Context `{TZ : TimeZones} `{QT : Quoting}.

(** The goroutine is a run of the daemon, in which at most one signal to stop is handled. *)
Lemma HandleSignals_run sigs d : ∃ tr, drun d tr (HandleSignals sigs d).
Proof.
  assert (∀ d0 tr, drun d0 tr d → ∃ tr', drun d0 tr' (HandleSignals sigs d)) as H; [|by apply (H d []); constructor].
  revert d. induction sigs as [|[sig load] sigs IH]; intros d d0 tr Hr; [by exists tr|]. cbn [HandleSignals].
  destruct (d_done d); [by exists tr|].
  destruct sig; cbn [handle_signal]; try (eexists; eapply drun_step; [exact Hr|apply d_signal]).
  destruct load as [cfg|e]; [|by eapply IH]. eapply IH, drun_step; [exact Hr|apply d_reload].
Qed.

(** It cancels the context when the first signal to stop arrives, whatever comes with it. *)
Lemma HandleSignals_stops loads sig load rest d :
  sig ≠ SIGHUP → d_done (HandleSignals (map (pair SIGHUP) loads ++ (sig, load) :: rest)%list d) = true.
Proof.
  intros Hs. revert d. induction loads as [|l loads IH]; intros d; cbn [map app HandleSignals]; (destruct (d_done d) eqn:E; [done|]).
  - by destruct sig.
  - cbn [handle_signal]. apply IH.
Qed.
End signal_facts.
