(* ===== verification/Commands.v ===== *)
(** * The commands of grid-worker: the constructors of internal/cli, and config.Watch

    [NewRootCmd] is the tree of commands as data: their names, texts, flags, checks of the
    arguments, and what they run.  cobra, which finds the command of an argument list, is a
    class; its laws are what its documentation says. *)
From S2P Require Import Prelude GoStd Float64 Domain Scheduler Http CpConfig WConfig Policy Security Daemon GoJson WProg WClient.
From S2P Require Import Platform Cli.
From Stdlib Require Import Ascii.

#[local] Set Warnings "-register-all".

#[local] Open Scope string_scope.
#[local] Open Scope Z_scope.

Inductive flag_value :=
  | FBool (b : bool)
  | FInt (z : Z)
  | FString (s : string).

Record flag := MkFlag {
  fl_Name : string;
  fl_Shorthand : string;
  fl_Default : flag_value;
  fl_Usage : string;
}.

Inductive args_check := AnyArgs | ExactArgs (n : nat).

(** What a command runs, with the values of its variables. *)
Inductive action :=
  | ARun
  | AStatus (jsonOutput : bool)
  | APause
  | AResume
  | AApprove (taskID : string)
  | ARevoke
  | ALogs (follow : bool) (lines : Z)
  | APreflight (jsonOutput : bool)
  | ASetKey (apiKey : string)
  | AInstall
  | AUninstall.

(** The variables that the flags are bound to. *)
Definition flag_values : Type := string → flag_value.
Definition bool_var (v : flag_values) (name : string) : bool := match v name with FBool b => b | _ => false end.
Definition int_var (v : flag_values) (name : string) : Z := match v name with FInt z => z | _ => 0 end.
Definition string_var (v : flag_values) (name : string) : string := match v name with FString s => s | _ => "" end.

(** [None] of RunE: an index out of range. *)
Record command := MkCommandSpec {
  cmd_Use : string;
  cmd_Short : string;
  cmd_Long : string;
  cmd_Args : args_check;
  cmd_Flags : list flag;
  cmd_RunE : flag_values → list string → option action;
}.

Definition json_flag : flag := MkFlag "json" "" (FBool false) "output as JSON".

Definition NewRunCmd : command :=
  MkCommandSpec "run" "Run the grid-worker daemon in the foreground"
    "Start the grid-worker daemon directly (not as a system service). Used by the service manager."
    AnyArgs [] (λ _ _, Some ARun).

Definition NewStatusCmd : command :=
  MkCommandSpec "status" "Show daemon status"
    "Connect to the running daemon via the control socket and print FSM state, current task, and stats."
    AnyArgs [json_flag] (λ v _, Some (AStatus (bool_var v "json"))).

Definition NewPauseCmd : command :=
  MkCommandSpec "pause" "Pause the daemon (stop accepting new tasks)"
    "Sends a pause command to the running daemon via the control socket." AnyArgs [] (λ _ _, Some APause).

Definition NewResumeCmd : command :=
  MkCommandSpec "resume" "Resume the daemon from paused state"
    "Sends a resume command to the running daemon via the control socket." AnyArgs [] (λ _ _, Some AResume).

Definition NewApproveCmd : command :=
  MkCommandSpec "approve <task-id>" "Approve a pending manual task"
    "Approves a task that is waiting for manual approval (policy.mode = manual)."
    (ExactArgs 1) [] (λ _ args, AApprove <$> args !! 0%nat).

Definition NewRevokeCmd : command :=
  MkCommandSpec "revoke" "Immediately stop the current task and pause"
    "Sends a revoke command to the running daemon, which stops the current task and transitions to paused state."
    AnyArgs [] (λ _ _, Some ARevoke).

Definition NewLogsCmd : command :=
  MkCommandSpec "logs" "Show daemon log output" "Display or follow the grid-worker daemon log file." AnyArgs
    [MkFlag "follow" "f" (FBool false) "follow log output (like tail -f)";
     MkFlag "lines" "n" (FInt 50) "number of lines to show from the end"]
    (λ v _, Some (ALogs (bool_var v "follow") (int_var v "lines"))).

Definition NewPreflightCmd : command :=
  MkCommandSpec "preflight" "Run pre-flight checks"
    "Execute all pre-flight checks and display results. Useful for diagnosing setup issues."
    AnyArgs [json_flag] (λ v _, Some (APreflight (bool_var v "json"))).

Definition NewSetKeyCmd : command :=
  MkCommandSpec "set-key <api-key>" "Save an API key to the configuration file"
    "Writes the given API key into the grid-worker config file (creates it if it doesn't exist)."
    (ExactArgs 1) [] (λ _ args, ASetKey <$> args !! 0%nat).

Definition NewInstallCmd : command :=
  MkCommandSpec "install" "Install grid-worker as a system service"
    "Installs the grid-worker daemon as a system service (systemd, launchd, or Windows Service)."
    AnyArgs [] (λ _ _, Some AInstall).

Definition NewUninstallCmd : command :=
  MkCommandSpec "uninstall" "Remove the grid-worker system service"
    "Removes the grid-worker daemon system service (systemd, launchd, or Windows Service)."
    AnyArgs [] (λ _ _, Some AUninstall).

(** ** root.go *)

Record root_command := MkRoot {
  root_Use : string;
  root_Short : string;
  root_Long : string;
  root_Version : string;
  root_SilenceUsage : bool;
  root_SilenceErrors : bool;
  root_PersistentFlags : list flag;
  root_Commands : list command;
}.

Definition NewRootCmd (version commit date : string) : root_command :=
  MkRoot "grid-worker" "Grid Worker — distributed AI coding agent daemon"
    "grid-worker is a client daemon that executes AI coding tasks
dispatched by a grid control plane. It manages workspaces, runs
AI agents (Claude, Copilot, Gemini, ChatGPT), scans for secrets,
and reports results back to the control plane."
    (version ++ " (commit: " ++ commit ++ ", built: " ++ date ++ ")") true true
    [MkFlag "config" "" (FString "") "config file (default: ~/.grid-worker/config.yaml)";
     MkFlag "verbose" "v" (FBool false) "enable verbose (debug) logging"]
    [NewRunCmd; NewStatusCmd; NewPauseCmd; NewResumeCmd; NewApproveCmd; NewRevokeCmd; NewLogsCmd; NewPreflightCmd;
     NewSetKeyCmd; NewInstallCmd; NewUninstallCmd].

(** ** cobra *)

(** The name of a command is the first word of its Use line. *)
Definition command_name (c : command) : string := default (cmd_Use c) (fst <$> Cut (cmd_Use c) " ").

Definition args_ok (c : args_check) (args : list string) : Prop :=
  match c with AnyArgs => True | ExactArgs n => length args = n end.

Inductive cobra_result :=
  | CobraError (text : string)              (* an unknown command or flag, or wrong arguments *)
  | CobraDone (out : string)                (* --help, --version, or no command *)
  | CobraBuiltin (name out : string) (v : flag_values)        (* a command of cobra's own that has this name *)
  | CobraRun (c : command) (v : flag_values) (args : list string).

Class Cobra := cobra_Execute : root_command → list string → cobra_result.

(** The value of every flag that is not given. *)
Definition flag_default (fs : list flag) : flag_values := λ name,
  match List.find (λ f, String.eqb (fl_Name f) name) fs with Some f => fl_Default f | None => FBool false end.

Definition no_dash (s : string) : Prop := match s with String c _ => c ≠ "-"%char | EmptyString => False end.

Class CobraLaws `{Cobra} := {
  cobra_run root argv c v args :
    cobra_Execute root argv = CobraRun c v args → c ∈ root_Commands root ∧ args_ok (cmd_Args c) args;
  cobra_plain root c args :
    NoDup (map command_name (root_Commands root)) → c ∈ root_Commands root → Forall no_dash args → args_ok (cmd_Args c) args →
    cobra_Execute root (command_name c :: args) =
      CobraRun c (flag_default (cmd_Flags c ++ root_PersistentFlags root)) args;
}.

(** How a command starts. *)
Inductive started :=
  | StartError (text : string)
  | StartDone (out : string)
  | StartPanic
  | StartAction (cfg : option (WConfig * Logger)) (a : action).

Section execute.
Context `{CB : Cobra} `{WV : WViper} `{LL : LogLevels}.

(** root.Execute(): the persistent pre-run comes before every command that is run. *)
Definition root_Execute (root : root_command) (argv : list string) : prog started :=
  match cobra_Execute root argv with
  | CobraError text => mret (StartError text)
  | CobraDone out => mret (StartDone out)
  | CobraBuiltin name out v =>
      _ ← pre_run name (string_var v "config") (bool_var v "verbose"); mret (StartDone out)
  | CobraRun c v args =>
      cfg ← pre_run (command_name c) (string_var v "config") (bool_var v "verbose");
      mret match cmd_RunE c v args with
      | None => StartPanic
      | Some a => StartAction cfg a
      end
  end.

(** ** config.Watch *)

(** The file watched, as viper finds it, or the error: the directory of the configuration
    only, whatever --config says, and not the working directory. *)
Definition Watch : prog (fallible config_source) :=
  dir ← ConfigDir;
  workspaceDir ← WorkspaceDir;
  mret match viper_ReadInConfig (setDefaults workspaceDir) (ConfigSearch [dir]) with
  | Some e => inr (Errorf ("reading config for watcher: " ++ e))
  | None => inl (ConfigSearch [dir])
  end.

(** One change of the file, with what Unmarshal makes of it: what onChange is called with. *)
Definition on_config_change (r : WConfig + string) : option WConfig :=
  match r with
  | inr _ => None
  | inl newCfg => Some newCfg
  end.
End execute.

(** ** Facts *)

Section facts.
Context `{CB : Cobra} `{CL : !CobraLaws} `{WV : WViper} `{LL : LogLevels}.

Lemma root_names_distinct version commit date :
  NoDup (map command_name (root_Commands (NewRootCmd version commit date))).
Proof. by apply (bool_decide_unpack _). Qed.

(** No argument list makes a command index its arguments out of range: approve and set-key
    run only with the one argument that they use. *)
Lemma RunE_total version commit date argv c v args :
  cobra_Execute (NewRootCmd version commit date) argv = CobraRun c v args → is_Some (cmd_RunE c v args).
Proof.
  intros H. apply cobra_run in H as [Hc Ha]. simpl in Hc. rewrite !elem_of_cons, elem_of_nil in Hc.
  destruct_or! Hc; subst c; try done; by destruct args as [|a [|]].
Qed.

Lemma root_Execute_starts version commit date argv o h :
  (run o h (root_Execute (NewRootCmd version commit date) argv)).1 ≠ StartPanic.
Proof.
  unfold root_Execute. destruct (cobra_Execute _ argv) as [t|out|n out v|c v args] eqn:E; [done|done|..].
  - rewrite run_bind. by destruct (run o h (pre_run n _ _)).
  - apply RunE_total in E as [a Ha]. rewrite run_bind, Ha. by destruct (run o h (pre_run _ _ _)).
Qed.

(** A command without flags starts with the configuration of the default places, and its
    flags have their defaults: logs shows 50 lines and does not follow, the others print
    no JSON. *)
Lemma root_plain version commit date c args o h :
  let root := NewRootCmd version commit date in
  c ∈ root_Commands root → Forall no_dash args → args_ok (cmd_Args c) args →
  ∃ cfg a, (run o h (root_Execute root (command_name c :: args))).1 = StartAction (Some cfg) a ∧
    (run o h (initConfig "" false)).1 = cfg ∧
    (c = NewLogsCmd → a = ALogs false 50) ∧ (c = NewStatusCmd → a = AStatus false) ∧
    (c = NewPreflightCmd → a = APreflight false) ∧ (c = NewApproveCmd → AApprove <$> head args = Some a) ∧
    (c = NewSetKeyCmd → ASetKey <$> head args = Some a).
Proof.
  intros root Hc Hd Ha. unfold root_Execute. rewrite cobra_plain by (done || apply root_names_distinct).
  set (v := flag_default _).
  assert (string_var v "config" = "" ∧ bool_var v "verbose" = false ∧ command_name c ≠ "completion" ∧ command_name c ≠ "help" ∧
    ∃ a, cmd_RunE c v args = Some a ∧ (c = NewLogsCmd → a = ALogs false 50) ∧ (c = NewStatusCmd → a = AStatus false) ∧
      (c = NewPreflightCmd → a = APreflight false) ∧ (c = NewApproveCmd → AApprove <$> head args = Some a) ∧
      (c = NewSetKeyCmd → ASetKey <$> head args = Some a)) as (Hv1 & Hv2 & Hn1 & Hn2 & a & Hr & Hrest).
  { subst v. simpl in Hc. rewrite !elem_of_cons, elem_of_nil in Hc.
    destruct_or! Hc; subst c; (split_and!; [reflexivity|reflexivity|discriminate|discriminate|]);
      try (eexists; split; [reflexivity|split_and!; done]);
      (destruct args as [|x [|]]; [done| |done]; eexists; split; [reflexivity|split_and!; done]). }
  exists (run o h (initConfig "" false)).1, a. split; [|done].
  rewrite run_bind, Hv1, Hv2, Hr. unfold pre_run.
  rewrite (proj2 (String.eqb_neq _ _) Hn1), (proj2 (String.eqb_neq _ _) Hn2). cbn [orb]. rewrite run_bind.
  by destruct (run o h (initConfig "" false)).
Qed.
End facts.

(** The laws hold of a reader of argument lists without flags. *)
#[export] Instance plain_Cobra : Cobra := λ root argv,
  match argv with
  | [] => CobraDone (root_Short root)
  | name :: args =>
      match List.find (λ c, String.eqb (command_name c) name) (root_Commands root) with
      | None => CobraError ("unknown command " ++ name)
      | Some c =>
          if forallb (λ s, match s with String d _ => negb (Ascii.eqb d "-"%char) | EmptyString => false end) args &&
             match cmd_Args c with AnyArgs => true | ExactArgs n => (length args =? n)%nat end
          then CobraRun c (flag_default (cmd_Flags c ++ root_PersistentFlags root)) args
          else CobraError "arguments"
      end
  end.

#[export] Instance plain_CobraLaws : CobraLaws.
Proof.
  split.
  - intros root argv c v args. unfold cobra_Execute, plain_Cobra. destruct argv as [|n l]; [done|].
    destruct (List.find _ _) as [c'|] eqn:E; [|done]. destruct (_ && _) eqn:Ha; [|done]. intros [= <- <- <-].
    apply List.find_some in E as [Hin _]. split; [by apply list_elem_of_In|].
    apply andb_true_iff in Ha as [_ Ha]. destruct (cmd_Args c'); [done|]. by apply Nat.eqb_eq.
  - intros root c args Hn Hc Hd Ha. unfold cobra_Execute, plain_Cobra.
    assert (List.find (λ c', String.eqb (command_name c') (command_name c)) (root_Commands root) = Some c) as ->.
    { destruct (List.find _ _) as [c'|] eqn:E.
      - apply List.find_some in E as [Hin Hq%String.eqb_eq]. f_equal. apply list_elem_of_In in Hin.
        by apply (NoDup_map_inj command_name (root_Commands root)).
      - apply list_elem_of_In in Hc. apply (List.find_none _ _ E) in Hc. by rewrite String.eqb_refl in Hc. }
    assert (forallb (λ s, match s with String d _ => negb (Ascii.eqb d "-"%char) | EmptyString => false end) args = true) as ->.
    { clear Ha. induction Hd as [|s args Hs _ IH]; [done|]. cbn [forallb]. rewrite IH, andb_true_r.
      destruct s as [|d s]; [done|]. simpl in Hs. by destruct (Ascii.eqb_spec d "-"%char). }
    destruct (cmd_Args c) as [|n]; [done|]. simpl in Ha. by rewrite Ha, Nat.eqb_refl.
Qed.
