(* ===== verification/Grid.v ===== *)
(** * The whole system: a worker against the control plane

    The calls of a worker's program are answered by the control plane of Router.v: the
    n-th request is served in the world that the requests before it left.  Everything else
    (the disk, git, the agent, the clock) is answered by any oracle.  The path matching of
    go-chi is fixed at the three routes that a task uses.  The network loses nothing and
    nobody else is served in between.  The way of a task begins with a pass of the scheduler
    and the heartbeat that brings it; nine requests of the execution follow at most. *)
From S2P Require Import Prelude Sql GoStd Domain World RedisStore PgStore Brownie Security Http Middleware MiddlewareFacts.
From S2P Require Import TaskHandler WorkerHandler KeyHandler OutputHandler AdminHandlers Router.
From S2P Require Import GoJson JsonParse JsonDecode WConfig Policy WScanner WProg WClient Reporter Workspace Adapters.
From S2P Require Import Executor ExecutorFacts Messages Wire Scheduler SchedulerFacts.
From Stdlib Require Import Ascii.

#[local] Open Scope string_scope.
#[local] Open Scope Z_scope.

(** ** Computations that schedule no failure and touch neither rates nor the clock *)

Section steady.
Context {R : Type} `{RD : Redis R} `{RL : !RedisLaws R} `{UT : UUIDText}.
Variable org : uuid.

Definition steady {A} (m : M (world R) A) : Prop := ∀ w, w_faults w = [] →
  w_faults (m w).2 = [] ∧ rate_count (m w).2 org = rate_count w org ∧ w_now (m w).2 = w_now w.

Lemma steady_ret {A} (a : A) : steady (mret a).
Proof. done. Qed.

Lemma steady_bind {A B} (m : M (world R) A) (f : A → M (world R) B) : steady m → (∀ a, steady (f a)) → steady (m ≫= f).
Proof.
  intros Hm Hf w Hw. unfold mbind, M_bind. destruct (Hm w Hw) as (H1 & H2 & H3). destruct (m w) as [a w1]. simpl in *.
  destruct (Hf a w1 H1) as (? & ? & ?). split_and!; congruence.
Qed.

Lemma steady_exec {A} (f : Z → pgdb → result (A * pgdb)) : steady (pg_exec f).
Proof. intros w Hw. rewrite pg_exec_nofault by done. by destruct (f _ _) as [[]|]. Qed.

Lemma steady_query {A} (f : Z → pgdb → result A) : steady (pg_query f).
Proof. intros w Hw. rewrite pg_query_nofault by done. done. Qed.

Lemma steady_uuid : steady new_uuid.
Proof. intros w Hw. unfold new_uuid. by destruct (w_uuids w). Qed.

Lemma steady_now : steady time_Now.
Proof. done. Qed.

Lemma steady_heartbeat wid ttl : steady (SetWorkerHeartbeat wid ttl).
Proof.
  intros w Hw. unfold SetWorkerHeartbeat. rewrite redis_do_nofault by done. split_and!; [done| |done].
  apply redis_counter_set_ne. discriminate.
Qed.
End steady.

Lemma existsb_same {A} (p : A → bool) f l : (∀ x, p (f x) = p x) → existsb p (map f l) = existsb p l.
Proof. intros H. induction l as [|x l IH]; [done|]. cbn [map existsb]. by rewrite H, IH. Qed.

Create HintDb steady discriminated.
#[export] Hint Resolve steady_ret steady_exec steady_query steady_uuid steady_now steady_heartbeat : steady.

(** Handlers are sequences of such computations with tests in between. *)
Ltac solve_steady :=
  repeat first
    [ solve [auto with steady]
    | apply steady_bind; [|intros ?]
    | progress cbv zeta
    | match goal with |- steady _ (match ?x with _ => _ end) => destruct x end
    | match goal with |- steady _ (if ?x then _ else _) => destruct x end
    | match goal with |- steady _ (let '(_, _) := ?x in _) => destruct x end ].

Section handlers.
Context {R : Type} `{RD : Redis R} `{RL : !RedisLaws R} `{UT : UUIDText} `{JU : JSONDecode updateTaskStateRequest} `{JS : JSONDecode submitRequest} `{JH : JSONDecode heartbeatRequest}.

Lemma UpdateTaskStatus_steady org r : steady (R := R) org (UpdateTaskStatus r).
Proof. unfold UpdateTaskStatus, PgStore.GetTask, UpdateTaskState. solve_steady. Qed.

Lemma Submit_steady org r : steady (R := R) org (Submit r).
Proof. unfold Submit, CreateOutput, Award, brownie_write. simpl. unfold WriteLedgerEntry. solve_steady. Qed.

Lemma Heartbeat_steady ttl org r : steady (R := R) org (Heartbeat ttl r).
Proof. unfold Heartbeat, GetWorker, UpdateWorkerHeartbeat, heartbeat_response, GetAssignedTaskForWorker. solve_steady. Qed.

(** The answer of a submission is 202 or an error. *)
Lemma Submit_not_ok r (w : world R) : Resp_Status (Submit r w).1 ≠ StatusOK.
Proof.
  unfold Submit, mbind, M_bind, mret, M_ret, time_Now. repeat (case_match; simplify_eq/=; try done).
Qed.
End handlers.

(** ** One request of a worker *)

Section control_plane.
Context {R : Type} `{RD : Redis R} `{RL : !RedisLaws R} `{UT : UUIDText} `{UL : !UUIDLaws} `{A2 : Argon2}.
Implicit Types (w : world R) (h : Handler R).

Lemma Audit_frame h r w :
  let '(resp, w') := h r w in
  ∃ w'', Audit h r w = (resp, w'') ∧ w_db w'' = w_db w' ∧ w_redis w'' = w_redis w' ∧ w_now w'' = w_now w' ∧
    w_faults w'' = w_faults w'.
Proof.
  destruct (h r w) as [resp w'] eqn:E. unfold Audit, mbind, M_bind, mret, M_ret.
  destruct (negb _); rewrite E; [by exists w'|]. unfold new_uuid, time_Now, go_stmt.
  destruct (w_uuids w'); (eexists; split; [reflexivity|done]).
Qed.

(** What the three middlewares leave of a request by the holder of a key that is under its
    rate: the handler runs in the context of the key, and the counter goes up by one. *)
Lemma pipeline rate h r w k scheme pt :
  w_faults w = [] → Cut (Req_Header r "Authorization") " "%char = Some (scheme, pt) → EqualFold scheme "Bearer" = true →
  (11 <= String.length pt)%nat → unlocks w pt k →
  (∀ k', k' ∈ db_apikeys (w_db w) → Key_KeyPrefix k' = Key_KeyPrefix k → k' = k) →
  rate_count w (Key_OrgUnitID k) + 1 ≤ rate → steady (Key_OrgUnitID k) (h (with_context r (key_context k))) →
  ∃ w1 resp w2 resp' w', w_db w1 = w_db w ∧ w_now w1 = w_now w ∧ w_faults w1 = [] ∧
    h (with_context r (key_context k)) w1 = (resp, w2) ∧
    Auth (Audit (RateLimit rate h)) r w = (resp', w') ∧ Resp_Status resp' = Resp_Status resp ∧ Resp_Body resp' = Resp_Body resp ∧
    w_db w' = w_db w2 ∧ w_now w' = w_now w ∧ w_faults w' = [] ∧
    rate_count w' (Key_OrgUnitID k) = rate_count w (Key_OrgUnitID k) + 1.
Proof.
  intros Hf Hc Hs Hl Hu Hk Hr Hp. rewrite (Auth_accepts _ _ _ scheme pt k) by done.
  set (rk := with_context r (key_context k)) in *. set (w0 := set_bg _ w).
  destruct (RateLimit_nofault rate h rk w0 (Key_OrgUnitID k)) as (w1 & Hd1 & Hn1 & Hf1 & _ & Hcount & _ & Hrun); [done..|].
  change (rate_count w0 (Key_OrgUnitID k)) with (rate_count w (Key_OrgUnitID k)) in *.
  destruct (Z.ltb_spec rate (rate_count w (Key_OrgUnitID k) + 1)); [lia|].
  destruct (h rk w1) as [resp w2] eqn:Eh. destruct (Hp w1 Hf1) as (Hf2 & Hr2 & Hn2). rewrite Eh in Hf2, Hr2, Hn2. simpl in *.
  pose proof (Audit_frame (RateLimit rate h) rk w0) as Ha. rewrite Hrun in Ha.
  destruct Ha as (w' & Ea & Hd & Hre & Hn & Hff). eexists w1, resp, w2, _, w'. rewrite Ea.
  split_and!; try done; try congruence. transitivity (rate_count w1 (Key_OrgUnitID k)); [unfold rate_count in *; by rewrite Hn, Hre|].
  unfold rate_count at 1. rewrite Hn1, Hcount by (simpl; lia).
  simpl. destruct (Z.ltb_spec (w_now w) (w_now w + Minute)); [done|]. unfold Minute, Second in *. lia.
Qed.
End control_plane.

(** ** The control plane behind the network *)

(** http.Header.Get: header names are compared without case. *)
Definition header_of (hs : list (string * string)) (name : string) : string :=
  match List.find (λ h, EqualFold (fst h) name) hs with
  | Some h => snd h
  | None => ""
  end.

Section grid.
Context {R : Type} `{RD : Redis R} `{RL : !RedisLaws R} `{UT : UUIDText} `{UL : !UUIDLaws} `{A2 : Argon2}
  `{CH : Chi} `{HUB : DashboardHub R} `{TP : TimeParse} `{ET : ErrorText}
  `{JE : JSONErrorText} `{PF : ParseFloat64} `{TU : TimeUnmarshal}.
#[local] Existing Instances decode_createTaskRequest decode_updateTaskStateRequest decode_registerWorkerRequest
  decode_heartbeatRequest decode_createAPIKeyRequest decode_submitRequest decode_reviewRequest
  decode_createOrgRequest decode_OrgPolicy.
Implicit Types (w : world R).

(** The server's settings; the URL under which the worker knows it, and its address. *)
Variables (argonParams : ArgonParams) (heartbeatTTLSec ratePerMin : Z) (hmacSecret base addr : string).
#[local] Abbreviation deps := (MkRouterDeps true true argonParams heartbeatTTLSec ratePerMin hmacSecret).

(** The request that the server reads. *)
Definition deliver (req : wire_request) : http_request :=
  MkRequest (WR_Method req) (TrimPrefix (WR_URL req) base) (header_of (WR_Headers req)) (λ _, "") addr []
    (WR_Body req) empty_context.

Definition serve (req : wire_request) (w : world R) : http_response * world R :=
  NewRouter deps (deliver req) w.

(** The answer; of the documents that the worker does not read only the status is kept. *)
Definition reply (resp : http_response) : result wire_response :=
  Ok (MkReply (Resp_Status resp) "" (Ok (default "" (response_text resp)))).

(** The control plane after the calls of a history. *)
Definition after_call (e : event) (w : world R) : world R :=
  match e with Event c _ => match c with HttpDo req => (serve req w).2 | _ => w end end.

Definition world_after (w : world R) (h : list event) : world R := foldl (λ w e, after_call e w) w h.

(** HTTP requests go to the control plane, the other calls to [local]. *)
Definition grid_oracle (local : oracle) (w : world R) : oracle := λ X h c,
  match c in call Y return Y with
  | HttpDo req => reply (serve req (world_after w h)).1
  | c => local _ h c
  end.

(** *** A worker with a task *)

Variables (token : string) (org wid tid : uuid).

(** The key of the worker opens, nothing fails, and [n] requests fit under the rate. *)
Record staffed (n : Z) (w : world R) : Prop := {
  st_faults : w_faults w = [];
  st_key : ∃ k, unlocks w token k ∧ (∀ k', k' ∈ db_apikeys (w_db w) → Key_KeyPrefix k' = Key_KeyPrefix k → k' = k) ∧
    Key_OrgUnitID k = org ∧ Key_WorkerID k = Some wid ∧
    "tasks:write" ∈ elems (Key_Scopes k) ∧ "workers:heartbeat" ∈ elems (Key_Scopes k);
  st_worker : worker_exists (w_db w) wid = true;
  st_rate : rate_count w org + n ≤ ratePerMin;
}.

(** The task is the worker's own. *)
Definition own_task (w : world R) : Prop :=
  ∃ t, t ∈ db_tasks (w_db w) ∧ (∀ t', t' ∈ db_tasks (w_db w) → Task_ID t' = tid → t' = t) ∧
    Task_ID t = tid ∧ Task_OrgUnitID t = org ∧ Task_AssignedWorkerID t = Some wid.

Definition ready (n : Z) (w : world R) : Prop := staffed n w ∧ own_task w.

(** How go-chi matches the two routes that a task uses. *)
Definition chi_task_routes : Prop :=
  chi_lookup (map fst (api_routes deps)) "PATCH" ("/tasks/" ++ uuid_String tid ++ "/status") =
    Some (3%nat, [("id", uuid_String tid)]) ∧
  chi_lookup (map fst (api_routes deps)) "POST" "/outputs" = Some (19%nat, []).

Hypothesis chi_ok : chi_task_routes.
Hypothesis token_long : (11 <= String.length token)%nat.

Definition from_worker (hs : list (string * string)) : Prop := header_of hs "Authorization" = "Bearer " ++ token.

Definition status_request (hs : list (string * string)) (body : string) : wire_request :=
  MkWire "PATCH" (base ++ "/api/v1/tasks/" ++ uuid_String tid ++ "/status") hs body.
Definition output_request (hs : list (string * string)) (body : string) : wire_request :=
  MkWire "POST" (base ++ "/api/v1/outputs") hs body.

Definition beat_request (hs : list (string * string)) (body : string) : wire_request :=
  MkWire "POST" (base ++ "/api/v1/workers/" ++ uuid_String wid ++ "/heartbeat") hs body.

Definition chi_beat_route : Prop :=
  chi_lookup (map fst (api_routes deps)) "POST" ("/workers/" ++ uuid_String wid ++ "/heartbeat") =
    Some (7%nat, [("id", uuid_String wid)]).

(** *** One request *)

Lemma TrimPrefix_app p s : TrimPrefix (p ++ s) p = s.
Proof. unfold TrimPrefix. rewrite HasPrefix_app. induction p as [|c p IH]; [by destruct s|]. exact IH. Qed.

(** A request to the API: its route's handler runs behind the middlewares. *)
Lemma serve_route method path hs body i params h w :
  chi_lookup (map fst (api_routes deps)) method path = Some (i, params) →
  (∃ mp, nth_error (api_routes deps) i = Some (mp, h)) → HasPrefix path "/" = true →
  let r := MkRequest method ("/api/v1" ++ path) (header_of hs) (λ _, "") addr params body empty_context in
  serve (MkWire method (base ++ "/api/v1" ++ path) hs body) w = Auth (Audit (RateLimit ratePerMin h)) r w.
Proof.
  intros Hc [mp Hn] Hp. destruct path as [|c path]; [done|]. cbn [HasPrefix] in Hp. rewrite andb_true_r in Hp.
  apply Ascii.eqb_eq in Hp as <-. unfold serve, deliver, NewRouter, requestLogger. cbn [WR_Method WR_URL WR_Headers WR_Body].
  rewrite TrimPrefix_app. cbn [with_context Req_Path Req_Method Req_Header Req_Query Req_RemoteAddr Req_URLParams Req_Body].
  change (HasPrefix ("/api/v1" ++ String "/" path) (api_prefix ++ "/")) with true. rewrite orb_true_r.
  change (TrimPrefix ("/api/v1" ++ String "/" path) api_prefix) with (String "/" path).
  unfold serve_api, select_route.
  match goal with |- context [Req_Method ?x] => change (Req_Method x) with method end. rewrite Hc, Hn. done.
Qed.

Lemma staffed_after n w w' :
  staffed (n + 1) w → w_faults w' = [] → w_now w' = w_now w → db_apikeys (w_db w') = db_apikeys (w_db w) →
  worker_exists (w_db w') wid = worker_exists (w_db w) wid → rate_count w' org = rate_count w org + 1 → staffed n w'.
Proof.
  intros [Hf Hk Hw Hr] Hf' Hn Hak Hwk Hc. constructor; [done| |by rewrite Hwk|lia].
  destruct Hk as (k & (H1 & H2 & H3 & H4 & H5) & Hk). exists k. split; [|by rewrite Hak].
  unfold unlocks. rewrite Hak, Hn. auto.
Qed.

(** Without the state of the task. *)
Lemma own_task_after w w' f :
  own_task w → db_tasks (w_db w') = map f (db_tasks (w_db w)) →
  (∀ t, Task_ID (f t) = Task_ID t ∧ Task_OrgUnitID (f t) = Task_OrgUnitID t ∧
     (Task_ID t = tid → Task_AssignedWorkerID t = Some wid → Task_AssignedWorkerID (f t) = Some wid)) →
  own_task w'.
Proof.
  intros (t & Hin & Hu & Hid & Ho & Ha) Ht Hfs.
  exists (f t). destruct (Hfs t) as (E1 & E2 & E3). rewrite Ht. split_and!; [apply elem_of_bmap; eauto| |congruence..|auto].
  intros t' (t0 & -> & H0)%elem_of_bmap E. f_equal. apply Hu; [done|]. by rewrite <-(proj1 (Hfs t0)).
Qed.

Lemma own_task_same w w' : own_task w → db_tasks (w_db w') = db_tasks (w_db w) → own_task w'.
Proof. unfold own_task. by intros ? ->. Qed.

(** A status report of the worker on its task: 200, and exactly that task has the state. *)
Lemma status_served n hs body req w :
  ready (n + 1) w → 0 ≤ n → from_worker hs → decode_updateTaskStateRequest body = (req, None) → reportable (UT_State req) →
  ∃ resp w', serve (status_request hs body) w = (resp, w') ∧ Resp_Status resp = StatusOK ∧ ready n w' ∧
    w_db w' = set_tasks (map (λ t, if Task_ID t =? tid then task_set_state (w_now w) (UT_State req) (Some wid) t else t)
                          (db_tasks (w_db w))) (w_db w).
Proof.
  intros Hready Hn0 Hhs Hj Hrep. pose proof Hready as [[Hf (k & Hu & Hku & Ho & Hkw & Hs & _) Hw Hr] (t & Hin & Htu & Hid & Hto & Hta)].
  destruct chi_ok as [Hc _].
  change (status_request hs body) with
    (MkWire "PATCH" (base ++ "/api/v1" ++ ("/tasks/" ++ uuid_String tid ++ "/status")) hs body).
  rewrite (serve_route "PATCH" ("/tasks/" ++ uuid_String tid ++ "/status") hs body 3 [("id", uuid_String tid)]
    (ScopeRequired "tasks:write" UpdateTaskStatus) w Hc); [|eexists; reflexivity|done].
  set (r := MkRequest _ _ _ _ _ _ _ _).
  destruct (pipeline ratePerMin (ScopeRequired "tasks:write" UpdateTaskStatus) r w k "Bearer" token)
    as (w1 & resp & w2 & resp' & w' & Hd1 & Hn1 & Hf1 & Eh & -> & Hst & _ & Hd & Hn & Hff & Hcount); try done.
  { unfold r. cbn [Req_Header]. by rewrite Hhs. }
  { rewrite Ho. lia. }
  { unfold ScopeRequired. cbn [Req_Context with_context ctx_Scopes key_context]. destruct (existsb _ _); [apply UpdateTaskStatus_steady|done]. }
  rewrite (proj1 (ScopeRequired_gate "tasks:write" UpdateTaskStatus (with_context r (key_context k)) w1 (Key_Scopes k) eq_refl)) in Eh by (by left).
  set (rk := with_context r (key_context k)) in *.
  assert (uuid_Parse (URLParam rk "id") = Some tid) as Hp by apply uuid_parse_string.
  destruct (UpdateTaskStatus_any_state rk w1 org wid t req) as (resp1 & w3 & E1 & Hs1 & t1 & Hin1 & Hid1 & Hst1 & _);
    rewrite ?Hd1, ?Hid; try done.
  { unfold rk. simpl. by rewrite Ho. }
  { unfold rk. simpl. by rewrite Hkw. }
  rewrite Eh in E1. injection E1 as <- <-.
  destruct (UpdateTaskStatus_authorized rk w1 resp w2 Eh) as [_ [[Hc1 _]|[_ (t2 & wid2 & st & Hin2 & Hp2 & _ & Hw2 & _ & _ & Hdb)]]]; [done|].
  rewrite Hp in Hp2. injection Hp2 as Hid2. unfold rk in Hw2. simpl in Hw2. rewrite Hkw in Hw2. injection Hw2 as <-.
  assert (st = UT_State req) as ->.
  { rewrite Hdb in Hin1. simpl in Hin1. apply elem_of_bmap in Hin1 as (t0 & -> & Hin0).
    destruct (Z.eqb_spec (Task_ID t0) (Task_ID t2)); [done|]. congruence. }
  rewrite Hid2, Hd1, Hn1 in Hdb. exists resp', w'. split_and!; [done|congruence| |congruence].
  split; [apply (staffed_after n w); rewrite ?Hd, ?Hdb; try done; [apply Hready|by rewrite <-Ho]|].
  eapply (own_task_after w); [apply Hready|rewrite Hd, Hdb; reflexivity|].
  intros t0. simpl. by destruct (Task_ID t0 =? tid).
Qed.

(** A submission of the worker: 202 with a new output that awaits its review, or a refusal. *)
Lemma output_served n hs body w :
  ready (n + 1) w → 0 ≤ n → from_worker hs →
  ∃ resp w', serve (output_request hs body) w = (resp, w') ∧ Resp_Status resp ≠ StatusOK ∧ ready n w' ∧
    db_tasks (w_db w') = db_tasks (w_db w) ∧
    (Resp_Status resp ≠ StatusAccepted ∧ db_outputs (w_db w') = db_outputs (w_db w) ∨
     Resp_Status resp = StatusAccepted ∧ ∃ o req, db_outputs (w_db w') = (db_outputs (w_db w) ++ [o])%list ∧
       Out_WorkerID o = wid ∧ Out_ReviewStatus o = ReviewStatusPending ∧
       decode_submitRequest body = (req, None) ∧ uuid_Parse (SO_TaskID req) = Some (Out_TaskID o) ∧
       Out_Artifacts o = SO_Artifacts req ∧ Out_Metadata o = SO_Metadata req).
Proof.
  intros Hready Hn0 Hhs. pose proof Hready as [[Hf (k & Hu & Hku & Ho & Hkw & _ & Hs) Hw Hr] _]. destruct chi_ok as [_ Hc].
  change (output_request hs body) with (MkWire "POST" (base ++ "/api/v1" ++ "/outputs") hs body).
  rewrite (serve_route "POST" "/outputs" hs body 19 [] (ScopeRequired "workers:heartbeat" Submit) w Hc);
    [|eexists; reflexivity|done].
  set (r := MkRequest _ _ _ _ _ _ _ _).
  destruct (pipeline ratePerMin (ScopeRequired "workers:heartbeat" Submit) r w k "Bearer" token)
    as (w1 & resp & w2 & resp' & w' & Hd1 & Hn1 & Hf1 & Eh & -> & Hst & _ & Hd & Hn & Hff & Hcount); try done.
  { unfold r. cbn [Req_Header]. by rewrite Hhs. }
  { rewrite Ho. lia. }
  { unfold ScopeRequired. cbn [Req_Context with_context ctx_Scopes key_context]. destruct (existsb _ _); [apply Submit_steady|done]. }
  rewrite (proj1 (ScopeRequired_gate "workers:heartbeat" Submit (with_context r (key_context k)) w1 (Key_Scopes k) eq_refl)) in Eh by (by left).
  set (rk := with_context r (key_context k)) in *.
  pose proof (Submit_not_ok rk w1) as Hno. rewrite Eh in Hno. cbn [fst] in Hno.
  exists resp', w'. split; [done|]. split; [congruence|].
  destruct (Submit_records rk w1 resp w2 Eh) as [[Hs1 Hd2]|(Hs1 & wid2 & o & Hw2 & Ho2 & _ & Hp2 & _ & _ & (req & Hj & Ht & Ha & Hm) & Hl)].
  - rewrite Hd, Hd2, Hd1. split_and!; [|done|left; split; [congruence|done]].
    split; [apply (staffed_after n w); rewrite ?Hd, ?Hd2, ?Hd1; try done; [apply Hready|by rewrite <-Ho]|].
    apply (own_task_same w); [apply Hready|congruence].
  - assert (Resp_Status resp = StatusAccepted) as Hs1'
      by (destruct Hs1 as [?|[_ Hs1]]; [done|]; unfold lost_replies in Hs1; rewrite Hf1 in Hs1; simpl in Hs1; lia).
    clear Hs1. rename Hs1' into Hs1.
    unfold rk in Hw2. simpl in Hw2. rewrite Hkw in Hw2. injection Hw2 as <-. rewrite Hd1 in Hl.
    assert (db_tasks (w_db w2) = db_tasks (w_db w) ∧ db_apikeys (w_db w2) = db_apikeys (w_db w) ∧
      db_workers (w_db w2) = db_workers (w_db w) ∧ db_outputs (w_db w2) = (db_outputs (w_db w) ++ [o])%list) as (E1 & E2 & E3 & E4)
      by (destruct Hl as [->|(e & _ & _ & ->)]; done).
    rewrite Hd, E1, E4. split_and!; [|done|right; split; [congruence|]].
    + split; [apply (staffed_after n w); rewrite ?Hd; try done; [apply Hready|unfold worker_exists; by rewrite E3|by rewrite <-Ho]|].
      apply (own_task_same w); [apply Hready|congruence].
    + by exists o, req.
Qed.

(** The worker is registered, and [t] is the task that waits for it. *)
Record waiting (t : Task) (w : world R) : Prop := {
  wt_worker : ∃ wk, wk ∈ db_workers (w_db w) ∧ (∀ x, x ∈ db_workers (w_db w) → Worker_ID x = wid → x = wk) ∧
    Worker_ID wk = wid ∧ Worker_OrgUnitID wk = org ∧ ∃ l, Worker_Agents wk = Some l;
  wt_task : t ∈ db_tasks (w_db w) ∧ assigned_to wid t = true;
  wt_only : ∀ t', t' ∈ db_tasks (w_db w) → assigned_to wid t' = true → t' = t;
}.

Definition delivery (t : Task) : pval :=
  VObj [("ok", VBool true); ("worker_id", VID wid); ("next_ttl_sec", VInt heartbeatTTLSec); ("assigned_task", assigned_task_value t)].

(** How go-chi matches the route of a heartbeat. *)
Hypothesis chi_beat : chi_beat_route.

(** A heartbeat of the worker: 200 with the task that waits for it. *)
Lemma beat_served n hs body w t :
  staffed (n + 1) w → 0 ≤ n → from_worker hs → HB_Agents (decode_heartbeatRequest body).1 = None → waiting t w →
  ∃ resp w', serve (beat_request hs body) w = (resp, w') ∧ Resp_Status resp = StatusOK ∧ Resp_Body resp = PJSON (delivery t) ∧
    staffed n w' ∧ db_tasks (w_db w') = db_tasks (w_db w) ∧ db_outputs (w_db w') = db_outputs (w_db w).
Proof.
  intros Hready Hn0 Hhs Hb [(wk & Hwin & Hwu & Hwid & Hworg & Hags) [Htin Hta] Honly].
  pose proof Hready as [Hf (k & Hu & Hku & Ho & Hkw & _ & Hs) Hw Hr].
  change (beat_request hs body) with (MkWire "POST" (base ++ "/api/v1" ++ ("/workers/" ++ uuid_String wid ++ "/heartbeat")) hs body).
  rewrite (serve_route "POST" ("/workers/" ++ uuid_String wid ++ "/heartbeat") hs body 7 [("id", uuid_String wid)]
    (ScopeRequired "workers:heartbeat" (Heartbeat heartbeatTTLSec)) w chi_beat); [|eexists; reflexivity|done].
  set (r := MkRequest _ _ _ _ _ _ _ _).
  destruct (pipeline ratePerMin (ScopeRequired "workers:heartbeat" (Heartbeat heartbeatTTLSec)) r w k "Bearer" token)
    as (w1 & resp & w2 & resp' & w' & Hd1 & Hn1 & Hf1 & Eh & -> & Hst & Hbd & Hd & Hn & Hff & Hcount); try done.
  { unfold r. cbn [Req_Header]. by rewrite Hhs. }
  { rewrite Ho. lia. }
  { unfold ScopeRequired. cbn [Req_Context with_context ctx_Scopes key_context]. destruct (existsb _ _); [apply Heartbeat_steady|done]. }
  rewrite (proj1 (ScopeRequired_gate "workers:heartbeat" (Heartbeat heartbeatTTLSec) (with_context r (key_context k)) w1 (Key_Scopes k) eq_refl)) in Eh by (by left).
  set (rk := with_context r (key_context k)) in *.
  assert (uuid_Parse (URLParam rk "id") = Some wid) as Hp by apply uuid_parse_string.
  destruct (Heartbeat_delivers heartbeatTTLSec rk w1 org wk) as (t' & Htin' & Hta' & _ & E1);
    rewrite ?Hd1, ?Hwid; try done; [by unfold rk; simpl; rewrite Ho|by exists t|].
  rewrite Hd1 in Htin'. rewrite Hwid in Hta', E1. apply Honly in Hta' as ->; [|done]. rewrite Eh in E1. cbn [fst] in E1.
  pose proof (Heartbeat_touches heartbeatTTLSec rk w1 resp w2 Eh) as [[Hc _]|(_ & wk2 & ags & _ & _ & _ & _ & Hdb)]; [by rewrite E1 in Hc|].
  rewrite Hd1 in Hdb. rewrite E1 in Hst, Hbd. exists resp', w'. rewrite Hd, Hdb. split_and!; try done.
  apply (staffed_after n w); rewrite ?Hd, ?Hdb; try done; [|by rewrite <-Ho].
  unfold worker_exists. cbn [db_workers set_workers]. apply existsb_same. intros x. by case_match.
Qed.

(** ** Programs of the worker against the control plane *)

Variables (local : oracle) (w0 : world R).
#[local] Abbreviation o := (grid_oracle local w0).
#[local] Abbreviation here h := (world_after w0 h).

(** From a control plane in [P], the program returns an [a] and leaves one in [Q a]. *)
Definition against {A} (P : world R → Prop) (p : prog A) (Q : A → world R → Prop) : Prop :=
  ∀ h, P (here h) → Q (run o h p).1 (here (run o h p).2).

Lemma against_ret {A} (P : world R → Prop) (a : A) (Q : A → world R → Prop) : (∀ w, P w → Q a w) → against P (mret a) Q.
Proof. intros H h. apply H. Qed.

Lemma against_bind {A B} P (p : prog A) (f : A → prog B) Q S :
  against P p Q → (∀ a, against (Q a) (f a) S) → against P (p ≫= f) S.
Proof. intros Hp Hf h Hh. rewrite run_bind_eq. by apply Hf, Hp. Qed.

Lemma against_mono {A} (P P' : world R → Prop) (p : prog A) (Q Q' : A → world R → Prop) :
  (∀ w, P' w → P w) → (∀ a w, Q a w → Q' a w) → against P p Q → against P' p Q'.
Proof. intros HP HQ H h Hh. by apply HQ, H, HP. Qed.

(** Calls that are not HTTP leave the control plane alone. *)
Definition silent : ∀ X, call X → Prop := λ X c, match c with HttpDo _ => False | _ => True end.

Lemma quiet_silent {A} (p : prog A) : calls_in quiet p → calls_in silent p.
Proof. apply calls_in_mono. intros X []; try done. unfold quiet. simpl. by destruct (String.eqb _ _). Qed.

Lemma here_silent h es : Forall (event_in silent) es → here (h ++ es) = here h.
Proof.
  intros Hes. unfold world_after. rewrite foldl_app. generalize (foldl (λ w e, after_call e w) w0 h).
  induction Hes as [|[X c x] es Hc Hes IH]; intros w; [done|]. simpl. rewrite IH. by destruct c.
Qed.

Lemma against_silent {A} (P : world R → Prop) (p : prog A) (V : A → Prop) :
  calls_in silent p → (∀ h, V (run o h p).1) → against P p (λ a w, P w ∧ V a).
Proof.
  intros Hp HV h Hh. destruct (calls_in_events silent o h p Hp) as (es & -> & Hes). by rewrite here_silent.
Qed.

(** An HTTP exchange is served. *)
Lemma against_http (P : world R → Prop) req (Q : result wire_response → world R → Prop) :
  (∀ w, P w → Q (reply (serve req w).1) (serve req w).2) → against P (ask (HttpDo req)) Q.
Proof. intros H h Hh. rewrite run_ask. unfold world_after at 1. cbn [fst snd]. rewrite foldl_app. by apply H. Qed.

(** *** The state of a task in execution *)

Record progress (n : Z) (st : option string) (sent : bool) (w : world R) : Prop := {
  pg_ready : ready n w;
  pg_others : ∃ f, db_tasks (w_db w) = map f (db_tasks (w_db w0)) ∧ ∀ t, Task_ID (f t) = Task_ID t ∧ (Task_ID t ≠ tid → f t = t);
  pg_state : ∀ t s, st = Some s → t ∈ db_tasks (w_db w) → Task_ID t = tid → Task_State t = s;
  pg_outputs : if sent
               then ∃ out, db_outputs (w_db w) = (db_outputs (w_db w0) ++ [out])%list ∧ Out_TaskID out = tid ∧
                      Out_WorkerID out = wid ∧ Out_ReviewStatus out = ReviewStatusPending
               else db_outputs (w_db w) = db_outputs (w_db w0);
}.

Lemma ready_mono n m w : n ≤ m → ready m w → ready n w.
Proof. intros Hnm [[] ?]. split; [|done]. constructor; [done..|lia]. Qed.

Lemma progress_mono n m st sent w : n ≤ m → progress m st sent w → progress n st sent w.
Proof. intros Hnm []. constructor; [by eapply ready_mono|done..]. Qed.

Section client.
Context `{FT : FloatText} `{UP : URLParse}.
Variable c : Client.

(** url.Parse accepts the addresses of the three requests of a round. *)
Record urls_parse : Prop := {
  url_status : url_Parse (base ++ "/api/v1/tasks/" ++ uuid_String tid ++ "/status") = None;
  url_outputs : url_Parse (base ++ "/api/v1/outputs") = None;
  url_beat : url_Parse (base ++ "/api/v1/workers/" ++ uuid_String wid ++ "/heartbeat") = None;
}.
Hypothesis url_ok : urls_parse.
Hypothesis c_base : C_baseURL c = base.
Hypothesis c_token : C_apiKey c = token.

Lemma auth_from_worker hs : from_worker (auth_headers c ++ hs).
Proof. unfold from_worker, auth_headers. rewrite c_token. reflexivity. Qed.

(** A status report sets the state of the task. *)
Lemma against_report n st sent state msg :
  0 ≤ n → reportable (api_state state) → to_valid (api_state state) = api_state state →
  against (progress (n + 1) st sent) (updateStatus c (uuid_String tid) state msg)
    (λ _, progress n (Some (api_state state)) sent).
Proof.
  intros Hn Hr Hv. unfold updateStatus, Client_UpdateTaskStatus, patch, doJSON. rewrite c_base, (url_status url_ok).
  set (req := MkTaskStatusRequest (api_state state) msg).
  apply (against_bind _ _ _ (λ _, progress n (Some (api_state state)) sent)); [|by intros; apply against_ret].
  apply (against_bind _ _ _ (λ _, progress n (Some (api_state state)) sent)); [|by intros; apply against_ret].
  apply (against_bind _ _ _ (λ _, progress n (Some (api_state state)) sent)); [|by intros; apply against_ret].
  apply against_http. intros w [Hready (f & Hf & Hfs) _ Ho]. pose proof (status_decodes req) as Hd.
  match goal with |- context [serve (MkWire "PATCH" ?u ?hs ?b)] =>
    change (MkWire "PATCH" u hs b) with (status_request hs b);
    destruct (status_served n hs b _ w Hready Hn (auth_from_worker _) Hd) as (resp & w' & -> & _ & Hr' & Hdb) end.
  { cbn [UT_State TSR_State req]. by rewrite Hv. }
  cbn [fst snd UT_State TSR_State req] in *. rewrite Hv in Hdb. constructor; [done|rewrite Hdb|rewrite Hdb|by rewrite Hdb].
  - eexists (λ t, (λ t, if Task_ID t =? tid then task_set_state (w_now w) (api_state state) (Some wid) t else t) (f t)).
    split; [simpl; by rewrite Hf, map_map|]. intros t. destruct (Hfs t) as [E1 E2]. simpl. rewrite E1.
    destruct (Z.eqb_spec (Task_ID t) tid); split; try done; auto.
  - intros t s [= <-] Hin Ht. simpl in Hin. apply elem_of_bmap in Hin as (t0 & -> & Hin0).
    destruct (Z.eqb_spec (Task_ID t0) tid); [done|]. congruence.
Qed.

(** *** The heartbeat *)

Lemma limit_bytes_all n s : str_len s ≤ n → limit_bytes n s = s.
Proof.
  revert n. induction s as [|a s IH]; intros n H; [done|]. unfold str_len in *. cbn [limit_bytes String.length] in *.
  destruct (Z.leb_spec n 0); [lia|]. f_equal. apply IH. lia.
Qed.

(** The answer that brings the task is what the worker reads of an answer: a mebibyte. *)
Definition delivery_fits (t : Task) : Prop :=
  ∀ text, response_text (writeJSON StatusOK (delivery t)) = Some text → str_len text ≤ 2 ^ 20.

Lemma delivery_not_empty t text : response_text (writeJSON StatusOK (delivery t)) = Some text → String.eqb text "" = false.
Proof. intros (d & Hd & ->)%fmap_Some. by destruct (json_Marshal d). Qed.

(** Nothing has been done about any task. *)
Definition unstarted (n : Z) (w : world R) : Prop :=
  staffed n w ∧ db_tasks (w_db w) = db_tasks (w_db w0) ∧ db_outputs (w_db w) = db_outputs (w_db w0).

(** A heartbeat brings the task that waits. *)
Lemma against_beat n t hb body :
  0 ≤ n → C_workerID c = uuid_String wid → in_i64 heartbeatTTLSec → assignment_ok (assignment_of t) → delivery_fits t →
  HeartbeatRequest_Marshal hb = inl body → HB_Agents (decode_heartbeatRequest body).1 = None →
  against (λ w, unstarted (n + 1) w ∧ waiting t w) (heartbeat_tick (HU := unmarshal_HeartbeatResponse) c hb)
    (λ r w, unstarted n w ∧ r = (Some (assignment_of t), None)).
Proof.
  intros Hn Hc Httl Hok Hfit Hbody Hag. destruct (heartbeat_reply_decodes wid heartbeatTTLSec t Httl Hok) as (text & Ht & Hdec).
  unfold heartbeat_tick, Client_Heartbeat, post, doJSON. rewrite Hbody, c_base, Hc, (url_beat url_ok).
  set (answer := Ok (MkReply StatusOK "" (Ok text)) : result wire_response).
  set (Q := λ {A} (v : A) (r : A) (w : world R), unstarted n w ∧ r = v).
  apply (against_bind _ _ _ (Q _ (inl (MkHeartbeatResponse (Some (assignment_of t)))))).
  2: { intros r. apply against_ret. intros w [Hw ->]. by split. }
  apply (against_bind _ _ _ (Q _ (inl (MkHeartbeatResponse (Some (assignment_of t)))))).
  2: { intros r. apply against_ret. intros w [Hw ->]. by split. }
  apply (against_bind _ _ _ (Q _ answer)).
  2: { intros r. apply against_ret. intros w [Hw ->]. split; [done|]. unfold answer. cbn [WP_Body WP_Status].
       rewrite limit_bytes_all by by apply Hfit. change (StatusOK =? StatusUnauthorized) with false.
       change (500 <=? StatusOK) with false. change (400 <=? StatusOK) with false. cbv iota.
       rewrite (delivery_not_empty _ _ Ht). by rewrite Hdec. }
  apply against_http. intros w [(Hready & Htk0 & Ho) Hwait].
  match goal with |- context [serve (MkWire "POST" ?u ?hs ?b)] =>
    change (MkWire "POST" u hs b) with (beat_request hs b);
    destruct (beat_served n hs b w t Hready Hn (auth_from_worker _) Hag Hwait) as (resp & w' & -> & Hst & Hbd & Hr' & Htk & Hout) end.
  cbn [fst snd]. split.
  - split; [done|]. split; congruence.
  - unfold reply, answer. enough (response_text resp = Some text) as -> by by rewrite Hst.
    unfold response_text at 1. rewrite Hbd. exact Ht.
Qed.

(** *** The submission *)

Hypothesis parses_ints : ∀ z, in_i64 z → is_Some (parse_float (Itoa z)).

(** A package for the task, with the values that the code gives to its numbers. *)
Definition package_ok (pkg : Reporter.OutputPackage) : Prop :=
  OP_TaskID pkg = uuid_String tid ∧ submission_ok (submission_of pkg).

Hypothesis tid_text : valid_utf8 (uuid_String tid).

Lemma against_SubmitOutput n st pkg :
  0 ≤ n → package_ok pkg →
  against (progress (n + 1) st false) (SubmitOutput c (submission_of pkg))
    (λ r, progress n st (match r with inl _ => true | inr _ => false end)).
Proof.
  intros Hn [Hid Hok]. unfold SubmitOutput. rewrite c_base, (url_outputs url_ok).
  match goal with |- context [MkWire "POST" ?u ?hs ?b] => change (MkWire "POST" u hs b) with (output_request hs b); set (hd := hs) end.
  apply (against_bind _ _ _ (λ r, progress n st (match r with
      | Ok resp => (WP_Status resp =? StatusAccepted) || (WP_Status resp =? StatusOK)
      | Err _ => false end))).
  2: { intros [resp|e]; apply against_ret; [|done]. by destruct (_ || _). }
  apply against_http. intros w [Hready Hf Hst Ho].
  destruct (output_served n hd (OutputSubmission_Marshal (submission_of pkg)) w Hready Hn (auth_from_worker _))
    as (resp & w' & -> & Hne & Hr' & Ht & Hres). cbn [fst snd reply WP_Status]. apply Z.eqb_neq in Hne. rewrite Hne, orb_false_r.
  destruct Hres as [[Hno Hout]|(Hs & out & req & Hout & Hw & Hp & Hj & Hpt & _)].
  - apply Z.eqb_neq in Hno. rewrite Hno. constructor; [done|by rewrite Ht|by rewrite Ht|by rewrite Hout].
  - rewrite Hs, Z.eqb_refl. constructor; [done|by rewrite Ht|by rewrite Ht|]. exists out.
    rewrite submission_decodes in Hj by done. injection Hj as <-. cbn [SO_TaskID submission_of OS_TaskID] in Hpt.
    rewrite Hid, to_valid_id, uuid_parse_string in Hpt by done. injection Hpt as <-. split_and!; [by rewrite Hout, Ho|done..].
Qed.

Lemma against_submit n st pkg :
  0 ≤ n → package_ok pkg →
  against (progress (n + 1) st false) (Reporter_Submit c pkg)
    (λ r, progress n st (match r with inl _ => true | inr _ => false end)).
Proof.
  intros Hn Hok h Hh. pose proof (against_SubmitOutput n st pkg Hn Hok h Hh) as H. rewrite Reporter_Submit_run.
  by destruct (run o h (SubmitOutput c (submission_of pkg))) as [[]].
Qed.

(** *** The steps of Execute *)

(** A step ends with a value of [V], the task running and [n] requests to spare, or with the
    task failed. *)
Definition step_post {A} (n : Z) (V : A → Prop) (sent : bool) (r : fallible A) (w : world R) : Prop :=
  match r with
  | inl a => V a ∧ progress n (Some "running") sent w
  | inr _ => progress 0 (Some "failed") false w
  end.

Abbreviation running n := (progress n (Some "running") false).

Lemma against_running {A} n st state (p : prog A) Q :
  1 ≤ n → api_state state = "running" → against (running (n - 1)) p Q →
  against (progress n st false) (_ ← updateStatus c (uuid_String tid) state ""; p) Q.
Proof.
  intros Hn Hs Hp. eapply against_bind; [|intros; exact Hp]. rewrite <-Hs. replace n with (n - 1 + 1) at 1 by lia.
  apply against_report; [lia| |]; rewrite Hs; [by left|by apply to_valid_ascii].
Qed.

Lemma against_fail {A} n V sent m st msg e :
  1 ≤ n → against (progress n st false) (fail_task (A := A) c (uuid_String tid) msg e) (step_post m V sent).
Proof.
  intros Hn. eapply against_bind; [|intros; apply against_ret; intros w Hw; exact Hw].
  replace n with (n - 1 + 1) by lia.
  eapply against_mono; [intros w Hw; exact Hw| |apply against_report; [lia|right; right; done|by apply to_valid_ascii]].
  intros u w Hw. simpl. eapply progress_mono; [|exact Hw]. lia.
Qed.

(** A program without HTTP, reported when it fails. *)
Lemma against_silent_step {A} n V sp ep (p : prog (fallible A)) :
  1 ≤ n → calls_in silent p → (∀ h a, (run o h p).1 = inl a → V a) →
  against (running n) (or_fail_task c (uuid_String tid) sp ep p) (step_post n V false).
Proof.
  intros Hn Hp HV. eapply against_bind.
  - apply (against_silent _ p (λ r, ∀ a, r = inl a → V a)); [done|]. intros h. apply HV.
  - intros [a|e].
    + apply against_ret. intros w [Hw Ha]. split; [by apply Ha|done].
    + eapply against_mono; [|done|by apply (against_fail n)]. by intros w [Hw _].
Qed.

Lemma against_done {A} n m V (a : A) : V a → m ≤ n → against (running n) (mret (inl a)) (step_post m V false).
Proof. intros Ha Hm. apply against_ret. intros w Hw. split; [done|]. by eapply progress_mono. Qed.

Lemma against_and_then {A B} P n V sent (p : prog (fallible A)) (f : A → prog (fallible B)) (Q : fallible B → world R → Prop) :
  against P p (step_post n V sent) → (∀ e w, progress 0 (Some "failed") false w → Q (inr e) w) →
  (∀ a, V a → against (progress n (Some "running") sent) (f a) Q) → against P (and_then p f) Q.
Proof.
  intros Hp He Hf. eapply against_bind; [exact Hp|]. intros [a|e]; [|apply against_ret, He].
  intros h [Ha Hh]. by apply Hf.
Qed.

Section steps.
Context `{QT : Quoting} `{MR : MapRange} `{CU : JSONUnmarshal claudeOutput}.
Variables (rs : Ruleset) (cfg : WConfig) (task : TaskAssignment).
Hypothesis task_id : TA_TaskID task = uuid_String tid.

(** Go's own bounds: the size of a file and an exit status are 64-bit integers. *)
Hypothesis files_sized : ∀ h p s, local _ h (ReadFile p) = Ok s → in_i64 (str_len s).
Hypothesis codes_sized : ∀ h path argv dir env pr, local _ h (Exec path argv dir env) = Ok pr → in_i64 (PR_ExitCode pr).

Lemma against_clone_step ws : against (running 8) (clone_step c task ws) (step_post 7 (λ _, True) false).
Proof.
  unfold clone_step. rewrite task_id. destruct (negb _); [|by apply against_done].
  apply against_running; [done..|]. apply against_silent_step; [done|apply quiet_silent, quiet_CloneRepo|done].
Qed.

Lemma against_prescan_step ws : against (running 7) (prescan_step rs c cfg task ws) (step_post 6 (λ _, True) false).
Proof.
  unfold prescan_step. rewrite task_id. destruct (WSec_ScanEnabled _); [|by apply against_done].
  apply against_running; [done..|]. eapply against_bind.
  - apply (against_silent _ _ (λ _, True)); [apply quiet_silent, quiet_scan_directory|done].
  - intros [findings|e]; [destruct (hasCritical findings)|].
    + eapply against_mono; [|done|by apply (against_fail 6)]. by intros w [? _].
    + apply against_ret. by intros w [? _].
    + apply against_ret. by intros w [? _].
Qed.

(** The agents of the daemon speak to no control plane. *)
Lemma agent_run_silent binary name argv env artifacts req :
  calls_in silent env → calls_in silent (agent_run binary name argv env artifacts req).
Proof.
  intros He. apply calls_in_ask; [done|]. intros [path|e]; [|done].
  apply calls_in_bind; [done|]. intros vars. apply calls_in_ask; [done|]. by intros [].
Qed.

Lemma agent_run_code binary name argv env artifacts req h res :
  (run o h (agent_run binary name argv env artifacts req)).1 = inl res → in_i64 (EX_ExitCode res).
Proof.
  unfold agent_run. rewrite run_bind_eq, run_ask. cbn [fst snd]. case_match; [|done].
  rewrite run_bind_eq, run_bind_eq, run_ask. cbn [fst snd grid_oracle]. case_match eqn:E; [|done].
  intros [= <-]. by eapply codes_sized.
Qed.

Lemma daemon_agent_silent id a req :
  Registry_Get id daemon_registry = Some a →
  calls_in silent (AA_Execute a req) ∧ ∀ h res, (run o h (AA_Execute a req)).1 = inl res → in_i64 (EX_ExitCode res).
Proof.
  rewrite daemon_registry_get.
  destruct (String.eqb id "claude"); [intros [= <-]|destruct (String.eqb id "copilot"); [intros [= <-]|
    destruct (String.eqb id "gemini"); [intros [= <-]|destruct (String.eqb id "chatgpt"); [intros [= <-]|done]]]];
    (split; [apply agent_run_silent|intros h res; apply agent_run_code]); try apply quiet_silent, quiet_env_of.
  apply quiet_silent. apply calls_in_bind; [apply quiet_env_of|]. intros. apply calls_in_bind; [apply quiet_first_env|].
  intros. apply calls_in_bind; [apply quiet_env_of|]. by intros.
Qed.

Lemma against_agent_step ws :
  against (running 6) (agent_step daemon_registry c task ws) (step_post 5 (λ res, in_i64 (EX_ExitCode res)) false).
Proof.
  unfold agent_step. rewrite task_id. destruct (Registry_Get _ _) as [a|] eqn:E; [|by apply against_fail].
  apply against_running; [done..|]. apply against_silent_step; [done|apply (daemon_agent_silent _ _ _ E)..].
Qed.

Lemma against_postscan_step res : against (running 5) (postscan_step rs c cfg task res) (step_post 4 (λ _, True) false).
Proof.
  unfold postscan_step. rewrite task_id. destruct (_ && _); [|by apply against_done].
  apply against_running; [done..|]. eapply against_bind.
  - apply (against_silent _ _ (λ _, True)); [apply quiet_silent, quiet_scan_output|done].
  - intros [findings []]; [|destruct (hasCritical findings)].
    + apply against_ret. by intros w [? _].
    + eapply against_mono; [|done|by apply (against_fail 4)]. by intros w [? _].
    + apply against_ret. by intros w [? _].
Qed.

(** What is packed. *)
Lemma pack_artifacts_sized ws artifacts h entries :
  (run o h (pack_artifacts ws artifacts)).1 = inl entries → Forall (λ e, in_i64 (AE_Size e)) entries.
Proof.
  revert h entries. induction artifacts as [|rel rest IH]; intros h entries; cbn [pack_artifacts]; [by intros [= <-]|].
  destruct (escapes _ _); [done|]. unfold packFile. rewrite run_bind_eq, run_bind_eq, run_ask. cbn [fst snd run mret prog_ret grid_oracle].
  destruct (local _ h (ReadFile _)) as [data|e] eqn:E; [|done]. cbn [run mret prog_ret fst snd].
  rewrite run_bind_eq. case_match eqn:E2; [|done]. intros [= <-]. constructor; [by eapply files_sized|by eapply IH].
Qed.

Lemma Pack_ok ws res artifacts h pkg :
  in_i64 (EX_ExitCode res) →
  (run o h (Pack (TA_TaskID task) (WSrv_WorkerID (W_Server cfg)) ws (WSec_HMACSecret (W_Security cfg)) artifacts)).1 = inl pkg →
  package_ok (set_metadata [("agent", DStr (TA_AIAgent task)); ("exit_code", DInt (EX_ExitCode res));
                            ("task_type", DStr (TA_TaskType task))] pkg).
Proof.
  intros Hc. unfold Pack. rewrite run_bind_eq. destruct (run o h (pack_artifacts ws artifacts)).1 as [entries|e] eqn:E; [|done].
  intros [= <-]. split; [exact task_id|]. split.
  - cbn [submission_of set_metadata OP_Artifacts OS_Artifacts]. apply Forall_map. by eapply pack_artifacts_sized.
  - repeat constructor; cbn [snd jdoc_ok]; [apply Hc|apply Hc|]. cbn [jdoc_read any_ok]. by apply bool_decide_eq_true_2, parses_ints.
Qed.

Lemma against_pack_step ws res :
  in_i64 (EX_ExitCode res) → against (running 4) (pack_step c cfg task ws res) (step_post 3 package_ok false).
Proof.
  intros Hc. unfold pack_step. rewrite task_id. apply against_running; [done..|].
  eapply (against_and_then _ 3 (λ pkg, package_ok (set_metadata _ pkg))); [|done|].
  - rewrite <-task_id at 2. apply against_silent_step; [done|apply quiet_silent, quiet_Pack|]. intros h pkg. by apply Pack_ok.
  - intros pkg Hp. by apply against_done.
Qed.

Lemma against_report_step pkg :
  package_ok pkg → against (running 3) (report_step c task pkg) (step_post 1 (λ _, True) true).
Proof.
  intros Hp. unfold report_step. rewrite task_id. apply against_running; [done..|]. eapply against_bind.
  - by apply (against_submit 1).
  - intros [[]|e]; [by apply against_ret|by apply against_fail].
Qed.

Definition exec_post (r : fallible unit) : world R → Prop :=
  match r with
  | inl _ => progress 0 (Some "completed") true
  | inr _ => progress 0 (Some "failed") false
  end.

Lemma against_execute_in ws : against (running 8) (execute_in daemon_registry rs c cfg task ws) exec_post.
Proof.
  eapply against_and_then; [apply against_clone_step|done|intros _ _].
  eapply against_and_then; [apply against_prescan_step|done|intros _ _].
  eapply against_and_then; [apply against_agent_step|done|intros res Hres].
  eapply against_and_then; [apply against_postscan_step|done|intros _ _].
  eapply against_and_then; [by apply against_pack_step|done|intros pkg Hpkg].
  eapply against_and_then; [by apply against_report_step|done|intros _ _].
  apply (against_bind _ _ _ (λ _, progress 0 (Some "completed") true)); [|by intros; apply against_ret]. rewrite task_id.
  apply (against_report 0); [done|right; left; done|by apply to_valid_ascii].
Qed.

Lemma against_Execute : against (progress 9 None false) (Execute daemon_registry rs c cfg task) exec_post.
Proof.
  eapply against_bind; [apply (against_silent _ _ (λ _, True)); [by split|done]|]. intros u. rewrite task_id.
  apply (against_mono (progress 9 None false) _ _ exec_post); [by intros w [Hw _]|done|]. apply against_running; [done..|].
  eapply against_and_then; [|done|intros ws _].
  - apply (against_silent_step 8 (λ _, True)); [done|apply quiet_silent, quiet_Create|done].
  - eapply against_bind; [apply against_execute_in|]. intros r. destruct (Ws_CleanupAfter _); [|by apply against_ret].
    eapply against_bind; [apply (against_silent _ _ (λ _, True)); [apply quiet_silent, quiet_Cleanup|done]|].
    intros v. apply against_ret. by intros w [Hw _].
Qed.

(** What has become of the task and of everything else. *)
Definition settled (r : fallible unit) (w : world R) : Prop :=
  (∃ t, t ∈ db_tasks (w_db w) ∧ Task_ID t = tid ∧ Task_AssignedWorkerID t = Some wid ∧
     Task_State t = match r with inl _ => TaskStateCompleted | inr _ => TaskStateFailed end) ∧
  (match r with
   | inl _ => ∃ out, db_outputs (w_db w) = (db_outputs (w_db w0) ++ [out])%list ∧ Out_TaskID out = tid ∧
                Out_WorkerID out = wid ∧ Out_ReviewStatus out = ReviewStatusPending
   | inr _ => db_outputs (w_db w) = db_outputs (w_db w0)
   end) ∧
  (∀ t, Task_ID t ≠ tid → t ∈ db_tasks (w_db w) ↔ t ∈ db_tasks (w_db w0)).

Lemma exec_post_settled r w : exec_post r w → settled r w.
Proof.
  intros H.
  assert (∃ st sent, progress 0 (Some st) sent w ∧
    st = match r with inl _ => TaskStateCompleted | inr _ => TaskStateFailed end ∧
    sent = match r with inl _ => true | inr _ => false end) as (st & sent & [Hr (f & Hf & Hfs) Hs Ho] & -> & ->)
    by (destruct r; by do 2 eexists).
  split; [|split].
  - destruct (proj2 Hr) as (t & Hin & _ & Hid & _ & Ha). exists t. split_and!; [done..|]. by apply Hs.
  - by destruct r.
  - intros t Ht. rewrite Hf, elem_of_bmap. split.
    + intros (t0 & -> & Hin). destruct (Hfs t0) as [E1 E2]. by rewrite E2 by congruence.
    + intros Hin. exists t. split; [by rewrite (proj2 (Hfs t))|done].
Qed.

(** A worker that holds the key to its task, with nine requests left in the minute. *)
Lemma grid_completes r h :
  ready 9 w0 → run o [] (Execute daemon_registry rs c cfg task) = (r, h) → settled r (here h).
Proof.
  intros Hready Hrun. assert (progress 9 None false w0) as H0.
  { constructor; [done| |done|done]. exists id. rewrite map_id. by split. }
  pose proof (against_Execute [] H0) as H. rewrite Hrun in H. by apply exec_post_settled.
Qed.
End steps.

(** *** From the queue *)

(** The scheduler gives the worker a task: it waits for the worker, whose own it is when it
    is of the worker's org unit. *)
Lemma dispatch_waits n w log t :
  staffed n w → NoDup (map Task_ID (db_tasks (w_db w))) → NoDup (map Worker_ID (db_workers (w_db w))) →
  (∀ wk, wk ∈ db_workers (w_db w) → Worker_ID wk = wid → Worker_OrgUnitID wk = org) →
  (∀ t', t' ∈ db_tasks (w_db w) → assigned_to wid t' = false) →
  tick w = (log, w0) → (t, wid) ∈ log → Task_ID t = tid →
  staffed n w0 ∧ waiting t w0 ∧ (Task_OrgUnitID t = org → own_task w0).
Proof.
  intros [Hf (k & Hu & Hk) Hw Hr] Hti Hwi Hworg Hno Ht Hin Hid.
  destruct (tick_waits w log w0 t wid Hti Hwi Hno Ht Hin)
    as (Htin & Hta & Honly & (wk & l & Hwk & Hwid & Hl) & _ & [made Htk] & Hsf & Hn & Hre).
  destruct (sched_frame_worker _ _ wk Hsf Hwk) as (wk' & Hwk' & Hid' & [= Ho' _] & Hag').
  pose proof Hsf as [Hids _ _ _ Hkeys _ _]. split_and!.
  - constructor.
    + pose proof (tick_faultless w Hf) as H. by rewrite Ht in H.
    + exists k. unfold unlocks. rewrite Hkeys, Hn. by split.
    + by rewrite (worker_exists_ids _ _ _ Hids).
    + unfold rate_count. by rewrite Hn, Hre.
  - constructor; [|done|done]. exists wk'. split_and!; [done| |congruence| |exists l; congruence].
    + intros x Hx Hxid. apply (NoDup_map_inj Worker_ID (db_workers (w_db w0))); [by rewrite Hids|done..|congruence].
    + rewrite Ho'. by apply Hworg.
  - intros Ho. exists t. split_and!; try done.
    + intros t' Hin' E. apply (NoDup_map_inj Task_ID (db_tasks (w_db w0))); [|done..|congruence].
      rewrite Htk, map_map. erewrite map_ext; [exact Hti|]. intros x. unfold dispatched. by case_match.
    + apply andb_true_iff in Hta as [Hta _]. by apply bool_decide_eq_true in Hta.
Qed.

(** One round of an idle daemon: a heartbeat, and handleTask with the task that it brings;
    [approved] is what the approval store says.  Where the rounds interleave with the rest of
    the daemon is in Daemon.v. *)
Definition daemon_round `{TZ : TimeZones} `{QT : Quoting} `{MR : MapRange} `{CU : JSONUnmarshal claudeOutput}
    (rs : Ruleset) (cfg : WConfig) (approved : string → bool) (hb : HeartbeatRequest) :
    prog (option (TaskAssignment * option (fallible unit))) :=
  r ← heartbeat_tick (HU := unmarshal_HeartbeatResponse) c hb;
  match fst r with
  | None => mret None
  | Some task =>
      now ← ask Now;
      if Allow (Evaluate cfg now task) || (String.eqb (mode_of cfg) "manual" && approved (TA_TaskID task))
      then x ← Execute daemon_registry rs c cfg task; mret (Some (task, Some x))
      else mret (Some (task, None))
  end.

(** *** Property *)

Section round.
Context `{TZ : TimeZones} `{QT : Quoting} `{MR : MapRange} `{CU : JSONUnmarshal claudeOutput}.
Variables (rs : Ruleset) (cfg : WConfig) (approved : string → bool).
Hypothesis files_sized : ∀ h p s, local _ h (ReadFile p) = Ok s → in_i64 (str_len s).
Hypothesis codes_sized : ∀ h path argv dir env pr, local _ h (Exec path argv dir env) = Ok pr → in_i64 (PR_ExitCode pr).

Definition round_post (t : Task) (res : option (TaskAssignment * option (fallible unit))) (w : world R) : Prop :=
  ∃ x, res = Some (assignment_of t, x) ∧
    match x with
    | None => (∃ now, Allow (Evaluate cfg now (assignment_of t)) = false) ∧ db_tasks (w_db w) = db_tasks (w_db w0) ∧
                db_outputs (w_db w) = db_outputs (w_db w0)
    | Some r => Task_OrgUnitID t = org → settled r w
    end.

Lemma against_round t hb body :
  Task_ID t = tid → (Task_OrgUnitID t = org → own_task w0) →
  C_workerID c = uuid_String wid → in_i64 heartbeatTTLSec → assignment_ok (assignment_of t) → delivery_fits t →
  HeartbeatRequest_Marshal hb = inl body → HB_Agents (decode_heartbeatRequest body).1 = None →
  against (λ w, unstarted 10 w ∧ waiting t w) (daemon_round rs cfg approved hb) (round_post t).
Proof.
  intros Hid Hown Hc Httl Hok Hfit Hbody Hag. eapply against_bind; [by apply (against_beat 9 t hb body)|].
  intros [task err]. intros h [Hw [= -> ->]]. revert h Hw. cbn [fst].
  change (against (unstarted 9) (now ← ask Now;
    (if Allow (Evaluate cfg now (assignment_of t)) || (String.eqb (mode_of cfg) "manual" && approved (TA_TaskID (assignment_of t)))
     then x ← Execute daemon_registry rs c cfg (assignment_of t); mret (Some (assignment_of t, Some x))
     else mret (Some (assignment_of t, None)))) (round_post t)).
  eapply against_bind; [by apply (against_silent _ _ (λ _, True))|]. intros now. destruct (_ || _) eqn:E.
  - eapply (against_bind _ _ _ (λ r w, Task_OrgUnitID t = org → settled r w)).
    + intros h [(Hst & Ht & Ho) _] Horg. apply exec_post_settled, against_Execute; try done; [cbn; congruence|].
      constructor; [split; [done|by eapply own_task_same; [apply Hown|]]| |done|done]. exists id. rewrite map_id. by split.
    + intros r. apply against_ret. intros w Hw. by exists (Some r).
  - apply orb_false_iff in E as [E _]. apply against_ret. intros w [(_ & Ht & Ho) _]. exists None. split_and!; eauto.
Qed.

(** C5: The whole way of a task, over both programs, when nothing interferes: the scheduler
    gives a queued task to a worker that has none waiting; the worker's next heartbeat
    brings it, byte for byte; and the daemon, if its policy or the user allows the task,
    executes it against the control plane of Router.v, request by request.  Then, whatever
    the disk, git and the agent answer: when Execute succeeds the task is completed and the
    control plane has stored exactly one new output, of this task and this worker, that
    awaits review; when it fails the task is failed and no output has been stored; and every
    other task is as the scheduler left it.  A task that is denied is left assigned.  This
    holds of a task of the worker's own org unit; but a task of another one is delivered to
    the worker as well.  The conditions: no statement of the control plane fails and nobody
    else is served; the worker's key is usable, unique for its prefix and has the two scopes,
    and ten requests are left in its org unit's minute; task and worker ids are unique;
    url.Parse accepts the three addresses, which go-chi routes to the three handlers; the
    texts of the task are UTF-8 and the heartbeat's answer is at most a mebibyte; the sizes
    of files, exit codes and the TTL are 64-bit integers. *)
Theorem grid_cycle w log t hb body res h :
  staffed 10 w → NoDup (map Task_ID (db_tasks (w_db w))) → NoDup (map Worker_ID (db_workers (w_db w))) →
  (∀ wk, wk ∈ db_workers (w_db w) → Worker_ID wk = wid → Worker_OrgUnitID wk = org) →
  (∀ t', t' ∈ db_tasks (w_db w) → assigned_to wid t' = false) →
  tick w = (log, w0) → (t, wid) ∈ log → Task_ID t = tid →
  C_workerID c = uuid_String wid → in_i64 heartbeatTTLSec → assignment_ok (assignment_of t) → delivery_fits t →
  HeartbeatRequest_Marshal hb = inl body → HB_Agents (decode_heartbeatRequest body).1 = None →
  run o [] (daemon_round rs cfg approved hb) = (res, h) →
  ∃ x, res = Some (assignment_of t, x) ∧
    match x with
    | None => (∃ now, Allow (Evaluate cfg now (assignment_of t)) = false) ∧ db_tasks (w_db (here h)) = db_tasks (w_db w0) ∧
                db_outputs (w_db (here h)) = db_outputs (w_db w0)
    | Some r =>
        Task_OrgUnitID t = org →
        (∃ t', t' ∈ db_tasks (w_db (here h)) ∧ Task_ID t' = tid ∧ Task_AssignedWorkerID t' = Some wid ∧
           Task_State t' = match r with inl _ => TaskStateCompleted | inr _ => TaskStateFailed end) ∧
        (match r with
         | inl _ => ∃ out, db_outputs (w_db (here h)) = (db_outputs (w_db w) ++ [out])%list ∧ Out_TaskID out = tid ∧
                      Out_WorkerID out = wid ∧ Out_ReviewStatus out = ReviewStatusPending
         | inr _ => db_outputs (w_db (here h)) = db_outputs (w_db w)
         end) ∧
        (∀ t', Task_ID t' ≠ tid → t' ∈ db_tasks (w_db (here h)) ↔ t' ∈ db_tasks (w_db w0))
    end.
Proof.
  intros Hst Hti Hwi Hworg Hno Ht Hin Hid Hc Httl Hok Hfit Hbody Hag Hrun.
  destruct (tick_waits w log w0 t wid Hti Hwi Hno Ht Hin) as (_ & _ & _ & _ & _ & _ & [_ _ _ _ _ _ <-] & _).
  destruct (dispatch_waits 10 w log t) as (Hst0 & Hwait & Hown); try done.
  pose proof (against_round t hb body Hid Hown Hc Httl Hok Hfit Hbody Hag [] (conj (conj Hst0 (conj eq_refl eq_refl)) Hwait)) as H.
  by rewrite Hrun in H.
Qed.
End round.
End client.
End grid.
