(* ===== verification/WWitnesses.v ===== *)
(** * Concrete inputs for the theorems about the worker and the configurations

    A valid worker configuration, a small diff with a secret, a history of approvals, and
    the runs of the witnesses. *)
From S2P Require Import Prelude GoStd Crypto Regexp Float64 Domain Scheduler GoPath CpConfig WConfig Policy.
From S2P Require Import Daemon DaemonFacts WScanner WScannerFacts Fixtures TaskHandler.
From S2P Require Import GoJson WProg WClient WClientFacts Reporter Workspace Monitor Adapters Executor ExecutorFacts Control.
From S2P Require Import RegexpSyntax Patterns Ruleset Preflight.
From Stdlib Require Import Ascii SpecFloat.

#[local] Open Scope string_scope.
#[local] Open Scope Z_scope.

(** ** External code *)

#[export] Instance demo_Quoting : Quoting := λ s, str1 chr_quote ++ s ++ str1 chr_quote.

Definition demo_cp_config : Config :=
  MkConfig (Cfg_Server default_config)
    (MkDatabaseConfig "postgres://localhost/grid" 20 5 10) (Cfg_Redis default_config)
    (MkSecurityConfig 65536 3 2 16 32 "secret") (MkSchedulerConfig 0 30 90)
    (Cfg_Dashboard default_config) (Cfg_Logging default_config).

(** A viper that finds a file with the settings of [demo_cp_config]. *)
#[export] Instance demo_Viper : Viper Config := λ _ _, Ok demo_cp_config.

(** ** Configuration *)

Lemma Load_validates_witness :
  Load "/etc/grid.yaml" = Ok demo_cp_config ∧ start_loops demo_cp_config = None.
Proof.
  split; [reflexivity|]. apply (Load_validates demo_Viper "/etc/grid.yaml" demo_cp_config eq_refl).
  left. vm_compute. discriminate.
Defined.

Definition demo_secret : string := "0123456789abcdef0123456789abcdef".

Definition demo_wconfig (mode : string) : WConfig :=
  let c := setDefaults "/var/lib/grid/work" in
  MkWConfig (MkWServerConfig "https://grid.example" "gw_key" "worker-1" 30 30 false 3) (W_Workspace c)
    (MkWSecurityConfig demo_secret true "" 4) (W_Execution c)
    (MkPolicyConfig mode []) (W_Logging c).

Definition demo_assignment : TaskAssignment :=
  MkAssignment "t-1" "title" "fix the bug" "code" "claude" ∅ "" "" 60.

(** ** The policy engine and the approvals *)

Lemma Evaluate_allows_witness : Allow (Evaluate (demo_wconfig "auto") 0 demo_assignment) = true.
Proof.
  apply Evaluate_allows; [simpl; set_solver|]. split_and!; [reflexivity|by left|by left].
Defined.

Definition demo_approvals : list (Z * approval_op) :=
  [(0, OpRequest "t-1"); (1 * Minute, OpApprove "t-1"); (2 * Minute, OpRequest "t-2"); (40 * Minute, OpApprove "t-2")].

Lemma approval_sound_witness :
  IsApproved "t-2" (approval_run demo_approvals) = false ∧
  ∃ h1 t h2 t0, demo_approvals = (h1 ++ (t, OpApprove "t-1") :: h2)%list ∧ (t0, OpRequest "t-1") ∈ h1 ∧
    t ≤ t0 + 30 * Minute ∧ ∀ t', (t', OpConsume "t-1") ∉ h2.
Proof. split; [vm_compute; reflexivity|]. apply approval_sound. vm_compute. reflexivity. Defined.

(** ** The daemon *)

Definition demo_daemon (mode : string) : daemon :=
  MkDaemon [demo_wconfig mode] 0 StateInit PRun [] [] None false NewApprovalStore false false.

Lemma demo_daemon_New mode :
  mode ∈ ["auto"; "manual"; "paused"] → daemon_New Quote (demo_wconfig mode) = Ok (demo_daemon mode).
Proof. rewrite !elem_of_cons. by intros [->|[->|[->|[]%elem_of_nil]]]. Qed.

Lemma daemon_one_task_witness :
  (length (d_exec (looping (demo_wconfig "auto"))) <= 1)%nat.
Proof.
  apply (daemon_one_task Quote (demo_wconfig "auto") (demo_daemon "auto") [LQuiet; LQuiet]
    (looping (demo_wconfig "auto"))); [reflexivity|apply run_to_loop].
Defined.

Lemma manual_mode_witness : LStart demo_assignment ∉ [LQuiet; LQuiet].
Proof.
  apply (manual_mode Quote (demo_wconfig "manual") (demo_daemon "manual") [LQuiet; LQuiet]
    (looping (demo_wconfig "manual"))); [reflexivity|apply run_to_loop|reflexivity|set_solver].
Defined.

Lemma shutdown_race_witness :
  ∃ tr d, drun (demo_daemon "auto") tr d ∧ d_main d = PEnded ∧ d_state d = StatePaused.
Proof. apply (shutdown_race Quote (demo_wconfig "auto")). reflexivity. Defined.

(** ** The scanner *)

(** The file had one line without a newline; the key is on line 2 of the new file. *)
Definition demo_diff : list file_diff :=
  [MkFileDiff ["diff --git a/main.go b/main.go"; "index 1f2e3d4..5a6b7c8 100644"] (Some (Some "main.go", Some "main.go"))
     [MkHunk (1, None) (1, Some 3) ""
        [HDel "package main"; HNoNewline; HAdd "package main"; HAdd "const key = AKIA0123456789ABCDEF"; HAdd "x"]];
   MkFileDiff ["diff --git a/old.go b/old.go"; "deleted file mode 100644"; "index 5a6b7c8..0000000"] (Some (Some "old.go", None))
     [MkHunk (1, None) (0, Some 0) "" [HDel "package old"]];
   MkFileDiff ["diff --git a/new.go b/new.go"; "new file mode 100644"; "index 0000000..5a6b7c8"] (Some (None, Some "new.go"))
     [MkHunk (0, Some 0) (1, None) "" [HAdd "const key = AKIA0123456789ABCDEF"]]].

Definition demo_plain_diff : list file_diff :=
  [MkFileDiff [] (Some (Some "main.go", Some "main.go"))
     [MkHunk (1, Some 3) (1, Some 4) " main"
        [HKeep "package main"; HAdd "const key = AKIA0123456789ABCDEF"; HDel "old"; HKeep "x"]]].

Ltac short_lines :=
  repeat (apply Forall_cons; split; [split_and!; vm_compute; [reflexivity|discriminate|reflexivity]|]); apply Forall_nil_2.

Lemma demo_diff_ok : diff_ok demo_diff.
Proof.
  split; [short_lines|].
  repeat apply Forall_cons_2; try apply Forall_nil_2;
    (split; [repeat constructor|split; [|vm_compute; repeat constructor]]);
    repeat apply Forall_cons_2; try apply Forall_nil_2;
    (split; [split; vm_compute; intuition discriminate|split; [split; vm_compute; intuition discriminate|]]);
    (split; [repeat constructor|]); first [by left; vm_compute|by right].
Defined.


(** ** Programs *)

(** net/url refuses control characters; the demonstration refuses nothing else. *)
Fixpoint has_control (s : string) : bool :=
  match s with
  | EmptyString => false
  | String c s => ((Ascii.nat_of_ascii c <? 32)%nat || (Ascii.nat_of_ascii c =? 127)%nat) || has_control s
  end.
#[export] Instance demo_URLParse : URLParse := λ url,
  if has_control url then Some "net/url: invalid control character in URL" else None.
#[export] Instance demo_FloatText : FloatText := λ _, "0".
#[export] Instance demo_RegisterUnmarshal : JSONUnmarshal RegisterResponse := λ _, inl (MkRegisterResponse "worker-1").
#[export] Instance demo_HeartbeatUnmarshal : JSONUnmarshal HeartbeatResponse := λ _, inl (MkHeartbeatResponse None).
#[export] Instance demo_ClaudeUnmarshal : JSONUnmarshal claudeOutput := λ _, inr "no JSON".
#[export] Instance demo_MapRange : MapRange := map_to_list.
#[export] Instance demo_MapRangeLaws : MapRangeLaws.
Proof. intros m. reflexivity. Qed.

(** An answer for every call: the status of the control plane, the files of a workspace and
    the agent's process are given; everything else succeeds. *)
Definition demo_oracle (status : Z) (files : list dir_file) (pr : process_result) : oracle := λ X _ c,
  match c in call X return X with
  | HttpDo _ => Ok (MkReply status "" (Ok "{}"))
  | Wait _ => true
  | Now => 0
  | CtxDone => false
  | WithTimeout _ => tt
  | MkdirAll _ => Ok tt
  | PathExists _ => true
  | RemoveAll _ => Ok tt
  | Clone _ _ _ => Cloned
  | Checkout _ _ => Ok tt
  | WalkDir _ => Ok files
  | ReadFile _ => Ok "content"
  | Getenv _ => ""
  | LookPath file => Ok ("/usr/bin/" ++ file)
  | WriteFile _ _ => Ok tt
  | Remove _ => Ok tt
  | Output _ _ => Ok pr
  | DiskFree _ => Ok (2 ^ 40)
  | CpuCounts => Ok 8
  | TotalRAM => Ok (2 ^ 34)
  | UserHomeDir => Ok "/home/u"
  | Executable => Ok "/usr/bin/grid-worker"
  | ReadDir _ => Ok ["BAT0"]
  | OpenAppend _ => Ok tt
  | HostSensors => Ok tt
  | HostInfo => Ok tt
  | Setpriority _ _ => Ok tt
  | IoprioSet _ _ _ => Ok tt
  | NetListen _ => Ok tt
  | Chmod _ _ => Ok tt
  | CloseListener _ => tt
  | ServiceCall _ _ => Ok tt
  | Interactive => true
  | Exec _ _ _ _ => Ok pr
  end.

Definition demo_client : Client := Client_New (W_Server (demo_wconfig "auto")).

Definition demo_beat : HeartbeatRequest := MkHeartbeatRequest "IDLE" (spec_of_int 5) 100 (spec_of_int 50) (spec_of_int 1) 0.
Definition demo_beat_body : string := json_Marshal (DObj [("state", DStr "IDLE"); ("cpu_percent", DNum "0");
  ("ram_mb_used", DInt 100); ("disk_free_gb", DNum "0"); ("battery_percent", DNum "0"); ("jobs_today", DInt 0)]).

Lemma heartbeat_backoff_witness :
  run (demo_oracle 503 [] (MkProcess 0 "" "")) [] (heartbeat_loop demo_client 30 (λ _, demo_beat) 3 (backoff_level 6)) =
  (([], LoopRunning (300 * Second)),
   outage_calls demo_client 30 demo_beat_body (MkReply 503 "" (Ok "{}")) 6 3).
Proof.
  assert (∀ k, backoff_level k = backoff_level (outage 0 (replicate k (Some (typed_error (ServerError 503 "")))))) as Hk.
  { intros k. f_equal. assert (∀ j, outage j (replicate k (Some (typed_error (ServerError 503 "")))) = (j + k)%nat) as H;
      [|by rewrite H]. induction k as [|k IH]; intros j; [simpl; lia|]. simpl in *. rewrite IH. lia. }
  rewrite (Hk 6%nat).
  apply (heartbeat_backoff (demo_oracle 503 [] (MkProcess 0 "" "")) demo_client 30 (λ _, demo_beat) demo_beat_body
    (MkReply 503 "" (Ok "{}")) "{}" 3 [] (replicate 6 (Some (typed_error (ServerError 503 ""))))); try reflexivity.
  - intros e He (code & msg & E). apply elem_of_replicate in He as [He _]. injection He as ->. discriminate E.
  - simpl. lia.
Defined.

Lemma Pack_contained_witness :
  ∃ e, (run (demo_oracle 200 [] (MkProcess 0 "" "")) [] (Pack "t-1" "worker-1" "/work/t-1" demo_secret
    ["out/a.txt"; "../t-2/secret"])).1 = inr e.
Proof.
  apply (Pack_contained (demo_oracle 200 [] (MkProcess 0 "" "")) [] "t-1" "worker-1" "/work/t-1" demo_secret
    ["out/a.txt"; "../t-2/secret"] (λ _, "content")); [reflexivity|].
  apply Exists_cons_tl, Exists_cons_hd. vm_compute. reflexivity.
Defined.

Definition demo_package : OutputPackage := MkOutputPackage "t-1" "worker-1" [] [] "00".

Lemma Submit_once_witness :
  ∃ req r, (run (demo_oracle 503 [] (MkProcess 0 "" "")) [] (Reporter_Submit demo_client demo_package)).2 =
    [Event (HttpDo req) r].
Proof.
  destruct (Submit_once (demo_oracle 503 [] (MkProcess 0 "" "")) [] demo_client demo_package eq_refl) as (req & r & E & _).
  exists req, r. exact E.
Defined.

Lemma workspace_confined_witness :
  taskPath "/var/lib/work" "//" = "/var/lib/work" ∧ taskPath "/var/lib/work" "../../etc" = "/var/lib/work/etc" ∧
  ∃ name, plain name ∧ clean_segments (taskPath "/var/lib/work" "t-1") = (clean_segments "/var/lib/work" ++ [name])%list.
Proof.
  split; [reflexivity|]. split; [reflexivity|].
  apply (workspace_confined "/var/lib/work" "t-1"); [reflexivity|by right].
Defined.

Definition demo_gemini_run :=
  run (demo_oracle 200 [] (MkProcess 0 "done" "")) [] (gemini_Execute (MkExecuteRequest "/w" "code" "do it" ∅)).

Lemma agents_confined_witness :
  ∃ a, Registry_Get "gemini" daemon_registry = Some a ∧ AA_ID a = "gemini" ∧
  ∃ binary keys argv es, agent_profile "gemini" (MkExecuteRequest "/w" "code" "do it" ∅) = Some (binary, keys, argv) ∧
    demo_gemini_run.2 = es ∧ agent_trace binary keys argv "/w" es demo_gemini_run.1.
Proof.
  exists gemini_Adapter. split; [reflexivity|]. split; [reflexivity|].
  destruct (agents_confined "gemini" gemini_Adapter (MkExecuteRequest "/w" "code" "do it" ∅)
    (demo_oracle 200 [] (MkProcess 0 "done" "")) []) as (b & k & v & Hp & (es & E & Ht) & _); [reflexivity|].
  exists b, k, v, es. split; [exact Hp|]. split; [exact E|exact Ht].
Defined.

(** The task with an id that spoils the address of its status. *)
Definition demo_bad_assignment : TaskAssignment :=
  MkAssignment (String chr_lf "t-1") (TA_Title demo_assignment) (TA_Description demo_assignment)
    (TA_TaskType demo_assignment) (TA_AIAgent demo_assignment) (TA_Options demo_assignment)
    (TA_RepoURL demo_assignment) (TA_Branch demo_assignment) (TA_TimeoutSec demo_assignment).

Definition demo_execution (task : TaskAssignment) : list event :=
  (run (demo_oracle 200 [] (MkProcess 0 "" "")) []
     (Execute daemon_registry hardcodedRuleset demo_client (demo_wconfig "auto") task)).2.

Lemma execution_protocol_witness :
  (∃ l1 last, observe (demo_execution demo_assignment) = (l1 ++ [OStatus last])%list) ∧
  (∃ l1, observe (demo_execution demo_bad_assignment) = l1 ∧ ∀ body, OStatus body ∉ l1).
Proof.
  split.
  - destruct (execution_protocol (demo_oracle 200 [] (MkProcess 0 "" "")) hardcodedRuleset demo_client (demo_wconfig "auto")
      demo_assignment []) as (es & l1 & last & st & msg & E & Ho & _).
    exists l1, last. unfold demo_execution. rewrite E. exact Ho.
  - destruct (execution_protocol (demo_oracle 200 [] (MkProcess 0 "" "")) hardcodedRuleset demo_client (demo_wconfig "auto")
      demo_bad_assignment []) as (es & l1 & last & st & msg & E & Ho & Hb & _).
    exists l1. unfold demo_execution. rewrite E. split; [by rewrite <-(app_nil_r l1)|].
    intros body Hin. by destruct (Hb body Hin) as [? _].
Defined.

Definition demo_leak : list dir_file :=
  [MkDirFile "main.go" (Some 40) (Some "key := AKIA0123456789ABCDEF")].

Lemma secrets_stop_execution_witness :
  ∃ e, (run (demo_oracle 200 demo_leak (MkProcess 0 "" "")) []
      (Execute daemon_registry hardcodedRuleset demo_client (demo_wconfig "auto") demo_assignment)).1 = inr e.
Proof.
  destruct (secrets_stop_execution (demo_oracle 200 demo_leak (MkProcess 0 "" "")) hardcodedRuleset demo_client
    (demo_wconfig "auto") demo_assignment [] eq_refl (λ _, eq_refl)) as (es & _ & H & _).
  apply (H demo_leak); [done|vm_compute; reflexivity].
Defined.

Lemma failed_agent_completes_witness :
  ∃ es l1, run (demo_oracle 200 [] (MkProcess (-1) "killed" "")) []
      (Execute daemon_registry hardcodedRuleset demo_client (demo_wconfig "auto") demo_assignment) = (inl tt, es) ∧
    observe es = (l1 ++ report_if (reports_sent demo_client (TA_TaskID demo_assignment)) completed_report)%list.
Proof.
  apply (failed_agent_completes (demo_oracle 200 [] (MkProcess (-1) "killed" "")) hardcodedRuleset demo_client
    (demo_wconfig "auto") demo_assignment [] (MkProcess (-1) "killed" "") [] claude_Adapter); try done.
  - by left.
  - intros ? f. by exists ("/usr/bin/" ++ f).
  - intros ? req. by exists (MkReply 200 "" (Ok "{}")).
Defined.

(** ** The control socket *)

Definition demo_ping : Command := MkCommand "ping" "".
Definition demo_pong : Response := MkResp true (json_Marshal (DStr "pong")) "".
#[export] Instance demo_CommandUnmarshal : JSONUnmarshal Command :=
  λ s, if String.eqb s (Command_Marshal demo_ping) then inl demo_ping else inr "invalid".
#[export] Instance demo_ResponseUnmarshal : JSONUnmarshal Response :=
  λ s, if String.eqb s (Response_Marshal demo_pong) then inl demo_pong else inr "invalid".
Definition demo_handlers : gmap string (@CommandHandler nat) :=
  {["ping" := λ _ n, (Ok (Some (DStr "pong")), S n)]}.

Lemma control_roundtrip_witness : SendCommand demo_handlers demo_ping 0%nat = (inl demo_pong, 1%nat).
Proof.
  apply (control_roundtrip demo_handlers [] "" demo_ping 0%nat).
  - by apply Forall_nil.
  - exact I.
  - reflexivity.
  - split; [reflexivity|vm_compute; reflexivity].
  - vm_compute. discriminate.
Defined.

(** ** Rulesets and preflight *)

(** A YAML reader that knows the embedded file, and regexp.Compile on the supported syntax. *)
#[export] Instance demo_RulesetUnmarshal : RulesetUnmarshal :=
  λ s, if String.eqb s "embedded" then inl embedded_raw else inr "yaml: unknown document".
#[export] Instance demo_RegexpCompile : RegexpCompile :=
  λ p, match re_parse p with Some r => inl r | None => inr "unsupported" end.

Lemma demo_CompileParses : CompileParses.
Proof. intros p r E. unfold regexp_Compile, demo_RegexpCompile. rewrite E. exists r. split; reflexivity. Qed.

Lemma ruleset_loading_witness : DefaultRuleset "embedded" ≡ hardcodedRuleset ∧ DefaultRuleset "other" ≡ hardcodedRuleset.
Proof.
  split.
  - apply (proj2 (proj2 (ruleset_loading "embedded")) demo_CompileParses). left. reflexivity.
  - apply (proj2 (proj2 (ruleset_loading "other")) demo_CompileParses). right. right. by eexists.
Defined.

#[export] Instance demo_FloatFmt : FloatFmt := λ _ _, "0".
#[export] Instance demo_InstantText : InstantText := λ _, "now".
#[export] Instance demo_HTTPDate : HTTPDate := λ _, inl 0.

(** A machine on which the checks pass. *)
Definition demo_machine : oracle := λ X h c,
  match c in call X return X with
  | ReadFile _ => Ok "test"
  | c => demo_oracle 200 [] (MkProcess 0 "git version 2.43.0" "") _ h c
  end.

