(* ===== verification/WireWitnesses.v ===== *)
(** * Concrete inputs for the theorems about the two programs together

    A small JSON library: errors have a fixed text and every floating-point number prints as
    zero; the texts of integers are read. *)
From S2P Require Import Prelude GoStd Float64 Domain RedisStore TaskHandler WorkerHandler OutputHandler Fixtures.
From S2P Require Import CpConfig WConfig Policy Daemon DaemonFacts GoJson WProg WClient Control WWitnesses.
From S2P Require Import Witnesses World PgStore Security Http Middleware MiddlewareFacts Router WScanner Reporter Workspace Adapters.
From S2P Require Import Scheduler SchedulerFacts Executor ExecutorFacts JsonParse JsonDecode Messages Jsonb Rows Wire DaemonControl Grid.
From Stdlib Require Import SpecFloat.

#[local] Open Scope string_scope.
#[local] Open Scope Z_scope.

#[export] Instance demo_JSONErrorText : JSONErrorText := λ text target, "invalid " ++ target.
#[export] Instance demo_ParseFloat64 : ParseFloat64 := λ s, spec_of_int <$> Atoi s.
#[export] Instance demo_TimeUnmarshal : TimeUnmarshal := λ _, None.

(** ** The wire *)

Definition demo_submission : OutputSubmission :=
  MkOutputSubmission (uuid_String 23) "00" [WClient.MkArtifactMeta "out/a.txt" "ff" 12] [("agent", DStr "claude")] "00".
Definition demo_register : RegisterRequest := MkRegisterRequest "hash" ["claude"] "linux" (S754_zero false).
Definition demo_mine : Task := demo_task 23 1 5 (demo_now - 900 * Second) TaskStateAssigned (Some 12).

Lemma wire_agrees_witness :
  decode_updateTaskStateRequest (TaskStatusRequest_Marshal (MkTaskStatusRequest "completed" "")) =
    (MkUpdateTaskStateRequest "completed" None, None) ∧
  decode_submitRequest (OutputSubmission_Marshal demo_submission) =
    (MkSubmitRequest (uuid_String 23) "00" [Domain.MkArtifactMeta "out/a.txt" "ff" 12] (metadata_of [("agent", DStr "claude")]), None) ∧
  ∃ text, unmarshal_HeartbeatResponse text = inl (MkHeartbeatResponse (Some (assignment_of demo_mine))).
Proof.
  destruct (wire_agrees (MkTaskStatusRequest "completed" "") demo_submission demo_register
    (default "" (match RegisterRequest_Marshal demo_register with inl s => Some s | inr _ => None end)) demo_beat demo_beat_body 12 90 demo_mine)
    as (H1 & H2 & _ & _ & _ & (text & _ & H6) & _).
  - split; (constructor; [|constructor]); [split; simpl; lia|by split].
  - split; reflexivity.
  - reflexivity.
  - reflexivity.
  - reflexivity.
  - reflexivity.
  - split; simpl; lia.
  - split; simpl; lia.
  - reflexivity.
  - split; simpl; lia.
  - apply valid_ascii. vm_compute. reflexivity.
  - split; [repeat (constructor; [apply valid_ascii; vm_compute; reflexivity|]); constructor|]. split; [intros k v E; discriminate E|change (in_i64 3600); split; lia].
  - split; [etransitivity; [exact H1|vm_compute; reflexivity]|].
    split; [etransitivity; [exact H2|vm_compute; reflexivity]|exists text; exact H6].
Defined.

(** ** The command line *)

(** A quoting whose output is always valid UTF-8. *)
Definition blank_Quoting : Quoting := λ _, "task".
Definition demo_idle : daemon := set_serving (set_state StateIdle (demo_daemon "auto")).

Lemma cli_commands_witness :
  d_state (runPause (QT := blank_Quoting) 0 None demo_idle).2 = StatePaused ∧
  (runApprove (QT := blank_Quoting) 0 None "t-1" demo_idle).1 ≠ inl "task task approved
".
Proof.
  destruct (cli_commands (QT := blank_Quoting) 0 demo_idle (demo_wconfig "auto") "t-1") as (_ & Hp & _ & Ha & _).
  - reflexivity.
  - reflexivity.
  - right. right. by left.
  - intros s. by apply valid_ascii.
  - by apply valid_ascii.
  - vm_compute. discriminate.
  - vm_compute. reflexivity.
  - split; [apply Hp|]. intros E. apply Ha in E as [_ E]. vm_compute in E. discriminate.
Defined.

(** ** A worker against the control plane *)

(** Worker 11 is idle and has the key; two tasks are queued, the first of them of the worker's
    org unit or of another one. *)
Definition round_db (task_org : uuid) : pgdb :=
  MkDB [demo_org 1; demo_org 2] [demo_worker 11 1 WorkerStateIdle (Some (demo_now - Second))]
    [demo_task 21 1 3 (demo_now - 60 * Second) TaskStateQueued None;
     demo_task 22 task_org 8 (demo_now - 30 * Second) TaskStateQueued None]
    [demo_key 31 1 (Some 11) ["tasks:write"; "workers:heartbeat"]] [] [] [] [].
Definition round_start (task_org : uuid) : world toy_redis :=
  MkWorld demo_now [] [501; 502; 503] "" [] [] [] (round_db task_org) demo_queue.
Definition round_tick (task_org : uuid) := tick (round_start task_org).
Definition round_task (task_org : uuid) : Task :=
  task_set_assigned demo_now 11 (demo_task 22 task_org 8 (demo_now - 30 * Second) TaskStateQueued None).

Definition round_client : Client := MkClient "https://grid.example" demo_token (uuid_String 11).
Definition demo_local : oracle := demo_oracle 0 [] (MkProcess 0 "done" "").
Definition demo_round (task_org : uuid) :=
  run (grid_oracle DefaultArgonParams 90 60 "grid" "https://grid.example" "10.0.0.1:4242" demo_local (round_tick task_org).2) []
    (daemon_round round_client hardcodedRuleset (demo_wconfig "auto") (λ _, false) demo_beat).

Definition round_end (task_org : uuid) : world toy_redis :=
  world_after DefaultArgonParams 90 60 "grid" "https://grid.example" "10.0.0.1:4242" (round_tick task_org).2 (demo_round task_org).2.

(** A task of org unit 2 is assigned to the worker of org unit 1, delivered and executed; the
    worker's reports on it are refused and it stays assigned, so that the next heartbeat
    brings it again, while its output is stored. *)
Example demo_round_crosses :
  (demo_round 2).1 = Some (assignment_of (round_task 2), Some (inl tt)) ∧
  map (λ t, (Task_ID t, Task_State t)) (db_tasks (w_db (round_end 2))) = [(21, TaskStateQueued); (22, TaskStateAssigned)] ∧
  map (λ out, (Out_TaskID out, Out_WorkerID out)) (db_outputs (w_db (round_end 2))) = [(22, 11)].
Proof. vm_compute. split_and!; reflexivity. Qed.

Example demo_round_succeeds : (demo_round 1).1 = Some (assignment_of (round_task 1), Some (inl tt)).
Proof. vm_compute. reflexivity. Qed.

Lemma grid_cycle_witness :
  ∃ t out, t ∈ db_tasks (w_db (round_end 1)) ∧ Task_ID t = 22 ∧ Task_State t = TaskStateCompleted ∧
    db_outputs (w_db (round_end 1)) = [out] ∧ Out_TaskID out = 22.
Proof.
  destruct (grid_cycle DefaultArgonParams 90 60 "grid" "https://grid.example" "10.0.0.1:4242" demo_token 1 11 22
    ltac:(split; vm_compute; reflexivity) ltac:(vm_compute; lia) ltac:(vm_compute; reflexivity) demo_local (round_tick 1).2 round_client
    ltac:(constructor; reflexivity) eq_refl eq_refl) with (TZ := demo_TimeZones) (QT := demo_Quoting) (MR := demo_MapRange)
    (CU := demo_ClaudeUnmarshal) (rs := hardcodedRuleset) (cfg := demo_wconfig "auto") (approved := λ _ : string, false)
    (w := round_start 1) (log := (round_tick 1).1) (t := round_task 1) (hb := demo_beat) (body := demo_beat_body)
    (res := (demo_round 1).1) (h := (demo_round 1).2) as (x & Hx & H).
  - intros z Hz. unfold parse_float, demo_ParseFloat64. rewrite Atoi_Itoa by done. by eexists.
  - apply valid_ascii. vm_compute. reflexivity.
  - intros ? ? s [= <-]. split; vm_compute; [discriminate|reflexivity].
  - intros ? ? ? ? ? pr [= <-]. split; vm_compute; [discriminate|reflexivity].
  - constructor.
    + reflexivity.
    + exists (demo_key 31 1 (Some 11) ["tasks:write"; "workers:heartbeat"]).
      split; [split_and!; [by left|reflexivity|reflexivity|done|vm_compute; reflexivity]|].
      split; [by intros k' ->%list_elem_of_singleton|]. split_and!; [reflexivity|reflexivity|by left|by right; left].
    + reflexivity.
    + vm_compute. discriminate.
  - apply (bool_decide_unpack _). vm_compute. exact I.
  - apply (bool_decide_unpack _). vm_compute. exact I.
  - by intros wk ->%list_elem_of_singleton.
  - by intros t [->| ->%list_elem_of_singleton]%elem_of_cons.
  - apply surjective_pairing.
  - assert ((round_tick 1).1 = [(round_task 1, 11)]) as -> by (vm_compute; reflexivity). by left.
  - reflexivity.
  - reflexivity.
  - split; vm_compute; [discriminate|reflexivity].
  - split; [|split].
    + repeat (constructor; [apply valid_ascii; vm_compute; reflexivity|]). constructor.
    + by intros k v Hk.
    + split; vm_compute; [discriminate|reflexivity].
  - intros text Ht. vm_compute in Ht. injection Ht as <-. vm_compute. discriminate.
  - reflexivity.
  - vm_compute. reflexivity.
  - apply surjective_pairing.
  - rewrite demo_round_succeeds in Hx. injection Hx as <-.
    destruct H as ((t & Hin & Hid & _ & Hs) & (out & Ho & Ht & _) & _); [reflexivity|].
    exists t, out. exact (conj Hin (conj Hid (conj Hs (conj Ho Ht)))).
Defined.

(** ** Rows

    A driver that keeps the values as they are, and the texts of documents. *)

Inductive toy_column :=
  | TNull
  | TInt (z : Z)
  | TText (s : string)
  | TTexts (l : list string).

Definition toy_int (c : toy_column) : option Z := match c with TInt z => Some z | _ => None end.
Definition toy_text (c : toy_column) : option string := match c with TText s => Some s | _ => None end.
Definition toy_ptr {A} (scan : toy_column → option A) (c : toy_column) : option (option A) :=
  match c with TNull => Some None | _ => Some <$> scan c end.

#[export] Instance toy_Pgx : Pgx toy_column := {|
  col_null := TNull;
  col_uuid := TInt;
  col_text := TText;
  col_int4 := TInt;
  col_timestamptz := λ t, TInt (UnixMicro t);
  col_texts := TTexts;
  col_jsonb := TText;
  scan_uuid := toy_int;
  scan_uuid_ptr := toy_ptr toy_int;
  scan_text := toy_text;
  scan_text_ptr := toy_ptr toy_text;
  scan_int := toy_int;
  scan_time := λ c, (λ us, us * 1000) <$> toy_int c;
  scan_time_ptr := toy_ptr (λ c, (λ us, us * 1000) <$> toy_int c);
  scan_texts := toy_ptr (λ c, match c with TTexts l => Some l | _ => None end);
  scan_bytes := toy_ptr toy_text;
|}.

#[export] Instance toy_PgxLaws : PgxLaws toy_column.
Proof.
  split; try done; try (by intros [|]).
  intros d Hd. exists (json_Marshal d), (jdoc_read d). split; [done|]. split.
  - destruct (json_roundtrip d "" (jsonb_ok_doc d Hd) I) as (_ & Hp & _). rewrite <-(str_app_nil_r (json_Marshal d)). by apply Hp.
  - apply jsonb_same_refl, jdoc_read_read.
Qed.

Definition demo_options : gmap string json :=
  <["branch" := JStr "main"]> (<["tags" := JArr [JBool true; JNum (spec_of_int 0); JObj [("b", JNull); ("a", JStr "x")]]]> ∅).
Definition demo_rich_task : Task :=
  MkTask 21 1 (Some 7) "title" "text" "code" 5 "claude" TaskStateQueued None (demo_now + 1234567) (Some (demo_now + 999)) None
    None None "" 0 3 demo_options.

Lemma demo_text_ok s : str_all (λ c, (0 <? byte_val c) && (byte_val c <? 128)) s = true → text_ok s.
Proof.
  intros H. assert (str_all (λ c, byte_val c <? 128) s = true ∧ str_all (λ c, negb (byte_val c =? 0)) s = true) as [? ?].
  { induction s as [|c s IH]; [done|]. cbn [str_all] in *. apply andb_true_iff in H as [Hc Hs]. destruct (IH Hs) as [-> ->]. lia. }
  split; [by apply valid_ascii|done].
Qed.

Lemma demo_task_storable : task_storable demo_rich_task.
Proof.
  constructor; cbn; unfold uuid_ok, time_ok, demo_now, Second; try (split_and!; try done; (lia || by apply demo_text_ok)).
  unfold demo_options, map_ok. repeat (apply map_Forall_insert_2); [split; [by apply demo_text_ok|]..|done].
  - by apply demo_text_ok.
  - cbn. split_and!; try done; try (by apply demo_text_ok).
    by apply (bool_decide_unpack _).
Qed.

Definition demo_stored_task := scanTask (CreateTask_args (C := toy_column) demo_rich_task).

(** The nanoseconds are gone. *)
Example demo_stored_times :
  match demo_stored_task with Ok t => (Task_QueuedAt t - demo_now, Task_AssignedAt t) | Err _ => (0, None) end =
  (1234000, Some demo_now).
Proof. vm_compute. reflexivity. Qed.

Definition demo_row_worker : Worker := demo_worker 11 1 WorkerStateIdle (Some demo_now).
Definition demo_row_output : Domain.OutputPackage :=
  Domain.MkOutputPackage 41 21 11 "00" [Domain.MkArtifactMeta "out/a.txt" "ff" 12] demo_options ReviewStatusPending None demo_now None.

Lemma demo_options_ok : map_ok demo_options.
Proof. apply demo_task_storable. Qed.

Lemma demo_row_worker_storable : worker_storable demo_row_worker.
Proof.
  unfold worker_storable; cbn; unfold uuid_ok, time_ok, demo_now, Second.
  split_and!; try done; try lia; try (by apply demo_text_ok).
  rewrite !Forall_cons. split_and!; by apply demo_text_ok || constructor.
Qed.

Lemma demo_row_output_storable : output_storable demo_row_output.
Proof.
  unfold output_storable; cbn; unfold uuid_ok, time_ok, demo_now, Second.
  split_and!; try done; try lia; try (by apply demo_text_ok); [|apply demo_options_ok].
  constructor; [|constructor]. unfold artifact_ok, in_i64. cbn. split_and!; try lia; by apply demo_text_ok.
Qed.

Lemma rows_read_back_witness :
  (∃ l, read_rows scanTask (List.map (CreateTask_args (C := toy_column)) [demo_rich_task]) false = Ok l ∧
    Forall2 (λ t t', t' = task_stored t (Task_Options t') ∧ Task_Options t' ≡ Task_Options t) [demo_rich_task] l) ∧
  queryWorkers (Ok ([RegisterWorker_args (C := toy_column) demo_row_worker], false)) = Ok [worker_stored demo_row_worker] ∧
  (∃ l, read_rows scanOutput [CreateOutput_args (C := toy_column) demo_row_output] false = Ok l ∧
    Forall2 (λ o o', o' = output_stored o (Out_Metadata o') ∧ Out_Metadata o' ≡ Out_Metadata o) [demo_row_output] l).
Proof.
  destruct (rows_read_back (C := toy_column) [demo_rich_task] [demo_row_worker] [] [demo_row_output] [] []) as (H1 & H2 & _ & H4 & _);
    [apply Forall_singleton, demo_task_storable|apply Forall_singleton, demo_row_worker_storable|constructor
    |apply Forall_singleton, demo_row_output_storable|constructor|constructor|by split_and!].
Defined.
