(* ===== verification/LifeWitnesses.v ===== *)
(** * Concrete inputs for the theorems about the dashboard, the process and its commands *)
From S2P Require Import Prelude GoStd Float64 Domain World RedisStore PgStore Http AdminHandlers Fork Snapshots Fixtures CpConfig.
From S2P Require Import ServerMain ServerLife GoJson JsonParse JsonDecode WProg WClient Hub Projector Sse GoTab WConfig Policy Ruleset Preflight Cli WWitnesses WireWitnesses.

#[local] Open Scope string_scope.
#[local] Open Scope Z_scope.

(** ** Snapshots *)

Lemma never_hangs {W A} (cut : W → option A) (w : W) : responsive (λ _ _, false) cut w.
Proof. intros i. by left. Qed.

Lemma snapshot_any_schedule_witness :
  ∃ ws n s, snapshot_run eq 1 (demo_world demo_queue) ws n s ∧ fork_done s = true ∧
    fk_value s = (build_snapshot 1 (demo_world demo_queue)).1.
Proof.
  destruct (fork_completes eq (λ _ _, false) (λ _, None) store_panel count_error _ _ _ _ (never_hangs _)
    (fork_nil eq (λ _ _, false) (λ _, None) store_panel count_error (fork_start (demo_world demo_queue) (MkSnapshot (w_now (demo_world demo_queue)) [] [] [] [] [] []) 0%nat (snapshot_queries 1))))
    as (ws & n & s & Hr & Hd).
  exists ws, n, s. split; [exact Hr|]. split; [exact Hd|].
  destruct (snapshot_any_schedule eq 1 (demo_world demo_queue) ws n s Hr Hd) as [_ H]. apply H; [reflexivity|auto].
Defined.

(** A store whose newer methods find nothing, and fail for the token usage. *)
#[local] Instance demo_SnapshotStore : SnapshotStore toy_redis := {|
  ListTasksByOrgAndState := λ _ _ _ _ w, (Ok [], w);
  ListRecentCompletedTasks := λ _ _ _ w, (Ok [], w);
  GetTokenUsageByAgent := λ _ _ w, (Err ErrUnavailable, w);
  GetLeaderboardFull := λ _ _ w, (Ok [], w);
  GetSecurityEvents := λ _ _ _ w, (Ok [], w);
|}.

(** The whole of Build on a store that answers, and on one that does not answer at all, 2.5
    seconds later. *)
Definition demo_start : fork (E := option error) :=
  fork_start (demo_world demo_queue) (MkDashSnapshot [] [] [] [] [] [] [] (w_now (demo_world demo_queue))) None (build_queries 1).
Definition demo_late : world toy_redis :=
  set_now (w_now (demo_world demo_queue) + 2500 * Millisecond) (demo_world demo_queue).


(** ** The projector *)

(** Streams that remember, for each key and group, what the group has not been given. *)
Definition toy_streams : Type := string → string → option (list XMessage).

Definition at_group (key g : string) (f : option (list XMessage) → option (list XMessage)) (s : toy_streams) : toy_streams :=
  λ k g', if String.eqb k key && String.eqb g' g then f (s k g') else s k g'.

#[local] Instance toy_Streams : Streams toy_streams := {|
  st_XGroupCreateMkStream := λ key g _ s, at_group key g (λ l, Some (default [] l)) s;
  st_XReadGroup := λ key g _ n s,
    (take (Z.to_nat n) (default [] (s key g)), at_group key g (λ l, drop (Z.to_nat n) <$> l) s);
  st_XAck := λ _ _ _ s, s;
  st_XAdd := λ args id s k g,
    if String.eqb k (XA_Stream args) then (λ l, (l ++ [MkXMessage id (XA_Values args)])%list) <$> s k g else s k g;
  st_todo := λ key g s, s key g;
|}.

Lemma at_group_eq key g f s : at_group key g f s key g = f (s key g).
Proof. unfold at_group. by rewrite !String.eqb_refl. Qed.

#[local] Instance toy_StreamsLaws : StreamsLaws toy_streams.
Proof.
  constructor; intros; cbn in *.
  - apply at_group_eq.
  - exists (Z.to_nat n). rewrite at_group_eq, H. by split.
  - rewrite at_group_eq, H. cbn. by rewrite take_nil.
  - done.
  - exists 0%nat. by rewrite String.eqb_refl.
  - by rewrite (proj2 (String.eqb_neq _ _)) by done.
Qed.

Definition demo_event : jdoc := DObj [("task", DStr "t-1")].
Definition demo_added : XMessage := MkXMessage "1-0" (<["type" := "task.done"]> {["data" := json_Marshal demo_event]}).

Lemma projector_at_most_once_witness :
  ∃ s, proj_steps (S := toy_streams) 1 (proj_init (λ _ _, None)) s ∧ pj_log s = [processMessage demo_added] ∧
    ∃ l, pj_log s = map processMessage l ∧ l `sublist_of` pj_published s.
Proof.
  set (s0 := (λ _ _, None) : toy_streams).
  set (s1 := st_XGroupCreateMkStream (stream_key 1) consumerGroup "$" s0).
  set (args := MkXAddArgs (stream_key 1) 1000 true (msg_Values demo_added)).
  set (s2 := st_XAdd args "1-0" s1).
  assert (proj_steps (S := toy_streams) 1 (proj_init s0)
    (MkProj (proj_read 1 s2).2 (Some (PAck demo_added [])) [processMessage demo_added] [demo_added])) as Hr.
  { eapply rtc_l; [apply pj_start|]. eapply rtc_l; [apply pj_create|]. fold s1.
    eapply rtc_l; [by apply (pj_publish 1 s1 (Some PTop) [] [] "task.done" (inl demo_event) args "1-0")|]. fold s2.
    eapply rtc_l; [apply pj_read|]. eapply rtc_l; [|apply rtc_refl]. apply (pj_handle 1 (proj_read 1 s2).2 demo_added [] []). }
  eexists. split; [exact Hr|]. split; [reflexivity|].
  exact (proj1 (projector_at_most_once 1 s0 _ eq_refl Hr)).
Defined.

(** ** The event stream *)

Definition demo_connection : Hub.Client := MkClient 1 7 0.

Lemma sse_decodes_witness :
  ∃ bytes, ServeSSE true (Some demo_connection) 9 [processMessage demo_added] = SseStream sse_headers bytes ∧
    parse_stream bytes = [message_of (connected_event 9 demo_connection); message_of (processMessage demo_added)].
Proof.
  apply (sse_decodes (FT := demo_FloatText) ltac:(intros f; vm_compute; reflexivity) demo_connection 9 [processMessage demo_added]).
  repeat constructor; vm_compute; first [reflexivity|discriminate].
Defined.

(** ** The process *)

Definition demo_server_config : Config :=
  MkConfig (Cfg_Server default_config) (Cfg_Database demo_cp_config) (Cfg_Redis default_config) (Cfg_Security demo_cp_config)
    (Cfg_Scheduler default_config) (Cfg_Dashboard default_config) (Cfg_Logging default_config).
Definition server_viper : Viper Config := λ _ _, Ok demo_server_config.

(** The process comes up, serves a request, is told to stop while the scheduler is at work;
    the goroutine that the request has left behind takes a connection, and run has to wait
    for it in pg.Close. *)
Definition demo_life : list ServerMain.event :=
  [EvMain None; EvMain None; EvMain None; EvMain None; EvMain None; EvMain None; EvMain None; EvLoopRuns TheScheduler; EvMain None;
   EvLoopRuns TheReaper; EvMain None; EvRequest; EvLoopTick TheScheduler; EvSignal; EvMain None; EvRequestEnds 1;
   EvConnTaken; EvMain None].
Definition demo_closing : list ServerMain.event :=
  [EvMain None; EvMain None; EvLoopReturns TheReaper; EvMain None; EvMain None; EvLoopPassed TheScheduler; EvLoopReturns TheScheduler;
   EvMain None; EvMain None; EvMain None].
Definition demo_shutdown : list ServerMain.event :=
  (demo_closing ++ [EvConnReturned; EvJobEnds; EvMain None; EvMain None; EvMain None])%list.

Definition demo_proc (es : list ServerMain.event) : proc := default proc_init (proc_run (V := server_viper) "" es proc_init).

Lemma stores_outlive_users_witness :
  (lp_pc (p_sched (demo_proc demo_life)) = LPassing ∧ p_pool (demo_proc demo_life) = PoolOpen) ∧
  (p_pc (demo_proc (demo_life ++ demo_shutdown)%list) = PExit 0 ∧ p_pool (demo_proc (demo_life ++ demo_shutdown)%list) ≠ PoolOpen).
Proof.
  assert (∀ es, is_Some (proc_run (V := server_viper) "" es proc_init) → proc_reach (V := server_viper) "" (demo_proc es)) as Hreach.
  { intros es [p Hp]. exists es. unfold demo_proc. rewrite Hp. reflexivity. }
  split; (split; [vm_compute; reflexivity|]).
  - destruct (stores_outlive_users (V := server_viper) "" (demo_proc demo_life) (Hreach demo_life ltac:(vm_compute; eexists; reflexivity))) as (H & _).
    apply (H TheScheduler). vm_compute. reflexivity.
  - destruct (stores_outlive_users (V := server_viper) "" (demo_proc (demo_life ++ demo_shutdown)%list) (Hreach (demo_life ++ demo_shutdown)%list ltac:(vm_compute; eexists; reflexivity)))
      as (_ & _ & H & _). apply (H 0). vm_compute. reflexivity.
Defined.

Lemma server_stops_witness :
  let p := demo_proc (demo_life ++ demo_closing)%list in
  (∃ es p', Forall (λ e, own e = true) es ∧ proc_run (V := server_viper) "" es (demo_proc demo_life) = Some p' ∧
    (stopped p' = true ∨ close_waits p' = true)) ∧
  (close_waits p = true ∧ ∀ e p', proc_step (V := server_viper) "" e p = Some p' → e = EvConnReturned ∨ close_waits p' = true) ∧
  ∃ es p', Forall (λ e, helped e = true) es ∧ proc_run (V := server_viper) "" es p = Some p' ∧ stopped p' = true.
Proof.
  assert (proc_reach (V := server_viper) "" (demo_proc demo_life)) as H0 by (exists demo_life; vm_compute; reflexivity).
  assert (proc_reach (V := server_viper) "" (demo_proc (demo_life ++ demo_closing)%list)) as H1
    by (exists (demo_life ++ demo_closing)%list; vm_compute; reflexivity).
  destruct (server_stops (V := server_viper) "" (demo_proc demo_life) H0) as (_ & _ & (es & p' & Hes & _ & Hrun & Hend) & _).
  destruct (server_stops (V := server_viper) "" (demo_proc (demo_life ++ demo_closing)%list) H1)
    as (_ & _ & _ & Hstay & (es2 & p2 & Hes2 & _ & Hrun2 & Hend2)).
  assert (close_waits (demo_proc (demo_life ++ demo_closing)%list) = true) as Hcw by (vm_compute; reflexivity).
  split; [exists es, p'; split; [exact Hes|split; [exact Hrun|]]|split].
  - destruct Hend as [H|[[H _]|H]]; [left; exact H|vm_compute in H; discriminate H|right; exact H].
  - split; [exact Hcw|]. exact (proj1 (Hstay Hcw)).
  - exists es2, p2. split; [exact Hes2|]. split; [exact Hrun2|].
    destruct Hend2 as [H|[H _]]; [exact H|]. vm_compute in H. discriminate H.
Defined.

(** ** Commands *)

Lemma preflight_report_witness :
  main (run demo_machine [] (runPreflight "embedded" (Some (demo_wconfig "auto")) false)).1 =
    Some (aligned (preflight_header ++ map check_row (run demo_machine [] (RunAll "embedded" (demo_wconfig "auto"))).1.1), "", 0).
Proof.
  destruct (preflight_report "embedded" demo_machine [] (demo_wconfig "auto")) as [H _].
  - vm_compute. repeat constructor.
  - etransitivity; [exact H|]. vm_compute. reflexivity.
Defined.
